(* ===== verification/_CoqProject ===== *)
-Q . S2P
Prelude.v
RingBuf.v
Proto.v
Tty.v
Uart.v
DrvMain.v
Os.v
SslSelect.v
SimWorld.v
Vcom.v
Connect.v
Client.v
ClientProofs.v
SimLaws.v
ClientInv.v
MainLoop.v
MainProofs.v
System.v
Dialogue.v
Silence.v
Link.v
LiveWorld.v
LiveInv.v
LiveOps.v
LiveClient.v
LiveEvents.v
LiveRecv.v
LiveMain.v
Drain.v
AdvList.v
ConnList.v
Text.v
Jsmn.v
JsTree.v
JsmnProofs.v
JsonText.v
JsonParse.v
JsDump.v
TlsConfig.v
Monitor.v
MonitorAlt.v
StkMon.v
ProcTools.v
Starter.v
Spawn.v
Advps.v
ProcNet.v
Legacy.v
DrvModule.v
DrvFile.v
Startup.v
DaemonMain.v
Inotify.v
JsFree.v
