(* ===== verification/Prelude.v ===== *)
(** * Advantech VCOM: a verification development

    ** The program

    The repository makes the serial ports of a device server on the network
    available as local serial ports.

    - A kernel module ([src/driver/]) registers a serial port with the serial
      core and, for each port, a control file in [/proc].  The port has two
      ring buffers, each a page shared with user space by [mmap], and a third
      page with two slots for the line attributes.
    - A daemon per port ([src/daemon/]) opens the control file, connects to the
      device, speaks a request/reply protocol over TCP or TLS
      ([src/shared/ssl_select/]) and moves bytes between the rings and the
      network.  It is a state machine: a stack of states, each a table of
      operations, driven by a loop around [select].
    - Around them: a starter that reads a configuration and runs the daemons
      ([src/initd/]), a directory watcher ([src/inotify/]), a process lister
      ([src/advps/]), a JSON reader for the TLS configuration
      ([src/shared/json/]).

    The application writes: serial core fifo, [start_tx], ring [rx] (named
    from the daemon's side), packet [VCOM_CMD_WRITE], acknowledgement, head of
    the ring moved.  The device sends: packet [VCOM_CMD_DATAREADY], copy into
    the ring [tx], tail moved by ioctl, [recv_chars], line discipline.

    ** The files

    - [Prelude]: C integers, byte memory with faults, byte order, lists by
      [Z] lengths, the tactics and the hint databases.
    - [RingBuf]: [driver/advvcom.h], the two [ring_buf] structures behind one
      class [RingGeom], the inline functions, and the refinement of a bounded
      byte queue ([Fifo]).
    - [Proto]: [daemon/protocol/], every packing and checking function, on byte
      buffers of the caller's size; [frame] and [vc_msg] are the peer's view.
    - [Tty]: the class [TtyIf] of the calls the driver makes into the serial
      core, its laws [TtyLaws], and a concrete serial core.
    - [Uart]: [driver/adv_uart.c], the operations the serial core calls.
    - [DrvMain]: [driver/adv_main.c] and [driver/adv_mmap.c], the control file
      and the memory map; the specification [pipe_step], two byte pipes.
    - [DrvFile]: the table of the serial operations, the control files and the
      mappings of several ports.
    - [DrvModule]: loading and unloading the module, in terms of what it takes
      from the kernel and gives back.
    - [Legacy]: [driver/legacy/], the functions old kernels get instead.
    - [Os]: the class [Os] of every call the daemon makes out of the
      repository, the state [St] of the daemon ([vc_attr] and the static
      variables), the monad [Prog] and its rules [wp].
    - [SslSelect]: [shared/ssl_select/ssl_select.c], the non-blocking TLS
      operations and the loops that wait for them.
    - [SimWorld]: an implementation of [Os] with the driver of [DrvMain] behind
      the control file.  The theorems about data and packets are about it; the
      witnesses run in it.
    - [Vcom]: [daemon/vcom.h], the stack, sending, the access to the rings.
    - [Connect]: [vc_connect] and the accounting of descriptors.
    - [Client]: [daemon/state_mach/], every operation of the five states.
    - [ClientProofs], [ClientInv]: the invariant and that each operation keeps
      it, against the classes of laws [DrvLaws], [SockLaws], [SslProgress].
    - [SimLaws]: the laws hold in [sim_world].
    - [MainLoop], [MainProofs]: [daemon/vcom_client.c], receiving, [main].
    - [System]: the data path across daemon and driver.
    - [Dialogue]: the packets of the handshake and of the line settings.
    - [Silence]: the two clocks that end the connection to a silent peer.
    - [Link]: the specification of daemon and driver together, [link_step]: a
      stop-and-wait link between the application and the packets.  [LiveWorld]:
      [sim_world] with an application that acts before every call the daemon
      makes.  [LiveInv], [LiveOps], [LiveClient], [LiveEvents], [LiveRecv]: the
      invariant that ties the cached indices of the daemon to the rings, and that
      each operation keeps it and is a sequence of events of the link; [LiveMain]:
      whole runs of the loop.  [Drain]: [sim_world] with a device that acknowledges
      every write packet, and what the loop does with it round by round.
    - [Monitor]: [daemon/monitor/vcom_monitor_dbg.h], the mapped file with the
      state and the last messages.  [StkMon]: the operations on the stack with the
      monitor they update, and the texts they show.  [MonitorAlt]: the two other
      monitors and [vcom_debug.h].
    - [AdvList]: [shared/container/advlist.h] on a memory of nodes.  [ConnList]:
      [vc_connect] with its wait list as entries of that list in memory, allocated,
      linked, walked, unlinked and freed.
    - [Text]: C strings, what the programs use of [<string.h>] and [<stdio.h>].
    - [Jsmn], [JsTree]: [shared/json/], the tokenizer, the tree and its printer,
      the search in a tree, and [daemon/vcom_load_sslcfg.h]; [JsmnProofs],
      [JsonText], [JsonParse], [TlsConfig] hold their theorems; [JsDump] prints
      trees and tokens for debugging, [JsFree] frees a tree on a heap.
    - [ProcTools]: [shared/proc_tools/proc_tools.c] and the starter
      [initd/advttyd.c] on a system of files and processes, the class [Host];
      [Starter] and [Spawn] hold their theorems, [Spawn] the laws [HostLaws] and a
      system with them.  [ProcNet]: the search of [/proc/net/tcp], with the
      conversions of [sscanf].  [Advps]: [advps/advps.c].
    - [Startup]: [startup] of [daemon/vcom_client.c] and the TLS context of
      [shared/ssl_select/ssl_select.c], with OpenSSL as the class [Openssl].
      [DaemonMain]: [main] of the daemon from the command line to the loop.
    - [Inotify]: [inotify/vcom_inotf.c].

    ** What the theorems show

    - Rings: any sequence of writes, head moves and clears is one of a bounded
      queue ([ring_refines_fifo]).
    - Driver: the port refines two byte pipes, nothing is lost, added or
      reordered ([port_refines_pipes], [port_streams_preserved]); poll tells
      the daemon what it needs and the sleeping daemon is woken, with one
      exception ([adv_proc_poll_mask], [tty_calls_wake_daemon],
      [unthrottle_wakes_only_with_data]); settings and lines are passed on
      ([termios_reaches_daemon], [attrptr_switches_buffer],
      [adv_uart_ms_lines]); the copy loops are exact and their bounds are
      enough.  On old kernels a port does the same ([legacy_port_equiv],
      [legacy_xmit_equiv]).  Unloading gives back what loading took, but for the
      uart structures ([load_unload]); failures while loading are not handled
      ([failed_registration]).  The ports do not disturb each other, whatever files
      and mappings are open ([ports_independent]).
    - Protocol: a packed request is read back ([vc_pack_roundtrip]); replies
      are accepted exactly when they should be.
    - Daemon: without TLS any number of rounds of the main loop returns, keeping
      the invariant ([main_loop_invariant], [operations_keep_invariant],
      [main_setup_invariant]), and from the command line on ([daemon_of_entry]);
      with TLS there is one fault, a use after free
      ([tls_step_use_after_free]).  [vc_connect] leaks no descriptor; with its
      wait list in memory it does the same, touches no freed entry and frees them
      all ([vc_connect_no_leak], [connect_list_refines]).  The connection to a peer
      that sends nothing is given up within a bounded number of rounds
      ([silent_peer_dropped]).
    - System: received payload reaches the application, sent payload is the
      front of its stream and leaves it when acknowledged, settings converge,
      the handshake is the expected one.  Over whole runs of the loop, with an
      application that writes and a driver that works between any two calls of the
      daemon (but for the two halves of storing bytes and of a clear), the two are a
      stop-and-wait link ([main_loop_refines_link]), so that no byte is lost,
      repeated or reordered as long as nothing is purged ([main_loop_streams]).  With
      a device that answers, what the application wrote is sent and acknowledged
      within two rounds for each byte ([stream_drained]).
    - Starter: whatever the configuration holds, what is read is well formed
      ([paser_config_type]), a written configuration is read back
      ([config_roundtrip]), the command line of a daemon is compared exactly
      ([oldcmd_cmp_exact]), and a run ends with the configured daemons and no
      others, so that a second run does nothing ([starter_settles]).  The daemon
      reads its command line as the entry it was made of
      ([startup_reads_starter]), and the lister shows it ([advps_lists]).  A port is
      found in the tables of the kernel ([search_port_finds]).
      Commands that do not fit are cut or overrun ([spawn_command_bounds]).
    - JSON: a printed tree is read back, by the printer or by the dump
      ([json_roundtrip], [dumptree_roundtrip]), the tokenizer is safe
      on any text ([jsmn_parse_safe]) and may be stopped and continued
      ([parse_growing_equiv]); [loadconfig] finds the settings
      ([loadconfig_reads]); a tree is freed ([freejstree_frees]).
    - Lists, monitor, watcher: the circular list refines a list
      ([advlist_refines], [for_each_safe_walks]); the monitor file shows the
      messages, newest first ([monitor_history]), or is overrun
      ([mon_update_overruns]), and along the operations on the stack it shows the
      state on top ([monitor_follows_stack]); every change is logged once ([watcher_logs]).

    ** Conventions, bounds and fuel

    A value of C is a [Z] with the wrap-around of its width written out where
    the source depends on it.  An access outside of a buffer, an unset stack
    slot, a null handler or a freed TLS session is a fault: [None] in the
    driver, [Fault] in the daemon; a theorem that a function returns excludes
    it.  Reading an uninitialised buffer gives what [uninit] says, any bytes.

    [xmit_loop] has one more than the bytes in the fifo as fuel, a round moves at
    least one; [wait_loop] has two more than the sockets that wait, each round
    closes one or ends; the walks and rounds of [ConnList] have one more than the
    nodes in memory; [ssl_simple_tv] has [ssl_work], which [SslProgress]
    says decreases; [dispatch] has [call_depth], eight, and no chain of calls
    is deeper than five.  The theorems show that none of them runs out.  The
    bounds three and fifteen of [recv_loop] and [ioctl_loop] are the source's.
    The loops of the tokenizer, [config_loop] and [get_opts_loop] have one more
    than the length of their text, [parse_growing] as many rounds as its capacity
    can double, [js2tree] the number of tokens, [parse_loop] the length of what was
    read, [_freewtree] three rounds per level of the tree.

    Spin locks are not modelled: each function of the driver is one step, as
    the locks make it for the rings and the attributes; wait queues are a flag
    "somebody waits" and a record of wake-ups.  [FD_SET] on the descriptor -1
    is undefined in C; the loop takes its effect on the set as an argument.

    [DrvLaws] asks of the world that a request reports indices inside the page.
    The driver does not check the lengths the daemon passes
    ([txtail_unchecked]); in [sim_world] a device that was driven out of range
    answers with errors.  [System] shows for the data path that the daemon,
    with up to date indices, only makes legal requests, and the invariant of
    [LiveInv] that its indices are up to date whenever it uses them.

    What the kernel, the shell, OpenSSL and the C library do is an argument or a
    class; the classes with laws ([TtyLaws], [DrvLaws], [SockLaws], [SslProgress],
    [HostLaws], [Malloc]) have an instance each.  [getopt], [sscanf] and [snprintf] are
    written out for the conversions that occur.

    ** Not modelled

    Texts on the terminal (usage, traces) and the debug log of the starter;
    [init_ssl_lib] and [destroy_ctx], which only call OpenSSL;
    [__set_sockaddr_port] and the C++ guards, which no program of the repository
    uses or which are not operations.  The monitor is an output of the operations
    on the stack ([StkMon]), any sequence of them; the runs of [Client] do not
    carry its file along. *)

From stdpp Require Export base numbers list.
From coqutil Require Export Byte Word.LittleEndianList.
From Stdlib Require Export ZArith Lia.

#[global] Open Scope Z_scope.

(** ** Machine integers

    The C code computes on [unsigned char], [unsigned short],
    [unsigned int] and [int].  A value is a [Z]; the wrap-around of each
    width is written out where the source relies on the width. *)

Declare Scope vcom_scope.
Delimit Scope vcom_scope with vcom.
#[global] Open Scope vcom_scope.

Definition u8 (x : Z) : Z := x mod 2 ^ 8.
Definition u16 (x : Z) : Z := x mod 2 ^ 16.
Definition u32 (x : Z) : Z := x mod 2 ^ 32.
Definition s32 (x : Z) : Z := (x + 2 ^ 31) mod 2 ^ 32 - 2 ^ 31.

(** C's truth value of an integer and of a bit mask test. *)
Definition truthy (x : Z) : bool := negb (x =? 0).
Notation "a '&?' b" := (truthy (Z.land a b))
  (at level 40, no associativity) : vcom_scope.

Lemma u16_small x : 0 <= x < 65536 -> u16 x = x.
Proof. intros. unfold u16. apply Z.mod_small. lia. Qed.

Lemma u32_small x : 0 <= x < 4294967296 -> u32 x = x.
Proof. intros. unfold u32. apply Z.mod_small. lia. Qed.

Lemma u32_range x : 0 <= u32 x < 4294967296.
Proof. apply Z.mod_pos_bound. lia. Qed.

Lemma s32_small x : - 2147483648 <= x < 2147483648 -> s32 x = x.
Proof.
  intros. unfold s32. rewrite Z.mod_small; [lia|].
  change (2 ^ 31) with 2147483648; change (2 ^ 32) with 4294967296; lia.
Qed.

(** C's [%] truncates towards zero; it is [mod] on non-negative operands. *)
Lemma rem_mod_nonneg a b : 0 <= a -> 0 < b -> Z.rem a b = a mod b.
Proof. intros. apply Z.rem_mod_nonneg; lia. Qed.

(** A value in [0, 2n) reduced modulo [n] loses at most one [n]: the shape
    of every index step of a ring buffer. *)
Lemma mod_once a n : 0 <= a < 2 * n -> a mod n = if a <? n then a else a - n.
Proof.
  intros Ha. destruct (Z.ltb_spec a n).
  - apply Z.mod_small; lia.
  - symmetry. apply Z.mod_unique with 1; lia.
Qed.

(** Testing a single-bit mask is testing the bit. *)
Lemma land_bit x k : 0 <= k -> x &? Z.shiftl 1 k = Z.testbit x k.
Proof.
  intros Hk. unfold truthy. rewrite Z.shiftl_1_l.
  destruct (Z.testbit x k) eqn:E.
  - apply negb_true_iff, Z.eqb_neq. intros H.
    apply (f_equal (fun z => Z.testbit z k)) in H.
    rewrite Z.land_spec, E, Z.pow2_bits_true, Z.bits_0 in H by done. done.
  - apply negb_false_iff, Z.eqb_eq. apply Z.bits_inj'. intros n Hn.
    rewrite Z.land_spec, Z.pow2_bits_eqb, Z.bits_0 by done.
    destruct (Z.eqb_spec k n) as [->|]; [by rewrite E|apply andb_false_r].
Qed.

Lemma lor_bit_self x k : 0 <= k -> Z.lor x (Z.shiftl 1 k) &? Z.shiftl 1 k = true.
Proof.
  intros Hk. rewrite land_bit by done. rewrite Z.lor_spec, Z.shiftl_1_l, Z.pow2_bits_true by done.
  apply orb_true_r.
Qed.

(** ** Proof automation *)

Create HintDb vcom.
Create Rewrite HintDb zlen.

(** Turn boolean tests of the code into propositions. *)
Ltac bool_simpl :=
  repeat match goal with
  | H : (_ && _)%bool = true |- _ => apply andb_true_iff in H; destruct H
  | H : (_ || _)%bool = false |- _ => apply orb_false_iff in H; destruct H
  | H : negb _ = true |- _ => apply negb_true_iff in H
  | H : negb _ = false |- _ => apply negb_false_iff in H
  | H : (_ =? _) = true |- _ => apply Z.eqb_eq in H
  | H : (_ =? _) = false |- _ => apply Z.eqb_neq in H
  | H : (_ <=? _) = true |- _ => apply Z.leb_le in H
  | H : (_ <=? _) = false |- _ => apply Z.leb_gt in H
  | H : (_ <? _) = true |- _ => apply Z.ltb_lt in H
  | H : (_ <? _) = false |- _ => apply Z.ltb_ge in H
  end.

(** Case on the innermost test of an [if] of the goal, keeping the equation. *)
Ltac case_if :=
  match goal with
  | |- context [if ?b then _ else _] =>
      lazymatch b with
      | context [if _ then _ else _] => fail
      | _ => let E := fresh "E" in destruct b eqn:E; bool_simpl
      end
  end.

(** The same for a test inside a hypothesis. *)
Tactic Notation "case_if" "in" hyp(H) :=
  match type of H with
  | context [if ?b then _ else _] =>
      lazymatch b with
      | context [if _ then _ else _] => fail
      | _ => let E := fresh "E" in destruct b eqn:E; bool_simpl
      end
  end.

(** ** Lists indexed by [Z] *)

Definition zlen {A} (l : list A) : Z := Z.of_nat (length l).

Definition ztake {A} (n : Z) (l : list A) : list A := take (Z.to_nat n) l.
Definition zdrop {A} (n : Z) (l : list A) : list A := drop (Z.to_nat n) l.

#[global] Arguments zlen : simpl never.
#[global] Arguments ztake : simpl never.
#[global] Arguments zdrop : simpl never.

Section zlists.
Context {A : Type}.
Implicit Types (l k : list A).

Lemma zlen_nonneg l : 0 <= zlen l.
Proof. unfold zlen. lia. Qed.

Lemma zlen_nil : zlen (@nil A) = 0.
Proof. done. Qed.

Lemma zlen_cons x l : zlen (x :: l) = 1 + zlen l.
Proof. unfold zlen. rewrite length_cons. lia. Qed.

Lemma zlen_app l k : zlen (l ++ k) = zlen l + zlen k.
Proof. unfold zlen. rewrite length_app. lia. Qed.

Lemma zlen_0_nil l : zlen l = 0 -> l = [].
Proof. destruct l; [done|]. rewrite zlen_cons. pose proof (zlen_nonneg l). lia. Qed.

Lemma zlen_ztake n l : 0 <= n <= zlen l -> zlen (ztake n l) = n.
Proof. unfold zlen, ztake. intros. rewrite length_take. lia. Qed.

Lemma zlen_ztake_le n l : 0 <= n -> zlen (ztake n l) <= n.
Proof. unfold zlen, ztake. intros. rewrite length_take. lia. Qed.

Lemma zlen_zdrop n l : 0 <= n <= zlen l -> zlen (zdrop n l) = zlen l - n.
Proof. unfold zlen, zdrop. intros. rewrite length_drop. lia. Qed.

Lemma zlen_zdrop_max n l : zlen (zdrop n l) = Z.max 0 (zlen l - Z.max 0 n).
Proof. unfold zlen, zdrop. rewrite length_drop. lia. Qed.

Lemma zlen_ztake_min n l : zlen (ztake n l) = Z.min (Z.max 0 n) (zlen l).
Proof. unfold zlen, ztake. rewrite length_take. lia. Qed.

Lemma ztake_zdrop n l : ztake n l ++ zdrop n l = l.
Proof. apply take_drop. Qed.

Lemma ztake_0 l : ztake 0 l = [].
Proof. done. Qed.

Lemma zdrop_0 l : zdrop 0 l = l.
Proof. done. Qed.

Lemma ztake_all n l : zlen l <= n -> ztake n l = l.
Proof. unfold zlen, ztake. intros. apply take_ge. lia. Qed.

Lemma zdrop_all n l : zlen l <= n -> zdrop n l = [].
Proof. unfold zlen, zdrop. intros. apply drop_ge. lia. Qed.

Lemma ztake_app_l n l k : n <= zlen l -> ztake n (l ++ k) = ztake n l.
Proof. unfold zlen, ztake. intros. apply take_app_le. lia. Qed.

Lemma ztake_app_r n l k :
  zlen l <= n -> ztake n (l ++ k) = l ++ ztake (n - zlen l) k.
Proof.
  unfold zlen, ztake. intros. rewrite take_app_ge by lia.
  f_equal. f_equal. lia.
Qed.

Lemma zdrop_app_l n l k : n <= zlen l -> zdrop n (l ++ k) = zdrop n l ++ k.
Proof. unfold zlen, zdrop. intros. apply drop_app_le. lia. Qed.

Lemma zdrop_app_r n l k :
  zlen l <= n -> zdrop n (l ++ k) = zdrop (n - zlen l) k.
Proof. unfold zlen, zdrop. intros. rewrite drop_app_ge by lia. f_equal. lia. Qed.

Lemma ztake_ztake n m l : 0 <= n <= m -> ztake n (ztake m l) = ztake n l.
Proof. unfold ztake. intros. rewrite take_take. f_equal. lia. Qed.

Lemma ztake_zlen_ztake n l : ztake (zlen (ztake n l)) l = ztake n l.
Proof.
  rewrite zlen_ztake_min. unfold ztake, zlen.
  destruct (le_lt_dec (Z.to_nat n) (length l)); [f_equal; lia|].
  rewrite !take_ge; [done|lia..].
Qed.

Lemma ztake_nonempty n l : 0 < n -> l <> [] -> ztake n l <> [].
Proof. unfold ztake. intros. destruct l, (Z.to_nat n) eqn:E; simpl; (lia || done). Qed.

Lemma zdrop_zdrop n m l : 0 <= n -> 0 <= m -> zdrop n (zdrop m l) = zdrop (m + n) l.
Proof. unfold zdrop. intros. rewrite drop_drop. f_equal. lia. Qed.

Lemma zdrop_ztake n m l :
  0 <= n <= m -> zdrop n (ztake m l) = ztake (m - n) (zdrop n l).
Proof.
  unfold zdrop, ztake. intros. rewrite skipn_firstn_comm. f_equal. lia.
Qed.

Lemma ztake_split n m l :
  0 <= n <= m -> ztake m l = ztake n l ++ ztake (m - n) (zdrop n l).
Proof.
  intros. rewrite <- (ztake_zdrop n (ztake m l)) at 1.
  rewrite ztake_ztake, zdrop_ztake by lia. done.
Qed.

Lemma zdrop_split n m l :
  0 <= n <= m -> m <= zlen l -> zdrop n l = ztake (m - n) (zdrop n l) ++ zdrop m l.
Proof.
  intros. rewrite <- (ztake_zdrop (m - n) (zdrop n l)) at 1.
  rewrite zdrop_zdrop by lia. do 2 f_equal. lia.
Qed.
End zlists.

#[global] Hint Rewrite @zlen_nil @zlen_cons @zlen_app @zlen_zdrop_max @zlen_ztake_min : zlen.

(** ** Byte memory

    A buffer of the C program is a [list byte]; an access outside of it is
    a fault, [None]. *)

Definition load (off n : Z) (m : list byte) : option (list byte) :=
  if (0 <=? off) && (0 <=? n) && (off + n <=? zlen m)
  then Some (ztake n (zdrop off m)) else None.

Definition store (off : Z) (bs m : list byte) : option (list byte) :=
  if (0 <=? off) && (off + zlen bs <=? zlen m)
  then Some (ztake off m ++ bs ++ zdrop (off + zlen bs) m) else None.

#[global] Arguments load : simpl never.
#[global] Arguments store : simpl never.

Section memory.
Implicit Types (m bs : list byte).

Lemma load_Some off n m :
  0 <= off -> 0 <= n -> off + n <= zlen m ->
  load off n m = Some (ztake n (zdrop off m)).
Proof. intros. unfold load. repeat case_if; try done; lia. Qed.

Lemma load_zlen off n m bs : load off n m = Some bs -> zlen bs = n.
Proof.
  unfold load. case_if; [|done]. intros [= <-].
  apply zlen_ztake. rewrite zlen_zdrop; lia.
Qed.

Lemma store_Some off bs m :
  0 <= off -> off + zlen bs <= zlen m ->
  store off bs m = Some (ztake off m ++ bs ++ zdrop (off + zlen bs) m).
Proof. intros. unfold store. repeat case_if; try done; lia. Qed.

Lemma store_inv off bs m m' :
  store off bs m = Some m' ->
  0 <= off /\ off + zlen bs <= zlen m /\
  m' = ztake off m ++ bs ++ zdrop (off + zlen bs) m.
Proof. unfold store. case_if; [|done]. intros [= <-]. done. Qed.

Lemma store_zlen off bs m m' : store off bs m = Some m' -> zlen m' = zlen m.
Proof.
  intros (? & ? & ->)%store_inv. pose proof (zlen_nonneg bs).
  rewrite !zlen_app, zlen_ztake, zlen_zdrop by lia. lia.
Qed.

Lemma load_store_eq off bs m m' :
  store off bs m = Some m' -> load off (zlen bs) m' = Some bs.
Proof.
  intros Hs. pose proof (store_zlen _ _ _ _ Hs) as Hl.
  apply store_inv in Hs as (? & ? & ->). pose proof (zlen_nonneg bs).
  rewrite load_Some by lia. f_equal.
  rewrite zdrop_app_r by (rewrite zlen_ztake; lia).
  rewrite zlen_ztake, Z.sub_diag, zdrop_0 by lia.
  rewrite ztake_app_l, ztake_all by lia. done.
Qed.

(** Bytes outside of the stored range keep their value. *)
Lemma ztake_store off bs m m' n :
  store off bs m = Some m' -> n <= off -> ztake n m' = ztake n m.
Proof.
  intros (? & ? & ->)%store_inv Hn.
  rewrite ztake_app_l by (rewrite zlen_ztake; pose proof (zlen_nonneg bs); lia).
  destruct (Z.le_gt_cases 0 n).
  - apply ztake_ztake; lia.
  - unfold ztake. replace (Z.to_nat n) with 0%nat by lia. done.
Qed.

Lemma zdrop_store off bs m m' n :
  store off bs m = Some m' -> off + zlen bs <= n -> zdrop n m' = zdrop n m.
Proof.
  intros (? & ? & ->)%store_inv Hn. pose proof (zlen_nonneg bs).
  rewrite zdrop_app_r by (rewrite zlen_ztake; lia).
  rewrite zlen_ztake by lia. rewrite zdrop_app_r by lia.
  rewrite zdrop_zdrop by lia. f_equal. lia.
Qed.

Lemma load_store_before off bs m m' o n :
  store off bs m = Some m' -> o + n <= off -> load o n m' = load o n m.
Proof.
  intros Hs Ho. unfold load. rewrite (store_zlen _ _ _ _ Hs).
  case_if; [|done]. f_equal.
  replace n with ((o + n) - o) by lia.
  rewrite <- !zdrop_ztake by lia. by rewrite (ztake_store _ _ _ _ _ Hs).
Qed.

Lemma load_join off n k m a b :
  load off n m = Some a -> load (off + n) k m = Some b -> load off (n + k) m = Some (a ++ b).
Proof.
  unfold load. case_if; [|done]. intros [= <-]. case_if; [|done]. intros [= <-].
  rewrite !(proj2 (andb_true_iff _ _)) by (rewrite ?andb_true_iff, ?Z.leb_le; lia).
  rewrite (ztake_split n (n + k)), zdrop_zdrop by lia. do 3 f_equal. lia.
Qed.

(** Two pieces stored one behind the other. *)
Lemma load_store_two off a b m m1 m2 :
  store off a m = Some m1 -> store (off + zlen a) b m1 = Some m2 ->
  load off (zlen a + zlen b) m2 = Some (a ++ b).
Proof.
  intros H1 H2. apply load_join; [|by eapply load_store_eq].
  rewrite (load_store_before _ _ _ _ _ _ H2) by lia. by eapply load_store_eq.
Qed.

(** A part of what was loaded. *)
Lemma load_split off n m p k :
  load off n m = Some p -> 0 <= k <= n ->
  load off k m = Some (ztake k p) /\ load (off + k) (n - k) m = Some (zdrop k p).
Proof.
  unfold load. case_if; [|done]. intros [= <-] Hk.
  rewrite !(proj2 (andb_true_iff _ _)) by (rewrite ?andb_true_iff, ?Z.leb_le; lia).
  rewrite ztake_ztake, zdrop_ztake, zdrop_zdrop by lia. done.
Qed.

Lemma load_store_after off bs m m' o n :
  store off bs m = Some m' -> off + zlen bs <= o -> load o n m' = load o n m.
Proof.
  intros Hs Ho. unfold load. rewrite (store_zlen _ _ _ _ Hs).
  case_if; [|done]. by rewrite (zdrop_store _ _ _ _ _ Hs).
Qed.
End memory.

(** ** Byte order

    [htonl]/[htons] followed by a store of the field gives the big-endian
    bytes of the value on every host; [htole32] the little-endian ones. *)

Definition be (n : nat) (x : Z) : list byte := rev (le_split n x).
Definition le (n : nat) (x : Z) : list byte := le_split n x.
Definition be_val (bs : list byte) : Z := le_combine (rev bs).
Definition le_val (bs : list byte) : Z := le_combine bs.

#[global] Arguments be : simpl never.
#[global] Arguments le : simpl never.
#[global] Arguments be_val : simpl never.
#[global] Arguments le_val : simpl never.

Abbreviation be32 := (be 4).
Abbreviation be16 := (be 2).
Abbreviation le32 := (le 4).

Lemma zlen_be n x : zlen (be n x) = Z.of_nat n.
Proof. unfold be, zlen. by rewrite length_rev, length_le_split. Qed.

Lemma zlen_le n x : zlen (le n x) = Z.of_nat n.
Proof. unfold le, zlen. by rewrite length_le_split. Qed.

Lemma be_val_be n x : be_val (be n x) = x mod 2 ^ (Z.of_nat n * 8).
Proof. unfold be_val, be. by rewrite rev_involutive, le_combine_split. Qed.

Lemma le_val_le n x : le_val (le n x) = x mod 2 ^ (Z.of_nat n * 8).
Proof. unfold le_val, le. by rewrite le_combine_split. Qed.

Lemma be_val_be32 x : be_val (be32 x) = u32 x.
Proof. apply be_val_be. Qed.

Lemma be_val_be16 x : be_val (be16 x) = u16 x.
Proof. apply be_val_be. Qed.

Lemma le_val_le32 x : le_val (le32 x) = u32 x.
Proof. apply le_val_le. Qed.

Lemma be_val_nonneg bs : 0 <= be_val bs.
Proof. unfold be_val. pose proof (le_combine_bound (rev bs)). lia. Qed.

Lemma be_be_val n bs : length bs = n -> be n (be_val bs) = bs.
Proof.
  intros <-. unfold be, be_val. rewrite <- (length_rev bs).
  rewrite split_le_combine. apply rev_involutive.
Qed.

Lemma be_val_range bs : 0 <= be_val bs < 2 ^ (8 * zlen bs).
Proof.
  unfold be_val, zlen. rewrite <- (length_rev bs). apply le_combine_bound.
Qed.

Lemma le_val_range bs : 0 <= le_val bs < 2 ^ (8 * zlen bs).
Proof. apply le_combine_bound. Qed.

(** Two encodings agree exactly when the values agree at that width: the
    comparison [field != htonl(x)] of the source is one of values. *)
Lemma be_inj n x y : be n x = be n y <-> x mod 2 ^ (Z.of_nat n * 8) = y mod 2 ^ (Z.of_nat n * 8).
Proof.
  split; intros H.
  - rewrite <- !be_val_be. by rewrite H.
  - unfold be. rewrite (le_split_mod x), (le_split_mod y). by rewrite H.
Qed.

Lemma be32_u32 x : be32 (u32 x) = be32 x.
Proof. apply be_inj. apply Z.mod_mod. lia. Qed.

Lemma be16_u16 x : be16 (u16 x) = be16 x.
Proof. apply be_inj. apply Z.mod_mod. lia. Qed.

#[global] Hint Rewrite @zlen_be @zlen_le : zlen.

(** Arithmetic on lengths of concatenations, prefixes and suffixes. *)
Ltac zlen_lia :=
  autorewrite with zlen in *; lia.

#[export] Instance byte_eq_dec : EqDecision byte := Byte.byte_eq_dec.
#[export] Instance byte_inhabited : Inhabited byte := populate Byte.x00.
