(* ===== verification/RingBuf.v ===== *)
(** * Ring buffers

    The ring buffers of [driver/advvcom.h], shared between the kernel driver
    and the daemon through the memory map.  The header declares two
    structures, one for the kernel ([K.ring_buf], with the page that holds
    the bytes) and one for user space ([U.ring_buf], a cached copy of the
    indices), and one set of inline functions that compile against either:
    the class [RingGeom] plays the role of that double declaration.

    [K.contents] is the queue of bytes a ring holds.  The theorems of this
    file show that the index arithmetic implements a bounded first-in
    first-out queue of capacity [size - 1] (module [Fifo]). *)

From S2P Require Import Prelude.

Definition ADV_RING_BUF_ENABLED : Z := 1.
Definition ADV_RING_BUF_CLEAN : Z := 2.

(** ** Two declarations of [struct ring_buf] *)

Module U.
Record ring_buf := mk {
  head : Z;
  tail : Z;
  begin : Z;
  size : Z;
  (** offset of [mbase] from the start of the memory map *)
  mbase : Z;
}.
End U.

Module K.
Record ring_buf := mk {
  head : Z;
  tail : Z;
  begin : Z;
  size : Z;
  status : Z;
  data : list byte;
}.

Definition set_head (h : Z) (b : ring_buf) : ring_buf :=
  mk h (tail b) (begin b) (size b) (status b) (data b).
Definition set_tail (t : Z) (b : ring_buf) : ring_buf :=
  mk (head b) t (begin b) (size b) (status b) (data b).
Definition set_status (s : Z) (b : ring_buf) : ring_buf :=
  mk (head b) (tail b) (begin b) (size b) s (data b).
Definition set_data (d : list byte) (b : ring_buf) : ring_buf :=
  mk (head b) (tail b) (begin b) (size b) (status b) d.
End K.

Class RingGeom (A : Type) := {
  rb_head : A -> Z;
  rb_tail : A -> Z;
  rb_size : A -> Z;
}.

#[export] Instance ring_geom_kernel : RingGeom K.ring_buf :=
  {| rb_head := K.head; rb_tail := K.tail; rb_size := K.size |}.
#[export] Instance ring_geom_user : RingGeom U.ring_buf :=
  {| rb_head := U.head; rb_tail := U.tail; rb_size := U.size |}.

(** ** The inline functions *)

Section inline.
Context {A : Type} `{RingGeom A}.
Implicit Types buf : A.

Definition is_rb_empty buf : bool := rb_tail buf =? rb_head buf.

Definition get_rb_length buf : Z :=
  if rb_head buf <=? rb_tail buf
  then rb_tail buf - rb_head buf
  else rb_size buf - rb_head buf + rb_tail buf.

Definition get_rb_llength buf : Z :=
  let a := rb_size buf - rb_head buf in
  let b := get_rb_length buf in
  if a <? b then a else b.

Definition get_rb_room buf : Z := rb_size buf - get_rb_length buf - 1.

Definition get_rb_lroom buf : Z :=
  let a := rb_size buf - rb_tail buf in
  let b := get_rb_room buf in
  if a <? b then a else b.

Definition get_rb_tail buf : Z := rb_tail buf.

Definition get_rb_head buf : Z := rb_head buf.

(** The indices are in range.  The bound on [size] keeps every sum of two
    indices inside a C [int]. *)
Definition geom_ok buf : Prop :=
  0 < rb_size buf < 2 ^ 30 /\
  0 <= rb_head buf < rb_size buf /\ 0 <= rb_tail buf < rb_size buf.
End inline.

Definition move_rb_head (buf : K.ring_buf) (length : Z) : K.ring_buf :=
  if K.status buf &? ADV_RING_BUF_CLEAN then
    let buf := K.set_status (Z.land (K.status buf) (Z.lnot ADV_RING_BUF_CLEAN)) buf in
    K.set_head (K.tail buf) buf
  else
    let buf := K.set_head (s32 (K.head buf + length)) buf in
    K.set_head (Z.rem (K.head buf) (K.size buf)) buf.

Definition move_rb_tail (buf : K.ring_buf) (length : Z) : K.ring_buf :=
  let buf := K.set_tail (s32 (K.tail buf + length)) buf in
  K.set_tail (Z.rem (K.tail buf) (K.size buf)) buf.

(** ** Geometry *)

Ltac ring_unfold :=
  unfold geom_ok, is_rb_empty, get_rb_llength, get_rb_lroom, get_rb_room,
    get_rb_length, get_rb_tail, get_rb_head in *.

Section geometry.
Context {A : Type} `{RingGeom A}.
Implicit Types buf : A.

Lemma rb_length_range buf :
  geom_ok buf -> 0 <= get_rb_length buf < rb_size buf.
Proof. ring_unfold. case_if; lia. Qed.

Lemma rb_llength_range buf :
  geom_ok buf ->
  0 <= get_rb_llength buf <= get_rb_length buf /\
  rb_head buf + get_rb_llength buf <= rb_size buf.
Proof. ring_unfold. cbv zeta. repeat case_if; lia. Qed.

Lemma rb_room_range buf :
  geom_ok buf -> 0 <= get_rb_room buf < rb_size buf.
Proof. ring_unfold. case_if; lia. Qed.

Lemma rb_lroom_range buf :
  geom_ok buf ->
  0 <= get_rb_lroom buf <= get_rb_room buf /\
  rb_tail buf + get_rb_lroom buf <= rb_size buf.
Proof. ring_unfold. cbv zeta. repeat case_if; lia. Qed.

Lemma rb_empty_length buf :
  geom_ok buf -> is_rb_empty buf = true <-> get_rb_length buf = 0.
Proof. ring_unfold. intros. rewrite Z.eqb_eq. case_if; lia. Qed.

(** The linear part is empty only when the whole is: what stops the copy
    loops that work piece by piece from spinning. *)
Lemma rb_lroom_zero buf :
  geom_ok buf -> get_rb_lroom buf = 0 <-> get_rb_room buf = 0.
Proof. ring_unfold. intros. cbv zeta. repeat case_if; lia. Qed.

Lemma rb_llength_zero buf :
  geom_ok buf -> get_rb_llength buf = 0 <-> get_rb_length buf = 0.
Proof. ring_unfold. intros. cbv zeta. repeat case_if; lia. Qed.

(** The tail is the head advanced by the length. *)
Lemma rb_tail_head buf :
  geom_ok buf -> rb_tail buf = (rb_head buf + get_rb_length buf) mod rb_size buf.
Proof.
  intros Hg. rewrite mod_once by (pose proof (rb_length_range _ Hg); ring_unfold; lia).
  ring_unfold. repeat case_if; lia.
Qed.
End geometry.

(** ** Reading a circular page *)

Definition ring_read (m : list byte) (h n : Z) : list byte :=
  ztake n (zdrop h (m ++ m)).

Section ring_read.
Implicit Types m : list byte.

Lemma ring_read_lin m h n :
  0 <= h -> 0 <= n -> h + n <= zlen m -> ring_read m h n = ztake n (zdrop h m).
Proof.
  intros. unfold ring_read. rewrite zdrop_app_l by lia.
  apply ztake_app_l. rewrite zlen_zdrop; lia.
Qed.

Lemma ring_read_wrap m h n :
  0 <= h <= zlen m -> zlen m <= h + n -> n <= zlen m ->
  ring_read m h n = zdrop h m ++ ztake (h + n - zlen m) m.
Proof.
  intros. unfold ring_read. rewrite zdrop_app_l by lia.
  rewrite ztake_app_r by (rewrite zlen_zdrop; lia).
  f_equal. f_equal. rewrite zlen_zdrop; lia.
Qed.

Lemma zlen_ring_read m h n :
  0 <= h <= zlen m -> 0 <= n <= zlen m -> zlen (ring_read m h n) = n.
Proof.
  intros. unfold ring_read. apply zlen_ztake.
  rewrite zlen_zdrop; rewrite zlen_app; lia.
Qed.

Lemma ring_read_app m h n k :
  0 <= h < zlen m -> 0 <= n -> 0 <= k -> n + k <= zlen m ->
  ring_read m h (n + k) = ring_read m h n ++ ring_read m ((h + n) mod zlen m) k.
Proof.
  intros. unfold ring_read at 1 2. rewrite (ztake_split n) by lia. f_equal.
  replace (n + k - n) with k by lia. rewrite zdrop_zdrop by lia.
  rewrite mod_once by lia. unfold ring_read. case_if; [done|].
  rewrite !(zdrop_app_r (h + n)) by lia.
  rewrite zdrop_app_l by lia.
  rewrite ztake_app_l; [done|]. rewrite zlen_zdrop; lia.
Qed.

Lemma ring_read_drop m h n k :
  0 <= h < zlen m -> 0 <= k <= n -> n <= zlen m ->
  zdrop k (ring_read m h n) = ring_read m ((h + k) mod zlen m) (n - k).
Proof.
  intros. replace n with (k + (n - k)) at 1 by lia.
  rewrite ring_read_app by lia.
  rewrite zdrop_app_r by (rewrite zlen_ring_read; lia).
  rewrite zlen_ring_read by lia. rewrite Z.sub_diag. apply zdrop_0.
Qed.

Lemma ring_read_take m h n k :
  0 <= h < zlen m -> 0 <= k <= n -> n <= zlen m ->
  ztake k (ring_read m h n) = ring_read m h k.
Proof. intros. unfold ring_read. apply ztake_ztake. lia. Qed.

(** A linear store at the end of the occupied part leaves that part as it
    was and is read back right behind it. *)
Lemma ring_read_store_old m m' h n bs :
  0 <= h < zlen m -> 0 <= n -> n + zlen bs <= zlen m -> n < zlen m ->
  store ((h + n) mod zlen m) bs m = Some m' ->
  ring_read m' h n = ring_read m h n.
Proof.
  intros ?? Hn ? Hs. pose proof (store_zlen _ _ _ _ Hs) as Hl.
  pose proof (zlen_nonneg bs).
  rewrite mod_once in Hs by lia. case_if in Hs.
  - rewrite !ring_read_lin by lia.
    replace n with ((h + n) - h) by lia. rewrite <- !zdrop_ztake by lia.
    f_equal. eapply ztake_store; [exact Hs|]. lia.
  - rewrite !ring_read_wrap by lia. rewrite Hl.
    pose proof (store_inv _ _ _ _ Hs) as (? & ? & _).
    rewrite (zdrop_store _ _ _ _ _ Hs) by lia.
    rewrite (ztake_store _ _ _ _ _ Hs) by lia. done.
Qed.

Lemma ring_read_store_new m m' t bs :
  0 <= t < zlen m -> t + zlen bs <= zlen m ->
  store t bs m = Some m' -> ring_read m' t (zlen bs) = bs.
Proof.
  intros ?? Hs. pose proof (store_zlen _ _ _ _ Hs) as Hl.
  pose proof (zlen_nonneg bs). rewrite ring_read_lin by lia.
  pose proof (load_store_eq _ _ _ _ Hs) as Hld.
  rewrite load_Some in Hld by lia. congruence.
Qed.
End ring_read.

(** ** The abstract queue *)

Module Fifo.
(** A bounded byte queue: oldest byte first. *)
Definition t := list byte.
Definition enq (q : t) (bs : list byte) : t := q ++ bs.
Definition deq (q : t) (n : Z) : t := zdrop n q.
Definition peek (q : t) (n : Z) : list byte := ztake n q.
Definition clear (q : t) : t := [].
End Fifo.

(** ** Kernel rings refine the bounded queue *)

Definition contents (b : K.ring_buf) : Fifo.t :=
  ring_read (K.data b) (K.head b) (get_rb_length b).

(** The representation invariant of a kernel ring. *)
Definition ring_ok (b : K.ring_buf) : Prop :=
  geom_ok b /\ zlen (K.data b) = K.size b.

(** Put bytes in front of the tail without moving it: the two [memcpy] calls
    of the producers, the first one up to the end of the page. *)
Definition put_piece (b : K.ring_buf) (bs : list byte) : option K.ring_buf :=
  m ← store (K.tail b) bs (K.data b); Some (K.set_data m b).

Lemma ring_ok_geom b : ring_ok b -> geom_ok b.
Proof. by intros []. Qed.
#[export] Hint Resolve ring_ok_geom : vcom.

Lemma contents_length b : ring_ok b -> zlen (contents b) = get_rb_length b.
Proof.
  intros [Hg Hl]. pose proof (rb_length_range _ Hg). destruct Hg as (? & ? & ?).
  simpl in *. apply zlen_ring_read; lia.
Qed.

Lemma contents_empty b : ring_ok b -> is_rb_empty b = true <-> contents b = [].
Proof.
  intros Hb. rewrite rb_empty_length by auto with vcom.
  rewrite <- contents_length by done. split; [apply zlen_0_nil|by intros ->].
Qed.

Lemma contents_capacity b : ring_ok b -> zlen (contents b) + get_rb_room b = K.size b - 1.
Proof. intros Hb. rewrite contents_length by done. unfold get_rb_room. simpl. lia. Qed.

(** The first linear piece and the rest of the queue. *)
Lemma contents_first_piece b n :
  ring_ok b -> 0 <= n <= get_rb_llength b ->
  load (K.head b) n (K.data b) = Some (Fifo.peek (contents b) n).
Proof.
  intros Hb Hn. destruct (rb_llength_range b) as [Hl Hh]; [auto with vcom|].
  destruct Hb as [Hg Hs]. pose proof (rb_length_range _ Hg).
  destruct Hg as (? & ? & ?). simpl in *.
  rewrite load_Some by lia. unfold Fifo.peek, contents.
  rewrite ring_read_take by lia. by rewrite ring_read_lin by lia.
Qed.

Lemma contents_second_piece b n :
  ring_ok b -> get_rb_llength b <= n <= get_rb_length b ->
  get_rb_llength b <> get_rb_length b ->
  load 0 (n - get_rb_llength b) (K.data b) =
    Some (zdrop (get_rb_llength b) (Fifo.peek (contents b) n)).
Proof.
  intros Hb Hn Hne. destruct (rb_llength_range b) as [Hl Hh]; [auto with vcom|].
  assert (Hend : get_rb_llength b = K.size b - K.head b).
  { revert Hne. unfold get_rb_llength. simpl. case_if; [done|congruence]. }
  destruct Hb as [Hg Hs]. pose proof (rb_length_range _ Hg).
  destruct Hg as (? & ? & ?). simpl in *.
  unfold Fifo.peek, contents. rewrite ring_read_take by lia.
  rewrite ring_read_drop by lia.
  replace (K.head b + get_rb_llength b) with (1 * zlen (K.data b)) by lia.
  rewrite Z.mod_mul by lia.
  rewrite load_Some by lia. by rewrite ring_read_lin by lia.
Qed.

(** *** Dequeue *)

Lemma move_rb_head_ok b n :
  ring_ok b -> 0 <= n <= get_rb_length b -> ring_ok (move_rb_head b n).
Proof.
  intros [Hg Hl] Hn. pose proof (rb_length_range _ Hg).
  unfold move_rb_head, ring_ok, geom_ok in *. simpl in *.
  case_if; simpl; [lia|]. rewrite s32_small by lia.
  rewrite rem_mod_nonneg by lia.
  pose proof (Z.mod_pos_bound (K.head b + n) (K.size b)). lia.
Qed.

(** With the [CLEAN] mark clear, moving the head by [n] removes the [n]
    oldest bytes. *)
Lemma move_rb_head_contents b n :
  ring_ok b -> 0 <= n <= get_rb_length b ->
  K.status b &? ADV_RING_BUF_CLEAN = false ->
  contents (move_rb_head b n) = Fifo.deq (contents b) n.
Proof.
  intros [Hg Hl] Hn Hst. pose proof (rb_length_range _ Hg) as Hr.
  pose proof Hg as (? & ? & ?). simpl in *.
  unfold move_rb_head. rewrite Hst. unfold contents, Fifo.deq. simpl.
  rewrite s32_small, rem_mod_nonneg by lia.
  rewrite ring_read_drop by lia. rewrite Hl. f_equal.
  rewrite mod_once by lia.
  unfold get_rb_length in *. simpl in *. repeat case_if; repeat case_if in Hn; lia.
Qed.

(** With the mark set, whatever the length, the ring is emptied and the mark
    is cleared. *)
Lemma move_rb_head_clean b n :
  ring_ok b -> K.status b &? ADV_RING_BUF_CLEAN = true ->
  contents (move_rb_head b n) = Fifo.clear (contents b) /\
  ring_ok (move_rb_head b n) /\
  K.status (move_rb_head b n) &? ADV_RING_BUF_CLEAN = false /\
  K.status (move_rb_head b n) &? ADV_RING_BUF_ENABLED =
    K.status b &? ADV_RING_BUF_ENABLED.
Proof.
  intros [Hg Hl] Hst. unfold move_rb_head. rewrite Hst.
  split_and!.
  - unfold contents, get_rb_length. simpl. rewrite Z.leb_refl, Z.sub_diag. done.
  - unfold ring_ok, geom_ok in *. simpl in *. lia.
  - simpl. unfold truthy. rewrite <- Z.land_assoc. simpl. by rewrite Z.land_0_r.
  - simpl. by rewrite <- Z.land_assoc.
Qed.

(** *** Enqueue *)

Lemma put_piece_inv b bs b' :
  put_piece b bs = Some b' ->
  exists m, store (K.tail b) bs (K.data b) = Some m /\ b' = K.set_data m b.
Proof.
  unfold put_piece. destruct (store _ _ _) as [m|]; simpl; [|done].
  intros [= <-]. eauto.
Qed.

Lemma put_piece_safe b bs :
  ring_ok b -> zlen bs <= get_rb_lroom b -> exists b', put_piece b bs = Some b'.
Proof.
  intros Hb Hbs. destruct (rb_lroom_range b) as [_ Ht]; [auto with vcom|].
  destruct Hb as [(? & ? & ?) Hl]. simpl in *.
  unfold put_piece. rewrite store_Some by lia. simpl. eauto.
Qed.

(** Writing a piece that fits the linear room and moving the tail behind it
    appends the piece to the queue. *)
Lemma put_piece_contents b bs b' :
  ring_ok b -> zlen bs <= get_rb_lroom b -> put_piece b bs = Some b' ->
  ring_ok (move_rb_tail b' (zlen bs)) /\
  contents (move_rb_tail b' (zlen bs)) = Fifo.enq (contents b) bs /\
  get_rb_room (move_rb_tail b' (zlen bs)) = get_rb_room b - zlen bs.
Proof.
  intros Hb Hbs (m & Hs & ->)%put_piece_inv.
  pose proof (ring_ok_geom _ Hb) as Hg.
  destruct (rb_lroom_range b Hg) as [Hlr Ht].
  pose proof (rb_length_range b Hg) as Hr.
  pose proof (rb_tail_head b Hg) as Hth.
  pose proof (zlen_nonneg bs). pose proof (store_zlen _ _ _ _ Hs) as Hlm.
  destruct Hb as [_ Hl]. pose proof Hg as (? & ? & ?).
  assert (Hroom : get_rb_length b + zlen bs < K.size b).
  { unfold get_rb_room in Hlr. simpl in *. lia. }
  assert (Hlen : get_rb_length (move_rb_tail (K.set_data m b) (zlen bs))
                 = get_rb_length b + zlen bs).
  { unfold move_rb_tail. simpl in *.
    rewrite s32_small, rem_mod_nonneg, mod_once by lia.
    unfold get_rb_length in *. simpl in *. repeat case_if; repeat case_if in Hroom; lia. }
  split_and!.
  - unfold ring_ok, geom_ok, move_rb_tail. simpl in *.
    rewrite s32_small, rem_mod_nonneg by lia.
    pose proof (Z.mod_pos_bound (K.tail b + zlen bs) (K.size b)). lia.
  - unfold contents at 1. rewrite Hlen. simpl in *.
    rewrite ring_read_app by lia. rewrite Hlm, Hl, <- Hth.
    unfold Fifo.enq, contents. f_equal.
    + eapply ring_read_store_old with (bs := bs); try lia.
      rewrite Hl, <- Hth. done.
    + eapply ring_read_store_new; eauto; lia.
  - unfold get_rb_room. rewrite Hlen. simpl. lia.
Qed.

(** *** A write that wraps around the end of the page

    The producer with more bytes than the linear room copies up to the end of
    the page, then the rest from its start, and moves the tail once. *)

Definition ring_copy (b : K.ring_buf) (bs : list byte) : option K.ring_buf :=
  let lroom := get_rb_lroom b in
  m ← (if zlen bs <=? lroom then store (K.tail b) bs (K.data b)
       else m1 ← store (K.tail b) (ztake lroom bs) (K.data b);
            store 0 (zdrop lroom bs) m1);
  Some (K.set_data m b).

Definition ring_write (b : K.ring_buf) (bs : list byte) : option K.ring_buf :=
  b' ← ring_copy b bs; Some (move_rb_tail b' (zlen bs)).

Lemma lroom_lt_room (b : K.ring_buf) :
  geom_ok b -> get_rb_lroom b < get_rb_room b ->
  get_rb_lroom b = rb_size b - rb_tail b.
Proof. unfold get_rb_lroom. intros _. case_if; [done|lia]. Qed.

Lemma ring_write_wrap b bs :
  ring_ok b -> get_rb_lroom b < zlen bs <= get_rb_room b ->
  exists b1 b2,
    put_piece b (ztake (get_rb_lroom b) bs) = Some b1 /\
    put_piece (move_rb_tail b1 (get_rb_lroom b)) (zdrop (get_rb_lroom b) bs) = Some b2 /\
    ring_write b bs = Some (move_rb_tail b2 (zlen bs - get_rb_lroom b)).
Proof.
  intros Hb Hbs. pose proof (ring_ok_geom _ Hb) as Hg.
  destruct (rb_lroom_range b Hg) as [Hlr Ht].
  pose proof (rb_room_range b Hg).
  assert (Hlin : get_rb_lroom b = K.size b - K.tail b) by (apply lroom_lt_room; [done|lia]).
  set (p1 := ztake (get_rb_lroom b) bs). set (p2 := zdrop (get_rb_lroom b) bs).
  assert (Hp1 : zlen p1 = get_rb_lroom b) by (apply zlen_ztake; lia).
  assert (Hp2 : zlen p2 = zlen bs - get_rb_lroom b) by (apply zlen_zdrop; lia).
  destruct Hb as [_ Hl]. destruct Hg as (? & ? & ?). simpl in *.
  assert (Hs1 : exists m1, store (K.tail b) p1 (K.data b) = Some m1)
    by (rewrite store_Some by lia; eauto).
  destruct Hs1 as [m1 Hs1]. pose proof (store_zlen _ _ _ _ Hs1) as Hl1.
  assert (Hs2 : exists m2, store 0 p2 m1 = Some m2) by (rewrite store_Some by lia; eauto).
  destruct Hs2 as [m2 Hs2].
  assert (Hzero : Z.rem (s32 (K.tail b + get_rb_lroom b)) (K.size b) = 0).
  { rewrite Hlin, s32_small by lia. replace (K.tail b + (K.size b - K.tail b)) with (K.size b) by lia.
    apply Z.rem_same. lia. }
  exists (K.set_data m1 b). eexists. split_and!.
  - unfold put_piece. by rewrite Hs1.
  - unfold put_piece, move_rb_tail. simpl. rewrite Hzero, Hs2. done.
  - unfold ring_write, ring_copy. rewrite (proj2 (Z.leb_gt _ _)) by lia.
    fold p1 p2. rewrite Hs1. simpl. rewrite Hs2. simpl. f_equal.
    unfold move_rb_tail, K.set_tail, K.set_data. simpl. f_equal.
    rewrite !s32_small by lia.
    rewrite !rem_mod_nonneg by lia.
    rewrite <- (Z.mod_add (0 + (zlen bs - get_rb_lroom b)) 1) by lia.
    f_equal. lia.
Qed.

Lemma ring_write_contents b bs :
  ring_ok b -> zlen bs <= get_rb_room b ->
  exists b', ring_write b bs = Some b' /\ ring_ok b' /\
    contents b' = Fifo.enq (contents b) bs.
Proof.
  intros Hb Hbs. destruct (Z.le_gt_cases (zlen bs) (get_rb_lroom b)) as [Hle|Hgt].
  - destruct (put_piece_safe b bs Hb Hle) as [b1 Hp].
    pose proof (put_piece_contents b bs b1 Hb Hle Hp) as (? & ? & _).
    apply put_piece_inv in Hp as (m & Hs & ->).
    exists (move_rb_tail (K.set_data m b) (zlen bs)).
    unfold ring_write, ring_copy. rewrite (proj2 (Z.leb_le _ _)) by lia. rewrite Hs. done.
  - destruct (ring_write_wrap b bs Hb) as (b1 & b2 & Hp1 & Hp2 & ->); [lia|].
    pose proof (rb_lroom_range b (ring_ok_geom _ Hb)) as [? _].
    assert (Hl1 : zlen (ztake (get_rb_lroom b) bs) = get_rb_lroom b)
      by (apply zlen_ztake; lia).
    assert (Hl2 : zlen (zdrop (get_rb_lroom b) bs) = zlen bs - get_rb_lroom b)
      by (apply zlen_zdrop; lia).
    assert (Hfit1 : zlen (ztake (get_rb_lroom b) bs) <= get_rb_lroom b) by lia.
    pose proof (put_piece_contents _ _ _ Hb Hfit1 Hp1) as (Hb1 & Hc1 & Hr1).
    rewrite Hl1 in Hb1, Hc1, Hr1.
    assert (Hfit : zlen (zdrop (get_rb_lroom b) bs)
                   <= get_rb_lroom (move_rb_tail b1 (get_rb_lroom b))).
    { rewrite Hl2. apply put_piece_inv in Hp2 as (m & Hs & _).
      apply store_inv in Hs as (_ & Hs & _). rewrite Hl2 in Hs.
      destruct Hb1 as [_ Hd]. rewrite Hd in Hs.
      unfold get_rb_lroom at 2. rewrite Hr1. simpl in *. case_if; lia. }
    pose proof (put_piece_contents _ _ _ Hb1 Hfit Hp2) as (Hb2 & Hc2 & _).
    rewrite Hl2 in Hb2, Hc2. eexists. split; [done|]. split; [done|].
    rewrite Hc2, Hc1. unfold Fifo.enq. rewrite <- app_assoc. by rewrite ztake_zdrop.
Qed.

(** ** Sequences of ring operations *)

Inductive ring_op :=
  | RPut (bs : list byte)
  | RGet (n : Z)
  | RClear.

Definition ring_do (b : K.ring_buf) (o : ring_op) : option K.ring_buf :=
  match o with
  | RPut bs => ring_write b bs
  | RGet n => Some (move_rb_head b n)
  | RClear => Some (move_rb_head (K.set_status (Z.lor (K.status b) ADV_RING_BUF_CLEAN) b) 0)
  end.

(** The specification: a queue of capacity [cap] refuses what does not fit
    and what is not there. *)
Definition fifo_do (cap : Z) (q : Fifo.t) (o : ring_op) : option Fifo.t :=
  match o with
  | RPut bs => if zlen q + zlen bs <=? cap then Some (Fifo.enq q bs) else None
  | RGet n => if (0 <=? n) && (n <=? zlen q) then Some (Fifo.deq q n) else None
  | RClear => Some (Fifo.clear q)
  end.

Fixpoint ring_run (b : K.ring_buf) (os : list ring_op) : option K.ring_buf :=
  match os with
  | [] => Some b
  | o :: os => b' ← ring_do b o; ring_run b' os
  end.

Fixpoint fifo_run (cap : Z) (q : Fifo.t) (os : list ring_op) : option Fifo.t :=
  match os with
  | [] => Some q
  | o :: os => q' ← fifo_do cap q o; fifo_run cap q' os
  end.

Definition ring_idle (b : K.ring_buf) : Prop :=
  ring_ok b /\ K.status b &? ADV_RING_BUF_CLEAN = false.

Lemma truthy_lor_clean s : Z.lor s ADV_RING_BUF_CLEAN &? ADV_RING_BUF_CLEAN = true.
Proof. by apply (lor_bit_self s 1). Qed.

Lemma ring_write_keeps b bs b' :
  ring_write b bs = Some b' -> K.status b' = K.status b /\ K.size b' = K.size b.
Proof.
  unfold ring_write, ring_copy. intros H.
  destruct (if zlen bs <=? _ then _ else _); simpl in H; [|done].
  injection H as <-. done.
Qed.

Lemma move_rb_head_size b n : K.size (move_rb_head b n) = K.size b.
Proof. unfold move_rb_head. by case_if. Qed.

Lemma ring_do_refines b o q' :
  ring_idle b -> fifo_do (K.size b - 1) (contents b) o = Some q' ->
  exists b', ring_do b o = Some b' /\ ring_idle b' /\ contents b' = q' /\
    K.size b' = K.size b.
Proof.
  intros [Hb Hst] Hq. pose proof (contents_capacity b Hb).
  destruct o as [bs|n|]; simpl in *.
  - case_if in Hq; [|done]. injection Hq as <-.
    destruct (ring_write_contents b bs Hb) as (b' & Hw & Hb' & Hc); [lia|].
    destruct (ring_write_keeps _ _ _ Hw) as [Hs Hz].
    exists b'. rewrite Hw. unfold ring_idle. rewrite Hs. done.
  - case_if in Hq; [|done]. injection Hq as <-.
    rewrite contents_length in * by done.
    exists (move_rb_head b n). split_and!; [done| |by apply move_rb_head_contents|apply move_rb_head_size].
    split; [by apply move_rb_head_ok|].
    unfold move_rb_head. rewrite Hst. done.
  - injection Hq as <-. eexists. split; [done|].
    set (b0 := K.set_status _ b).
    assert (Hb0 : ring_ok b0) by (destruct Hb as [(? & ? & ?) ?]; done).
    destruct (move_rb_head_clean b0 0 Hb0) as (? & ? & ? & _); [apply truthy_lor_clean|].
    split_and!; [split; done|done|apply (move_rb_head_size b0)].
Qed.

(** C9: every sequence of writes, head moves and clears that a bounded byte
    queue of capacity [size - 1] accepts is carried out by the ring buffer
    without an access outside of its page, and the ring then holds exactly
    the bytes of the queue, in order. *)
Theorem ring_refines_fifo b os q :
  ring_idle b -> fifo_run (K.size b - 1) (contents b) os = Some q ->
  exists b', ring_run b os = Some b' /\ ring_idle b' /\ contents b' = q.
Proof.
  revert b. induction os as [|o os IH]; intros b Hb Hq; simpl in *.
  - injection Hq as <-. eauto.
  - destruct (fifo_do _ _ o) as [q1|] eqn:Hd; simpl in Hq; [|done].
    destruct (ring_do_refines b o q1 Hb Hd) as (b1 & -> & Hb1 & <- & Hsz).
    rewrite <- Hsz in Hq. simpl. by apply IH.
Qed.

(** The ring of the witness: eight bytes, head and tail near the end. *)
Definition sample_ring : K.ring_buf :=
  K.mk 6 6 0 8 ADV_RING_BUF_ENABLED (replicate 8 Byte.x00).

Lemma ring_refines_fifo_witness :
  exists b', ring_run sample_ring [RPut (be 5 1); RGet 2; RPut (be 3 7)] = Some b' /\
    ring_idle b' /\ contents b' = zdrop 2 (be 5 1) ++ be 3 7.
Proof.
  apply (ring_refines_fifo sample_ring).
  - split; [|reflexivity]. repeat split; vm_compute; congruence.
  - reflexivity.
Defined.
