(* ===== verification/Proto.v ===== *)
(** * The VCOM wire protocol

    [daemon/protocol/vcom_proto.h], [vcom_proto_cmd.h] and
    [vcom_proto_ioctl.h]: the packed packet structure, the functions that
    build request packets in a caller-supplied buffer and the functions that
    check a reply.

    A packet pointer is the memory from that pointer on ([pbuf : list byte]);
    a packing function returns the length it reports and the memory after
    its stores, [None] being a store outside of the memory.  What the memory
    held before is an argument, because the stack buffers of the callers are
    not initialised and one packet ([vc_pack_hflow]) leaves bytes of it in
    what is sent. *)

From S2P Require Import Prelude.

(** ** Packet layout *)

Definition sizeof_vc_attach_param : Z := 8.
Definition sizeof_vc_attach_uint : Z := 12.
Definition sizeof_vc_attach_hflow : Z := 24.
Definition sizeof_vc_attach_lctrl : Z := 11.
Definition sizeof_vc_proto_hdr : Z := 12.

(** Offsets of the fields from the start of [struct vc_proto_packet]. *)
Definition off_pid : Z := 0.
Definition off_tid : Z := 4.
Definition off_cmd : Z := 8.
Definition off_len : Z := 10.
Definition off_p1 : Z := 12.
Definition off_p2 : Z := 16.
Definition off_data : Z := 20.
Definition off_uint : Z := 20.
Definition off_chflow : Z := 20.
Definition off_flowrep : Z := 24.
Definition off_xonlimit : Z := 28.
Definition off_xofflimit : Z := 32.
Definition off_sbit : Z := 20.
Definition off_pair : Z := 21.
Definition off_dbit : Z := 22.

Definition vc_pack_size (a : Z) : Z := sizeof_vc_proto_hdr + a.
Definition vc_ext_size (a : Z) : Z := a - sizeof_vc_attach_param.

(** [htonl(0x4d414441)] stored in [pid]. *)
Definition VCOM_MAGIC : Z := 0x4d414441.

Definition STATUS_SUCCESS : Z := 0x00000000.
Definition STATUS_INVALID_PARAMETER : Z := 0xC000000D.
Definition STATUS_DEVICE_BUSY : Z := 0x80000011.

Definition VCOM_CMD_CREATE : Z := 0x0000.
Definition VCOM_CMD_CLOSE : Z := 0x0002.
Definition VCOM_CMD_WRITE : Z := 0x0004.
Definition VCOM_CMD_IOCTL : Z := 0x000e.
Definition VCOM_CMD_QUEUEFREE : Z := 0x0900.
Definition VCOM_CMD_DATAREADY : Z := 0x0800.

Definition VCOM_IOCTL_SET_BAUD_RATE : Z := 0x01.
Definition VCOM_IOCTL_SET_LINE_CONTROL : Z := 0x03.
Definition VCOM_IOCTL_SET_DTR : Z := 0x09.
Definition VCOM_IOCTL_CLR_DTR : Z := 0x0a.
Definition VCOM_IOCTL_SET_RTS : Z := 0x0c.
Definition VCOM_IOCTL_CLR_RTS : Z := 0x0d.
Definition VCOM_IOCTL_GET_WAIT_MASK : Z := 0x10.
Definition VCOM_IOCTL_SET_WAIT_MASK : Z := 0x11.
Definition VCOM_IOCTL_WAIT_ON_MASK : Z := 0x12.
Definition VCOM_IOCTL_PURGE : Z := 0x13.
Definition VCOM_IOCTL_SET_HANDFLOW : Z := 0x19.
Definition VCOM_IOCTL_GET_MODEMSTATUS : Z := 0x1a.

(** Reading a field, in host order. *)
Definition get32 (off : Z) (m : list byte) : option Z :=
  bs ← load off 4 m; Some (be_val bs).
Definition get16 (off : Z) (m : list byte) : option Z :=
  bs ← load off 2 m; Some (be_val bs).

(** ** Header *)

Definition vc_init_hdr (hdr : list byte) (tid cmd len : Z) : option (list byte) :=
  hdr ← store off_pid (be32 VCOM_MAGIC) hdr;
  hdr ← store off_tid (be32 tid) hdr;
  hdr ← store off_cmd (be16 cmd) hdr;
  store off_len (be16 len) hdr.

Definition vc_check_hdr (hdr : list byte) (cmd len : Z) : option Z :=
  pid ← load off_pid 4 hdr;
  if bool_decide (pid ≠ be32 VCOM_MAGIC) then Some (-1) else
  hcmd ← load off_cmd 2 hdr;
  if bool_decide (hcmd ≠ be16 cmd) then Some (-1) else
  hlen ← load off_len 2 hdr;
  if bool_decide (hlen ≠ be16 len) then Some (-1) else
  Some 0.

(** ** Commands ([vcom_proto_cmd.h]) *)

Definition vc_pack_qfsize (pbuf : list byte) (tid fsize buflen : Z)
  : option (Z * list byte) :=
  let cmd := VCOM_CMD_QUEUEFREE in
  let plen := vc_pack_size sizeof_vc_attach_param in
  let len := u16 (vc_ext_size sizeof_vc_attach_param) in
  if buflen <? plen then Some (0, pbuf) else
  pbuf ← vc_init_hdr pbuf tid cmd len;
  let p1 := 0 in
  let p2 := u32 fsize in
  pbuf ← store off_p1 (be32 p1) pbuf;
  pbuf ← store off_p2 (be32 p2) pbuf;
  Some (plen, pbuf).

Definition vc_pack_close (pbuf : list byte) (tid buflen : Z)
  : option (Z * list byte) :=
  let cmd := VCOM_CMD_CLOSE in
  let plen := vc_pack_size sizeof_vc_attach_param in
  let len := u16 (vc_ext_size sizeof_vc_attach_param) in
  if buflen <? plen then Some (0, pbuf) else
  pbuf ← vc_init_hdr pbuf tid cmd len;
  let p1 := 0 in
  let p2 := 0 in
  pbuf ← store off_p1 (be32 p1) pbuf;
  pbuf ← store off_p2 (be32 p2) pbuf;
  Some (plen, pbuf).

(** [data] is [None] for the null pointer: the payload is already in place.
    The memory behind a non-null [data] is the list. *)
Definition vc_pack_xmit (pbuf : list byte) (tid datalen : Z)
    (data : option (list byte)) (buflen : Z) : option (Z * list byte) :=
  let cmd := VCOM_CMD_WRITE in
  let plen := vc_pack_size sizeof_vc_attach_param + datalen in
  let len := u16 datalen in
  if buflen <? plen then Some (0, pbuf) else
  pbuf ← vc_init_hdr pbuf tid cmd len;
  let p1 := u32 datalen in
  let p2 := 0 in
  pbuf ← store off_p1 (be32 p1) pbuf;
  pbuf ← store off_p2 (be32 p2) pbuf;
  pbuf ← match data with
         | Some data => bs ← load 0 datalen data; store off_data bs pbuf
         | None => Some pbuf
         end;
  Some (plen, pbuf).

Definition vc_check_xmit (pbuf : list byte) (datalen stat buflen : Z) : option Z :=
  let cmd := VCOM_CMD_WRITE in
  let plen := vc_pack_size sizeof_vc_attach_param in
  let len := u16 (vc_ext_size sizeof_vc_attach_param) in
  let p1 := stat in
  let p2 := u32 datalen in
  if buflen <? plen then Some (-1) else
  r ← vc_check_hdr pbuf cmd len;
  if truthy r then Some (-1) else
  f1 ← load off_p1 4 pbuf;
  if bool_decide (f1 ≠ be32 p1) then Some (-1) else
  f2 ← load off_p2 4 pbuf;
  if bool_decide (f2 ≠ be32 p2) then Some (-1) else
  Some 0.

(** The second component is what is stored through [datalen], if anything. *)
Definition vc_check_recv (pbuf : list byte) (buflen : Z) : option (Z * option Z) :=
  plen ← get16 off_len pbuf;
  status ← get32 off_p1 pbuf;
  let status := s32 status in
  alen ← get32 off_p2 pbuf;
  let alen := s32 alen in
  if negb (status =? STATUS_SUCCESS) then Some (-1, None) else
  if negb (plen =? alen) then Some (-1, None) else
  Some (0, Some alen).

Definition vc_pack_open (pbuf : list byte) (tid dev port buflen : Z)
  : option (Z * list byte) :=
  let cmd := VCOM_CMD_CREATE in
  let plen := vc_pack_size sizeof_vc_attach_param in
  let len := u16 (vc_ext_size sizeof_vc_attach_param) in
  if buflen <? plen then Some (0, pbuf) else
  pbuf ← vc_init_hdr pbuf tid cmd len;
  let p1 := dev in
  let p1 := u32 (Z.shiftl p1 16) in
  let p2 := port in
  pbuf ← store off_p1 (be32 p1) pbuf;
  pbuf ← store off_p2 (be32 p2) pbuf;
  Some (plen, pbuf).

(** The device id is a parameter of the function and is not looked at. *)
Definition vc_check_open (pbuf : list byte) (dev port buflen : Z) : option Z :=
  let cmd := VCOM_CMD_CREATE in
  let plen := vc_pack_size sizeof_vc_attach_param in
  let len := u16 (vc_ext_size sizeof_vc_attach_param) in
  let p1 := STATUS_SUCCESS in
  let p2 := port in
  if buflen <? plen then Some (-1) else
  r ← vc_check_hdr pbuf cmd len;
  if truthy r then Some (-1) else
  f1 ← load off_p1 4 pbuf;
  if bool_decide (f1 ≠ be32 p1) then Some (-1) else
  f2 ← load off_p2 4 pbuf;
  if bool_decide (f2 ≠ be32 p2) then Some (-1) else
  Some 0.

(** ** Serial controls ([vcom_proto_ioctl.h]) *)

Definition vc_pack_purge (pbuf : list byte) (tid pflags buflen : Z)
  : option (Z * list byte) :=
  let cmd := VCOM_CMD_IOCTL in
  let plen := vc_pack_size sizeof_vc_attach_uint in
  let len := u16 (vc_ext_size sizeof_vc_attach_uint) in
  if buflen <? plen then Some (0, pbuf) else
  let p1 := VCOM_IOCTL_PURGE in
  let p2 := 0 in
  pbuf ← vc_init_hdr pbuf tid cmd len;
  pbuf ← store off_p1 (be32 p1) pbuf;
  pbuf ← store off_p2 (be32 p2) pbuf;
  pbuf ← store off_uint (le32 pflags) pbuf;
  Some (plen, pbuf).

Definition vc_pack_sbaud (pbuf : list byte) (tid baud buflen : Z)
  : option (Z * list byte) :=
  let cmd := VCOM_CMD_IOCTL in
  let plen := vc_pack_size sizeof_vc_attach_uint in
  let len := u16 (vc_ext_size sizeof_vc_attach_uint) in
  if buflen <? plen then Some (0, pbuf) else
  let p1 := VCOM_IOCTL_SET_BAUD_RATE in
  let p2 := 0 in
  pbuf ← vc_init_hdr pbuf tid cmd len;
  pbuf ← store off_p1 (be32 p1) pbuf;
  pbuf ← store off_p2 (be32 p2) pbuf;
  pbuf ← store off_uint (le32 baud) pbuf;
  Some (plen, pbuf).

Definition _pack_ioctl_param (pbuf : list byte) (tid subcmd buflen : Z)
  : option (Z * list byte) :=
  let cmd := VCOM_CMD_IOCTL in
  let plen := vc_pack_size sizeof_vc_attach_param in
  let len := u16 (vc_ext_size sizeof_vc_attach_param) in
  if buflen <? plen then Some (0, pbuf) else
  let p1 := subcmd in
  let p2 := 0 in
  pbuf ← vc_init_hdr pbuf tid cmd len;
  pbuf ← store off_p1 (be32 p1) pbuf;
  pbuf ← store off_p2 (be32 p2) pbuf;
  Some (plen, pbuf).

Definition vc_pack_womask (pbuf : list byte) (tid buflen : Z) :=
  _pack_ioctl_param pbuf tid VCOM_IOCTL_WAIT_ON_MASK buflen.
Definition vc_pack_setrts (pbuf : list byte) (tid buflen : Z) :=
  _pack_ioctl_param pbuf tid VCOM_IOCTL_SET_RTS buflen.
Definition vc_pack_setdtr (pbuf : list byte) (tid buflen : Z) :=
  _pack_ioctl_param pbuf tid VCOM_IOCTL_SET_DTR buflen.
Definition vc_pack_clrrts (pbuf : list byte) (tid buflen : Z) :=
  _pack_ioctl_param pbuf tid VCOM_IOCTL_CLR_RTS buflen.
Definition vc_pack_clrdtr (pbuf : list byte) (tid buflen : Z) :=
  _pack_ioctl_param pbuf tid VCOM_IOCTL_CLR_DTR buflen.
Definition vc_pack_getmodem (pbuf : list byte) (tid buflen : Z) :=
  _pack_ioctl_param pbuf tid VCOM_IOCTL_GET_MODEMSTATUS buflen.

(** [xonlimit] is assigned twice and [xofflimit] never. *)
Definition vc_pack_hflow (pbuf : list byte) (tid chflow flowrep buflen : Z)
  : option (Z * list byte) :=
  let cmd := VCOM_CMD_IOCTL in
  let plen := vc_pack_size sizeof_vc_attach_hflow in
  let len := u16 (vc_ext_size sizeof_vc_attach_hflow) in
  if buflen <? plen then Some (0, pbuf) else
  let p1 := VCOM_IOCTL_SET_HANDFLOW in
  let p2 := 0 in
  pbuf ← vc_init_hdr pbuf tid cmd len;
  pbuf ← store off_p1 (be32 p1) pbuf;
  pbuf ← store off_p2 (be32 p2) pbuf;
  pbuf ← store off_chflow (be32 chflow) pbuf;
  pbuf ← store off_flowrep (be32 flowrep) pbuf;
  pbuf ← store off_xonlimit (be32 1024) pbuf;
  pbuf ← store off_xonlimit (be32 512) pbuf;
  Some (plen, pbuf).

Definition vc_pack_setwmask (pbuf : list byte) (tid mask buflen : Z)
  : option (Z * list byte) :=
  let cmd := VCOM_CMD_IOCTL in
  let plen := vc_pack_size sizeof_vc_attach_uint in
  let len := u16 (vc_ext_size sizeof_vc_attach_uint) in
  if buflen <? plen then Some (0, pbuf) else
  let p1 := VCOM_IOCTL_SET_WAIT_MASK in
  let p2 := 0 in
  pbuf ← vc_init_hdr pbuf tid cmd len;
  pbuf ← store off_p1 (be32 p1) pbuf;
  pbuf ← store off_p2 (be32 p2) pbuf;
  pbuf ← store off_uint (be32 mask) pbuf;
  Some (plen, pbuf).

Definition vc_pack_getwmask (pbuf : list byte) (tid buflen : Z)
  : option (Z * list byte) :=
  let cmd := VCOM_CMD_IOCTL in
  let plen := vc_pack_size sizeof_vc_attach_param in
  let len := u16 (vc_ext_size sizeof_vc_attach_param) in
  if buflen <? plen then Some (0, pbuf) else
  let p1 := VCOM_IOCTL_GET_WAIT_MASK in
  let p2 := 0 in
  pbuf ← vc_init_hdr pbuf tid cmd len;
  pbuf ← store off_p1 (be32 p1) pbuf;
  pbuf ← store off_p2 (be32 p2) pbuf;
  Some (plen, pbuf).

Definition vc_pack_setlctl (pbuf : list byte) (tid pair dbit sbit buflen : Z)
  : option (Z * list byte) :=
  let cmd := VCOM_CMD_IOCTL in
  let plen := vc_pack_size sizeof_vc_attach_lctrl in
  let len := u16 (vc_ext_size sizeof_vc_attach_lctrl) in
  if buflen <? plen then Some (0, pbuf) else
  let p1 := VCOM_IOCTL_SET_LINE_CONTROL in
  let p2 := 0 in
  pbuf ← vc_init_hdr pbuf tid cmd len;
  pbuf ← store off_p1 (be32 p1) pbuf;
  pbuf ← store off_p2 (be32 p2) pbuf;
  pbuf ← store off_pair (be 1 pair) pbuf;
  pbuf ← store off_dbit (be 1 dbit) pbuf;
  pbuf ← store off_sbit (be 1 sbit) pbuf;
  Some (plen, pbuf).

(** ** Frames: what the packets say

    A frame is the decoded form of one packet.  [unframe] reads one frame
    from a byte stream the way a peer does: twenty bytes of header and
    parameters, then as many bytes as the header announces. *)

Record frame := mk_frame {
  f_tid : Z;
  f_cmd : Z;
  f_p1 : Z;
  f_p2 : Z;
  f_ext : list byte;
}.

Definition frame_bytes (f : frame) : list byte :=
  be32 VCOM_MAGIC ++ be32 (f_tid f) ++ be16 (f_cmd f) ++
  be16 (zlen (f_ext f)) ++ be32 (f_p1 f) ++ be32 (f_p2 f) ++ f_ext f.

Definition frame_ok (f : frame) : Prop :=
  0 <= f_tid f < 2 ^ 32 /\ 0 <= f_cmd f < 2 ^ 16 /\
  0 <= f_p1 f < 2 ^ 32 /\ 0 <= f_p2 f < 2 ^ 32 /\ zlen (f_ext f) < 2 ^ 16.

Definition unframe (bs : list byte) : option (frame * list byte) :=
  pid ← get32 off_pid bs;
  tid ← get32 off_tid bs;
  cmd ← get16 off_cmd bs;
  len ← get16 off_len bs;
  p1 ← get32 off_p1 bs;
  p2 ← get32 off_p2 bs;
  ext ← load off_data len bs;
  if pid =? VCOM_MAGIC
  then Some (mk_frame tid cmd p1 p2 ext, zdrop (off_data + len) bs) else None.

(** *** Loads and stores in a concatenation *)

Lemma load_skip off n (a rest : list byte) :
  zlen a <= off -> load off n (a ++ rest) = load (off - zlen a) n rest.
Proof.
  intros. pose proof (zlen_nonneg a). unfold load.
  rewrite zlen_app, zdrop_app_r by lia.
  repeat case_if; try done; lia.
Qed.

Lemma load_head n (a rest : list byte) :
  zlen a = n -> load 0 n (a ++ rest) = Some a.
Proof.
  intros <-. pose proof (zlen_nonneg a). pose proof (zlen_nonneg rest).
  rewrite load_Some by (rewrite ?zlen_app; lia).
  by rewrite zdrop_0, ztake_app_l, ztake_all by lia.
Qed.

Lemma store_at off bs (pre rest : list byte) :
  zlen pre = off -> zlen bs <= zlen rest ->
  store off bs (pre ++ rest) = Some ((pre ++ bs) ++ zdrop (zlen bs) rest).
Proof.
  intros <- ?. pose proof (zlen_nonneg pre). pose proof (zlen_nonneg bs).
  rewrite store_Some by (rewrite ?zlen_app; lia). f_equal.
  rewrite ztake_app_l, ztake_all by lia. rewrite zdrop_app_r by lia.
  rewrite <- app_assoc. repeat f_equal. lia.
Qed.

(** Walk a load to the field of a concatenation it addresses. *)
Ltac load_walk :=
  repeat (rewrite load_skip; [|by vm_compute];
          rewrite ?zlen_be, ?zlen_le;
          match goal with
          | |- context [load (?o - ?k) _ _] =>
              let r := eval vm_compute in (o - k) in change (o - k) with r
          end);
  rewrite load_head; [|done].

Lemma zlen_frame_bytes f : zlen (frame_bytes f) = 20 + zlen (f_ext f).
Proof. unfold frame_bytes. autorewrite with zlen. lia. Qed.

(** The fields of a packet in memory. *)
Section fields.
Context (f : frame) (rest : list byte).

Lemma load_pid : load off_pid 4 (frame_bytes f ++ rest) = Some (be32 VCOM_MAGIC).
Proof. unfold frame_bytes. rewrite <- !app_assoc. change off_pid with 0. load_walk. done. Qed.

Lemma load_tid : load off_tid 4 (frame_bytes f ++ rest) = Some (be32 (f_tid f)).
Proof. unfold frame_bytes. rewrite <- !app_assoc. change off_tid with 4. load_walk. done. Qed.

Lemma load_cmd : load off_cmd 2 (frame_bytes f ++ rest) = Some (be16 (f_cmd f)).
Proof. unfold frame_bytes. rewrite <- !app_assoc. change off_cmd with 8. load_walk. done. Qed.

Lemma load_len : load off_len 2 (frame_bytes f ++ rest) = Some (be16 (zlen (f_ext f))).
Proof. unfold frame_bytes. rewrite <- !app_assoc. change off_len with 10. load_walk. done. Qed.

Lemma load_p1 : load off_p1 4 (frame_bytes f ++ rest) = Some (be32 (f_p1 f)).
Proof. unfold frame_bytes. rewrite <- !app_assoc. change off_p1 with 12. load_walk. done. Qed.

Lemma load_p2 : load off_p2 4 (frame_bytes f ++ rest) = Some (be32 (f_p2 f)).
Proof. unfold frame_bytes. rewrite <- !app_assoc. change off_p2 with 16. load_walk. done. Qed.

Lemma load_ext : load off_data (zlen (f_ext f)) (frame_bytes f ++ rest) = Some (f_ext f).
Proof. unfold frame_bytes. rewrite <- !app_assoc. change off_data with 20. load_walk. done. Qed.
End fields.

(** A frame is read back from its bytes, and what follows it in the stream is
    left. *)
Lemma unframe_frame f rest :
  frame_ok f -> unframe (frame_bytes f ++ rest) = Some (f, rest).
Proof.
  intros (Htid & Hcmd & Hp1 & Hp2 & Hext). pose proof (zlen_nonneg (f_ext f)).
  unfold unframe, get32, get16.
  rewrite load_pid, load_tid, load_cmd, load_len, load_p1, load_p2.
  cbn [mbind option_bind].
  rewrite !be_val_be32, !be_val_be16.
  rewrite !u32_small, !u16_small by (lia || done).
  rewrite load_ext. cbn [mbind option_bind]. rewrite Z.eqb_refl. repeat f_equal.
  - by destruct f.
  - rewrite zdrop_app_r by (rewrite zlen_frame_bytes; unfold off_data; lia).
    rewrite zlen_frame_bytes. unfold off_data. by rewrite Z.sub_diag.
Qed.

(** ** Requests

    The request packets of the daemon as data, the packing function each one
    is built with, and the frame a packet of it carries.  [junk] is what the
    packet buffer held at the [xofflimit] field. *)

Inductive vc_msg :=
  | M_open (dev port : Z)
  | M_close
  | M_write (data : list byte)
  | M_qfree (fsize : Z)
  | M_purge (pflags : Z)
  | M_baud (baud : Z)
  | M_ioctl (subcmd : Z)
  | M_hflow (chflow flowrep : Z)
  | M_wmask (mask : Z)
  | M_getwmask
  | M_lctl (prty dbit sbit : Z).

Definition vc_pack (msg : vc_msg) (pbuf : list byte) (tid buflen : Z)
  : option (Z * list byte) :=
  match msg with
  | M_open dev port => vc_pack_open pbuf tid dev port buflen
  | M_close => vc_pack_close pbuf tid buflen
  | M_write data => vc_pack_xmit pbuf tid (zlen data) (Some data) buflen
  | M_qfree fsize => vc_pack_qfsize pbuf tid fsize buflen
  | M_purge pflags => vc_pack_purge pbuf tid pflags buflen
  | M_baud baud => vc_pack_sbaud pbuf tid baud buflen
  | M_ioctl subcmd => _pack_ioctl_param pbuf tid subcmd buflen
  | M_hflow chflow flowrep => vc_pack_hflow pbuf tid chflow flowrep buflen
  | M_wmask mask => vc_pack_setwmask pbuf tid mask buflen
  | M_getwmask => vc_pack_getwmask pbuf tid buflen
  | M_lctl prty dbit sbit => vc_pack_setlctl pbuf tid prty dbit sbit buflen
  end.

(** The frame of a request.  [junk] stands for the four bytes the packet
    buffer held at the [xofflimit] field. *)
Definition msg_frame (junk : list byte) (tid : Z) (msg : vc_msg) : frame :=
  match msg with
  | M_open dev port => mk_frame tid VCOM_CMD_CREATE (u32 (Z.shiftl dev 16)) port []
  | M_close => mk_frame tid VCOM_CMD_CLOSE 0 0 []
  | M_write data => mk_frame tid VCOM_CMD_WRITE (zlen data) 0 data
  | M_qfree fsize => mk_frame tid VCOM_CMD_QUEUEFREE 0 (u32 fsize) []
  | M_purge pflags => mk_frame tid VCOM_CMD_IOCTL VCOM_IOCTL_PURGE 0 (le32 pflags)
  | M_baud baud => mk_frame tid VCOM_CMD_IOCTL VCOM_IOCTL_SET_BAUD_RATE 0 (le32 baud)
  | M_ioctl subcmd => mk_frame tid VCOM_CMD_IOCTL subcmd 0 []
  | M_hflow chflow flowrep =>
      mk_frame tid VCOM_CMD_IOCTL VCOM_IOCTL_SET_HANDFLOW 0
        (be32 chflow ++ be32 flowrep ++ be32 512 ++ junk)
  | M_wmask mask => mk_frame tid VCOM_CMD_IOCTL VCOM_IOCTL_SET_WAIT_MASK 0 (be32 mask)
  | M_getwmask => mk_frame tid VCOM_CMD_IOCTL VCOM_IOCTL_GET_WAIT_MASK 0 []
  | M_lctl prty dbit sbit =>
      mk_frame tid VCOM_CMD_IOCTL VCOM_IOCTL_SET_LINE_CONTROL 0
        (be 1 sbit ++ be 1 prty ++ be 1 dbit)
  end.

(** What a peer makes of a frame. *)
Definition frame_msg (f : frame) : option vc_msg :=
  let ext o n := ztake n (zdrop o (f_ext f)) in
  if f_cmd f =? VCOM_CMD_CREATE then Some (M_open (Z.shiftr (f_p1 f) 16) (f_p2 f))
  else if f_cmd f =? VCOM_CMD_CLOSE then Some M_close
  else if f_cmd f =? VCOM_CMD_WRITE then
    if f_p1 f =? zlen (f_ext f) then Some (M_write (f_ext f)) else None
  else if f_cmd f =? VCOM_CMD_QUEUEFREE then Some (M_qfree (f_p2 f))
  else if f_cmd f =? VCOM_CMD_IOCTL then
    if f_p1 f =? VCOM_IOCTL_PURGE then Some (M_purge (le_val (f_ext f)))
    else if f_p1 f =? VCOM_IOCTL_SET_BAUD_RATE then Some (M_baud (le_val (f_ext f)))
    else if f_p1 f =? VCOM_IOCTL_SET_HANDFLOW then
      Some (M_hflow (be_val (ext 0 4)) (be_val (ext 4 4)))
    else if f_p1 f =? VCOM_IOCTL_SET_WAIT_MASK then Some (M_wmask (be_val (f_ext f)))
    else if f_p1 f =? VCOM_IOCTL_GET_WAIT_MASK then Some M_getwmask
    else if f_p1 f =? VCOM_IOCTL_SET_LINE_CONTROL then
      Some (M_lctl (be_val (ext 1 1)) (be_val (ext 2 1)) (be_val (ext 0 1)))
    else Some (M_ioctl (f_p1 f))
  else None.

(** The fields fit their widths; a bare [M_ioctl] is one of the controls
    without an argument. *)
Definition msg_ok (msg : vc_msg) : Prop :=
  match msg with
  | M_open dev port => 0 <= dev < 2 ^ 16 /\ 0 <= port < 2 ^ 32
  | M_write data => zlen data < 2 ^ 16
  | M_qfree x | M_purge x | M_baud x | M_wmask x => 0 <= x < 2 ^ 32
  | M_ioctl x => x ∈ [VCOM_IOCTL_WAIT_ON_MASK; VCOM_IOCTL_SET_RTS; VCOM_IOCTL_SET_DTR;
                      VCOM_IOCTL_CLR_RTS; VCOM_IOCTL_CLR_DTR; VCOM_IOCTL_GET_MODEMSTATUS]
  | M_hflow chflow flowrep => 0 <= chflow < 2 ^ 32 /\ 0 <= flowrep < 2 ^ 32
  | M_lctl prty dbit sbit => 0 <= prty < 2 ^ 8 /\ 0 <= dbit < 2 ^ 8 /\ 0 <= sbit < 2 ^ 8
  | M_close | M_getwmask => True
  end.

Definition msg_size (msg : vc_msg) : Z :=
  20 + match msg with
       | M_write data => zlen data
       | M_purge _ | M_baud _ | M_wmask _ => 4
       | M_hflow _ _ => 16
       | M_lctl _ _ _ => 3
       | _ => 0
       end.

(** *** The twenty bytes all packets start with *)

Definition hdr20 (tid cmd len p1 p2 : Z) : list byte :=
  ((((be32 VCOM_MAGIC ++ be32 tid) ++ be16 cmd) ++ be16 len) ++ be32 p1) ++ be32 p2.

Lemma zlen_hdr20 tid cmd len p1 p2 : zlen (hdr20 tid cmd len p1 p2) = 20.
Proof. unfold hdr20. by autorewrite with zlen. Qed.
#[local] Hint Rewrite zlen_hdr20 : zlen.

Lemma frame_hdr20 f :
  frame_bytes f =
    hdr20 (f_tid f) (f_cmd f) (zlen (f_ext f)) (f_p1 f) (f_p2 f) ++ f_ext f.
Proof. unfold frame_bytes, hdr20. by rewrite <- !app_assoc. Qed.

Ltac off_lia :=
  unfold off_pid, off_tid, off_cmd, off_len, off_p1, off_p2, off_data, off_uint,
    off_chflow, off_flowrep, off_xonlimit, off_xofflimit, off_sbit, off_pair,
    off_dbit in *; zlen_lia.

Ltac unfold_codes :=
  unfold VCOM_CMD_CREATE, VCOM_CMD_CLOSE, VCOM_CMD_WRITE, VCOM_CMD_IOCTL,
    VCOM_CMD_QUEUEFREE, VCOM_CMD_DATAREADY, VCOM_IOCTL_SET_BAUD_RATE,
    VCOM_IOCTL_SET_LINE_CONTROL, VCOM_IOCTL_SET_DTR, VCOM_IOCTL_CLR_DTR,
    VCOM_IOCTL_SET_RTS, VCOM_IOCTL_CLR_RTS, VCOM_IOCTL_GET_WAIT_MASK,
    VCOM_IOCTL_SET_WAIT_MASK, VCOM_IOCTL_WAIT_ON_MASK, VCOM_IOCTL_PURGE,
    VCOM_IOCTL_SET_HANDFLOW, VCOM_IOCTL_GET_MODEMSTATUS in *.

(** One store right behind what has been written so far. *)
Ltac pack_step :=
  rewrite store_at; [cbn [mbind option_bind]|off_lia|off_lia].

Lemma init_hdr_params pbuf tid cmd len p1 p2 (k : list byte -> option (Z * list byte)) :
  20 <= zlen pbuf ->
  (pbuf ← vc_init_hdr pbuf tid cmd len;
   pbuf ← store off_p1 (be32 p1) pbuf;
   pbuf ← store off_p2 (be32 p2) pbuf; k pbuf) =
  k (hdr20 tid cmd len p1 p2 ++ zdrop 20 pbuf).
Proof.
  intros Hl. unfold vc_init_hdr, hdr20.
  change pbuf with ([] ++ pbuf) at 1.
  do 6 pack_step.
  rewrite !zdrop_zdrop by zlen_lia. rewrite !zlen_be. done.
Qed.

(** The packing functions write the frame of their request over the start of
    the buffer and keep what lies behind it. *)
Definition packed (pbuf : list byte) (f : frame) : option (Z * list byte) :=
  Some (20 + zlen (f_ext f), frame_bytes f ++ zdrop (20 + zlen (f_ext f)) pbuf).

Lemma hdr20_u32 tid cmd len p1 p2 :
  hdr20 tid cmd (u16 len) (u32 p1) (u32 p2) = hdr20 tid cmd len p1 p2.
Proof. unfold hdr20. by rewrite !be32_u32, be16_u16. Qed.

(** Packets without a payload. *)
Lemma pack_params pbuf tid cmd p1 p2 :
  20 <= zlen pbuf ->
  (pbuf ← vc_init_hdr pbuf tid cmd 0;
   pbuf ← store off_p1 (be32 p1) pbuf;
   pbuf ← store off_p2 (be32 p2) pbuf; Some (20, pbuf)) =
  packed pbuf (mk_frame tid cmd p1 p2 []).
Proof.
  intros. rewrite init_hdr_params by done. unfold packed.
  rewrite frame_hdr20. cbn [f_tid f_cmd f_ext f_p1 f_p2].
  by rewrite app_nil_r.
Qed.

(** Packets whose payload is stored in one piece. *)
Lemma pack_payload pbuf tid cmd p1 p2 ext :
  20 + zlen ext <= zlen pbuf ->
  (pbuf ← vc_init_hdr pbuf tid cmd (zlen ext);
   pbuf ← store off_p1 (be32 p1) pbuf;
   pbuf ← store off_p2 (be32 p2) pbuf;
   pbuf ← store 20 ext pbuf; Some (20 + zlen ext, pbuf)) =
  packed pbuf (mk_frame tid cmd p1 p2 ext).
Proof.
  intros. pose proof (zlen_nonneg ext).
  rewrite init_hdr_params by lia. pack_step.
  unfold packed. rewrite frame_hdr20. cbn [f_tid f_cmd f_ext f_p1 f_p2].
  rewrite zdrop_zdrop by lia. done.
Qed.

Section pack.
Context (pbuf : list byte) (tid buflen : Z).
Hypothesis Hbuf : buflen <= zlen pbuf.

Lemma vc_pack_open_spec dev port :
  20 <= buflen ->
  vc_pack_open pbuf tid dev port buflen =
    packed pbuf (mk_frame tid VCOM_CMD_CREATE (u32 (Z.shiftl dev 16)) port []).
Proof.
  intros. unfold vc_pack_open. rewrite (proj2 (Z.ltb_ge _ _)) by done.
  apply pack_params. lia.
Qed.

Lemma vc_pack_close_spec :
  20 <= buflen ->
  vc_pack_close pbuf tid buflen = packed pbuf (mk_frame tid VCOM_CMD_CLOSE 0 0 []).
Proof.
  intros. unfold vc_pack_close. rewrite (proj2 (Z.ltb_ge _ _)) by done.
  apply pack_params. lia.
Qed.

Lemma vc_pack_qfsize_spec fsize :
  20 <= buflen ->
  vc_pack_qfsize pbuf tid fsize buflen =
    packed pbuf (mk_frame tid VCOM_CMD_QUEUEFREE 0 (u32 fsize) []).
Proof.
  intros. unfold vc_pack_qfsize. rewrite (proj2 (Z.ltb_ge _ _)) by done.
  apply pack_params. lia.
Qed.

Lemma pack_ioctl_param_spec subcmd :
  20 <= buflen ->
  _pack_ioctl_param pbuf tid subcmd buflen =
    packed pbuf (mk_frame tid VCOM_CMD_IOCTL subcmd 0 []).
Proof.
  intros. unfold _pack_ioctl_param. rewrite (proj2 (Z.ltb_ge _ _)) by done.
  apply pack_params. lia.
Qed.

Lemma vc_pack_getwmask_spec :
  20 <= buflen ->
  vc_pack_getwmask pbuf tid buflen =
    packed pbuf (mk_frame tid VCOM_CMD_IOCTL VCOM_IOCTL_GET_WAIT_MASK 0 []).
Proof.
  intros. unfold vc_pack_getwmask. rewrite (proj2 (Z.ltb_ge _ _)) by done.
  apply pack_params. lia.
Qed.

Lemma vc_pack_purge_spec pflags :
  24 <= buflen ->
  vc_pack_purge pbuf tid pflags buflen =
    packed pbuf (mk_frame tid VCOM_CMD_IOCTL VCOM_IOCTL_PURGE 0 (le32 pflags)).
Proof.
  intros. unfold vc_pack_purge. rewrite (proj2 (Z.ltb_ge _ _)) by done.
  apply (pack_payload pbuf tid VCOM_CMD_IOCTL VCOM_IOCTL_PURGE 0 (le32 pflags)).
  rewrite zlen_le. lia.
Qed.

Lemma vc_pack_sbaud_spec baud :
  24 <= buflen ->
  vc_pack_sbaud pbuf tid baud buflen =
    packed pbuf (mk_frame tid VCOM_CMD_IOCTL VCOM_IOCTL_SET_BAUD_RATE 0 (le32 baud)).
Proof.
  intros. unfold vc_pack_sbaud. rewrite (proj2 (Z.ltb_ge _ _)) by done.
  apply (pack_payload pbuf tid VCOM_CMD_IOCTL VCOM_IOCTL_SET_BAUD_RATE 0 (le32 baud)).
  rewrite zlen_le. lia.
Qed.

Lemma vc_pack_setwmask_spec mask :
  24 <= buflen ->
  vc_pack_setwmask pbuf tid mask buflen =
    packed pbuf (mk_frame tid VCOM_CMD_IOCTL VCOM_IOCTL_SET_WAIT_MASK 0 (be32 mask)).
Proof.
  intros. unfold vc_pack_setwmask. rewrite (proj2 (Z.ltb_ge _ _)) by done.
  apply (pack_payload pbuf tid VCOM_CMD_IOCTL VCOM_IOCTL_SET_WAIT_MASK 0 (be32 mask)).
  rewrite zlen_be. lia.
Qed.

Lemma vc_pack_hflow_spec chflow flowrep :
  36 <= buflen ->
  vc_pack_hflow pbuf tid chflow flowrep buflen =
    packed pbuf (mk_frame tid VCOM_CMD_IOCTL VCOM_IOCTL_SET_HANDFLOW 0
      (be32 chflow ++ be32 flowrep ++ be32 512 ++ ztake 4 (zdrop off_xofflimit pbuf))).
Proof.
  intros. unfold vc_pack_hflow. rewrite (proj2 (Z.ltb_ge _ _)) by done.
  rewrite init_hdr_params by lia. do 3 pack_step.
  rewrite <- (app_assoc _ (be32 1024)). pack_step.
  change (zlen (be32 512)) with (zlen (be32 1024)).
  rewrite zdrop_app_r, Z.sub_diag, zdrop_0 by lia.
  set (ext := be32 chflow ++ _).
  assert (Hext : zlen ext = 16) by (unfold ext; off_lia).
  unfold packed. rewrite frame_hdr20. cbn [f_tid f_cmd f_ext f_p1 f_p2].
  rewrite Hext, !zdrop_zdrop, !zlen_be by zlen_lia. unfold ext.
  rewrite <- !app_assoc. repeat f_equal.
  change (20 + (Z.of_nat 4 + (Z.of_nat 4 + Z.of_nat 4))) with 32.
  rewrite <- (ztake_zdrop 4 (zdrop 32 pbuf)) at 1.
  by rewrite zdrop_zdrop by lia.
Qed.

Lemma vc_pack_setlctl_spec prty dbit sbit :
  23 <= buflen ->
  vc_pack_setlctl pbuf tid prty dbit sbit buflen =
    packed pbuf (mk_frame tid VCOM_CMD_IOCTL VCOM_IOCTL_SET_LINE_CONTROL 0
      (be 1 sbit ++ be 1 prty ++ be 1 dbit)).
Proof.
  intros. unfold vc_pack_setlctl. rewrite (proj2 (Z.ltb_ge _ _)) by done.
  rewrite init_hdr_params by lia.
  set (h := hdr20 _ _ _ _ _). assert (Hh : zlen h = 20) by apply zlen_hdr20.
  rewrite <- (ztake_zdrop 1 (zdrop 20 pbuf)), app_assoc.
  set (x := ztake 1 (zdrop 20 pbuf)).
  assert (Hx : zlen x = 1) by (unfold x; zlen_lia).
  do 2 pack_step. rewrite <- !app_assoc. pack_step.
  rewrite (zdrop_app_r _ x), zlen_be by zlen_lia.
  replace (Z.of_nat 1 - zlen x) with 0 by lia. rewrite zdrop_0.
  unfold packed. rewrite frame_hdr20. cbn [f_tid f_cmd f_ext f_p1 f_p2].
  rewrite !zdrop_zdrop by zlen_lia. rewrite !zlen_app, !zlen_be.
  unfold h. rewrite <- !app_assoc. done.
Qed.

(** [data] points at [datalen] readable bytes, or the payload is in place. *)
Lemma vc_pack_xmit_ptr datalen data :
  0 <= datalen <= zlen data -> datalen < 2 ^ 16 -> 20 + datalen <= buflen ->
  vc_pack_xmit pbuf tid datalen (Some data) buflen =
    packed pbuf (mk_frame tid VCOM_CMD_WRITE datalen 0 (ztake datalen data)).
Proof.
  intros. unfold vc_pack_xmit. change (vc_pack_size _) with 20.
  rewrite (proj2 (Z.ltb_ge _ _)) by done.
  rewrite u16_small, u32_small by lia.
  rewrite load_Some, zdrop_0 by lia. cbn [mbind option_bind].
  pose proof (pack_payload pbuf tid VCOM_CMD_WRITE datalen 0 (ztake datalen data)) as Hp.
  rewrite zlen_ztake in Hp by lia. apply Hp. lia.
Qed.

Lemma vc_pack_xmit_null datalen :
  0 <= datalen < 2 ^ 16 -> 20 + datalen <= buflen ->
  vc_pack_xmit pbuf tid datalen None buflen =
    packed pbuf (mk_frame tid VCOM_CMD_WRITE datalen 0 (ztake datalen (zdrop 20 pbuf))).
Proof.
  intros. unfold vc_pack_xmit. change (vc_pack_size _) with 20.
  rewrite (proj2 (Z.ltb_ge _ _)) by done.
  rewrite u16_small, u32_small, init_hdr_params by lia. cbn [mbind option_bind].
  unfold packed. rewrite frame_hdr20. cbn [f_tid f_cmd f_ext f_p1 f_p2].
  rewrite zlen_ztake by zlen_lia. rewrite <- app_assoc. repeat f_equal.
  rewrite <- (ztake_zdrop datalen (zdrop 20 pbuf)) at 1.
  by rewrite zdrop_zdrop by lia.
Qed.
End pack.

Lemma vc_pack_packed msg pbuf tid buflen :
  msg_ok msg -> msg_size msg <= buflen <= zlen pbuf ->
  vc_pack msg pbuf tid buflen =
    packed pbuf (msg_frame (ztake 4 (zdrop off_xofflimit pbuf)) tid msg).
Proof.
  intros Hok [Hs Hb]. unfold msg_size in Hs. destruct msg; simpl vc_pack.
  - apply vc_pack_open_spec; lia.
  - apply vc_pack_close_spec; lia.
  - pose proof (zlen_nonneg data). simpl in Hok.
    rewrite vc_pack_xmit_ptr by lia. by rewrite ztake_all by lia.
  - apply vc_pack_qfsize_spec; lia.
  - apply vc_pack_purge_spec; lia.
  - apply vc_pack_sbaud_spec; lia.
  - apply pack_ioctl_param_spec; lia.
  - apply vc_pack_hflow_spec; lia.
  - apply vc_pack_setwmask_spec; lia.
  - apply vc_pack_getwmask_spec; lia.
  - apply vc_pack_setlctl_spec; lia.
Qed.

(** The four unset bytes exist where the packet has them. *)
Definition junk_ok (msg : vc_msg) (junk : list byte) : Prop :=
  match msg with M_hflow _ _ => zlen junk = 4 | _ => True end.

Lemma msg_frame_size junk tid msg :
  junk_ok msg junk -> 20 + zlen (f_ext (msg_frame junk tid msg)) = msg_size msg.
Proof.
  intros Hj. unfold msg_size. destruct msg; simpl in Hj; simpl f_ext; zlen_lia.
Qed.

Lemma msg_frame_ok junk tid msg :
  msg_ok msg -> 0 <= tid < 2 ^ 32 -> junk_ok msg junk -> frame_ok (msg_frame junk tid msg).
Proof.
  intros Hok Ht Hj.
  assert (Hx : zlen (f_ext (msg_frame junk tid msg)) < 2 ^ 16).
  { pose proof (msg_frame_size junk tid msg Hj) as Hs. unfold msg_size in Hs.
    destruct msg; simpl in Hok; lia. }
  revert Hx. unfold frame_ok. clear Hj.
  destruct msg; cbn [msg_frame f_tid f_cmd f_p1 f_p2 f_ext msg_ok] in *; intros Hx;
    unfold_codes; try (pose proof (u32_range (Z.shiftl dev 16)); lia);
    try (pose proof (u32_range fsize); lia);
    try (pose proof (zlen_nonneg data); lia); try lia.
  repeat (apply elem_of_cons in Hok as [->|Hok]; [lia|]).
  by apply elem_of_nil in Hok.
Qed.

Lemma be_field n x : zlen (be n x) = Z.of_nat n /\ be_val (be n x) = x mod 2 ^ (Z.of_nat n * 8).
Proof. split; [apply zlen_be|apply be_val_be]. Qed.

Lemma frame_msg_frame junk tid msg :
  msg_ok msg -> frame_msg (msg_frame junk tid msg) = Some msg.
Proof.
  intros Hok. destruct msg; simpl in Hok; unfold frame_msg; cbn [f_cmd f_p1 f_p2 f_ext msg_frame].
  - simpl. rewrite u32_small by (rewrite Z.shiftl_mul_pow2; lia).
    rewrite Z.shiftr_shiftl_l by lia. by rewrite Z.shiftl_0_r.
  - done.
  - simpl. by rewrite Z.eqb_refl.
  - simpl. by rewrite u32_small by lia.
  - simpl. by rewrite le_val_le32, u32_small by lia.
  - simpl. by rewrite le_val_le32, u32_small by lia.
  - repeat (apply elem_of_cons in Hok as [->|Hok]; [done|]).
    by apply elem_of_nil in Hok.
  - assert (Ha := be_field 4 chflow). assert (Hb := be_field 4 flowrep).
    generalize dependent (be32 chflow). generalize dependent (be32 flowrep).
    intros b [Hb Hbv] a [Ha Hav]. simpl.
    rewrite zdrop_0, ztake_app_l, ztake_all by lia.
    rewrite (zdrop_app_r 4), Ha, zdrop_0, ztake_app_l, ztake_all by lia.
    by rewrite Hav, Hbv, !Z.mod_small by lia.
  - simpl. by rewrite be_val_be32, u32_small by lia.
  - done.
  - assert (Ha := be_field 1 prty). assert (Hb := be_field 1 dbit).
    assert (Hc := be_field 1 sbit).
    generalize dependent (be 1 prty). generalize dependent (be 1 dbit).
    generalize dependent (be 1 sbit).
    intros c [Hc Hcv] b [Hb Hbv] a [Ha Hav]. simpl.
    rewrite zdrop_0, (ztake_app_l 1 c), (ztake_all 1 c) by lia.
    rewrite (zdrop_app_r 1 c), Hc, zdrop_0, (ztake_app_l 1 a), (ztake_all 1 a) by lia.
    rewrite (zdrop_app_r 2), Hc by lia. change (2 - Z.of_nat 1) with 1.
    rewrite (zdrop_app_r 1), Ha, zdrop_0, (ztake_all 1 b) by lia.
    by rewrite Hav, Hbv, Hcv, !Z.mod_small by lia.
Qed.

(** A buffer that holds the whole packet holds the unset bytes. *)
Lemma junk_of msg (pbuf : list byte) :
  msg_size msg <= zlen pbuf -> junk_ok msg (ztake 4 (zdrop off_xofflimit pbuf)).
Proof.
  unfold msg_size. intros. destruct msg; simpl; try done.
  unfold off_xofflimit. zlen_lia.
Qed.

(** C36: a request packed into a buffer that is large enough is read back by a
    peer as the same request with the same transaction number, whatever the
    buffer held before and whatever follows in the stream; the packing
    function reports the length of the packet and writes nothing behind it. *)
Theorem vc_pack_roundtrip msg pbuf tid buflen rest :
  msg_ok msg -> 0 <= tid < 2 ^ 32 -> msg_size msg <= buflen <= zlen pbuf ->
  exists m f,
    vc_pack msg pbuf tid buflen = Some (msg_size msg, m) /\
    zdrop (msg_size msg) m = zdrop (msg_size msg) pbuf /\
    zlen m = zlen pbuf /\
    unframe (ztake (msg_size msg) m ++ rest) = Some (f, rest) /\
    f_tid f = tid /\ frame_msg f = Some msg.
Proof.
  intros Hok Ht Hs. pose proof (junk_of msg pbuf ltac:(lia)) as Hj.
  set (f := msg_frame (ztake 4 (zdrop off_xofflimit pbuf)) tid msg).
  assert (Hlen : zlen (frame_bytes f) = msg_size msg).
  { rewrite zlen_frame_bytes. by apply msg_frame_size. }
  exists (frame_bytes f ++ zdrop (msg_size msg) pbuf), f. split_and!.
  - rewrite vc_pack_packed by done. unfold packed. fold f.
    by rewrite <- zlen_frame_bytes, Hlen.
  - by rewrite zdrop_app_r, Hlen, Z.sub_diag, zdrop_0 by lia.
  - pose proof (zlen_nonneg (frame_bytes f)). rewrite zlen_app, zlen_zdrop; lia.
  - rewrite ztake_app_l, ztake_all by lia. apply unframe_frame. by apply msg_frame_ok.
  - by destruct msg.
  - by apply frame_msg_frame.
Qed.

Lemma vc_pack_roundtrip_witness :
  exists m f,
    vc_pack (M_hflow 1 64) (replicate 48 Byte.xaa) 7 48 = Some (36, m) /\
    zdrop 36 m = zdrop 36 (replicate 48 Byte.xaa) /\
    zlen m = 48 /\
    unframe (ztake 36 m ++ [Byte.x01]) = Some (f, [Byte.x01]) /\
    f_tid f = 7 /\ frame_msg f = Some (M_hflow 1 64).
Proof.
  apply (vc_pack_roundtrip (M_hflow 1 64)); [vm_compute; intuition congruence|lia|].
  vm_compute. intuition congruence.
Defined.

(** ** Replies

    A checking function looks at the header and the two parameters; on a
    packet that is there it never reads outside of the buffer, and it accepts
    a packet exactly when its fields are the expected ones. *)

Lemma bool_decide_be32 x y :
  0 <= x < 2 ^ 32 -> bool_decide (be32 x ≠ be32 y) = negb (x =? u32 y).
Proof.
  intros. case_bool_decide as Hd; destruct (Z.eqb_spec x (u32 y)) as [->|Hn]; simpl; try done.
  - destruct Hd. by rewrite be32_u32.
  - destruct Hn. apply be_inj in Hd. rewrite Z.mod_small in Hd by lia. done.
Qed.

Lemma bool_decide_be16 x y :
  0 <= x < 2 ^ 16 -> bool_decide (be16 x ≠ be16 y) = negb (x =? u16 y).
Proof.
  intros. case_bool_decide as Hd; destruct (Z.eqb_spec x (u16 y)) as [->|Hn]; simpl; try done.
  - destruct Hd. by rewrite be16_u16.
  - destruct Hn. apply be_inj in Hd. rewrite Z.mod_small in Hd by lia. done.
Qed.

(** 0 for accepted, -1 for refused. *)
Definition verdict (b : bool) : Z := if b then 0 else -1.

Lemma vc_check_hdr_spec f rest cmd len :
  frame_ok f ->
  vc_check_hdr (frame_bytes f ++ rest) cmd len =
    Some (verdict ((f_cmd f =? u16 cmd) && (zlen (f_ext f) =? u16 len))).
Proof.
  intros (_ & Hc & _ & _ & He). pose proof (zlen_nonneg (f_ext f)).
  unfold vc_check_hdr. rewrite load_pid, load_cmd, load_len.
  cbn [mbind option_bind].
  rewrite bool_decide_false by (intros Hn; by apply Hn).
  rewrite !bool_decide_be16 by lia.
  destruct (f_cmd f =? _); simpl; [|done]. by destruct (_ =? _).
Qed.

(** The common tail of [vc_check_xmit] and [vc_check_open]. *)
Lemma check_params_spec f rest cmd p1 p2 :
  frame_ok f ->
  (r ← vc_check_hdr (frame_bytes f ++ rest) cmd 0;
   if truthy r then Some (-1) else
   f1 ← load off_p1 4 (frame_bytes f ++ rest);
   if bool_decide (f1 ≠ be32 p1) then Some (-1) else
   f2 ← load off_p2 4 (frame_bytes f ++ rest);
   if bool_decide (f2 ≠ be32 p2) then Some (-1) else Some 0) =
  Some (verdict ((f_cmd f =? u16 cmd) && (zlen (f_ext f) =? 0) &&
                 (f_p1 f =? u32 p1) && (f_p2 f =? u32 p2))).
Proof.
  intros Hf. rewrite vc_check_hdr_spec, load_p1, load_p2 by done.
  cbn [mbind option_bind]. change (u16 0) with 0.
  destruct Hf as (_ & _ & ? & ? & _). rewrite !bool_decide_be32 by lia.
  generalize (f_cmd f =? u16 cmd), (zlen (f_ext f) =? 0), (f_p1 f =? u32 p1), (f_p2 f =? u32 p2).
  by intros [] [] [] [].
Qed.

Lemma vc_check_xmit_spec f rest datalen stat buflen :
  frame_ok f -> 20 <= buflen ->
  vc_check_xmit (frame_bytes f ++ rest) datalen stat buflen =
    Some (verdict ((f_cmd f =? VCOM_CMD_WRITE) && (zlen (f_ext f) =? 0) &&
                   (f_p1 f =? u32 stat) && (f_p2 f =? u32 datalen))).
Proof.
  intros Hf Hb. unfold vc_check_xmit. rewrite (proj2 (Z.ltb_ge _ _)) by done.
  change (u16 (vc_ext_size sizeof_vc_attach_param)) with 0.
  rewrite check_params_spec by done. change (u16 VCOM_CMD_WRITE) with VCOM_CMD_WRITE.
  replace (u32 (u32 datalen)) with (u32 datalen); [done|].
  pose proof (u32_range datalen). by rewrite (u32_small (u32 datalen)).
Qed.

(** a write is acknowledged exactly by a packet with the write command,
    no payload, the expected status and the number of bytes of the write; a
    buffer of at least a packet's length is never read out of bounds. *)
Theorem vc_check_xmit_exact f rest datalen stat buflen :
  frame_ok f -> 20 <= buflen ->
  vc_check_xmit (frame_bytes f ++ rest) datalen stat buflen =
    Some (verdict ((f_cmd f =? VCOM_CMD_WRITE) && (zlen (f_ext f) =? 0) &&
                   (f_p1 f =? u32 stat) && (f_p2 f =? u32 datalen))).
Proof. apply vc_check_xmit_spec. Qed.

Definition ack_frame : frame := mk_frame 9 VCOM_CMD_WRITE STATUS_SUCCESS 5 [].

Lemma vc_check_xmit_exact_witness :
  vc_check_xmit (frame_bytes ack_frame ++ []) 5 STATUS_SUCCESS 20 = Some 0.
Proof.
  rewrite vc_check_xmit_exact; [reflexivity|vm_compute; intuition congruence|lia].
Defined.

(** an open is acknowledged exactly by a packet with the create command,
    no payload, status success and the number of the port; the device id
    plays no part. *)
Theorem vc_check_open_exact f rest dev port buflen :
  frame_ok f -> 20 <= buflen ->
  vc_check_open (frame_bytes f ++ rest) dev port buflen =
    Some (verdict ((f_cmd f =? VCOM_CMD_CREATE) && (zlen (f_ext f) =? 0) &&
                   (f_p1 f =? STATUS_SUCCESS) && (f_p2 f =? u32 port))).
Proof.
  intros Hf Hb. unfold vc_check_open. rewrite (proj2 (Z.ltb_ge _ _)) by done.
  change (u16 (vc_ext_size sizeof_vc_attach_param)) with 0.
  by rewrite check_params_spec by done.
Qed.

Lemma vc_check_open_exact_witness :
  vc_check_open (frame_bytes (mk_frame 1 VCOM_CMD_CREATE 0 3 []) ++ []) 0x3ee 3 20 = Some 0.
Proof.
  rewrite vc_check_open_exact; [reflexivity|vm_compute; intuition congruence|lia].
Defined.

(** The data length of a received packet is taken over only when the status is
    success and the announced and the attached length agree. *)
Lemma vc_check_recv_spec f rest buflen :
  frame_ok f ->
  vc_check_recv (frame_bytes f ++ rest) buflen =
    Some (if (f_p1 f =? 0) && (zlen (f_ext f) =? f_p2 f)
          then (0, Some (zlen (f_ext f))) else (-1, None)).
Proof.
  intros (_ & _ & Hp1 & Hp2 & He). pose proof (zlen_nonneg (f_ext f)).
  unfold vc_check_recv, get16, get32. rewrite load_len, load_p1, load_p2.
  cbn [mbind option_bind]. rewrite !be_val_be32, be_val_be16, !u32_small, u16_small by lia.
  unfold STATUS_SUCCESS.
  assert (Hs : forall x, 0 <= x < 2 ^ 32 -> forall y, 0 <= y < 2 ^ 16 -> (y =? s32 x) = (y =? x)).
  { intros x Hx y Hy. unfold s32.
    change (2 ^ 32) with 4294967296 in *. change (2 ^ 31) with 2147483648.
    rewrite mod_once by lia. case_if; [by replace (x + 2147483648 - 2147483648) with x by lia|].
    destruct (Z.eqb_spec y (x + 2147483648 - 4294967296 - 2147483648)), (Z.eqb_spec y x); lia || done. }
  rewrite (Z.eqb_sym (s32 _) 0), (Hs _ Hp1 0), (Z.eqb_sym 0), Hs by lia.
  destruct (f_p1 f =? 0) eqn:E1; simpl; [|done].
  destruct (zlen (f_ext f) =? f_p2 f) eqn:E2; simpl; [|done].
  bool_simpl. rewrite <- E2. by rewrite s32_small by lia.
Qed.

(** the hardware-flow packet sends four bytes of the packet buffer as it
    was before the call, in the place of the [xofflimit] field. *)
Theorem vc_pack_hflow_leaks pbuf tid chflow flowrep buflen :
  36 <= buflen <= zlen pbuf ->
  exists m, vc_pack_hflow pbuf tid chflow flowrep buflen = Some (36, m) /\
    load off_xofflimit 4 m = load off_xofflimit 4 pbuf.
Proof.
  intros Hb. rewrite vc_pack_hflow_spec by lia. unfold packed.
  assert (Hj : zlen (ztake 4 (zdrop off_xofflimit pbuf)) = 4)
    by (unfold off_xofflimit; zlen_lia).
  rewrite (load_Some _ _ pbuf) by (unfold off_xofflimit; lia).
  generalize dependent (ztake 4 (zdrop off_xofflimit pbuf)). intros junk Hj.
  eexists. split.
  - cbn [f_ext]. rewrite !zlen_app, Hj, !zlen_be. reflexivity.
  - unfold frame_bytes. cbn [f_tid f_cmd f_ext f_p1 f_p2]. rewrite <- !app_assoc.
    change off_xofflimit with 32.
    repeat (rewrite load_skip by zlen_lia; rewrite ?zlen_be).
    by rewrite load_head by done.
Qed.

Lemma vc_pack_hflow_leaks_witness :
  exists m, vc_pack_hflow (replicate 36 Byte.xaa) 1 2 3 36 = Some (36, m) /\
    load off_xofflimit 4 m = Some (replicate 4 Byte.xaa).
Proof.
  destruct (vc_pack_hflow_leaks (replicate 36 Byte.xaa) 1 2 3 36) as (m & H1 & H2);
    [vm_compute; intuition congruence|].
  exists m. split; [exact H1|]. rewrite H2. reflexivity.
Defined.
