(* ===== verification/Tty.v ===== *)
(** * The serial core, as the driver sees it

    The Linux tty layer is not part of the repository.  [TtyIf] lists the
    calls [driver/adv_uart.c] makes into it, on a state of type [T];
    [TtyLaws] says what the driver relies on, in terms of two views: the
    bytes the line discipline was given ([tty_received], oldest first) and
    the bytes written by the application that wait for the driver
    ([xmit_fifo], oldest first).  The laws restate the kernel's documentation
    of these calls; [SimTty] is an implementation of them. *)

From S2P Require Import Prelude.

Record ktermios := mk_termios { c_iflag : Z; c_cflag : Z }.

Class TtyIf (T : Type) := {
  (** bytes handed to the flip buffer; the number accepted is returned *)
  tty_insert_flip_string : T -> list byte -> Z * T;
  tty_flip_buffer_push : T -> T;
  kfifo_is_empty : T -> bool;
  (** the linear run at the start of the transmit fifo, [n] bytes at most:
      what the returned pointer and length describe *)
  kfifo_out_linear_ptr : T -> Z -> list byte;
  uart_xmit_advance : T -> Z -> T;
  uart_write_wakeup : T -> T;
  uart_get_baud_rate : T -> ktermios -> ktermios -> Z -> Z -> Z;
  uart_update_timeout : T -> Z -> Z -> T;
  (** views *)
  tty_received : T -> list byte;
  xmit_fifo : T -> list byte;
}.

Class TtyLaws (T : Type) `{TtyIf T} := {
  tty_insert_range t bs :
    0 <= fst (tty_insert_flip_string t bs) <= zlen bs;
  tty_insert_received t bs :
    tty_received (snd (tty_insert_flip_string t bs)) =
      tty_received t ++ ztake (fst (tty_insert_flip_string t bs)) bs;
  tty_insert_fifo t bs :
    xmit_fifo (snd (tty_insert_flip_string t bs)) = xmit_fifo t;
  tty_push_received t : tty_received (tty_flip_buffer_push t) = tty_received t;
  tty_push_fifo t : xmit_fifo (tty_flip_buffer_push t) = xmit_fifo t;
  kfifo_is_empty_spec t : kfifo_is_empty t = true <-> xmit_fifo t = [];
  kfifo_out_prefix t n :
    0 <= n -> kfifo_out_linear_ptr t n =
      ztake (zlen (kfifo_out_linear_ptr t n)) (xmit_fifo t);
  kfifo_out_bound t n : 0 <= n -> zlen (kfifo_out_linear_ptr t n) <= n;
  kfifo_out_progress t n :
    0 < n -> xmit_fifo t <> [] -> kfifo_out_linear_ptr t n <> [];
  uart_advance_fifo t n :
    0 <= n <= zlen (xmit_fifo t) ->
    xmit_fifo (uart_xmit_advance t n) = zdrop n (xmit_fifo t);
  uart_advance_received t n : tty_received (uart_xmit_advance t n) = tty_received t;
  uart_wakeup_received t : tty_received (uart_write_wakeup t) = tty_received t;
  uart_wakeup_fifo t : xmit_fifo (uart_write_wakeup t) = xmit_fifo t;
  uart_timeout_received t c b : tty_received (uart_update_timeout t c b) = tty_received t;
  uart_timeout_fifo t c b : xmit_fifo (uart_update_timeout t c b) = xmit_fifo t;
}.

(** A port whose flip buffer takes any number of bytes. *)
Class TtyEager (T : Type) `{TtyIf T} :=
  tty_insert_all t bs : fst (tty_insert_flip_string t bs) = zlen bs.

Create Rewrite HintDb tty.
#[global] Hint Rewrite
  @tty_insert_received @tty_insert_fifo @tty_push_received @tty_push_fifo
  @uart_advance_received @uart_wakeup_received @uart_wakeup_fifo
  @uart_timeout_received @uart_timeout_fifo using typeclasses eauto : tty.

Lemma tty_out_split {T} `{TtyLaws T} t n :
  0 <= n ->
  kfifo_out_linear_ptr t n ++
    xmit_fifo (uart_xmit_advance t (zlen (kfifo_out_linear_ptr t n))) = xmit_fifo t.
Proof.
  intros Hn. pose proof (kfifo_out_prefix t n Hn) as Hp.
  pose proof (zlen_nonneg (kfifo_out_linear_ptr t n)) as Hnn.
  assert (Hl : zlen (kfifo_out_linear_ptr t n) <= zlen (xmit_fifo t)).
  { rewrite Hp at 1. rewrite zlen_ztake_min. lia. }
  rewrite uart_advance_fifo by lia. rewrite Hp at 1. apply ztake_zdrop.
Qed.

(** ** An implementation of the interface

    The transmit fifo is a circular page, as in the kernel; the flip buffer
    takes [quota] bytes per call at most. *)

Record sim_tty (quota : option Z) := mk_sim {
  sim_received : list byte;
  (** the part of the fifo before its wrap-around point, and the rest *)
  sim_fifo1 : list byte;
  sim_fifo2 : list byte;
}.
#[global] Arguments mk_sim {_} _ _ _.
#[global] Arguments sim_received {_} _.
#[global] Arguments sim_fifo1 {_} _.
#[global] Arguments sim_fifo2 {_} _.

Section sim.
Context {quota : option Z}.
Implicit Types t : sim_tty quota.

Definition sim_insert t (bs : list byte) : Z * sim_tty quota :=
  let n := match quota with
           | Some q => Z.min (Z.max 0 q) (zlen bs) | None => zlen bs end in
  (n, mk_sim (sim_received t ++ ztake n bs) (sim_fifo1 t) (sim_fifo2 t)).

Definition sim_out t (n : Z) : list byte :=
  match sim_fifo1 t with [] => ztake n (sim_fifo2 t) | l => ztake n l end.

Definition sim_advance t (n : Z) : sim_tty quota :=
  let f1 := sim_fifo1 t in
  mk_sim (sim_received t) (zdrop n f1) (zdrop (n - zlen f1) (sim_fifo2 t)).
End sim.

#[export] Instance sim_tty_if quota : TtyIf (sim_tty quota) := {
  tty_insert_flip_string := sim_insert;
  tty_flip_buffer_push t := t;
  kfifo_is_empty t := zlen (sim_fifo1 t ++ sim_fifo2 t) =? 0;
  kfifo_out_linear_ptr := sim_out;
  uart_xmit_advance := sim_advance;
  uart_write_wakeup t := t;
  uart_get_baud_rate _ termios _ lo hi := Z.max lo (Z.min hi (Z.land (c_cflag termios) 15 * 9600));
  uart_update_timeout t _ _ := t;
  tty_received := sim_received;
  xmit_fifo t := sim_fifo1 t ++ sim_fifo2 t;
}.

#[export] Instance sim_tty_laws quota : TtyLaws (sim_tty quota).
Proof.
  split; simpl; try done.
  - intros [r f1 f2] bs; simpl; pose proof (zlen_nonneg bs); destruct quota; lia.
  - intros t. rewrite Z.eqb_eq. split; [apply zlen_0_nil|by intros ->].
  - intros [r [|x f1] f2] n Hn; unfold sim_out; simpl.
    + by rewrite ztake_zlen_ztake.
    + rewrite app_comm_cons. rewrite ztake_app_l by (rewrite zlen_ztake_min; lia).
      by rewrite ztake_zlen_ztake.
  - intros [r [|x f1] f2] n Hn; unfold sim_out; simpl; rewrite zlen_ztake_min; lia.
  - intros [r [|x f1] f2] n Hn; unfold sim_out; simpl.
    + intros Hf Hz. by apply (ztake_nonempty n f2).
    + intros _. by apply ztake_nonempty.
  - intros [r f1 f2] n Hn; simpl in *. unfold sim_advance; simpl.
    unfold zdrop, zlen in *. rewrite drop_app. f_equal. f_equal. lia.
Qed.

(** The port of the witnesses: a flip buffer that takes everything. *)
Abbreviation eager_tty := (sim_tty None).

#[export] Instance eager_tty_eager : TtyEager eager_tty.
Proof. done. Qed.
