(* ===== verification/Uart.v ===== *)
(** * The serial side of the driver

    [driver/adv_uart.c] with [driver/advtype.h], the port structures of
    [driver/advvcom.h] and the transmit routine of
    [driver/legacy/uart/adv_uart_xmit.h].

    One port is one [adv_vcom]: the two rings, the attributes, the fields of
    [struct uart_port] the driver changes and the state of the tty layer
    behind it.  [adv_uart_init] crosses the rings: what the uart transmits
    ([up->tx]) is what the daemon receives ([vcomdata->rx]), and the other way
    round; [up_tx] and [up_rx] are the uart's names.

    A wait queue is a flag that says whether somebody waits in it, and the
    wake-ups are recorded in [wakes].  Every function that touches a ring or
    the attributes holds the spin lock of it, so one function is one step. *)

From S2P Require Import Prelude RingBuf Tty.

Definition ADV_PAIR_NONE : Z := 0.
Definition ADV_PAIR_ODD : Z := 1.
Definition ADV_PAIR_EVEN : Z := 2.
Definition ADV_PAIR_MARK : Z := 3.
Definition ADV_PAIR_SPACE : Z := 4.
Definition ADV_FLOW_NONE : Z := 0.
Definition ADV_FLOW_XONXOFF : Z := 1.
Definition ADV_FLOW_RTSCTS : Z := 2.
Definition ADV_STOP_1 : Z := 0.
Definition ADV_STOP_2 : Z := 2.

Definition ADV_MS_DTR : Z := 0x002.
Definition ADV_MS_RTS : Z := 0x004.
Definition ADV_MS_CTS : Z := 0x010.
Definition ADV_MS_DSR : Z := 0x020.
Definition ADV_MS_RNG : Z := 0x040.
Definition ADV_MS_CAR : Z := 0x080.
Definition ADV_MS_RI : Z := ADV_MS_RNG.

(** ** Data *)

Record adv_port_info := mk_info {
  i_is_open : Z;
  i_baud : Z;
  i_flowctl : Z;
  i_byte : Z;
  i_pair : Z;
  i_stop : Z;
  i_ms : Z;
}.

#[export] Instance adv_port_info_eq_dec : EqDecision adv_port_info.
Proof. solve_decision. Defined.

Definition set_is_open v i :=
  mk_info v (i_baud i) (i_flowctl i) (i_byte i) (i_pair i) (i_stop i) (i_ms i).
Definition set_ms v i :=
  mk_info (i_is_open i) (i_baud i) (i_flowctl i) (i_byte i) (i_pair i) (i_stop i) v.

(** The page behind [data] as an array of port infos. *)
Record adv_port_att := mk_att {
  _attr : adv_port_info;
  mctrl : Z;
  _newbie : Z;
  index : Z;
  throttled : Z;
  att_size : Z;
  att_begin : Z;
  usr_ptr : Z;
  att_data : list adv_port_info;
}.

Definition set__attr v a :=
  mk_att v (mctrl a) (_newbie a) (index a) (throttled a) (att_size a) (att_begin a)
    (usr_ptr a) (att_data a).
Definition set_mctrl_field v a :=
  mk_att (_attr a) v (_newbie a) (index a) (throttled a) (att_size a) (att_begin a)
    (usr_ptr a) (att_data a).
Definition set__newbie v a :=
  mk_att (_attr a) (mctrl a) v (index a) (throttled a) (att_size a) (att_begin a)
    (usr_ptr a) (att_data a).
Definition set_throttled v a :=
  mk_att (_attr a) (mctrl a) (_newbie a) (index a) v (att_size a) (att_begin a)
    (usr_ptr a) (att_data a).
Definition set_usr_ptr v a :=
  mk_att (_attr a) (mctrl a) (_newbie a) (index a) (throttled a) (att_size a) (att_begin a)
    v (att_data a).
Definition set_att_data v a :=
  mk_att (_attr a) (mctrl a) (_newbie a) (index a) (throttled a) (att_size a) (att_begin a)
    (usr_ptr a) v.

Record uart_icount := mk_icount { cts : Z; dsr : Z; dcd : Z; rng : Z }.

Inductive waitq := WQ_tx | WQ_rx | WQ_attr | WQ_msr.
#[export] Instance waitq_eq_dec : EqDecision waitq.
Proof. solve_decision. Defined.

Record adv_vcom (T : Type) := mk_vcom {
  tx : K.ring_buf;
  rx : K.ring_buf;
  attr : adv_port_att;
  (** [port->status] and [port->icount] of the uart *)
  port_status : Z;
  icount : uart_icount;
  tty : T;
  (** who waits: [waitqueue_active] of the three queues *)
  active : waitq -> bool;
  wakes : list waitq;
}.
#[global] Arguments mk_vcom {T} _ _ _ _ _ _ _ _.
#[global] Arguments tx {T} _.
#[global] Arguments rx {T} _.
#[global] Arguments attr {T} _.
#[global] Arguments port_status {T} _.
#[global] Arguments icount {T} _.
#[global] Arguments tty {T} _.
#[global] Arguments active {T} _ _.
#[global] Arguments wakes {T} _.

Section setters.
Context {T : Type}.
Implicit Types d : adv_vcom T.
Definition set_tx v d : adv_vcom T :=
  mk_vcom v (rx d) (attr d) (port_status d) (icount d) (tty d) (active d) (wakes d).
Definition set_rx v d : adv_vcom T :=
  mk_vcom (tx d) v (attr d) (port_status d) (icount d) (tty d) (active d) (wakes d).
Definition set_attr v d : adv_vcom T :=
  mk_vcom (tx d) (rx d) v (port_status d) (icount d) (tty d) (active d) (wakes d).
Definition set_port_status v d : adv_vcom T :=
  mk_vcom (tx d) (rx d) (attr d) v (icount d) (tty d) (active d) (wakes d).
Definition set_icount v d : adv_vcom T :=
  mk_vcom (tx d) (rx d) (attr d) (port_status d) v (tty d) (active d) (wakes d).
Definition set_tty v d : adv_vcom T :=
  mk_vcom (tx d) (rx d) (attr d) (port_status d) (icount d) v (active d) (wakes d).
Definition set_active v d : adv_vcom T :=
  mk_vcom (tx d) (rx d) (attr d) (port_status d) (icount d) (tty d) v (wakes d).

Definition wake_up_interruptible (q : waitq) d : adv_vcom T :=
  mk_vcom (tx d) (rx d) (attr d) (port_status d) (icount d) (tty d) (active d) (q :: wakes d).

Definition wake_if_active (q : waitq) d :=
  if active d q then wake_up_interruptible q d else d.

(** The uart's names: [adv_serial_port->tx = &vcomdata->rx] and
    [adv_serial_port->rx = &vcomdata->tx]. *)
Definition up_tx d := rx d.
Definition up_rx d := tx d.
Definition set_up_tx v d := set_rx v d.
Definition set_up_rx v d := set_tx v d.
Definition WQ_up_tx := WQ_rx.
Definition WQ_up_rx := WQ_tx.

Definition set_info (f : adv_port_info -> adv_port_info) d :=
  set_attr (set__attr (f (_attr (attr d))) (attr d)) d.
End setters.

Definition ring_enable (b : K.ring_buf) : K.ring_buf :=
  K.set_status (Z.lor (K.status b) ADV_RING_BUF_ENABLED) b.
Definition ring_disable (b : K.ring_buf) : K.ring_buf :=
  K.set_status (Z.land (K.status b) (Z.lnot ADV_RING_BUF_ENABLED)) b.
Definition ring_mark_clean (b : K.ring_buf) : K.ring_buf :=
  K.set_status (Z.lor (K.status b) ADV_RING_BUF_CLEAN) b.

(** ** [flush_attr_info] *)

Definition ADV_ATTRBUF_NUM : Z := 2.

(** [None]: [usr_ptr] is outside of the page. *)
Definition flush_attr_info (a : adv_port_att) : option (Z * adv_port_att) :=
  let a := if truthy (_newbie a) then set__newbie 0 a
           else set_usr_ptr (Z.rem (usr_ptr a + 1) ADV_ATTRBUF_NUM) a in
  if (0 <=? usr_ptr a) && (usr_ptr a <? zlen (att_data a)) then
    let a := set_att_data (<[Z.to_nat (usr_ptr a) := _attr a]> (att_data a)) a in
    Some (usr_ptr a, a)
  else None.

Section uart.
Context {T : Type} `{TtyIf T}.
Implicit Types d : adv_vcom T.

(** ** Application to daemon: [adv_uart_xmit] *)

(** The loop of the current kernels.  [None]: a store outside of the page, or
    no fuel left. *)
Fixpoint xmit_loop (fuel : nat) d : option (adv_vcom T) :=
  match fuel with
  | O => None
  | S fuel =>
      if kfifo_is_empty (tty d) then Some d else
      let tx_tail := get_rb_tail (up_tx d) in
      let tx_lsize := get_rb_lroom (up_tx d) in
      if tx_lsize =? 0 then Some d else
      let fifo_tail := kfifo_out_linear_ptr (tty d) tx_lsize in
      let mcplen := zlen fifo_tail in
      if mcplen =? 0 then Some d else
      m ← store tx_tail fifo_tail (K.data (up_tx d));
      let d := set_up_tx (K.set_data m (up_tx d)) d in
      let d := set_tty (uart_xmit_advance (tty d) mcplen) d in
      let d := set_up_tx (move_rb_tail (up_tx d) mcplen) d in
      xmit_loop fuel d
  end.

Definition adv_uart_xmit d : option (adv_vcom T) :=
  if get_rb_room (up_tx d) =? 0 then Some d
  else xmit_loop (S (length (xmit_fifo (tty d)))) d.

Definition adv_uart_update_xmit d : option (adv_vcom T) :=
  let is_open := i_is_open (_attr (attr d)) in
  if truthy is_open then
    d ← (if is_rb_empty (up_tx d) then adv_uart_xmit d else Some d);
    Some (set_tty (uart_write_wakeup (tty d)) d)
  else Some d.

Definition adv_uart_stop_tx d := set_up_tx (ring_disable (up_tx d)) d.

Definition adv_uart_start_tx d : option (adv_vcom T) :=
  let d := set_up_tx (ring_enable (up_tx d)) d in
  d ← adv_uart_xmit d;
  Some (wake_if_active WQ_up_tx d).

Definition adv_uart_stop_rx d := set_up_rx (ring_disable (up_rx d)) d.

(** ** Daemon to application: [adv_uart_recv_chars] *)

(** The loop: what is left of [count], and the state. *)
Fixpoint recv_loop (max_retry : nat) (count : Z) d : option (Z * adv_vcom T) :=
  match max_retry with
  | O => Some (count, d)
  | S max_retry =>
      if 0 <? count then
        let rx_ll := get_rb_llength (up_rx d) in
        let rx_hd := get_rb_head (up_rx d) in
        bs ← load rx_hd rx_ll (K.data (up_rx d));
        let '(ret, t) := tty_insert_flip_string (tty d) bs in
        let d := set_tty t d in
        if 0 <? ret then
          recv_loop max_retry (count - ret) (set_up_rx (move_rb_head (up_rx d) ret) d)
        else Some (count, d)
      else Some (count, d)
  end.

Definition adv_uart_recv_chars d : option (adv_vcom T) :=
  if truthy (throttled (attr d)) then Some d else
  if Z.land (K.status (up_rx d)) ADV_RING_BUF_ENABLED =? 0 then Some d else
  let rx_l := get_rb_length (up_rx d) in
  r ← recv_loop 3 rx_l d;
  let '(count, d) := r in
  if negb (count =? rx_l) then
    let d := set_tty (tty_flip_buffer_push (tty d)) d in
    Some (wake_if_active WQ_up_rx d)
  else Some d.

(** ** Modem lines *)

Definition TIOCM_DTR : Z := 0x002.
Definition TIOCM_RTS : Z := 0x004.
Definition TIOCM_CTS : Z := 0x020.
Definition TIOCM_CAR : Z := 0x040.
Definition TIOCM_RI : Z := 0x080.
Definition TIOCM_DSR : Z := 0x100.
Definition TIOCSER_TEMT : Z := 1.

Definition adv_uart_ms d (status : Z) : Z * adv_vcom T :=
  let ms := mctrl (attr d) in
  let d := set_attr (set_mctrl_field status (attr d)) d in
  let ic := icount d in
  let delta := Z.lxor status ms in
  let bump line n := if delta &? line then n + 1 else n in
  let d := set_icount (mk_icount (bump ADV_MS_CTS (cts ic)) (bump ADV_MS_DSR (dsr ic))
                         (bump ADV_MS_CAR (dcd ic)) (bump ADV_MS_RI (rng ic))) d in
  (status, wake_up_interruptible WQ_msr d).

Definition adv_uart_tx_empty d : Z :=
  if is_rb_empty (up_tx d) then TIOCSER_TEMT else 0.

Definition adv_uart_get_mctrl d : Z :=
  let m := mctrl (attr d) in
  let status := 0 in
  let status := if m &? ADV_MS_CTS then Z.lor status TIOCM_CTS else status in
  let status := if m &? ADV_MS_DSR then Z.lor status TIOCM_DSR else status in
  let status := if m &? ADV_MS_CAR then Z.lor status TIOCM_CAR else status in
  let status := if m &? ADV_MS_RI then Z.lor status TIOCM_RI else status in
  status.

Definition adv_uart_set_mctrl d (mctrl : Z) : adv_vcom T :=
  let status := 0 in
  let status := if mctrl &? TIOCM_RTS then Z.lor status ADV_MS_RTS else status in
  let status := if mctrl &? TIOCM_DTR then Z.lor status ADV_MS_DTR else status in
  wake_if_active WQ_attr (set_info (set_ms status) d).

(** ** Opening, closing, settings *)

Definition adv_uart_startup d : adv_vcom T :=
  let d := set_info (set_is_open 1) d in
  let d := set_attr (set_throttled 0 (attr d)) d in
  let d := set_up_rx (ring_enable (up_rx d)) d in
  let d := set_up_tx (ring_enable (up_tx d)) d in
  let d := wake_if_active WQ_attr d in
  let d := wake_if_active WQ_up_rx d in
  wake_if_active WQ_up_tx d.

Definition adv_uart_shutdown d : adv_vcom T :=
  wake_if_active WQ_attr (set_info (set_is_open 0) d).

Definition CSIZE : Z := 0x30.
Definition CS5 : Z := 0x00.
Definition CS6 : Z := 0x10.
Definition CS7 : Z := 0x20.
Definition CS8 : Z := 0x30.
Definition CSTOPB : Z := 0x40.
Definition PARENB : Z := 0x100.
Definition PARODD : Z := 0x200.
Definition CMSPAR : Z := 0x40000000.
Definition CRTSCTS : Z := 0x80000000.
Definition IXOFF : Z := 0x1000.
Definition UPSTAT_AUTORTS : Z := 0x4.
Definition UPSTAT_AUTOCTS : Z := 0x8.
Definition UPSTAT_AUTOXOFF : Z := 0x10.

Definition termios_byte (c_cflag : Z) : Z :=
  let s := Z.land c_cflag CSIZE in
  if s =? CS5 then 5 else if s =? CS6 then 6 else if s =? CS7 then 7 else 8.

Definition termios_pair (c_cflag : Z) : Z :=
  let p := Z.land c_cflag (Z.lor PARODD (Z.lor CMSPAR PARENB)) in
  if p =? PARENB then ADV_PAIR_EVEN
  else if p =? Z.lor PARODD PARENB then ADV_PAIR_ODD
  else if p =? Z.lor CMSPAR PARENB then ADV_PAIR_SPACE
  else if p =? Z.lor PARODD (Z.lor CMSPAR PARENB) then ADV_PAIR_MARK
  else ADV_PAIR_NONE.

Definition termios_stop (c_cflag : Z) : Z :=
  if c_cflag &? CSTOPB then ADV_STOP_2 else ADV_STOP_1.

(** The flow control mode and the new [port->status]. *)
Definition termios_flow (c_cflag c_iflag status : Z) : Z * Z :=
  let clr s b := Z.land s (Z.lnot b) in
  if c_cflag &? CRTSCTS then
    (ADV_FLOW_RTSCTS,
     clr (Z.lor (Z.lor status UPSTAT_AUTOCTS) UPSTAT_AUTORTS) UPSTAT_AUTOXOFF)
  else if c_iflag &? IXOFF then
    (ADV_FLOW_XONXOFF,
     clr (clr (Z.lor status UPSTAT_AUTOXOFF) UPSTAT_AUTOCTS) UPSTAT_AUTORTS)
  else
    (ADV_FLOW_NONE,
     clr (clr (clr status UPSTAT_AUTOCTS) UPSTAT_AUTORTS) UPSTAT_AUTOXOFF).

Definition adv_uart_set_termios d (termios old : ktermios) : adv_vcom T :=
  let baud := uart_get_baud_rate (tty d) termios old 50 921600 in
  let '(flow, status) := termios_flow (c_cflag termios) (c_iflag termios) (port_status d) in
  let i := _attr (attr d) in
  let d := set_info (fun i => mk_info (i_is_open i) baud flow (termios_byte (c_cflag termios))
             (termios_pair (c_cflag termios)) (termios_stop (c_cflag termios)) (i_ms i)) d in
  let d := set_port_status status d in
  let d := set_tty (uart_update_timeout (tty d) (c_cflag termios) baud) d in
  wake_if_active WQ_attr d.

Definition adv_uart_throttle d : adv_vcom T :=
  wake_if_active WQ_attr (set_attr (set_throttled 1 (attr d)) d).

Definition adv_uart_unthrottle d : option (adv_vcom T) :=
  adv_uart_recv_chars (set_attr (set_throttled 0 (attr d)) d).
End uart.

(** ** Kernels before 6.10: the transmit fifo is a [circ_buf]

    The routine works on the kernel's [struct circ_buf], a page with a head
    and a tail index, whose macros are written out. *)

Definition UART_XMIT_SIZE : Z := 4096.

Record circ_buf := mk_circ { c_buf : list byte; c_head : Z; c_tail : Z }.

Definition uart_circ_empty (x : circ_buf) : bool := c_head x =? c_tail x.
Definition uart_circ_chars_pending (x : circ_buf) : Z :=
  Z.land (c_head x - c_tail x) (UART_XMIT_SIZE - 1).

Fixpoint legacy_xmit_loop (max_retry : nat) (count tx_lsize : Z)
    (x : circ_buf) (tx : K.ring_buf) : option (circ_buf * K.ring_buf) :=
  match max_retry with
  | O => Some (x, tx)
  | S max_retry =>
      let tx_tail := get_rb_tail tx in
      let mcplen := if tx_lsize <? count then tx_lsize else count in
      let mcplen := if Z.land (c_tail x + mcplen) (UART_XMIT_SIZE - 1) <? c_tail x
                    then UART_XMIT_SIZE - c_tail x else mcplen in
      bs ← load (c_tail x) mcplen (c_buf x);
      m ← store tx_tail bs (K.data tx);
      let tx := K.set_data m tx in
      let count := count - mcplen in
      let tx := move_rb_tail tx mcplen in
      let x := mk_circ (c_buf x) (c_head x)
                 (Z.land (c_tail x + mcplen) (UART_XMIT_SIZE - 1)) in
      let tx_lsize := get_rb_lroom tx in
      if 0 <? count then legacy_xmit_loop max_retry count tx_lsize x tx
      else Some (x, tx)
  end.

Definition legacy_adv_uart_xmit (x : circ_buf) (tx : K.ring_buf)
  : option (circ_buf * K.ring_buf) :=
  if uart_circ_empty x then Some (x, tx) else
  if get_rb_room tx =? 0 then Some (x, tx) else
  let count := uart_circ_chars_pending x in
  let tx_size := get_rb_room tx in
  let tx_lsize := get_rb_lroom tx in
  let count := if count <? tx_size then count else tx_size in
  legacy_xmit_loop 3 count tx_lsize x tx.

(** ** The transmit direction loses nothing *)

(** What a piece of code may change: the uart's transmit ring and the tty. *)
Definition xmit_frame {T} (d d' : adv_vcom T) : Prop :=
  exists r t, d' = set_tty t (set_up_tx r d).

Lemma xmit_frame_refl {T} (d : adv_vcom T) : xmit_frame d d.
Proof. exists (up_tx d), (tty d). by destruct d. Qed.

Lemma xmit_frame_trans {T} (d1 d2 d3 : adv_vcom T) :
  xmit_frame d1 d2 -> xmit_frame d2 d3 -> xmit_frame d1 d3.
Proof. intros (r1 & t1 & ->) (r2 & t2 & ->). by exists r2, t2. Qed.

Lemma put_piece_keeps b bs b' :
  put_piece b bs = Some b' -> K.status (move_rb_tail b' (zlen bs)) = K.status b /\
    K.size (move_rb_tail b' (zlen bs)) = K.size b.
Proof. by intros (m & _ & ->)%put_piece_inv. Qed.

Section uart_proofs.
Context {T : Type} `{TtyLaws T}.
Implicit Types d : adv_vcom T.

Definition xmit_done d d' : Prop :=
  ring_ok (up_tx d') /\
  contents (up_tx d') ++ xmit_fifo (tty d') = contents (up_tx d) ++ xmit_fifo (tty d) /\
  contents (up_tx d) `prefix_of` contents (up_tx d') /\
  tty_received (tty d') = tty_received (tty d) /\
  K.status (up_tx d') = K.status (up_tx d) /\ K.size (up_tx d') = K.size (up_tx d) /\
  xmit_frame d d'.

Lemma xmit_done_refl d : ring_ok (up_tx d) -> xmit_done d d.
Proof. intros. unfold xmit_done. split_and!; auto using xmit_frame_refl. Qed.

Lemma xmit_done_trans d1 d2 d3 : xmit_done d1 d2 -> xmit_done d2 d3 -> xmit_done d1 d3.
Proof.
  intros (? & ? & ? & ? & ? & ? & ?) (? & ? & ? & ? & ? & ? & ?).
  unfold xmit_done. split_and!; try congruence; eauto using xmit_frame_trans. by etrans.
Qed.

(** One round: a linear piece of the fifo goes to the end of the ring. *)
Lemma xmit_step d bs :
  ring_ok (up_tx d) -> bs = kfifo_out_linear_ptr (tty d) (get_rb_lroom (up_tx d)) ->
  exists m, store (K.tail (up_tx d)) bs (K.data (up_tx d)) = Some m /\
    xmit_done d (set_up_tx (move_rb_tail (K.set_data m (up_tx d)) (zlen bs))
                  (set_tty (uart_xmit_advance (tty d) (zlen bs)) d)).
Proof.
  intros Hok Hbs. pose proof (ring_ok_geom _ Hok) as Hg.
  destruct (rb_lroom_range _ Hg) as [[Hlr _] _].
  assert (Hfit : zlen bs <= get_rb_lroom (up_tx d)) by (subst; by apply kfifo_out_bound).
  destruct (put_piece_safe _ _ Hok Hfit) as [b' Hp].
  pose proof (put_piece_contents _ _ _ Hok Hfit Hp) as (Hok' & Hc & _).
  pose proof (put_piece_keeps _ _ _ Hp) as [Hst Hsz].
  apply put_piece_inv in Hp as (m & Hm & ->). exists m. split; [done|].
  unfold xmit_done. split_and!; simpl in *; try done.
  - rewrite Hc. unfold Fifo.enq. rewrite <- app_assoc. f_equal. subst bs.
    by apply tty_out_split.
  - rewrite Hc. by apply prefix_app_r.
  - apply uart_advance_received.
  - by eexists _, _.
Qed.

Lemma xmit_loop_spec fuel d :
  ring_ok (up_tx d) -> (length (xmit_fifo (tty d)) < fuel)%nat ->
  exists d', xmit_loop fuel d = Some d' /\ xmit_done d d' /\
    (xmit_fifo (tty d') = [] \/ get_rb_room (up_tx d') = 0).
Proof.
  revert d. induction fuel as [|fuel IH]; intros d Hok Hf; [lia|]. simpl.
  pose proof (ring_ok_geom _ Hok) as Hg. destruct (rb_lroom_range _ Hg) as [Hlr _].
  destruct (kfifo_is_empty (tty d)) eqn:He.
  { exists d. split_and!; [done|by apply xmit_done_refl|left; by apply kfifo_is_empty_spec]. }
  assert (Hne : xmit_fifo (tty d) <> []).
  { intros Hn. apply kfifo_is_empty_spec in Hn. congruence. }
  destruct (Z.eqb_spec (get_rb_lroom (up_tx d)) 0) as [Hz|Hz].
  { exists d. split_and!; [done|by apply xmit_done_refl|right; by apply rb_lroom_zero]. }
  assert (Hbs : kfifo_out_linear_ptr (tty d) (get_rb_lroom (up_tx d)) <> [])
    by (apply kfifo_out_progress; [lia|done]).
  destruct (xmit_step d _ Hok eq_refl) as (m & Hm & Hd).
  pose proof (tty_out_split (tty d) (get_rb_lroom (up_tx d)) (proj1 Hlr)) as Hsplit.
  set (bs := kfifo_out_linear_ptr (tty d) (get_rb_lroom (up_tx d))) in *.
  destruct (Z.eqb_spec (zlen bs) 0) as [Hz0|Hnz]; [by apply zlen_0_nil in Hz0|].
  change (get_rb_tail (up_tx d)) with (K.tail (up_tx d)). rewrite Hm. simpl.
  destruct (IH (set_up_tx (move_rb_tail (K.set_data m (up_tx d)) (zlen bs))
                  (set_tty (uart_xmit_advance (tty d) (zlen bs)) d))) as (d' & Hl & Hd' & Hend).
  - apply Hd.
  - simpl. apply (f_equal length) in Hsplit. rewrite length_app in Hsplit.
    unfold zlen in *. lia.
  - exists d'. split_and!; [exact Hl|by eapply xmit_done_trans|done].
Qed.

Lemma adv_uart_xmit_spec d :
  ring_ok (up_tx d) ->
  exists d', adv_uart_xmit d = Some d' /\ xmit_done d d' /\
    (xmit_fifo (tty d') = [] \/ get_rb_room (up_tx d') = 0).
Proof.
  intros Hok. unfold adv_uart_xmit. destruct (Z.eqb_spec (get_rb_room (up_tx d)) 0).
  - exists d. split_and!; [done|by apply xmit_done_refl|by right].
  - apply xmit_loop_spec; [done|lia].
Qed.
End uart_proofs.

(** ** The receive direction *)

Section recv_proofs.
Context {T : Type} `{TtyLaws T}.
Implicit Types d : adv_vcom T.

Definition recv_frame d d' : Prop := exists r t, d' = set_tty t (set_up_rx r d).

Definition recv_done d d' : Prop :=
  ring_idle (up_rx d') /\
  tty_received (tty d') ++ contents (up_rx d') = tty_received (tty d) ++ contents (up_rx d) /\
  tty_received (tty d) `prefix_of` tty_received (tty d') /\
  xmit_fifo (tty d') = xmit_fifo (tty d) /\
  K.status (up_rx d') = K.status (up_rx d) /\ K.size (up_rx d') = K.size (up_rx d) /\
  recv_frame d d'.

Lemma recv_done_refl d : ring_idle (up_rx d) -> recv_done d d.
Proof.
  intros. unfold recv_done. split_and!; try done.
  exists (up_rx d), (tty d). by destruct d.
Qed.

Lemma recv_done_trans d1 d2 d3 : recv_done d1 d2 -> recv_done d2 d3 -> recv_done d1 d3.
Proof.
  intros (? & ? & ? & ? & ? & ? & (r1 & t1 & ->)) (? & ? & ? & ? & ? & ? & (r2 & t2 & ->)).
  unfold recv_done. split_and!; try congruence; try done; [by etrans|by exists r2, t2].
Qed.

Lemma move_rb_head_idle b n :
  ring_idle b -> 0 <= n <= get_rb_length b -> ring_idle (move_rb_head b n) /\
    contents (move_rb_head b n) = Fifo.deq (contents b) n /\
    get_rb_length (move_rb_head b n) = get_rb_length b - n /\
    K.status (move_rb_head b n) = K.status b.
Proof.
  intros [Hok Hst] Hn.
  pose proof (move_rb_head_ok _ _ Hok Hn) as Hok'.
  pose proof (move_rb_head_contents _ _ Hok Hn Hst) as Hc.
  assert (Hs : K.status (move_rb_head b n) = K.status b)
    by (unfold move_rb_head; by rewrite Hst).
  split_and!; try done.
  - split; [done|]. by rewrite Hs.
  - rewrite <- (contents_length (move_rb_head b n)), Hc by done.
    unfold Fifo.deq. rewrite zlen_zdrop; rewrite contents_length by done; lia.
Qed.

(** A ring whose linear part is read starts at the front of its page. *)
Lemma wrapped_linear b :
  ring_idle b -> get_rb_llength b <> get_rb_length b ->
  get_rb_llength (move_rb_head b (get_rb_llength b)) =
    get_rb_length (move_rb_head b (get_rb_llength b)).
Proof.
  intros [[(? & ? & ?) _] Hst] Hne.
  assert (Hend : get_rb_llength b = K.size b - K.head b).
  { revert Hne. unfold get_rb_llength. simpl. case_if; [done|congruence]. }
  rewrite Hend. unfold move_rb_head. rewrite Hst. simpl in *.
  unfold get_rb_llength, get_rb_length. simpl.
  rewrite s32_small by lia. replace (K.head b + (K.size b - K.head b)) with (K.size b) by lia.
  rewrite Z.rem_same by lia. rewrite Z.sub_0_r. repeat case_if; lia.
Qed.

(** One round: the linear part of the ring is offered to the flip buffer and
    what it takes leaves the ring. *)
Lemma recv_step d :
  ring_idle (up_rx d) ->
  exists bs, load (K.head (up_rx d)) (get_rb_llength (up_rx d)) (K.data (up_rx d)) = Some bs /\
    let r := tty_insert_flip_string (tty d) bs in
    zlen bs = get_rb_llength (up_rx d) /\
    0 <= fst r <= get_rb_llength (up_rx d) /\
    recv_done d (set_up_rx (move_rb_head (up_rx d) (fst r)) (set_tty (snd r) d)).
Proof.
  intros Hid. pose proof Hid as [Hok _].
  destruct (rb_llength_range _ (ring_ok_geom _ Hok)) as [Hll _].
  eexists. split; [apply (contents_first_piece _ _ Hok); lia|]. cbv zeta.
  set (bs := Fifo.peek _ _).
  assert (Hbs : zlen bs = get_rb_llength (up_rx d)).
  { unfold bs, Fifo.peek. apply zlen_ztake. rewrite contents_length by done. lia. }
  pose proof (tty_insert_range (tty d) bs) as Hr. rewrite Hbs in Hr.
  assert (Hn : 0 <= fst (tty_insert_flip_string (tty d) bs) <= get_rb_length (up_rx d)) by lia.
  destruct (move_rb_head_idle _ _ Hid Hn) as (Hid' & Hc & _ & Hs).
  set (r := fst (tty_insert_flip_string (tty d) bs)) in *.
  unfold recv_done. split_and!; try done; try lia; cbn [tty set_up_rx set_tty set_tx up_rx tx].
  - rewrite tty_insert_received. fold r. unfold up_rx in *. rewrite Hc.
    clearbody r. rewrite <- app_assoc. f_equal. unfold bs, Fifo.peek, Fifo.deq.
    rewrite ztake_ztake by lia. apply ztake_zdrop.
  - rewrite tty_insert_received. by apply prefix_app_r.
  - apply tty_insert_fifo.
  - apply move_rb_head_size.
  - by eexists _, _.
Qed.

Lemma recv_loop_spec n d :
  ring_idle (up_rx d) ->
  exists d', recv_loop n (get_rb_length (up_rx d)) d = Some (get_rb_length (up_rx d'), d') /\
    recv_done d d'.
Proof.
  revert d. induction n as [|n IH]; intros d Hid; simpl.
  { exists d. split; [done|by apply recv_done_refl]. }
  case_if; [|exists d; split; [done|by apply recv_done_refl]].
  destruct (recv_step d Hid) as (bs & Hld & _ & Hr & Hd). change (get_rb_head (up_rx d)) with (K.head (up_rx d)).
  rewrite Hld. simpl.
  destruct (rb_llength_range _ (ring_ok_geom _ (proj1 Hid))) as [Hll _].
  assert (Hn : 0 <= fst (tty_insert_flip_string (tty d) bs) <= get_rb_length (up_rx d)) by lia.
  destruct (move_rb_head_idle _ _ Hid Hn) as (_ & _ & Hlen & _).
  assert (Hz : fst (tty_insert_flip_string (tty d) bs) = 0 ->
               recv_done d (set_tty (snd (tty_insert_flip_string (tty d) bs)) d)).
  { intros Hz. pose proof (tty_insert_received (tty d) bs) as Hrc.
    rewrite Hz, ztake_0, app_nil_r in Hrc. pose proof (tty_insert_fifo (tty d) bs).
    unfold recv_done. split_and!; try done; [by simpl; rewrite Hrc|by simpl; rewrite Hrc|].
    exists (up_rx d), (snd (tty_insert_flip_string (tty d) bs)). by destruct d. }
  destruct (tty_insert_flip_string (tty d) bs) as [ret t]. simpl in *.
  case_if.
  - destruct (IH (set_up_rx (move_rb_head (up_rx d) ret) (set_tty t d))) as (d' & Hl & Hd').
    { apply Hd. }
    exists d'. split; [|by eapply recv_done_trans].
    simpl in Hl. unfold up_rx in *. rewrite <- Hlen. exact Hl.
  - exists (set_tty t d). split; [done|]. apply Hz. lia.
Qed.

(** What [adv_uart_recv_chars] promises: bytes move from the ring to the tty
    in order, nothing else but the log of wake-ups changes, and whoever waits
    is woken when room was made. *)
Definition recv_result d d' : Prop :=
  ring_idle (up_rx d') /\
  tty_received (tty d') ++ contents (up_rx d') = tty_received (tty d) ++ contents (up_rx d) /\
  tty_received (tty d) `prefix_of` tty_received (tty d') /\
  xmit_fifo (tty d') = xmit_fifo (tty d) /\
  K.status (up_rx d') = K.status (up_rx d) /\ K.size (up_rx d') = K.size (up_rx d) /\
  rx d' = rx d /\ attr d' = attr d /\ active d' = active d /\
  (wakes d' = if negb (get_rb_length (up_rx d') =? get_rb_length (up_rx d)) && active d WQ_tx
              then WQ_tx :: wakes d else wakes d).

Lemma recv_result_refl d : ring_idle (up_rx d) -> recv_result d d.
Proof. intros. unfold recv_result. split_and!; try done. by rewrite Z.eqb_refl. Qed.

Lemma recv_result_done d d' :
  recv_done d d' ->
  recv_result d
    (if negb (get_rb_length (up_rx d') =? get_rb_length (up_rx d)) then
       wake_if_active WQ_up_rx (set_tty (tty_flip_buffer_push (tty d')) d')
     else d').
Proof.
  intros (Hid & Hc & Hpre & Hf & Hs & Hz & r & t & ->). unfold wake_if_active, WQ_up_rx.
  change (active (set_tty _ (set_tty t (set_up_rx r d))) WQ_tx) with (active d WQ_tx).
  destruct (get_rb_length _ =? _) eqn:E; simpl negb; cbv iota.
  - unfold recv_result. split_and!; try done. by rewrite E.
  - destruct (active d WQ_tx) eqn:Ha; unfold recv_result, wake_up_interruptible;
      split_and!; try done; cbn [tty set_tty set_up_rx set_tx up_rx tx wakes] in *;
      rewrite ?tty_push_received, ?tty_push_fifo; try done;
      change ((get_rb_length r =? get_rb_length (up_rx d)) = false) in E; by rewrite E, Ha.
Qed.

Lemma adv_uart_recv_chars_spec d :
  ring_idle (up_rx d) ->
  exists d', adv_uart_recv_chars d = Some d' /\ recv_result d d'.
Proof.
  intros Hid. unfold adv_uart_recv_chars.
  case_if; [eexists; split; [done|by apply recv_result_refl]|].
  case_if; [eexists; split; [done|by apply recv_result_refl]|].
  destruct (recv_loop_spec 3 d Hid) as (d1 & Hl & Hd).
  pose proof (recv_result_done _ _ Hd) as Hr. rewrite Hl. cbn [mbind option_bind].
  destruct (get_rb_length (up_rx d1) =? get_rb_length (up_rx d)); eexists; split; done.
Qed.

(** Two rounds empty the ring when the flip buffer takes what it is given. *)
Lemma recv_loop_drains `{!TtyEager T} n d :
  ring_idle (up_rx d) -> (2 <= n)%nat ->
  exists d', recv_loop n (get_rb_length (up_rx d)) d = Some (0, d') /\ recv_done d d'.
Proof.
  intros Hid Hn.
  assert (Hone : forall k (e : adv_vcom T), ring_idle (up_rx e) ->
    get_rb_llength (up_rx e) = get_rb_length (up_rx e) ->
    exists e', recv_loop (S k) (get_rb_length (up_rx e)) e = Some (0, e') /\ recv_done e e').
  { intros k e He Hlin. simpl.
    destruct (rb_llength_range _ (ring_ok_geom _ (proj1 He))) as [Hll _].
    case_if; [|exists e; split; [repeat f_equal; lia|by apply recv_done_refl]].
    destruct (recv_step e He) as (bs & Hld & Hbs & _ & Hd).
    change (get_rb_head (up_rx e)) with (K.head (up_rx e)).
    rewrite Hld. cbn [mbind option_bind]. pose proof (tty_insert_all (tty e) bs) as Hall.
    destruct (tty_insert_flip_string (tty e) bs) as [ret t]. simpl in Hall, Hd. subst ret.
    rewrite (proj2 (Z.ltb_lt _ _)) by lia.
    eexists. split; [|exact Hd]. rewrite Hbs, Hlin, Z.sub_diag. by destruct k. }
  destruct n as [|[|n]]; [lia..|].
  destruct (decide (get_rb_llength (up_rx d) = get_rb_length (up_rx d))) as [He|Hne];
    [by apply Hone|].
  destruct (rb_llength_range _ (ring_ok_geom _ (proj1 Hid))) as [Hll Hend].
  assert (Hpos : 0 < get_rb_llength (up_rx d)).
  { pose proof (rb_llength_zero _ (ring_ok_geom _ (proj1 Hid))). lia. }
  simpl. rewrite (proj2 (Z.ltb_lt _ _)) by lia.
  destruct (recv_step d Hid) as (bs & Hld & Hbs & _ & Hd).
  change (get_rb_head (up_rx d)) with (K.head (up_rx d)).
  rewrite Hld. cbn [mbind option_bind]. pose proof (tty_insert_all (tty d) bs) as Hall.
  destruct (tty_insert_flip_string (tty d) bs) as [ret t]. simpl in Hall, Hd.
  rewrite (proj2 (Z.ltb_lt _ _)) by lia.
  destruct (move_rb_head_idle (up_rx d) ret Hid) as (_ & _ & Hlen & _); [lia|].
  set (d1 := set_up_rx _ _) in *.
  assert (Hlin1 : get_rb_llength (up_rx d1) = get_rb_length (up_rx d1)).
  { change (up_rx d1) with (move_rb_head (up_rx d) ret). rewrite Hall, Hbs.
    by apply wrapped_linear. }
  destruct (Hone n d1) as (d2 & Hl & Hd2); [apply Hd|done|].
  exists d2. split; [|by eapply recv_done_trans].
  rewrite <- Hl. change (up_rx d1) with (move_rb_head (up_rx d) ret). by rewrite Hlen.
Qed.
End recv_proofs.

(** ** Three rounds are enough for the [circ_buf] routine *)

Definition circ_ok (x : circ_buf) : Prop :=
  zlen (c_buf x) = UART_XMIT_SIZE /\
  0 <= c_head x < UART_XMIT_SIZE /\ 0 <= c_tail x < UART_XMIT_SIZE.

(** The bytes the application wrote and the driver has not taken yet. *)
Definition circ_contents (x : circ_buf) : list byte :=
  ring_read (c_buf x) (c_tail x) (uart_circ_chars_pending x).

Lemma land_xmit_mask z : Z.land z (UART_XMIT_SIZE - 1) = z mod UART_XMIT_SIZE.
Proof. change (UART_XMIT_SIZE - 1) with (Z.ones 12). by rewrite Z.land_ones. Qed.

Lemma circ_pending_cases x :
  circ_ok x ->
  uart_circ_chars_pending x =
    if c_tail x <=? c_head x then c_head x - c_tail x
    else c_head x - c_tail x + UART_XMIT_SIZE.
Proof.
  intros (_ & ? & ?). unfold uart_circ_chars_pending. rewrite land_xmit_mask.
  case_if.
  - apply Z.mod_small. lia.
  - symmetry. apply Z.mod_unique with (-1); unfold UART_XMIT_SIZE in *; lia.
Qed.

Lemma circ_pending_range x :
  circ_ok x -> 0 <= uart_circ_chars_pending x < UART_XMIT_SIZE.
Proof. intros Hx. rewrite circ_pending_cases by done. destruct Hx as (_ & ? & ?). case_if; lia. Qed.

Definition circ_advance (x : circ_buf) (n : Z) : circ_buf :=
  mk_circ (c_buf x) (c_head x) (Z.land (c_tail x + n) (UART_XMIT_SIZE - 1)).

Lemma circ_advance_spec x n :
  circ_ok x -> 0 <= n <= uart_circ_chars_pending x ->
  circ_ok (circ_advance x n) /\
  uart_circ_chars_pending (circ_advance x n) = uart_circ_chars_pending x - n /\
  circ_contents x = ring_read (c_buf x) (c_tail x) n ++ circ_contents (circ_advance x n).
Proof.
  intros Hx Hn. pose proof Hx as (Hl & Hh & Ht).
  assert (Ht' : c_tail (circ_advance x n) = (c_tail x + n) mod UART_XMIT_SIZE)
    by apply land_xmit_mask.
  assert (Hx' : circ_ok (circ_advance x n)).
  { unfold circ_ok. rewrite Ht'. simpl. split_and!; try done; try lia;
      apply Z.mod_pos_bound; done. }
  assert (Hp : uart_circ_chars_pending (circ_advance x n) = uart_circ_chars_pending x - n).
  { rewrite !circ_pending_cases in * by done. rewrite Ht'.
    change (c_head (circ_advance x n)) with (c_head x).
    rewrite mod_once by (unfold UART_XMIT_SIZE in *; case_if in Hn; lia).
    unfold UART_XMIT_SIZE in *. repeat case_if; repeat case_if in Hn; lia. }
  split_and!; try done. unfold circ_contents. rewrite Hp, Ht'. simpl c_buf.
  replace (uart_circ_chars_pending x) with (n + (uart_circ_chars_pending x - n)) at 1 by lia.
  rewrite ring_read_app, Hl; try done; try lia.
  rewrite circ_pending_cases in * by done. unfold UART_XMIT_SIZE in *. repeat case_if; lia.
Qed.

(** Rounds still needed: one more for each end of a page on the way. *)
Definition rounds (count : Z) (x : circ_buf) (r : K.ring_buf) : nat :=
  S ((if get_rb_lroom r <? count then 1 else 0) +
     (if UART_XMIT_SIZE - c_tail x <? count then 1 else 0)).

(** The length of a round's copy. *)
Definition legacy_mcplen (count : Z) (x : circ_buf) (r : K.ring_buf) : Z :=
  let mcplen := if get_rb_lroom r <? count then get_rb_lroom r else count in
  if Z.land (c_tail x + mcplen) (UART_XMIT_SIZE - 1) <? c_tail x
  then UART_XMIT_SIZE - c_tail x else mcplen.

Lemma legacy_mcplen_min count x r :
  circ_ok x -> ring_ok r -> 0 < count <= uart_circ_chars_pending x ->
  count <= get_rb_room r ->
  legacy_mcplen count x r =
    Z.min (Z.min count (get_rb_lroom r)) (UART_XMIT_SIZE - c_tail x) /\
  0 < legacy_mcplen count x r.
Proof.
  intros Hx Hr Hc Hroom. pose proof Hx as (_ & ? & ?).
  pose proof (ring_ok_geom _ Hr) as Hg.
  pose proof (rb_lroom_range _ Hg) as [Hlr _]. pose proof (rb_lroom_zero _ Hg).
  rewrite circ_pending_cases in Hc by done.
  unfold legacy_mcplen. cbv zeta.
  replace (if get_rb_lroom r <? count then get_rb_lroom r else count)
    with (Z.min count (get_rb_lroom r)) by (case_if; lia).
  rewrite land_xmit_mask, mod_once by (unfold UART_XMIT_SIZE in *; case_if in Hc; lia).
  unfold UART_XMIT_SIZE in *. repeat case_if; case_if in Hc; lia.
Qed.

(** One round moves a piece from the front of the fifo to the end of the
    ring. *)
Lemma legacy_round count x r :
  circ_ok x -> ring_ok r -> 0 < count <= uart_circ_chars_pending x ->
  count <= get_rb_room r ->
  let n := legacy_mcplen count x r in
  exists bs m, load (c_tail x) n (c_buf x) = Some bs /\
    store (K.tail r) bs (K.data r) = Some m /\
    let r' := move_rb_tail (K.set_data m r) n in
    let x' := circ_advance x n in
    circ_ok x' /\ ring_ok r' /\
    contents r' ++ circ_contents x' = contents r ++ circ_contents x /\
    get_rb_room r' = get_rb_room r - n /\
    uart_circ_chars_pending x' = uart_circ_chars_pending x - n /\
    K.tail r' = (K.tail r + n) mod K.size r /\ K.size r' = K.size r /\
    K.status r' = K.status r.
Proof.
  intros Hx Hr Hc Hroom n. destruct (legacy_mcplen_min count x r) as [Hn Hpos]; try done.
  fold n in Hn, Hpos. pose proof Hx as (Hl & ? & ?).
  destruct (circ_advance_spec x n Hx) as (Hx' & Hp & Hsplit); [lia|].
  pose proof (rb_lroom_range _ (ring_ok_geom _ Hr)) as [Hlr Hlt].
  eexists. rewrite load_Some by lia. rewrite <- ring_read_lin by lia.
  set (bs := ring_read (c_buf x) (c_tail x) n) in *.
  assert (Hbs : zlen bs = n) by (apply zlen_ring_read; unfold UART_XMIT_SIZE in *; lia).
  assert (Hfit : zlen bs <= get_rb_lroom r) by lia.
  destruct (put_piece_safe r bs Hr Hfit) as [b' Hb'].
  pose proof (put_piece_contents _ _ _ Hr Hfit Hb') as (Hr' & Hcon & Hroom').
  apply put_piece_inv in Hb' as (m & Hm & ->). rewrite Hbs in *.
  exists m. split; [done|]. split; [done|]. cbv zeta.
  split_and!; try done.
  - rewrite Hcon, Hsplit. unfold Fifo.enq. by rewrite app_assoc.
  - destruct Hr as [(? & ? & ?) _]. simpl in *.
    rewrite s32_small, rem_mod_nonneg by lia. done.
Qed.

Lemma legacy_xmit_loop_spec k count x r :
  circ_ok x -> ring_ok r -> 0 < count <= uart_circ_chars_pending x ->
  count <= get_rb_room r -> (rounds count x r <= k)%nat ->
  exists x' r', legacy_xmit_loop k count (get_rb_lroom r) x r = Some (x', r') /\
    circ_ok x' /\ ring_ok r' /\
    contents r' ++ circ_contents x' = contents r ++ circ_contents x /\
    uart_circ_chars_pending x' = uart_circ_chars_pending x - count /\
    get_rb_room r' = get_rb_room r - count.
Proof.
  revert count x r. induction k as [|k IH]; intros count x r Hx Hr Hc Hroom Hk;
    [unfold rounds in Hk; lia|].
  destruct (legacy_round count x r) as (bs & m & Hld & Hst & Hx' & Hr' & Hcon & Hrm & Hp & Ht' & Hz & _);
    try done.
  destruct (legacy_mcplen_min count x r) as [Hmin Hpos]; try done.
  cbn [legacy_xmit_loop]. cbv zeta. fold (legacy_mcplen count x r).
  change (get_rb_tail r) with (K.tail r).
  rewrite Hld. cbn [mbind option_bind]. rewrite Hst. cbn [mbind option_bind].
  fold (circ_advance x (legacy_mcplen count x r)).
  set (n := legacy_mcplen count x r) in *.
  set (x1 := circ_advance x n) in *. set (r1 := move_rb_tail (K.set_data m r) n) in *.
  case_if.
  - destruct (IH (count - n) x1 r1) as (x' & r' & Hl & ? & ? & ? & ? & ?); try done; try lia.
    + pose proof (rb_lroom_range _ (ring_ok_geom _ Hr)) as [Hlr Hlt].
      pose proof Hx as (_ & _ & Htx). pose proof (circ_pending_range _ Hx) as Hpr.
      pose proof (rb_room_range _ (ring_ok_geom _ Hr)) as Hrr.
      change (rb_size r) with (K.size r) in Hrr.
      assert (Hg : 0 < K.size r /\ 0 <= K.tail r < K.size r).
      { destruct (ring_ok_geom _ Hr) as (? & ? & ?). simpl in *. lia. }
      change (rb_size r) with (K.size r) in Hlt. change (rb_tail r) with (K.tail r) in Hlt.
      assert (Hl1 : get_rb_lroom r1 = Z.min (K.size r - K.tail r1) (get_rb_room r1)).
      { unfold get_rb_lroom. change (rb_size r1) with (K.size r). change (rb_tail r1) with (K.tail r1).
        case_if; lia. }
      assert (Hl0 : get_rb_lroom r = Z.min (K.size r - K.tail r) (get_rb_room r)).
      { unfold get_rb_lroom. simpl rb_size. simpl rb_tail. case_if; lia. }
      assert (Hx1 : c_tail x1 = (c_tail x + n) mod UART_XMIT_SIZE) by apply land_xmit_mask.
      rewrite mod_once in Ht' by lia. rewrite mod_once in Hx1 by lia.
      clearbody n x1 r1. clear Hcon Hld Hst IH. unfold UART_XMIT_SIZE in *.
      revert Hk. unfold rounds, UART_XMIT_SIZE. repeat case_if in Ht'; repeat case_if in Hx1; repeat case_if; lia.
    + exists x', r'. split; [exact Hl|]. split_and!; try done; try congruence; lia.
  - exists x1, r1. split; [done|]. split_and!; try done; lia.
Qed.

(** ** Theorems *)

(** transmitting.  When the application has written bytes, [start_tx]
    enables the ring towards the daemon, moves bytes from the tty's fifo to
    the end of the ring until the fifo is empty or the ring is full, loses,
    repeats and reorders none, never stores outside of the page, and wakes
    the daemon if it waits. *)
Theorem adv_uart_start_tx_moves {T} `{TtyLaws T} (d : adv_vcom T) :
  ring_ok (up_tx d) ->
  exists d', adv_uart_start_tx d = Some d' /\ ring_ok (up_tx d') /\
    contents (up_tx d') ++ xmit_fifo (tty d') = contents (up_tx d) ++ xmit_fifo (tty d) /\
    (xmit_fifo (tty d') = [] \/ get_rb_room (up_tx d') = 0) /\
    K.status (up_tx d') &? ADV_RING_BUF_ENABLED = true /\
    (active d WQ_rx = true -> WQ_rx ∈ wakes d').
Proof.
  intros Hok. unfold adv_uart_start_tx. cbv zeta.
  set (d0 := set_up_tx (ring_enable (up_tx d)) d).
  destruct (adv_uart_xmit_spec d0) as (d1 & -> & (Hok1 & Hc & _ & _ & Hst & _ & (r & t & ->)) & Hend).
  { exact Hok. }
  exists (wake_if_active WQ_up_tx (set_tty t (set_up_tx r d0))). split; [done|].
  unfold wake_if_active. change (active (set_tty t (set_up_tx r d0)) WQ_up_tx) with (active d WQ_rx).
  assert (He : K.status (up_tx (set_tty t (set_up_tx r d0))) &? ADV_RING_BUF_ENABLED = true).
  { rewrite Hst. by apply (lor_bit_self (K.status (up_tx d)) 0). }
  destruct (active d WQ_rx) eqn:Ha; split_and!; try done. intros _. apply elem_of_cons; by left.
Qed.

(** A port of the witnesses: a small ring near the end of its page, a fifo in
    two pieces and a daemon that waits. *)
Definition small_ring (h t : Z) : K.ring_buf := K.mk h t 0 8 1 (replicate 8 Byte.x00).
Definition zero_info : adv_port_info := mk_info 0 0 0 0 0 0 0.
Definition small_port (f1 f2 : list byte) : adv_vcom eager_tty :=
  mk_vcom (small_ring 6 3) (small_ring 6 6)
    (mk_att (mk_info 1 9600 0 8 0 0 0) 0 1 0 0 4096 8192 0 [zero_info; zero_info])
    0 (mk_icount 0 0 0 0) (mk_sim [] f1 f2) (fun _ => true) [].

Lemma small_ring_ok h t : 0 <= h < 8 -> 0 <= t < 8 -> ring_idle (small_ring h t).
Proof. intros. unfold ring_idle, ring_ok, geom_ok. simpl. split_and!; (lia || done). Qed.

Lemma adv_uart_start_tx_moves_witness :
  exists d', adv_uart_start_tx (small_port (be 3 7) (be 2 9)) = Some d' /\ ring_ok (up_tx d') /\
    contents (up_tx d') ++ xmit_fifo (tty d') = [] ++ be 3 7 ++ be 2 9 /\
    (xmit_fifo (tty d') = [] \/ get_rb_room (up_tx d') = 0) /\
    K.status (up_tx d') &? ADV_RING_BUF_ENABLED = true /\
    (true = true -> WQ_rx ∈ wakes d').
Proof.
  destruct (adv_uart_start_tx_moves (small_port (be 3 7) (be 2 9))) as (d' & Hs & Hr & Hc & Hrest);
    [apply small_ring_ok; lia|].
  exists d'. split; [exact Hs|]. split; [exact Hr|]. split; [|exact Hrest].
  rewrite Hc. vm_compute. reflexivity.
Defined.

(** receiving.  [adv_uart_recv_chars] hands the oldest bytes of the ring
    to the tty in order, keeps the ones it does not take, loses none, and
    wakes the daemon when room was made. *)
Theorem adv_uart_recv_chars_moves {T} `{TtyLaws T} (d : adv_vcom T) :
  ring_idle (up_rx d) ->
  exists d', adv_uart_recv_chars d = Some d' /\ ring_idle (up_rx d') /\
    tty_received (tty d') ++ contents (up_rx d') = tty_received (tty d) ++ contents (up_rx d) /\
    up_tx d' = up_tx d /\ attr d' = attr d /\
    (get_rb_length (up_rx d') < get_rb_length (up_rx d) -> active d WQ_tx = true ->
     WQ_tx ∈ wakes d').
Proof.
  intros Hid. destruct (adv_uart_recv_chars_spec d Hid) as (d' & -> & Hr).
  destruct Hr as (Hid' & Hc & _ & _ & _ & _ & Hrx & Hat & _ & Hw).
  exists d'. split_and!; try done. intros Hlt Ha. rewrite Hw, Ha.
  rewrite (proj2 (Z.eqb_neq _ _)) by lia. apply elem_of_cons; by left.
Qed.

Lemma adv_uart_recv_chars_moves_witness :
  exists d', adv_uart_recv_chars (small_port [] []) = Some d' /\ ring_idle (up_rx d') /\
    tty_received (tty d') ++ contents (up_rx d') = [] ++ replicate 5 Byte.x00 /\
    up_tx d' = small_ring 6 6 /\ attr d' = attr (small_port [] []) /\
    (get_rb_length (up_rx d') < 5 -> true = true -> WQ_tx ∈ wakes d').
Proof.
  destruct (adv_uart_recv_chars_moves (small_port [] [])) as (d' & Hs & Hr & Hc & Hrest);
    [apply small_ring_ok; lia|].
  exists d'. split; [exact Hs|]. split; [exact Hr|]. split; [|exact Hrest].
  rewrite Hc. vm_compute. reflexivity.
Defined.

(** the three rounds of the receive loop are enough: an open, unthrottled
    port whose flip buffer takes what it is given is drained by one call, wherever
    the ring wraps around. *)
Theorem adv_uart_recv_chars_drains {T} `{TtyLaws T} `{!TtyEager T} (d : adv_vcom T) :
  ring_idle (up_rx d) -> throttled (attr d) = 0 ->
  K.status (up_rx d) &? ADV_RING_BUF_ENABLED = true ->
  exists d', adv_uart_recv_chars d = Some d' /\ contents (up_rx d') = [] /\
    tty_received (tty d') = tty_received (tty d) ++ contents (up_rx d).
Proof.
  intros Hid Hth Hen. destruct (adv_uart_recv_chars_spec d Hid) as (d' & Hr & Hd).
  exists d'. split; [done|]. revert Hr. unfold adv_uart_recv_chars.
  rewrite Hth. change (truthy 0) with false. cbv iota.
  unfold truthy in Hen. apply negb_true_iff in Hen. rewrite Hen.
  destruct (recv_loop_drains 3 d Hid) as (d1 & Hl & Hd1); [lia|]. rewrite Hl. cbn [mbind option_bind].
  destruct (recv_loop_spec 3 d Hid) as (d2 & Hl2 & _). rewrite Hl in Hl2.
  injection Hl2 as Hz <-. intros Hr.
  assert (Hup : up_rx d' = up_rx d1).
  { revert Hr. unfold wake_if_active. repeat case_if; by intros [= <-]. }
  destruct Hd as (Hid' & Hc & _). rewrite Hup in *.
  assert (Hnil : contents (up_rx d1) = []).
  { apply zlen_0_nil. rewrite contents_length; [done|apply Hid']. }
  split; [done|]. by rewrite Hnil, app_nil_r in Hc.
Qed.

Lemma adv_uart_recv_chars_drains_witness :
  exists d', adv_uart_recv_chars (small_port [] []) = Some d' /\ contents (up_rx d') = [] /\
    tty_received (tty d') = [] ++ replicate 5 Byte.x00.
Proof.
  destruct (adv_uart_recv_chars_drains (small_port [] [])) as (d' & Hs & Hr & Hc);
    [apply small_ring_ok; lia|done|done|].
  exists d'. split; [exact Hs|]. split; [exact Hr|]. rewrite Hc. vm_compute. reflexivity.
Defined.

(** the transmit routine for kernels with a circular transmit buffer moves
    [min (pending, room)] bytes in its three rounds, in order and without loss,
    although both the source and the destination may wrap around. *)
Theorem legacy_adv_uart_xmit_moves x r :
  circ_ok x -> ring_ok r ->
  exists x' r', legacy_adv_uart_xmit x r = Some (x', r') /\ circ_ok x' /\ ring_ok r' /\
    contents r' ++ circ_contents x' = contents r ++ circ_contents x /\
    (circ_contents x' = [] \/ get_rb_room r' = 0).
Proof.
  intros Hx Hr. unfold legacy_adv_uart_xmit.
  pose proof (circ_pending_range x Hx) as Hp. pose proof (rb_room_range _ (ring_ok_geom _ Hr)) as Hrm.
  assert (Hnil : forall y, uart_circ_chars_pending y = 0 -> circ_contents y = []).
  { intros y Hy. unfold circ_contents. rewrite Hy. apply ztake_0. }
  destruct (uart_circ_empty x) eqn:He.
  { exists x, r. split_and!; try done. left. apply Hnil. unfold uart_circ_empty in He.
    rewrite circ_pending_cases by done. bool_simpl. rewrite He, Z.leb_refl. lia. }
  assert (Hpos : 0 < uart_circ_chars_pending x).
  { unfold uart_circ_empty in He. rewrite circ_pending_cases by done. bool_simpl.
    destruct Hx as (_ & ? & ?). case_if; lia. }
  destruct (Z.eqb_spec (get_rb_room r) 0) as [Hz|Hz].
  { exists x, r. split_and!; try done. by right. }
  set (count := if _ <? _ then _ else _).
  assert (Hc : count = Z.min (uart_circ_chars_pending x) (get_rb_room r))
    by (unfold count; case_if; lia).
  destruct (legacy_xmit_loop_spec 3 count x r) as (x' & r' & Hl & ? & ? & ? & Hp' & Hr'); try done; try lia.
  { unfold rounds. repeat case_if; lia. }
  exists x', r'. split_and!; try done.
  destruct (Z.eq_dec (uart_circ_chars_pending x') 0); [left; auto|right; lia].
Qed.

(** Source and destination both wrap around. *)
Definition wrapping_circ : circ_buf := mk_circ (replicate 4096 Byte.xab) 2 4094.

Lemma legacy_adv_uart_xmit_moves_witness :
  exists x' r', legacy_adv_uart_xmit wrapping_circ (small_ring 5 5) = Some (x', r') /\
    circ_ok x' /\ ring_ok r' /\
    contents r' ++ circ_contents x' = replicate 4 Byte.xab /\
    (circ_contents x' = [] \/ get_rb_room r' = 0).
Proof.
  assert (Hx : circ_ok wrapping_circ) by (vm_compute; intuition congruence).
  assert (Hr : ring_ok (small_ring 5 5)) by (apply small_ring_ok; lia).
  destruct (legacy_adv_uart_xmit_moves wrapping_circ (small_ring 5 5) Hx Hr)
    as (x' & r' & ? & ? & ? & Hc & ?).
  exists x', r'. split_and!; done.
Defined.

Lemma line_count k s m n :
  0 <= k ->
  (if Z.lxor s m &? Z.shiftl 1 k then n + 1 else n) =
    n + (if Bool.eqb (s &? Z.shiftl 1 k) (m &? Z.shiftl 1 k) then 0 else 1).
Proof.
  intros Hk. rewrite !land_bit by done. rewrite Z.lxor_spec.
  destruct (Z.testbit s k), (Z.testbit m k); simpl; lia.
Qed.

(** the modem lines the daemon reports are the ones the application reads
    back, and the counter of a line moves exactly when the line changed. *)
Theorem adv_uart_ms_lines {T} (d : adv_vcom T) status :
  let d' := snd (adv_uart_ms d status) in
  (forall a t, (a, t) ∈ [(ADV_MS_CTS, TIOCM_CTS); (ADV_MS_DSR, TIOCM_DSR);
                         (ADV_MS_CAR, TIOCM_CAR); (ADV_MS_RI, TIOCM_RI)] ->
     adv_uart_get_mctrl d' &? t = status &? a) /\
  (forall a f, (a, f) ∈ [(ADV_MS_CTS, cts); (ADV_MS_DSR, dsr); (ADV_MS_CAR, dcd); (ADV_MS_RI, rng)] ->
     f (icount d') = f (icount d) + (if Bool.eqb (status &? a) (mctrl (attr d) &? a) then 0 else 1)).
Proof.
  cbv zeta. unfold adv_uart_ms, adv_uart_get_mctrl. simpl. split.
  - intros a t Ht. repeat (apply elem_of_cons in Ht as [[= -> ->]|Ht];
      [by destruct (status &? ADV_MS_CTS), (status &? ADV_MS_DSR), (status &? ADV_MS_CAR), (status &? ADV_MS_RI)|]).
    by apply elem_of_nil in Ht.
  - intros a f Hf. repeat (apply elem_of_cons in Hf as [[= -> ->]|Hf]; [simpl|]).
    + by apply (line_count 4).
    + by apply (line_count 5).
    + by apply (line_count 7).
    + by apply (line_count 6).
    + by apply elem_of_nil in Hf.
Qed.
