(* ===== verification/DrvMain.v ===== *)
(** * The daemon side of the driver

    [driver/adv_main.c] and [driver/adv_mmap.c] with [driver/advioctl.h]: the
    control file of a port (ioctl, poll, mmap), the two notification helpers,
    and the creation and release of the ports.

    An argument of an ioctl is a cell of user memory, [user_int]; [None] is an
    access outside of an object inside the kernel. *)

From S2P Require Import Prelude RingBuf Tty Uart.

(** ** Request codes *)

Definition _IOC_WRITE : Z := 1.
Definition _IOC_READ : Z := 2.
Definition _IOC (dir type nr size : Z) : Z :=
  Z.lor (Z.lor (Z.lor (Z.shiftl dir 30) (Z.shiftl size 16)) (Z.shiftl type 8)) nr.
Definition _IOR (type nr size : Z) : Z := _IOC _IOC_READ type nr size.
Definition _IOW (type nr size : Z) : Z := _IOC _IOC_WRITE type nr size.
Definition _IOC_TYPE (cmd : Z) : Z := Z.land (Z.shiftr cmd 8) 0xff.
Definition _IOC_NR (cmd : Z) : Z := Z.land cmd 0xff.
Definition _IOC_DIR (cmd : Z) : Z := Z.land (Z.shiftr cmd 30) 0x3.
Definition sizeof_int : Z := 4.

Definition ADVVCOM_IOC_MAGIC : Z := 65.
Definition ADVVCOM_IOCGTXHEAD : Z := Eval vm_compute in _IOR ADVVCOM_IOC_MAGIC 1 sizeof_int.
Definition ADVVCOM_IOCGTXTAIL : Z := Eval vm_compute in _IOR ADVVCOM_IOC_MAGIC 2 sizeof_int.
Definition ADVVCOM_IOCGTXSIZE : Z := Eval vm_compute in _IOR ADVVCOM_IOC_MAGIC 3 sizeof_int.
Definition ADVVCOM_IOCGRXHEAD : Z := Eval vm_compute in _IOR ADVVCOM_IOC_MAGIC 4 sizeof_int.
Definition ADVVCOM_IOCGRXTAIL : Z := Eval vm_compute in _IOR ADVVCOM_IOC_MAGIC 5 sizeof_int.
Definition ADVVCOM_IOCGRXSIZE : Z := Eval vm_compute in _IOR ADVVCOM_IOC_MAGIC 6 sizeof_int.
Definition ADVVCOM_IOCSTXTAIL : Z := Eval vm_compute in _IOW ADVVCOM_IOC_MAGIC 7 sizeof_int.
Definition ADVVCOM_IOCSRXHEAD : Z := Eval vm_compute in _IOW ADVVCOM_IOC_MAGIC 8 sizeof_int.
Definition ADVVCOM_IOCGTXBEGIN : Z := Eval vm_compute in _IOR ADVVCOM_IOC_MAGIC 9 sizeof_int.
Definition ADVVCOM_IOCGRXBEGIN : Z := Eval vm_compute in _IOR ADVVCOM_IOC_MAGIC 10 sizeof_int.
Definition ADVVCOM_IOCGATTRBEGIN : Z := Eval vm_compute in _IOR ADVVCOM_IOC_MAGIC 11 sizeof_int.
Definition ADVVCOM_IOCGATTRPTR : Z := Eval vm_compute in _IOR ADVVCOM_IOC_MAGIC 12 sizeof_int.
Definition ADVVCOM_IOCSINTER : Z := Eval vm_compute in _IOW ADVVCOM_IOC_MAGIC 13 sizeof_int.
Definition ADVVCOM_IOCSMCTRL : Z := Eval vm_compute in _IOW ADVVCOM_IOC_MAGIC 14 sizeof_int.
Definition ADVVCOM_IOCSCLR : Z := Eval vm_compute in _IOW ADVVCOM_IOC_MAGIC 15 sizeof_int.
Definition ADVVCOM_IOCMAX : Z := 15.

Definition ADV_INT_RX : Z := 0x1.
Definition ADV_INT_TX : Z := 0x2.
Definition ADV_CLR_RX : Z := 0x1.
Definition ADV_CLR_TX : Z := 0x2.

Definition EFAULT : Z := 14.
Definition ENOTTY : Z := 25.
Definition POLLIN : Z := 0x1.
Definition POLLPRI : Z := 0x2.
Definition POLLOUT : Z := 0x4.
Definition PAGE_SIZE : Z := 4096.
Definition VCOM_PORTS : nat := 256.

(** ** User memory *)

Record user_int := mk_user {
  (** the range is one a user may name, and it is mapped *)
  u_access : bool;
  u_mapped : bool;
  u_val : Z;
}.

Definition put_user (x : Z) (u : user_int) : Z * user_int :=
  if u_mapped u then (0, mk_user (u_access u) true x) else (- EFAULT, u).

(** A failing [__get_user] sets its variable to zero. *)
Definition get_user (u : user_int) : Z * Z :=
  if u_mapped u then (0, u_val u) else (- EFAULT, 0).

Section main.
Context {T : Type} `{TtyIf T}.
Implicit Types d : adv_vcom T.

(** ** Notifications *)

Definition adv_main_interrupt d (mask : Z) : option (adv_vcom T) :=
  d ← (if mask &? ADV_INT_RX then adv_uart_update_xmit d else Some d);
  if mask &? ADV_INT_TX then adv_uart_recv_chars d else Some d.

Definition adv_main_clear d (mask : Z) : adv_vcom T :=
  let d := if mask &? ADV_CLR_RX then set_rx (ring_mark_clean (rx d)) d else d in
  if mask &? ADV_CLR_TX then
    let d := set_tx (ring_mark_clean (tx d)) d in
    set_tx (move_rb_head (tx d) 0) d
  else d.

(** ** [adv_proc_ioctl] *)

Definition adv_proc_ioctl d (cmd : Z) (arg : user_int)
  : option (Z * user_int * adv_vcom T) :=
  if negb (_IOC_TYPE cmd =? ADVVCOM_IOC_MAGIC) then Some (- ENOTTY, arg, d) else
  if ADVVCOM_IOCMAX <? _IOC_NR cmd then Some (- ENOTTY, arg, d) else
  let err := if _IOC_DIR cmd &? _IOC_READ then negb (u_access arg)
             else if _IOC_DIR cmd &? _IOC_WRITE then negb (u_access arg) else false in
  if err then Some (- EFAULT, arg, d) else
  let put x d := let '(ret, arg) := put_user x arg in Some (ret, arg, d) in
  if cmd =? ADVVCOM_IOCGTXHEAD then put (get_rb_head (tx d)) d
  else if cmd =? ADVVCOM_IOCGTXTAIL then put (get_rb_tail (tx d)) d
  else if cmd =? ADVVCOM_IOCGTXSIZE then put (K.size (tx d)) d
  else if cmd =? ADVVCOM_IOCGTXBEGIN then put (K.begin (tx d)) d
  else if cmd =? ADVVCOM_IOCGRXHEAD then put (get_rb_head (rx d)) d
  else if cmd =? ADVVCOM_IOCGRXTAIL then put (get_rb_tail (rx d)) d
  else if cmd =? ADVVCOM_IOCGRXSIZE then put (K.size (rx d)) d
  else if cmd =? ADVVCOM_IOCGRXBEGIN then put (K.begin (rx d)) d
  else if cmd =? ADVVCOM_IOCSTXTAIL then
    let '(ret, tmp) := get_user arg in
    let d := set_tx (move_rb_tail (tx d) tmp) d in
    d ← adv_uart_recv_chars d;
    Some (ret, arg, d)
  else if cmd =? ADVVCOM_IOCSRXHEAD then
    let '(ret, tmp) := get_user arg in
    Some (ret, arg, set_rx (move_rb_head (rx d) tmp) d)
  else if cmd =? ADVVCOM_IOCGATTRBEGIN then put (att_begin (attr d)) d
  else if cmd =? ADVVCOM_IOCGATTRPTR then
    r ← flush_attr_info (attr d);
    let '(tmp, a) := r in put tmp (set_attr a d)
  else if cmd =? ADVVCOM_IOCSINTER then
    let '(ret, tmp) := get_user arg in
    d ← adv_main_interrupt d tmp;
    Some (ret, arg, d)
  else if cmd =? ADVVCOM_IOCSMCTRL then
    let '(ret, tmp) := get_user arg in
    Some (ret, arg, snd (adv_uart_ms d (u32 tmp)))
  else if cmd =? ADVVCOM_IOCSCLR then
    let '(ret, tmp) := get_user arg in
    Some (ret, arg, adv_main_clear d tmp)
  else Some (- EFAULT, arg, d).

(** ** [adv_proc_poll] *)

(** The caller is entered in the three wait queues, then the mask is
    computed.  [None]: [usr_ptr] is outside of the page. *)
Definition poll_mask d : option Z :=
  let mask := 0 in
  let mask := if K.status (rx d) &? ADV_RING_BUF_ENABLED
              then Z.lor mask (if is_rb_empty (rx d) then 0x0 else POLLIN) else mask in
  let mask := if K.status (tx d) &? ADV_RING_BUF_ENABLED
              then Z.lor mask (if is_rb_empty (tx d) then POLLOUT else 0x0) else mask in
  let a := attr d in
  let mask := if truthy (throttled a) then Z.land mask (Z.lnot POLLOUT) else mask in
  attr_usr ← (if 0 <=? usr_ptr a then att_data a !! Z.to_nat (usr_ptr a) else None);
  Some (if bool_decide (_attr a ≠ attr_usr) then
          if i_is_open (_attr a) =? 1 then Z.lor mask POLLPRI
          else if negb (i_is_open (_attr a) =? i_is_open attr_usr) then Z.lor mask POLLPRI
          else mask
        else mask).

Definition poll_wait d : adv_vcom T :=
  set_active (fun q => match q with WQ_msr => active d q | _ => true end) d.

Definition adv_proc_poll d : option (Z * adv_vcom T) :=
  let d := poll_wait d in
  mask ← poll_mask d; Some (mask, d).

(** ** The memory map *)

Inductive page := P_tx | P_rx | P_attr.

(** [None]: no page, the handler returns without one. *)
Definition adv_vma_nopage d (offset : Z) : option page :=
  if offset <? K.size (tx d) + K.begin (tx d) then Some P_tx
  else if offset <? K.size (rx d) + K.begin (rx d) then Some P_rx
  else if offset <? att_size (attr d) + att_begin (attr d) then Some P_attr
  else None.

(** ** Ports *)

(** [mctrl0], the three pages and the tty state are what the allocations and
    the serial core provide. *)
Definition adv_main_init (port mctrl0 : Z) (ptx prx : list byte) (t : T) : adv_vcom T :=
  let zero := mk_info 0 0 0 0 0 0 0 in
  mk_vcom
    (K.mk 0 0 0 PAGE_SIZE 0 ptx)
    (K.mk 0 0 PAGE_SIZE PAGE_SIZE 0 prx)
    (mk_att zero mctrl0 1 port 0 PAGE_SIZE (2 * PAGE_SIZE) 0 [zero; zero])
    0 (mk_icount 0 0 0 0) t (fun _ => false) [].
End main.

(** ** Invariant of a port *)

Definition attr_ok (a : adv_port_att) : Prop :=
  0 <= usr_ptr a < ADV_ATTRBUF_NUM /\ zlen (att_data a) = ADV_ATTRBUF_NUM.

(** The rings are well formed and carry no [CLEAN] mark: the daemon's clear
    request and the head move that carries it out are one operation. *)
Definition drv_ok {T} (d : adv_vcom T) : Prop :=
  ring_idle (tx d) /\ ring_idle (rx d) /\ attr_ok (attr d).

(** *** The double buffer of the attributes *)

Lemma flush_attr_info_spec a :
  attr_ok a ->
  exists p a', flush_attr_info a = Some (p, a') /\ attr_ok a' /\ p = usr_ptr a' /\
    att_data a' !! Z.to_nat p = Some (_attr a) /\ _attr a' = _attr a /\
    throttled a' = throttled a /\ mctrl a' = mctrl a /\ _newbie a' = 0 /\
    (_newbie a = 0 -> p <> usr_ptr a /\
       att_data a' !! Z.to_nat (usr_ptr a) = att_data a !! Z.to_nat (usr_ptr a)).
Proof.
  intros [Hp Hl]. unfold flush_attr_info, ADV_ATTRBUF_NUM in *.
  set (a1 := if truthy (_newbie a) then _ else _).
  assert (Ha1 : 0 <= usr_ptr a1 < 2 /\ att_data a1 = att_data a /\ _attr a1 = _attr a /\
    throttled a1 = throttled a /\ mctrl a1 = mctrl a /\ _newbie a1 = 0 /\
    (_newbie a = 0 -> usr_ptr a1 <> usr_ptr a)).
  { unfold a1, truthy. destruct (Z.eqb_spec (_newbie a) 0); simpl; split_and!; try done; try lia.
    - rewrite rem_mod_nonneg by lia. pose proof (Z.mod_pos_bound (usr_ptr a + 1) 2). lia.
    - rewrite rem_mod_nonneg by lia. pose proof (Z.mod_pos_bound (usr_ptr a + 1) 2). lia.
    - intros _. rewrite rem_mod_nonneg, mod_once by lia. case_if; lia. }
  destruct Ha1 as (Hp1 & Hd1 & ? & ? & ? & ? & Hn).
  assert (Hlen : (length (att_data a1) = 2)%nat) by (rewrite Hd1; unfold zlen in Hl; lia).
  rewrite (proj2 (andb_true_iff _ _)) by (rewrite Z.leb_le, Z.ltb_lt; unfold zlen; lia).
  eexists _, _. split; [done|]. simpl. rewrite list_lookup_insert_eq by lia.
  split_and!; try done; try congruence.
  - split; [done|]. simpl. unfold zlen. rewrite length_insert. unfold ADV_ATTRBUF_NUM. lia.
  - intros Hz. split; [by apply Hn|]. rewrite list_lookup_insert_ne; [by rewrite Hd1|].
    specialize (Hn Hz). lia.
Qed.

(** *** Operations of the serial side keep it *)

Section drv_proofs.
Context {T : Type} `{TtyLaws T}.
Implicit Types d : adv_vcom T.

Inductive tty_op :=
  | T_start_tx | T_stop_tx | T_stop_rx | T_set_mctrl (m : Z) | T_startup | T_shutdown
  | T_set_termios (new old : ktermios) | T_throttle | T_unthrottle.

Definition tty_do d (o : tty_op) : option (adv_vcom T) :=
  match o with
  | T_start_tx => adv_uart_start_tx d
  | T_stop_tx => Some (adv_uart_stop_tx d)
  | T_stop_rx => Some (adv_uart_stop_rx d)
  | T_set_mctrl m => Some (adv_uart_set_mctrl d m)
  | T_startup => Some (adv_uart_startup d)
  | T_shutdown => Some (adv_uart_shutdown d)
  | T_set_termios new old => Some (adv_uart_set_termios d new old)
  | T_throttle => Some (adv_uart_throttle d)
  | T_unthrottle => adv_uart_unthrottle d
  end.

(** ** The specification: two byte pipes

    [p_fifo] is what the application has written and [p_up] the part of it the
    driver holds for the daemon; [p_down] is what the driver holds for the
    application and [p_recv] what the application side was given. *)

Record pipe := mk_pipe {
  p_up : list byte; p_fifo : list byte; p_recv : list byte; p_down : list byte }.

Definition view d : pipe :=
  mk_pipe (contents (rx d)) (xmit_fifo (tty d)) (tty_received (tty d)) (contents (tx d)).

Inductive label :=
  | L_internal | L_produce (bs : list byte) | L_consume (n : Z) | L_clear (rx tx : bool).

Inductive pipe_step : label -> pipe -> pipe -> Prop :=
  | PS_internal p k1 f k2 r :
      p_fifo p = k1 ++ f -> p_down p = k2 ++ r ->
      pipe_step L_internal p (mk_pipe (p_up p ++ k1) f (p_recv p ++ k2) r)
  | PS_produce p bs k r :
      p_down p ++ bs = k ++ r ->
      pipe_step (L_produce bs) p (mk_pipe (p_up p) (p_fifo p) (p_recv p ++ k) r)
  | PS_consume p n :
      0 <= n <= zlen (p_up p) ->
      pipe_step (L_consume n) p (mk_pipe (zdrop n (p_up p)) (p_fifo p) (p_recv p) (p_down p))
  | PS_clear p (crx ctx : bool) :
      pipe_step (L_clear crx ctx) p
        (mk_pipe (if crx then [] else p_up p) (p_fifo p) (p_recv p)
           (if ctx then [] else p_down p)).

(** A change that moves no byte. *)
Lemma pipe_stutter p : pipe_step L_internal p p.
Proof.
  destruct p as [u f r d]. pose proof (PS_internal (mk_pipe u f r d) [] f [] d) as Hs.
  simpl in Hs. rewrite !app_nil_r in Hs. by apply Hs.
Qed.

Lemma view_internal d d' :
  contents (rx d') ++ xmit_fifo (tty d') = contents (rx d) ++ xmit_fifo (tty d) ->
  contents (rx d) `prefix_of` contents (rx d') ->
  tty_received (tty d') ++ contents (tx d') = tty_received (tty d) ++ contents (tx d) ->
  tty_received (tty d) `prefix_of` tty_received (tty d') ->
  pipe_step L_internal (view d) (view d').
Proof.
  intros Hu [k1 Hk1] Hd [k2 Hk2]. unfold view.
  rewrite Hk1, <- app_assoc in Hu. apply app_inv_head in Hu.
  rewrite Hk2, <- app_assoc in Hd. apply app_inv_head in Hd.
  rewrite Hk1, Hk2. by apply (PS_internal (view d) k1 _ k2).
Qed.

(** Changes that leave the bytes of the rings alone. *)
Definition ring_same (b b' : K.ring_buf) : Prop :=
  exists s, b' = K.set_status s b /\
    s &? ADV_RING_BUF_CLEAN = K.status b &? ADV_RING_BUF_CLEAN.

Lemma ring_same_refl b : ring_same b b.
Proof. exists (K.status b). by destruct b. Qed.

Lemma ring_same_enable b : ring_same b (ring_enable b).
Proof.
  eexists. split; [done|]. change ADV_RING_BUF_CLEAN with (Z.shiftl 1 1).
  rewrite !land_bit by done. rewrite Z.lor_spec. by rewrite orb_false_r.
Qed.

Lemma ring_same_disable b : ring_same b (ring_disable b).
Proof.
  eexists. split; [done|]. change ADV_RING_BUF_CLEAN with (Z.shiftl 1 1).
  rewrite !land_bit by done. rewrite Z.land_spec. by rewrite andb_true_r.
Qed.

Lemma ring_same_ok b b' :
  ring_same b b' -> contents b' = contents b /\ (ring_ok b -> ring_ok b') /\
    (ring_idle b -> ring_idle b').
Proof.
  intros (s & -> & Hs). split; [done|]. split; [done|].
  intros [Hok Hc]. split; [exact Hok|]. simpl. by rewrite Hs.
Qed.

Definition quiet d d' : Prop :=
  ring_same (tx d) (tx d') /\ ring_same (rx d) (rx d') /\
  tty_received (tty d') = tty_received (tty d) /\ xmit_fifo (tty d') = xmit_fifo (tty d) /\
  (attr_ok (attr d) -> attr_ok (attr d')).

Lemma quiet_sim d d' :
  drv_ok d -> quiet d d' -> drv_ok d' /\ pipe_step L_internal (view d) (view d').
Proof.
  intros (Htx & Hrx & Ha) (Ht & Hr & Hrcv & Hf & Hat).
  destruct (ring_same_ok _ _ Ht) as (Hct & _ & Hit).
  destruct (ring_same_ok _ _ Hr) as (Hcr & _ & Hor).
  split; [unfold drv_ok; auto|]. unfold view. rewrite Hct, Hcr, Hrcv, Hf. apply pipe_stutter.
Qed.

Lemma quiet_wake q d d' : quiet d d' -> quiet d (wake_if_active q d').
Proof. unfold wake_if_active. by destruct (active d' q). Qed.

Lemma quiet_up d :
  quiet d (adv_uart_stop_tx d) /\ quiet d (adv_uart_stop_rx d) /\
  quiet d (adv_uart_startup d) /\ quiet d (poll_wait d).
Proof.
  split_and!; repeat apply quiet_wake; unfold quiet; split_and!; try done;
    auto using ring_same_refl, ring_same_disable, ring_same_enable.
Qed.

(** The attribute record, the status and the tty's timing. *)
Lemma quiet_attr d a :
  (attr_ok (attr d) -> attr_ok a) -> quiet d (set_attr a d).
Proof. intros. unfold quiet. split_and!; try done; apply ring_same_refl. Qed.

Lemma quiet_termios d new old : quiet d (adv_uart_set_termios d new old).
Proof.
  unfold adv_uart_set_termios. destruct (termios_flow _ _ _) as [flow status].
  apply quiet_wake. unfold quiet. simpl.
  split_and!; auto using ring_same_refl, uart_timeout_received, uart_timeout_fifo.
Qed.

Lemma quiet_ms d s : quiet d (snd (adv_uart_ms d s)).
Proof. unfold quiet. split_and!; try done; apply ring_same_refl. Qed.

(** The two routines that move bytes. *)
Lemma xmit_sim d d' :
  drv_ok d -> xmit_done d d' -> drv_ok d' /\ pipe_step L_internal (view d) (view d').
Proof.
  intros (Htx & Hrx & Ha) (Hok & Hc & Hp & Hr & Hst & _ & (r & t & ->)).
  change (K.status r = K.status (rx d)) in Hst.
  split; [split_and!; try done; split; [done|]; simpl; rewrite Hst; apply Hrx|]. apply view_internal; try done; simpl in *; by rewrite Hr.
Qed.

Lemma recv_sim d d' :
  drv_ok d -> recv_result d d' -> drv_ok d' /\ pipe_step L_internal (view d) (view d').
Proof.
  intros (Htx & Hrx & Ha) (Hid & Hc & Hp & Hf & _ & _ & Hrx' & Ha' & _).
  split; [unfold drv_ok; rewrite Hrx', Ha'; done|].
  apply view_internal; try done; by rewrite ?Hrx', ?Hf.
Qed.

Lemma pipe_internal_trans p q r :
  pipe_step L_internal p q -> pipe_step L_internal q r -> pipe_step L_internal p r.
Proof.
  intros Hpq Hqr. inversion Hpq as [? k1 f k2 e Hf He| | |]; subst; clear Hpq.
  inversion Hqr as [? k1' f' k2' e' Hf' He'| | |]; subst; clear Hqr. simpl in *. subst.
  pose proof (PS_internal p (k1 ++ k1') f' (k2 ++ k2') e') as Hs.
  rewrite !app_assoc in Hs. apply Hs; by rewrite <- app_assoc.
Qed.

(** Carrying on from an internal step. *)
Definition sim_internal d d' : Prop := drv_ok d' /\ pipe_step L_internal (view d) (view d').

Lemma sim_trans d1 d2 d3 : sim_internal d1 d2 -> sim_internal d2 d3 -> sim_internal d1 d3.
Proof. intros [? ?] [? ?]. split; [done|]. by eapply pipe_internal_trans. Qed.

Lemma sim_refl d : drv_ok d -> sim_internal d d.
Proof. intros. split; [done|]. apply pipe_stutter. Qed.

Lemma xmit_runs d : drv_ok d -> exists d', adv_uart_xmit d = Some d' /\ sim_internal d d'.
Proof.
  intros Hd. destruct (adv_uart_xmit_spec d) as (d' & ? & ? & _); [apply Hd|].
  exists d'. split; [done|]. by apply xmit_sim.
Qed.

Lemma recv_runs d : drv_ok d -> exists d', adv_uart_recv_chars d = Some d' /\ sim_internal d d'.
Proof.
  intros Hd. destruct (adv_uart_recv_chars_spec d) as (d' & ? & ?); [apply Hd|].
  exists d'. split; [done|]. by apply recv_sim.
Qed.

Lemma tty_do_runs d o : drv_ok d -> exists d', tty_do d o = Some d' /\ sim_internal d d'.
Proof.
  intros Hd. destruct (quiet_up d) as (Hstx & Hsrx & Hst & _).
  destruct o; simpl; try (eexists; split; [done|]; apply quiet_sim; [done|]).
  - destruct (quiet_sim d (set_up_tx (ring_enable (up_tx d)) d)) as [Hd0 Hp0]; [done| |].
    { unfold quiet. split_and!; try done; auto using ring_same_refl, ring_same_enable. }
    destruct (xmit_runs _ Hd0) as (d1 & Hx & Hs). unfold adv_uart_start_tx. rewrite Hx.
    eexists. split; [done|]. apply (sim_trans _ d1); [by eapply sim_trans; [split|]|].
    apply quiet_sim; [apply Hs|]. apply quiet_wake. unfold quiet. split_and!; try done; apply ring_same_refl.
  - done.
  - done.
  - apply quiet_wake. by apply quiet_attr.
  - done.
  - apply quiet_wake. by apply quiet_attr.
  - apply quiet_termios.
  - apply quiet_wake. by apply quiet_attr.
  - destruct (quiet_sim d (set_attr (set_throttled 0 (attr d)) d)) as [Hd0 Hp0]; [done|by apply quiet_attr|].
    destruct (recv_runs _ Hd0) as (d1 & Hx & Hs). exists d1. split; [done|].
    eapply sim_trans; [|done]. by split.
Qed.

Lemma update_xmit_runs d :
  drv_ok d -> exists d', adv_uart_update_xmit d = Some d' /\ sim_internal d d'.
Proof.
  intros Hd. unfold adv_uart_update_xmit.
  destruct (truthy _); [|eexists; split; [done|by apply sim_refl]].
  assert (Hw : forall e, drv_ok e -> sim_internal e (set_tty (uart_write_wakeup (tty e)) e)).
  { intros e He. apply quiet_sim; [done|]. unfold quiet. simpl.
    split_and!; auto using ring_same_refl, uart_wakeup_received, uart_wakeup_fifo. }
  case_if.
  - destruct (xmit_runs _ Hd) as (d1 & Hx & Hs). rewrite Hx. eexists. split; [done|].
    eapply sim_trans; [done|]. apply Hw, Hs.
  - eexists. split; [done|]. by apply Hw.
Qed.

Lemma interrupt_runs d mask :
  drv_ok d -> exists d', adv_main_interrupt d mask = Some d' /\ sim_internal d d'.
Proof.
  intros Hd. unfold adv_main_interrupt.
  assert (Hu : exists d1, (if mask &? ADV_INT_RX then adv_uart_update_xmit d else Some d) = Some d1
                /\ sim_internal d d1).
  { case_if; [by apply update_xmit_runs|]. eexists. split; [done|by apply sim_refl]. }
  destruct Hu as (d1 & -> & Hs1). cbn [mbind option_bind].
  case_if; [|by exists d1].
  destruct (recv_runs d1) as (d2 & Hr & Hs2); [apply Hs1|].
  exists d2. split; [done|]. by eapply sim_trans.
Qed.

(** ** Operations on a port

    The serial side's calls and the daemon's: the daemon produces by copying
    into the mapped page and moving the tail, consumes by moving the head, and
    clears the way [vc_buf_clear] does. *)

Inductive port_op :=
  | O_tty (o : tty_op)
  | O_poll
  | O_interrupt (mask : Z)
  | O_attrptr
  | O_mctrl (status : Z)
  | O_produce (bs : list byte)
  | O_consume (n : Z)
  | O_clear (flags : Z).

Definition uarg (v : Z) : user_int := mk_user true true v.

Definition ioctl_on d (cmd v : Z) : option (adv_vcom T) :=
  r ← adv_proc_ioctl d cmd (uarg v); Some (snd r).

Definition port_do d (o : port_op) : option (adv_vcom T) :=
  match o with
  | O_tty o => tty_do d o
  | O_poll => r ← adv_proc_poll d; Some (snd r)
  | O_interrupt mask => ioctl_on d ADVVCOM_IOCSINTER mask
  | O_attrptr => ioctl_on d ADVVCOM_IOCGATTRPTR 0
  | O_mctrl status => ioctl_on d ADVVCOM_IOCSMCTRL status
  | O_produce bs =>
      b ← ring_copy (tx d) bs;
      ioctl_on (set_tx b d) ADVVCOM_IOCSTXTAIL (zlen bs)
  | O_consume n => ioctl_on d ADVVCOM_IOCSRXHEAD n
  | O_clear flags =>
      d ← ioctl_on d ADVVCOM_IOCSCLR flags;
      if flags &? ADV_CLR_RX then ioctl_on d ADVVCOM_IOCSRXHEAD 0 else Some d
  end.

Definition op_label (o : port_op) : label :=
  match o with
  | O_produce bs => L_produce bs
  | O_consume n => L_consume n
  | O_clear flags => L_clear (flags &? ADV_CLR_RX) (flags &? ADV_CLR_TX)
  | _ => L_internal
  end.

(** What the daemon keeps to: it produces into free room and consumes what is
    there. *)
Definition op_legal d (o : port_op) : bool :=
  match o with
  | O_produce bs => zlen bs <=? get_rb_room (tx d)
  | O_consume n => (0 <=? n) && (n <=? get_rb_length (rx d))
  | _ => true
  end.

Lemma poll_mask_total d : attr_ok (attr d) -> exists m, poll_mask d = Some m.
Proof.
  intros [Hp Hl]. unfold poll_mask.
  destruct (lookup_lt_is_Some_2 (att_data (attr d)) (Z.to_nat (usr_ptr (attr d)))) as [u Hu].
  { unfold zlen, ADV_ATTRBUF_NUM in *. lia. }
  rewrite (proj2 (Z.leb_le _ _)) by lia. rewrite Hu. simpl. eauto.
Qed.

Lemma produce_runs d bs :
  drv_ok d -> zlen bs <= get_rb_room (tx d) ->
  exists d', port_do d (O_produce bs) = Some d' /\ drv_ok d' /\
    pipe_step (L_produce bs) (view d) (view d').
Proof.
  intros Hd Hbs. pose proof Hd as ([Htx Hcl] & Hrx & Ha).
  destruct (ring_write_contents (tx d) bs Htx Hbs) as (b' & Hw & Hok & Hc).
  destruct (ring_write_keeps _ _ _ Hw) as [Hst _]. unfold ring_write in Hw.
  destruct (ring_copy (tx d) bs) as [b|] eqn:Hb; [|done]. simpl in Hw. injection Hw as <-.
  unfold port_do. rewrite Hb. cbn [mbind option_bind]. unfold ioctl_on.
  change (adv_proc_ioctl (set_tx b d) ADVVCOM_IOCSTXTAIL (uarg (zlen bs))) with
    (d' ← adv_uart_recv_chars (set_tx (move_rb_tail b (zlen bs)) d);
     Some (0, uarg (zlen bs), d')).
  destruct (recv_runs (set_tx (move_rb_tail b (zlen bs)) d)) as (d' & Hr & Hok' & Hstep).
  { split_and!; try done. split; [done|]. simpl in *. by rewrite Hst. }
  rewrite Hr. exists d'. split; [done|]. split; [done|].
  destruct (adv_uart_recv_chars_spec (set_tx (move_rb_tail b (zlen bs)) d)) as (d2 & Hr2 & Hres).
  { split; [done|]. simpl in *. by rewrite Hst. }
  assert (d2 = d') as -> by congruence.
  destruct Hres as (_ & Hcons & [k Hk] & Hfifo & _ & _ & Hrxs & _ & _).
  unfold view. rewrite Hk, Hfifo, Hrxs. simpl in *.
  apply (PS_produce (view d) bs k). simpl. unfold Fifo.enq in Hc. rewrite <- Hc.
  rewrite Hk, <- app_assoc in Hcons. apply app_inv_head in Hcons. done.
Qed.

Lemma consume_runs d n :
  drv_ok d -> 0 <= n <= get_rb_length (rx d) ->
  exists d', port_do d (O_consume n) = Some d' /\ drv_ok d' /\
    pipe_step (L_consume n) (view d) (view d').
Proof.
  intros (Htx & Hrx & Ha) Hn. destruct (move_rb_head_idle _ _ Hrx Hn) as (Hid & Hc & _ & _).
  exists (set_rx (move_rb_head (rx d) n) d). split; [done|]. split; [done|].
  unfold view. simpl. rewrite Hc. apply (PS_consume (view d) n).
  simpl. rewrite contents_length; [done|apply Hrx].
Qed.

Lemma clear_ring b :
  ring_idle b -> ring_idle (move_rb_head (ring_mark_clean b) 0) /\
    contents (move_rb_head (ring_mark_clean b) 0) = [].
Proof.
  intros [Hok _]. destruct (move_rb_head_clean (ring_mark_clean b) 0) as (? & ? & ? & _).
  { exact Hok. } { apply truthy_lor_clean. } { done. }
Qed.

Lemma clear_runs d flags :
  drv_ok d ->
  exists d', port_do d (O_clear flags) = Some d' /\ drv_ok d' /\
    pipe_step (L_clear (flags &? ADV_CLR_RX) (flags &? ADV_CLR_TX)) (view d) (view d').
Proof.
  intros (Htx & Hrx & Ha). destruct (clear_ring _ Htx) as [Hti Htc].
  destruct (clear_ring _ Hrx) as [Hri Hrc].
  unfold port_do, ioctl_on.
  change (adv_proc_ioctl d ADVVCOM_IOCSCLR (uarg flags)) with
    (Some (0, uarg flags, adv_main_clear d flags)).
  cbn [mbind option_bind snd]. unfold adv_main_clear.
  pose proof (PS_clear (view d) (flags &? ADV_CLR_RX) (flags &? ADV_CLR_TX)) as Hs.
  destruct (flags &? ADV_CLR_RX), (flags &? ADV_CLR_TX); eexists; (split; [reflexivity|]);
    (split; [done|]); unfold view in *; simpl in *; rewrite ?Htc, ?Hrc; done.
Qed.

Lemma port_do_sim d o :
  drv_ok d -> op_legal d o = true ->
  exists d', port_do d o = Some d' /\ drv_ok d' /\ pipe_step (op_label o) (view d) (view d').
Proof.
  intros Hd Hl. destruct o as [o| |m| |status|bs|n|flags]; simpl op_label.
  - by apply tty_do_runs.
  - destruct (poll_mask_total (poll_wait d)) as [m Hm]; [apply Hd|].
    simpl. unfold adv_proc_poll. rewrite Hm. eexists. split; [done|].
    apply quiet_sim; [done|]. apply quiet_up.
  - destruct (interrupt_runs d m Hd) as (d' & Hi & Hs).
    exists d'. split; [|done]. simpl. unfold ioctl_on.
    change (adv_proc_ioctl d ADVVCOM_IOCSINTER (uarg m)) with
      (d ← adv_main_interrupt d m; Some (0, uarg m, d)). by rewrite Hi.
  - destruct (flush_attr_info_spec (attr d)) as (q & a & Hf & Ha & _); [apply Hd|].
    exists (set_attr a d). split; [|apply quiet_sim; [done|by apply quiet_attr]].
    simpl. unfold ioctl_on.
    change (adv_proc_ioctl d ADVVCOM_IOCGATTRPTR (uarg 0)) with
      (r ← flush_attr_info (attr d); let '(tmp, a) := r in Some (0, uarg tmp, set_attr a d)).
    by rewrite Hf.
  - exists (snd (adv_uart_ms d (u32 status))). split; [done|].
    apply quiet_sim; [done|]. apply quiet_ms.
  - simpl in Hl. bool_simpl. by apply produce_runs.
  - simpl in Hl. bool_simpl. by apply consume_runs.
  - by apply clear_runs.
Qed.
End drv_proofs.

(** ** Runs *)

Section runs.
Context {T : Type} `{TtyLaws T}.
Implicit Types d : adv_vcom T.

Fixpoint port_run d (os : list port_op) : option (adv_vcom T) :=
  match os with
  | [] => Some d
  | o :: os => d ← port_do d o; port_run d os
  end.

(** Every operation of the run is legal in the state it starts from. *)
Fixpoint legal_run d (os : list port_op) : bool :=
  match os with
  | [] => true
  | o :: os => op_legal d o &&
      match port_do d o with Some d' => legal_run d' os | None => true end
  end.

Lemma port_run_sim d os :
  drv_ok d -> legal_run d os = true ->
  exists d' ps, port_run d os = Some d' /\ drv_ok d' /\
    length ps = S (length os) /\ head ps = Some (view d) /\ last ps = Some (view d') /\
    (forall i o p q, os !! i = Some o -> ps !! i = Some p -> ps !! S i = Some q ->
       pipe_step (op_label o) p q).
Proof.
  revert d. induction os as [|o os IH]; intros d Hd Hl; simpl in *.
  { exists d, [view d]. split_and!; try done. }
  apply andb_true_iff in Hl as [Hlo Hl].
  destruct (port_do_sim d o Hd Hlo) as (d1 & Hdo & Hd1 & Hst).
  rewrite Hdo in *. simpl. destruct (IH d1 Hd1 Hl) as (d' & ps & Hr & Hd' & Hlen & Hhd & Hlast & Hsteps).
  exists d', (view d :: ps). split_and!; try done.
  - simpl. by rewrite Hlen.
  - destruct ps as [|p ps]; [done|]. by rewrite last_cons_cons.
  - intros [|i] o' p q Ho Hp Hq; simpl in *.
    + injection Ho as <-. injection Hp as <-. destruct ps; [done|]. simpl in Hhd, Hq.
      injection Hhd as ->. injection Hq as <-. done.
    + eauto.
Qed.

(** What the labels of a run without clears say of the two streams. *)
Fixpoint produced (os : list port_op) : list byte :=
  match os with
  | [] => []
  | O_produce bs :: os => bs ++ produced os
  | _ :: os => produced os
  end.

Fixpoint consumed (os : list port_op) : Z :=
  match os with
  | [] => 0
  | O_consume n :: os => n + consumed os
  | _ :: os => consumed os
  end.

Definition is_clear (o : port_op) : bool := match o with O_clear _ => true | _ => false end.

Definition stream_up (p : pipe) : list byte := p_up p ++ p_fifo p.
Definition stream_down (p : pipe) : list byte := p_recv p ++ p_down p.

Lemma pipe_step_streams o p q :
  pipe_step (op_label o) p q -> is_clear o = false ->
  stream_down q = stream_down p ++ produced [o] /\
  stream_up q = zdrop (consumed [o]) (stream_up p) /\ 0 <= consumed [o].
Proof.
  unfold stream_up, stream_down. intros Hs Hc.
  destruct o; simpl in *; try done; inversion Hs; subst; simpl in *;
    rewrite ?app_nil_r, ?Z.add_0_r, ?zdrop_0.
  all: repeat match goal with Hf : p_fifo _ = _ |- _ => rewrite Hf; clear Hf end;
    repeat match goal with Hf : p_down _ = _ |- _ => rewrite Hf; clear Hf end;
    rewrite <- ?app_assoc; try done.
  - split_and!; try done. match goal with Hf : _ ++ bs = _ |- _ => by rewrite Hf end.
  - split_and!; try done; [|lia]. by rewrite zdrop_app_l by lia.
Qed.

Lemma port_run_streams d os :
  drv_ok d -> legal_run d os = true -> forallb (fun o => negb (is_clear o)) os = true ->
  exists d', port_run d os = Some d' /\ drv_ok d' /\
    stream_down (view d') = stream_down (view d) ++ produced os /\
    stream_up (view d') = zdrop (consumed os) (stream_up (view d)) /\ 0 <= consumed os.
Proof.
  revert d. induction os as [|o os IH]; intros d Hd Hl Hc; simpl in Hl, Hc.
  { exists d. simpl. by rewrite app_nil_r, zdrop_0. }
  apply andb_true_iff in Hl as [Hlo Hl]. apply andb_true_iff in Hc as [Hco Hc].
  apply negb_true_iff in Hco.
  destruct (port_do_sim d o Hd Hlo) as (d1 & Hdo & Hd1 & Hst).
  destruct (pipe_step_streams _ _ _ Hst Hco) as (Hdn & Hup & Hpos).
  rewrite Hdo in *. destruct (IH d1 Hd1 Hl Hc) as (d' & Hr & Hd' & Hdn' & Hup' & Hpos').
  exists d'. cbn [port_run]. rewrite Hdo. split_and!; try done.
  - rewrite Hdn', Hdn, <- app_assoc. f_equal. destruct o; simpl; by rewrite ?app_nil_r.
  - rewrite Hup', Hup, zdrop_zdrop by done. f_equal. destruct o; simpl; lia.
  - destruct o; simpl in *; lia.
Qed.
End runs.


(** A fresh port of the witnesses, with what the application wrote. *)
Definition fresh_port (fifo : list byte) : adv_vcom eager_tty :=
  adv_main_init 3 0 (replicate 4096 Byte.x00) (replicate 4096 Byte.x00) (mk_sim [] fifo []).

Lemma fresh_port_ok fifo : drv_ok (fresh_port fifo).
Proof.
  unfold drv_ok, ring_idle, ring_ok, geom_ok, attr_ok. simpl.
  change (zlen (replicate 4096 Byte.x00)) with 4096.
  unfold PAGE_SIZE, ADV_ATTRBUF_NUM, zlen. simpl. split_and!; (lia || done).
Qed.

Definition sample_run : list port_op :=
  [O_tty T_startup; O_tty T_start_tx; O_poll; O_consume 2; O_produce (be 3 5);
   O_tty T_throttle; O_produce (be 2 6); O_attrptr; O_interrupt 3].




(** ** Poll and wake-ups *)

(** The daemon has something to fetch from the attributes. *)
Definition attr_news (a : adv_port_att) : bool :=
  match att_data a !! Z.to_nat (usr_ptr a) with
  | Some u => bool_decide (_attr a ≠ u) &&
      ((i_is_open (_attr a) =? 1) || negb (i_is_open (_attr a) =? i_is_open u))
  | None => false
  end.

Lemma poll_mask_bits {T} (d : adv_vcom T) m :
  poll_mask d = Some m ->
  m &? POLLIN = (K.status (rx d) &? ADV_RING_BUF_ENABLED) && negb (is_rb_empty (rx d)) /\
  m &? POLLOUT = (K.status (tx d) &? ADV_RING_BUF_ENABLED) && is_rb_empty (tx d) &&
                 negb (truthy (throttled (attr d))) /\
  m &? POLLPRI = attr_news (attr d).
Proof.
  unfold poll_mask, attr_news. destruct (0 <=? usr_ptr (attr d)); [|done].
  destruct (att_data (attr d) !! Z.to_nat (usr_ptr (attr d))) as [u|]; [|done]. simpl.
  destruct (K.status (rx d) &? _), (K.status (tx d) &? _), (is_rb_empty (rx d)),
    (is_rb_empty (tx d)), (truthy (throttled (attr d))), (bool_decide (_attr (attr d) ≠ u)),
    (i_is_open (_attr (attr d)) =? 1), (i_is_open (_attr (attr d)) =? i_is_open u); simpl;
    intros [= <-]; repeat split; reflexivity.
Qed.

Section poll_proofs.
Context {T : Type} `{TtyLaws T}.
Implicit Types d : adv_vcom T.

(** what the daemon is told by poll: readable exactly when the ring from
    the application is enabled and holds bytes, writable exactly when the other
    ring is enabled, empty and the port is not throttled, urgent exactly when
    the attributes differ from the copy it has, for a port that is open or
    whose open state changed. *)
Theorem adv_proc_poll_mask d :
  drv_ok d ->
  exists m d', adv_proc_poll d = Some (m, d') /\
    (m &? POLLIN = true <->
       K.status (rx d) &? ADV_RING_BUF_ENABLED = true /\ contents (rx d) <> []) /\
    (m &? POLLOUT = true <->
       K.status (tx d) &? ADV_RING_BUF_ENABLED = true /\ contents (tx d) = [] /\
       throttled (attr d) = 0) /\
    m &? POLLPRI = attr_news (attr d) /\
    (forall q, q <> WQ_msr -> active d' q = true).
Proof.
  intros (Htx & Hrx & Ha). destruct (poll_mask_total (poll_wait d)) as [m Hm]; [done|].
  unfold adv_proc_poll. rewrite Hm. eexists m, _. split; [done|].
  destruct (poll_mask_bits _ _ Hm) as (-> & -> & ->). simpl.
  pose proof (contents_empty (rx d) (proj1 Hrx)) as Her.
  pose proof (contents_empty (tx d) (proj1 Htx)) as Het.
  split_and!; [| |done|by intros []].
  - rewrite andb_true_iff, negb_true_iff, <- Her. destruct (is_rb_empty (rx d)); intuition congruence.
  - rewrite !andb_true_iff, negb_true_iff, <- Het. unfold truthy.
    rewrite negb_false_iff, Z.eqb_eq. tauto.
Qed.

(** Somebody who waits is woken. *)
Definition woken d d' : Prop :=
  exists q w, q <> WQ_msr /\ q ∈ w /\ wakes d' = w ++ wakes d.

Lemma wake_if_active_woken q d d' :
  q <> WQ_msr -> active d' q = true ->
  (exists w, wakes d' = w ++ wakes d) -> woken d (wake_if_active q d').
Proof.
  intros Hq Ha [w Hw]. unfold wake_if_active. rewrite Ha. exists q, (q :: w).
  split_and!; [done|apply elem_of_cons; by left|]. simpl. by rewrite Hw.
Qed.

Definition gained d d' (bit : Z) : Prop :=
  exists m m', poll_mask d = Some m /\ poll_mask d' = Some m' /\
    m &? bit = false /\ m' &? bit = true.

Lemma status_disable_enabled b : K.status (ring_disable b) &? ADV_RING_BUF_ENABLED = false.
Proof.
  simpl. change ADV_RING_BUF_ENABLED with (Z.shiftl 1 0). rewrite land_bit by done.
  rewrite Z.land_spec. change (Z.testbit (Z.lnot (Z.shiftl 1 0)) 0) with false. apply andb_false_r.
Qed.

Lemma stop_gains_nothing d d' bit :
  d' = adv_uart_stop_tx d \/ d' = adv_uart_stop_rx d ->
  bit ∈ [POLLIN; POLLOUT; POLLPRI] -> ~ gained d d' bit.
Proof.
  intros Hd Hb (m & m' & Hm & Hm' & Hf & Ht).
  destruct (poll_mask_bits _ _ Hm) as (Hi & Ho & Hp).
  destruct (poll_mask_bits _ _ Hm') as (Hi' & Ho' & Hp').
  pose proof (status_disable_enabled (rx d)) as Hr. pose proof (status_disable_enabled (tx d)) as Hs.
  destruct Hd as [-> | ->].
  - change (rx (adv_uart_stop_tx d)) with (ring_disable (rx d)) in Hi'.
    change (tx (adv_uart_stop_tx d)) with (tx d) in Ho'.
    change (attr (adv_uart_stop_tx d)) with (attr d) in *.
    rewrite Hr in Hi'. simpl in Hi'.
    repeat (apply elem_of_cons in Hb as [->|Hb]; [congruence|]).
    by apply elem_of_nil in Hb.
  - change (rx (adv_uart_stop_rx d)) with (rx d) in Hi'.
    change (tx (adv_uart_stop_rx d)) with (ring_disable (tx d)) in Ho'.
    change (attr (adv_uart_stop_rx d)) with (attr d) in *.
    rewrite Hs in Ho'. simpl in Ho'.
    repeat (apply elem_of_cons in Hb as [->|Hb]; [congruence|]).
    by apply elem_of_nil in Hb.
Qed.

(** C35: no lost wake-up.  While the daemon sleeps in poll, every call of the
    serial core other than [unthrottle] that makes a poll condition true wakes
    it. *)
Theorem tty_calls_wake_daemon d o d' bit :
  drv_ok d -> (forall q, q <> WQ_msr -> active d q = true) ->
  o <> T_unthrottle -> tty_do d o = Some d' ->
  bit ∈ [POLLIN; POLLOUT; POLLPRI] -> gained d d' bit -> woken d d'.
Proof.
  intros Hd Ha Ho Hdo Hb Hg. destruct o; simpl in Hdo; try done; try injection Hdo as <-.
  - unfold adv_uart_start_tx in Hdo.
    destruct (adv_uart_xmit_spec (set_up_tx (ring_enable (up_tx d)) d)) as (d1 & Hx & Hdone & _);
      [apply Hd|].
    rewrite Hx in Hdo. injection Hdo as <-. destruct Hdone as (_ & _ & _ & _ & _ & _ & r & t & ->).
    apply wake_if_active_woken; [done|by apply Ha|by exists []].
  - by apply stop_gains_nothing in Hg; [|left|].
  - by apply stop_gains_nothing in Hg; [|right|].
  - apply wake_if_active_woken; [done|by apply Ha|by exists []].
  - unfold adv_uart_startup. cbv zeta. unfold WQ_up_tx, WQ_up_rx.
    assert (Hm : forall q (e : adv_vcom T), active (wake_if_active q e) = active e /\
      exists w, wakes (wake_if_active q e) = w ++ wakes e).
    { intros q e. unfold wake_if_active. destruct (active e q); split; try done; [by exists [q]|by exists []]. }
    set (d0 := set_up_tx _ _). destruct (Hm WQ_attr d0) as [Ha1 [w1 Hw1]].
    destruct (Hm WQ_tx (wake_if_active WQ_attr d0)) as [Ha2 [w2 Hw2]].
    apply wake_if_active_woken; [done|rewrite Ha2, Ha1; by apply Ha|].
    exists (w2 ++ w1). by rewrite Hw2, Hw1, <- app_assoc.
  - apply wake_if_active_woken; [done|by apply Ha|by exists []].
  - unfold adv_uart_set_termios. destruct (termios_flow _ _ _).
    apply wake_if_active_woken; [done|by apply Ha|by exists []].
  - apply wake_if_active_woken; [done|by apply Ha|by exists []].
Qed.
End poll_proofs.

(** A port whose daemon sleeps: freshly opened, attributes fetched. *)
Definition sleeping_port (fifo : list byte) : option (adv_vcom eager_tty) :=
  port_run (fresh_port fifo) [O_tty T_startup; O_attrptr; O_poll].

Definition sleeping : adv_vcom eager_tty :=
  Eval vm_compute in default (fresh_port []) (sleeping_port (be 2 77)).

Lemma sleeping_ok : drv_ok sleeping.
Proof.
  unfold drv_ok, ring_idle, ring_ok, geom_ok, attr_ok. vm_compute. intuition congruence.
Qed.

Lemma adv_proc_poll_mask_witness :
  exists m d', adv_proc_poll sleeping = Some (m, d') /\ m &? POLLIN = false /\
    m &? POLLOUT = true.
Proof.
  destruct (adv_proc_poll_mask sleeping sleeping_ok) as (m & d' & Hr & Hin & Hout & _).
  exists m, d'. split; [exact Hr|]. split.
  - destruct (m &? POLLIN); [|reflexivity]. destruct (proj1 Hin eq_refl) as [_ Hc].
    exfalso. apply Hc. vm_compute. reflexivity.
  - apply Hout. vm_compute. split_and!; reflexivity.
Defined.

Definition started : adv_vcom eager_tty :=
  Eval vm_compute in default sleeping (tty_do sleeping T_start_tx).

Lemma tty_calls_wake_daemon_witness :
  tty_do sleeping T_start_tx = Some started /\ gained sleeping started POLLIN /\
    woken sleeping started.
Proof.
  assert (Hdo : tty_do sleeping T_start_tx = Some started) by (vm_compute; reflexivity).
  assert (Hg : gained sleeping started POLLIN).
  { exists POLLOUT, (Z.lor POLLIN POLLOUT). split_and!; vm_compute; reflexivity. }
  split_and!; [exact Hdo|exact Hg|].
  assert (Ha : forall q, q <> WQ_msr -> active sleeping q = true)
    by (intros []; vm_compute; congruence).
  assert (Hb : POLLIN ∈ [POLLIN; POLLOUT; POLLPRI]) by (apply elem_of_cons; by left).
  exact (tty_calls_wake_daemon sleeping T_start_tx started POLLIN sleeping_ok Ha
           ltac:(discriminate) Hdo Hb Hg).
Defined.

(** The exception: unthrottling an open port makes it writable again, and
    when the ring had been drained before nobody is woken: the daemon learns of
    it only when its own timeout ends. *)
Theorem unthrottle_wakes_only_with_data {T} `{TtyLaws T} `{!TtyEager T} (d : adv_vcom T) :
  drv_ok d -> active d WQ_tx = true -> throttled (attr d) = 1 ->
  K.status (tx d) &? ADV_RING_BUF_ENABLED = true ->
  exists d', adv_uart_unthrottle d = Some d' /\ gained d d' POLLOUT /\
    wakes d' = if is_rb_empty (tx d) then wakes d else WQ_tx :: wakes d.
Proof.
  intros Hd Ha Hth Hen. unfold adv_uart_unthrottle.
  set (d0 := set_attr (set_throttled 0 (attr d)) d).
  assert (Hd0 : drv_ok d0) by (destruct Hd as (? & ? & ?); done).
  assert (Hidle : ring_idle (up_rx d0)) by apply Hd0.
  destruct (adv_uart_recv_chars_spec d0 Hidle) as (d' & Hr & Hres).
  destruct (recv_loop_drains 3 d0 Hidle) as (d1 & Hl & Hdone); [lia|].
  assert (Hemp : get_rb_length (up_rx d') = 0).
  { destruct (recv_loop_spec 3 d0 Hidle) as (d2 & Hl2 & _). rewrite Hl in Hl2.
    injection Hl2 as Hz <-. revert Hr. unfold adv_uart_recv_chars.
    change (throttled (attr d0)) with 0. change (truthy 0) with false. cbv iota.
    change (K.status (up_rx d0)) with (K.status (tx d)).
    unfold truthy in Hen. apply negb_true_iff in Hen. rewrite Hen, Hl. cbn [mbind option_bind].
    unfold wake_if_active. repeat case_if; intros [= <-]; done. }
  destruct Hres as (Hid' & _ & _ & _ & Hst & _ & _ & Hat & _ & Hw).
  exists d'. split; [done|]. split.
  - destruct (poll_mask_total d) as [m Hm]; [apply Hd|].
    destruct (poll_mask_total d') as [m' Hm']; [rewrite Hat; apply Hd|].
    exists m, m'. split_and!; try done.
    + destruct (poll_mask_bits _ _ Hm) as (_ & -> & _). rewrite Hth. apply andb_false_r.
    + destruct (poll_mask_bits _ _ Hm') as (_ & -> & _). unfold up_rx in *. rewrite Hst, Hat.
      change (K.status (tx d0)) with (K.status (tx d)). rewrite Hen.
      rewrite (proj2 (rb_empty_length (tx d') (ring_ok_geom _ (proj1 Hid')))) by done. done.
  - rewrite Hw. change (active d0 WQ_tx) with (active d WQ_tx). rewrite Ha, Hemp.
    change (up_rx d0) with (tx d). rewrite andb_true_r.
    pose proof (rb_empty_length (tx d) (ring_ok_geom _ (proj1 (proj1 Hd)))) as He.
    destruct (is_rb_empty (tx d)).
    + rewrite (proj1 He) by done. done.
    + destruct (Z.eqb_spec 0 (get_rb_length (tx d))); [|done].
      assert (false = true) by (apply He; lia). done.
Qed.

Definition throttled_port : adv_vcom eager_tty :=
  Eval vm_compute in default sleeping (tty_do sleeping T_throttle).

Lemma unthrottle_wakes_only_with_data_witness :
  exists d', adv_uart_unthrottle throttled_port = Some d' /\ gained throttled_port d' POLLOUT /\
    wakes d' = wakes throttled_port.
Proof.
  apply (unthrottle_wakes_only_with_data throttled_port); try reflexivity.
  unfold drv_ok, ring_idle, ring_ok, geom_ok, attr_ok. vm_compute. intuition congruence.
Defined.

(** the daemon's double buffer.  Fetching the attribute pointer stores the
    current attributes in the slot it returns and leaves the slot the daemon has
    been reading as it was; afterwards poll reports no news. *)
Theorem attrptr_switches_buffer {T} `{TtyLaws T} (d : adv_vcom T) :
  drv_ok d -> _newbie (attr d) = 0 ->
  exists p d', adv_proc_ioctl d ADVVCOM_IOCGATTRPTR (uarg 0) = Some (0, uarg p, d') /\
    drv_ok d' /\ p <> usr_ptr (attr d) /\
    att_data (attr d') !! Z.to_nat p = Some (_attr (attr d)) /\
    att_data (attr d') !! Z.to_nat (usr_ptr (attr d)) =
      att_data (attr d) !! Z.to_nat (usr_ptr (attr d)) /\
    (forall m, poll_mask d' = Some m -> m &? POLLPRI = false).
Proof.
  intros Hd Hn. destruct (flush_attr_info_spec (attr d)) as
    (p & a & Hf & Ha & Hp & Hnew & Hat & _ & _ & _ & Hold); [apply Hd|].
  destruct (Hold Hn) as [Hne Hkeep].
  assert (Hd' : drv_ok (set_attr a d)) by (destruct Hd as (? & ? & ?); by split_and!).
  exists p, (set_attr a d). split; [|split_and!; try done].
  - change (adv_proc_ioctl d ADVVCOM_IOCGATTRPTR (uarg 0)) with
      (r ← flush_attr_info (attr d); let '(tmp, a) := r in Some (0, uarg tmp, set_attr a d)).
    by rewrite Hf.
  - intros m Hm. destruct (poll_mask_bits _ _ Hm) as (_ & _ & ->). simpl.
    unfold attr_news. rewrite <- Hp, Hnew, Hat. by rewrite bool_decide_eq_false_2 by (intros Hx; by apply Hx).
Qed.

Lemma attrptr_switches_buffer_witness :
  exists p d', adv_proc_ioctl sleeping ADVVCOM_IOCGATTRPTR (uarg 0) = Some (0, uarg p, d') /\
    drv_ok d' /\ p <> 0 /\
    att_data (attr d') !! Z.to_nat p = Some (_attr (attr sleeping)) /\
    att_data (attr d') !! 0%nat = att_data (attr sleeping) !! 0%nat /\
    (forall m, poll_mask d' = Some m -> m &? POLLPRI = false).
Proof. apply (attrptr_switches_buffer sleeping); [apply sleeping_ok|reflexivity]. Defined.

(** The switch statements of [adv_uart_set_termios] as tests of single bits. *)
Lemma land_pow2 x k : 0 <= k -> Z.land x (Z.shiftl 1 k) = if Z.testbit x k then Z.shiftl 1 k else 0.
Proof.
  intros Hk. rewrite Z.shiftl_1_l. apply Z.bits_inj'. intros n Hn. rewrite Z.land_spec.
  destruct (Z.eq_dec n k) as [->|Hne].
  - rewrite Z.pow2_bits_true by done. destruct (Z.testbit x k); [by rewrite Z.pow2_bits_true|].
    by rewrite Z.testbit_0_l.
  - rewrite Z.pow2_bits_false by lia. rewrite andb_false_r.
    destruct (Z.testbit x k); [by rewrite Z.pow2_bits_false by lia|by rewrite Z.testbit_0_l].
Qed.

Lemma termios_byte_bits c :
  termios_byte c = 5 + (if Z.testbit c 4 then 1 else 0) + (if Z.testbit c 5 then 2 else 0).
Proof.
  unfold termios_byte. change CSIZE with (Z.lor (Z.shiftl 1 4) (Z.shiftl 1 5)).
  rewrite Z.land_lor_distr_r, !land_pow2 by lia. by destruct (Z.testbit c 4), (Z.testbit c 5).
Qed.

Lemma termios_pair_bits c :
  termios_pair c =
    if c &? PARENB
    then if c &? CMSPAR then (if c &? PARODD then ADV_PAIR_MARK else ADV_PAIR_SPACE)
         else (if c &? PARODD then ADV_PAIR_ODD else ADV_PAIR_EVEN)
    else ADV_PAIR_NONE.
Proof.
  unfold termios_pair. change PARENB with (Z.shiftl 1 8). change PARODD with (Z.shiftl 1 9).
  change CMSPAR with (Z.shiftl 1 30). rewrite !land_bit by lia.
  rewrite !Z.land_lor_distr_r, !land_pow2 by lia.
  by destruct (Z.testbit c 8), (Z.testbit c 9), (Z.testbit c 30).
Qed.

(** C37: the line settings of the application reach the daemon.  After
    [set_termios] the next fetch of the attributes shows it the baud rate of
    the serial core, five to eight data bits as the two size bits say, the
    parity the three parity bits say, the stop bits and the flow control,
    hardware before software. *)
Theorem termios_reaches_daemon {T} `{TtyLaws T} (d : adv_vcom T) (t old : ktermios) :
  drv_ok d ->
  exists p d' i,
    adv_proc_ioctl (adv_uart_set_termios d t old) ADVVCOM_IOCGATTRPTR (uarg 0) = Some (0, uarg p, d') /\
    drv_ok d' /\ att_data (attr d') !! Z.to_nat p = Some i /\
    i_baud i = uart_get_baud_rate (tty d) t old 50 921600 /\
    i_byte i = 5 + (if Z.testbit (c_cflag t) 4 then 1 else 0) + (if Z.testbit (c_cflag t) 5 then 2 else 0) /\
    i_pair i = (if c_cflag t &? PARENB
                then if c_cflag t &? CMSPAR
                     then (if c_cflag t &? PARODD then ADV_PAIR_MARK else ADV_PAIR_SPACE)
                     else (if c_cflag t &? PARODD then ADV_PAIR_ODD else ADV_PAIR_EVEN)
                else ADV_PAIR_NONE) /\
    i_stop i = (if c_cflag t &? CSTOPB then ADV_STOP_2 else ADV_STOP_1) /\
    i_flowctl i = (if c_cflag t &? CRTSCTS then ADV_FLOW_RTSCTS
                   else if c_iflag t &? IXOFF then ADV_FLOW_XONXOFF else ADV_FLOW_NONE) /\
    i_is_open i = i_is_open (_attr (attr d)) /\ i_ms i = i_ms (_attr (attr d)).
Proof.
  intros Hd. set (d1 := adv_uart_set_termios d t old).
  assert (Hd1 : attr_ok (attr d1) /\ tx d1 = tx d /\ rx d1 = rx d /\ _attr (attr d1) =
    mk_info (i_is_open (_attr (attr d))) (uart_get_baud_rate (tty d) t old 50 921600)
      (fst (termios_flow (c_cflag t) (c_iflag t) (port_status d)))
      (termios_byte (c_cflag t)) (termios_pair (c_cflag t)) (termios_stop (c_cflag t))
      (i_ms (_attr (attr d)))).
  { unfold d1, adv_uart_set_termios, wake_if_active, wake_up_interruptible.
    destruct (termios_flow _ _ _) as [fl st]. case_if; split_and!; try done; apply Hd. }
  destruct Hd1 as (Ha & Htx & Hrx & Hi).
  destruct (flush_attr_info_spec (attr d1) Ha) as (p & a & Hf & Ha' & _ & Hnew & _).
  exists p, (set_attr a d1), (_attr (attr d1)). split.
  { change (adv_proc_ioctl d1 ADVVCOM_IOCGATTRPTR (uarg 0)) with
      (r ← flush_attr_info (attr d1); let '(tmp, a) := r in Some (0, uarg tmp, set_attr a d1)).
    by rewrite Hf. }
  split.
  { destruct Hd as (? & ? & ?). unfold drv_ok. simpl. rewrite Htx, Hrx. by split_and!. }
  split; [done|]. rewrite Hi. simpl. rewrite termios_byte_bits, termios_pair_bits.
  split_and!; try done. unfold termios_flow. by repeat case_if.
Qed.

Definition sample_termios : ktermios := mk_termios IXOFF (Z.lor CS7 (Z.lor PARENB PARODD)).

Lemma termios_reaches_daemon_witness :
  exists p d' i,
    adv_proc_ioctl (adv_uart_set_termios sleeping sample_termios sample_termios)
      ADVVCOM_IOCGATTRPTR (uarg 0) = Some (0, uarg p, d') /\
    att_data (attr d') !! Z.to_nat p = Some i /\
    i_byte i = 7 /\ i_pair i = ADV_PAIR_ODD /\ i_flowctl i = ADV_FLOW_XONXOFF.
Proof.
  destruct (termios_reaches_daemon sleeping sample_termios sample_termios sleeping_ok)
    as (p & d' & i & Hr & _ & Hl & _ & Hb & Hp & _ & Hfl & _).
  exists p, d', i. split; [exact Hr|]. split; [exact Hl|]. rewrite Hb, Hp, Hfl.
  vm_compute. split_and!; reflexivity.
Defined.

(** the lengths the daemon passes are not checked: with a negative one the
    tail of an enabled ring leaves the page, and the tty is given bytes nobody
    produced. *)
Theorem txtail_unchecked :
  exists d d' : adv_vcom eager_tty, drv_ok d /\ contents (tx d) = [] /\
    adv_proc_ioctl d ADVVCOM_IOCSTXTAIL (uarg (-1)) = Some (0, uarg (-1), d') /\
    K.tail (tx d') = -1 /\ zlen (tty_received (tty d')) = 4095.
Proof.
  exists sleeping. eexists. split; [apply sleeping_ok|]. split; [reflexivity|].
  split; [vm_compute; reflexivity|]. split; reflexivity.
Qed.

(** the memory map: page 0 of the map is the ring towards the application,
    page 1 the ring from it and page 2 the attributes, at the offsets the
    begin ioctls report, and nothing lies behind. *)
Theorem mmap_layout {T} `{TtyIf T} port mctrl0 ptx prx (t : T) off :
  let d := adv_main_init port mctrl0 ptx prx t in
  0 <= off ->
  adv_vma_nopage d off =
    (if off / PAGE_SIZE =? K.begin (tx d) / PAGE_SIZE then Some P_tx
     else if off / PAGE_SIZE =? K.begin (rx d) / PAGE_SIZE then Some P_rx
     else if off / PAGE_SIZE =? att_begin (attr d) / PAGE_SIZE then Some P_attr else None).
Proof.
  cbv zeta. intros Hoff. unfold adv_vma_nopage. simpl. unfold PAGE_SIZE.
  change (4096 + 0) with 4096. change (0 / 4096) with 0.
  change (4096 / 4096) with 1. change (2 * 4096 / 4096) with 2.
  pose proof (Z.div_mod off 4096 ltac:(lia)). pose proof (Z.mod_pos_bound off 4096 ltac:(lia)).
  repeat case_if; try done; lia.
Qed.

Lemma mmap_layout_witness :
  adv_vma_nopage (fresh_port []) 4100 = Some P_rx.
Proof.
  pose proof (mmap_layout 3 0 (replicate 4096 Byte.x00) (replicate 4096 Byte.x00)
    (mk_sim [] [] [] : eager_tty) 4100 ltac:(lia)) as Hw. exact Hw.
Defined.
