(* ===== verification/Os.v ===== *)
(** * The world the daemon runs in

    [Os W] lists the calls the daemon makes out of the repository, on a world
    of type [W]: the control file of the port (ioctl, the memory map), sockets
    and select, the clock, the resolver and OpenSSL.  Every call returns the
    world after it, so whatever happens concurrently (the peer, the
    application, the kernel) is in the values of [W].

    [Prog] is the monad of the daemon: a state (the port, the world and the
    statics) and four outcomes.  [Fault] is undefined behaviour of C: a call
    through a null function pointer, a read of an unset stack slot, an access
    outside of a buffer, a second free. *)

From S2P Require Import Prelude RingBuf Uart.

Definition O_NONBLOCK : Z := 0x800.

(** The parts of [struct ifaddrs] and [struct addrinfo] that are looked at. *)
Record ifaddr := mk_ifaddr { ifa_family : option Z; ifa_addr : Z }.
Record addrinfo := mk_addrinfo { ai_family : Z; ai_addr : Z }.

Definition EINPROGRESS : Z := 115.

Class Os (W : Type) := {
  (** the control file: result, the argument cell afterwards *)
  drv_ioctl : W -> Z -> Z -> Z * Z * W;
  (** the memory map, by offset; [None] is outside of it *)
  map_load : W -> Z -> Z -> option (list byte);
  map_store : W -> Z -> list byte -> option W;
  map_info : W -> Z -> option adv_port_info;
  (** read, write and exception set, timeout in microseconds; the result, the
      sets and the time left *)
  sys_select : W -> list Z -> list Z -> list Z -> Z ->
    Z * (list Z * list Z * list Z) * Z * W;
  sys_send : W -> Z -> list byte -> Z * W;
  sys_recv : W -> Z -> Z -> Z * list byte * W;
  sys_close : W -> Z -> W;
  sys_time : W -> Z * W;
  sys_sleep : W -> Z -> W;
  fcntl_getfl : W -> Z -> Z * W;
  fcntl_setfl : W -> Z -> Z -> Z * W;
  set_nodelay : W -> Z -> W;
  (** names and connections *)
  getifaddrs : W -> option (list ifaddr) * W;
  getaddrinfo : W -> Z -> option (list addrinfo) * W;
  sys_socket : W -> Z -> Z * W;
  sys_bind : W -> Z -> Z -> Z * W;
  (** result and errno *)
  sys_connect : W -> Z -> Z -> Z * Z * W;
  (** result and error of [SO_ERROR] *)
  sys_so_error : W -> Z -> Z * Z * W;
  (** OpenSSL, on the one connection *)
  SSL_new : W -> W;
  SSL_free : W -> W;
  SSL_shutdown : W -> W;
  SSL_set_fd : W -> Z -> Z * W;
  SSL_connect : W -> Z * W;
  SSL_read : W -> Z -> Z * list byte * W;
  SSL_write : W -> list byte -> Z * W;
  SSL_get_error : W -> Z -> Z;
  SSL_pending : W -> Z;
  (** a bound on the rounds an operation on this connection can still ask for *)
  ssl_work : W -> nat;
  (** what an uninitialised buffer of [n] bytes holds *)
  uninit : W -> Z -> list byte;
}.

(** ** The TLS connection of a port: [shared/ssl_select] *)

Record wait_event := mk_we { we_write : Z; we_read : Z }.
Record ssl_info := mk_ssl {
  ssl_sk : Z;
  (** an [SSL] object is attached: between [SSL_new] and [SSL_free] *)
  ssl_live : bool;
  w_recv : wait_event;
  w_send : wait_event;
  w_connect : wait_event;
  w_accept : wait_event;
}.

(** ** The port of the daemon: [struct vc_attr] *)

Inductive state_id := S_netdown | S_netup | S_pause | S_idle | S_sync.
#[export] Instance state_id_eq_dec : EqDecision state_id.
Proof. solve_decision. Defined.

Definition STACK_MAX : Z := 10.

(** [stk_stat] holds pointers to the tables of the states; an entry that was
    never written is [None]. *)
Record stk_vc := mk_stk { top : Z; stk_stat : list (option state_id) }.

Record vc_attr := mk_attr {
  fd : Z;
  sk : Z;
  attr_ptr : Z;
  xmit_pending : Z;
  ttyid : Z;
  ssl : option ssl_info;
  port : Z;
  tid : Z;
  devid : Z;
  stk : stk_vc;
  ip_ptr : Z;
  ip_red : option Z;
  eki : adv_port_info;
  (** offset of the attribute array in the memory map *)
  attr_off : Z;
  utx : U.ring_buf;
  urx : U.ring_buf;
}.

Definition set_sk v a := mk_attr (fd a) v (attr_ptr a) (xmit_pending a) (ttyid a) (ssl a)
  (port a) (tid a) (devid a) (stk a) (ip_ptr a) (ip_red a) (eki a) (attr_off a) (utx a) (urx a).
Definition set_attr_ptr v a := mk_attr (fd a) (sk a) v (xmit_pending a) (ttyid a) (ssl a)
  (port a) (tid a) (devid a) (stk a) (ip_ptr a) (ip_red a) (eki a) (attr_off a) (utx a) (urx a).
Definition set_xmit_pending v a := mk_attr (fd a) (sk a) (attr_ptr a) v (ttyid a) (ssl a)
  (port a) (tid a) (devid a) (stk a) (ip_ptr a) (ip_red a) (eki a) (attr_off a) (utx a) (urx a).
Definition set_ssl v a := mk_attr (fd a) (sk a) (attr_ptr a) (xmit_pending a) (ttyid a) v
  (port a) (tid a) (devid a) (stk a) (ip_ptr a) (ip_red a) (eki a) (attr_off a) (utx a) (urx a).
Definition set_tid v a := mk_attr (fd a) (sk a) (attr_ptr a) (xmit_pending a) (ttyid a) (ssl a)
  (port a) v (devid a) (stk a) (ip_ptr a) (ip_red a) (eki a) (attr_off a) (utx a) (urx a).
Definition set_stk v a := mk_attr (fd a) (sk a) (attr_ptr a) (xmit_pending a) (ttyid a) (ssl a)
  (port a) (tid a) (devid a) v (ip_ptr a) (ip_red a) (eki a) (attr_off a) (utx a) (urx a).
Definition set_eki v a := mk_attr (fd a) (sk a) (attr_ptr a) (xmit_pending a) (ttyid a) (ssl a)
  (port a) (tid a) (devid a) (stk a) (ip_ptr a) (ip_red a) v (attr_off a) (utx a) (urx a).
Definition set_attr_off v a := mk_attr (fd a) (sk a) (attr_ptr a) (xmit_pending a) (ttyid a) (ssl a)
  (port a) (tid a) (devid a) (stk a) (ip_ptr a) (ip_red a) (eki a) v (utx a) (urx a).
Definition set_utx v a := mk_attr (fd a) (sk a) (attr_ptr a) (xmit_pending a) (ttyid a) (ssl a)
  (port a) (tid a) (devid a) (stk a) (ip_ptr a) (ip_red a) (eki a) (attr_off a) v (urx a).
Definition set_urx v a := mk_attr (fd a) (sk a) (attr_ptr a) (xmit_pending a) (ttyid a) (ssl a)
  (port a) (tid a) (devid a) (stk a) (ip_ptr a) (ip_red a) (eki a) (attr_off a) (utx a) v.

(** ** Programs *)

Record St (W : Type) := mk_st {
  at_ : vc_attr;
  world : W;
  (** [pre_excp_t] of [_stk_excp] and [buf] of [vc_recv_desp] *)
  pre_excp_t : Z;
  rbuf : list byte;
}.
#[global] Arguments mk_st {W} _ _ _ _.
#[global] Arguments at_ {W} _.
#[global] Arguments world {W} _.
#[global] Arguments pre_excp_t {W} _.
#[global] Arguments rbuf {W} _.

Inductive res (W A : Type) :=
  | Ok (x : A) (s : St W)
  | Exited (s : St W)
  | Fault
  | NoFuel.
#[global] Arguments Ok {W A} _ _.
#[global] Arguments Exited {W A} _.
#[global] Arguments Fault {W A}.
#[global] Arguments NoFuel {W A}.

Definition Prog (W A : Type) : Type := St W -> res W A.

#[export] Instance prog_ret {W} : MRet (Prog W) := fun A x s => Ok x s.
#[export] Instance prog_bind {W} : MBind (Prog W) := fun A B k m s =>
  match m s with
  | Ok x s => k x s
  | Exited s => Exited s
  | Fault => Fault
  | NoFuel => NoFuel
  end.

Section prog.
Context {W : Type}.

Definition gets {A} (f : vc_attr -> A) : Prog W A := fun s => Ok (f (at_ s)) s.
Definition modify (f : vc_attr -> vc_attr) : Prog W unit := fun s =>
  Ok tt (mk_st (f (at_ s)) (world s) (pre_excp_t s) (rbuf s)).
Definition get_world : Prog W W := fun s => Ok (world s) s.
Definition put_world (w : W) : Prog W unit := fun s =>
  Ok tt (mk_st (at_ s) w (pre_excp_t s) (rbuf s)).
Definition fault {A} : Prog W A := fun _ => Fault.
Definition exit0 {A} : Prog W A := fun s => Exited s.
Definition nofuel {A} : Prog W A := fun _ => NoFuel.

(** A call into the world. *)
Definition sys {A} (f : W -> A * W) : Prog W A := fun s =>
  let '(x, w) := f (world s) in Ok x (mk_st (at_ s) w (pre_excp_t s) (rbuf s)).
Definition sys_ (f : W -> W) : Prog W unit := sys (fun w => (tt, f w)).

(** A partial operation: [None] is a fault. *)
Definition lift {A} (x : option A) : Prog W A :=
  match x with Some x => mret x | None => fault end.

Definition when (b : bool) (m : Prog W unit) : Prog W unit :=
  if b then m else mret tt.
End prog.

(** ** Reasoning about programs

    [wp m s Q]: from [s] the program returns, and what it returns satisfies
    [Q]; it neither exits, faults nor runs out of fuel. *)

Section wp.
Context {W : Type}.

Definition wp {A} (m : Prog W A) (s : St W) (Q : A -> St W -> Prop) : Prop :=
  match m s with Ok x s' => Q x s' | _ => False end.

Lemma wp_ret {A} (x : A) s Q : Q x s -> wp (mret x) s Q.
Proof. done. Qed.

Lemma wp_bind {A B} (m : Prog W A) (k : A -> Prog W B) s Q :
  wp m s (fun x s' => wp (k x) s' Q) -> wp (m ≫= k) s Q.
Proof. unfold wp, mbind, prog_bind. by destruct (m s). Qed.

Lemma wp_mono {A} (m : Prog W A) s (Q Q' : A -> St W -> Prop) :
  wp m s Q -> (forall x s', Q x s' -> Q' x s') -> wp m s Q'.
Proof. unfold wp. destruct (m s); auto. Qed.

Lemma wp_gets {A} (f : vc_attr -> A) s Q : Q (f (at_ s)) s -> wp (gets f) s Q.
Proof. done. Qed.

Lemma wp_modify f s (Q : unit -> St W -> Prop) :
  Q tt (mk_st (f (at_ s)) (world s) (pre_excp_t s) (rbuf s)) -> wp (modify f) s Q.
Proof. done. Qed.

Lemma wp_get_world s (Q : W -> St W -> Prop) : Q (world s) s -> wp get_world s Q.
Proof. done. Qed.

(** Whatever the call does to the world. *)
Lemma wp_sys {A} (f : W -> A * W) s Q :
  (forall x w, f (world s) = (x, w) -> Q x (mk_st (at_ s) w (pre_excp_t s) (rbuf s))) ->
  wp (sys f) s Q.
Proof. unfold wp, sys. destruct (f (world s)) as [x w]. auto. Qed.

Lemma wp_sys_ (f : W -> W) s (Q : unit -> St W -> Prop) :
  Q tt (mk_st (at_ s) (f (world s)) (pre_excp_t s) (rbuf s)) -> wp (sys_ f) s Q.
Proof. done. Qed.

Lemma wp_lift {A} (x : option A) s Q :
  (exists y, x = Some y /\ Q y s) -> wp (lift x) s Q.
Proof. by intros (y & -> & ?). Qed.

Lemma wp_when (b : bool) m s (Q : unit -> St W -> Prop) :
  (b = true -> wp m s Q) -> (b = false -> Q tt s) -> wp (when b m) s Q.
Proof. destruct b; intros H1 H2; [by apply H1|apply wp_ret; by apply H2]. Qed.

Lemma wp_if {A} (b : bool) (m1 m2 : Prog W A) s Q :
  (b = true -> wp m1 s Q) -> (b = false -> wp m2 s Q) -> wp (if b then m1 else m2) s Q.
Proof. destruct b; auto. Qed.
End wp.

(** Step through a program up to its next call of a named operation. *)
Ltac wp_step :=
  first
    [ apply wp_bind
    | apply wp_ret
    | apply wp_gets
    | apply wp_modify
    | apply wp_get_world
    | apply wp_when; [intros ?|intros ?]
    | apply wp_if; [intros ?|intros ?] ].
Ltac wp_go := repeat (wp_step; cbv beta).
