(* ===== verification/SslSelect.v ===== *)
(** * TLS over select

    [shared/ssl_select/ssl_select.c]: non-blocking OpenSSL operations that
    record what they wait for, the loop that waits with select, and the
    computation of the descriptor sets.  The macros [GEN_SSL_ACTION_DIRECT],
    [GEN_SSL_ACTION_SIMPLE_TV] and [GEN_SSL_ACTION_SIMPLE] become functions
    with the action as an argument.  The texts of the error messages are not
    modelled.  A call on a connection whose [SSL] object was freed is a
    fault. *)

From S2P Require Import Prelude RingBuf Uart Os.

Definition SSL_OPS_FAIL : Z := -1.
Definition SSL_OPS_SELECT : Z := -2.
Definition SSL_ERROR_WANT_READ : Z := 2.
Definition SSL_ERROR_WANT_WRITE : Z := 3.
Definition invoke_ssl_send : Z := 1.
Definition invoke_ssl_recv : Z := 2.
Definition invoke_ssl_connect : Z := 4.
Definition invoke_ssl_accept : Z := 8.

Inductive ssl_action := A_recv | A_send | A_connect | A_accept.

Definition get_we (act : ssl_action) (i : ssl_info) : wait_event :=
  match act with
  | A_recv => w_recv i | A_send => w_send i | A_connect => w_connect i | A_accept => w_accept i
  end.

Definition set_we (act : ssl_action) (e : wait_event) (i : ssl_info) : ssl_info :=
  match act with
  | A_recv => mk_ssl (ssl_sk i) (ssl_live i) e (w_send i) (w_connect i) (w_accept i)
  | A_send => mk_ssl (ssl_sk i) (ssl_live i) (w_recv i) e (w_connect i) (w_accept i)
  | A_connect => mk_ssl (ssl_sk i) (ssl_live i) (w_recv i) (w_send i) e (w_accept i)
  | A_accept => mk_ssl (ssl_sk i) (ssl_live i) (w_recv i) (w_send i) (w_connect i) e
  end.

Definition set_ssl_conn (s : Z) (live : bool) (i : ssl_info) : ssl_info :=
  mk_ssl s live (w_recv i) (w_send i) (w_connect i) (w_accept i).

Definition we_none : wait_event := mk_we 0 0.

Definition sslinfo_alloc : ssl_info := mk_ssl (-1) false we_none we_none we_none we_none.

Definition wants_write (i : ssl_info) : bool :=
  truthy (we_write (w_recv i)) || truthy (we_write (w_connect i)) ||
  truthy (we_write (w_send i)) || truthy (we_write (w_accept i)).
Definition wants_read (i : ssl_info) : bool :=
  truthy (we_read (w_recv i)) || truthy (we_read (w_connect i)) ||
  truthy (we_read (w_send i)) || truthy (we_read (w_accept i)).

(** The highest descriptor and the two sets. *)
Definition ssl_set_fds (i : ssl_info) (maxfd : Z) (rfds wfds : list Z)
  : Z * list Z * list Z :=
  let wfds := if wants_write i then ssl_sk i :: wfds else wfds in
  let rfds := if wants_read i then ssl_sk i :: rfds else rfds in
  let maxfd := if wants_write i || wants_read i
               then if ssl_sk i <? maxfd then maxfd else ssl_sk i else maxfd in
  (maxfd, rfds, wfds).

(** [pending]: the value of [SSL_pending]. *)
Definition ssl_handle_fds (i : ssl_info) (pending : Z) (rfds wfds : list Z) : Z :=
  let flag (b : Z) m r := if truthy b then Z.lor r m else r in
  let ret := 0 in
  let ret :=
    if bool_decide (ssl_sk i ∈ rfds) then
      let ret := flag (we_read (w_connect i)) invoke_ssl_connect ret in
      let ret := flag (we_read (w_send i)) invoke_ssl_send ret in
      let ret := flag (we_read (w_recv i)) invoke_ssl_recv ret in
      flag (we_read (w_accept i)) invoke_ssl_accept ret
    else ret in
  let ret :=
    if bool_decide (ssl_sk i ∈ wfds) then
      let ret := flag (we_write (w_connect i)) invoke_ssl_connect ret in
      let ret := flag (we_write (w_send i)) invoke_ssl_send ret in
      let ret := flag (we_write (w_recv i)) invoke_ssl_recv ret in
      flag (we_write (w_accept i)) invoke_ssl_accept ret
    else ret in
  if truthy pending then
    let ret := flag (we_read (w_recv i)) invoke_ssl_recv ret in
    flag (we_write (w_recv i)) invoke_ssl_recv ret
  else ret.

Section ssl_ops.
Context {W : Type} `{Os W}.

(** [info] is the port's TLS connection; a null pointer faults. *)
Definition get_ssl : Prog W ssl_info := i ← gets ssl; lift i.
Definition upd_ssl (f : ssl_info -> ssl_info) : Prog W unit :=
  i ← get_ssl; modify (set_ssl (Some (f i))).

(** An OpenSSL call needs a live object. *)
Definition ssl_call {A} (f : W -> A * W) : Prog W A :=
  i ← get_ssl; if ssl_live i then sys f else fault.

Definition _do_ssl_update_wait_event (act : ssl_action) (ssl_errno : Z) : Prog W Z :=
  if ssl_errno =? SSL_ERROR_WANT_READ then
    upd_ssl (fun i => set_we act (mk_we (we_write (get_we act i)) 1) i);; mret SSL_OPS_SELECT
  else if ssl_errno =? SSL_ERROR_WANT_WRITE then
    upd_ssl (fun i => set_we act (mk_we 1 (we_read (get_we act i))) i);; mret SSL_OPS_SELECT
  else mret SSL_OPS_FAIL.

(** [func] is the OpenSSL call: its result and the bytes it read. *)
Definition ssl_direct (act : ssl_action) (func : W -> Z * list byte * W)
    (success : Z -> bool) : Prog W (Z * list byte) :=
  upd_ssl (set_we act we_none);;
  r ← ssl_call func;
  if success (fst r) then mret r else
  w ← get_world;
  let ssl_errno := SSL_get_error w (fst r) in
  e ← _do_ssl_update_wait_event act ssl_errno;
  mret (e, []).

Definition positive (r : Z) : bool := 0 <? r.
Definition is_one (r : Z) : bool := r =? 1.

Definition ssl_recv_direct (len : Z) : Prog W (Z * list byte) :=
  ssl_direct A_recv (fun w => SSL_read w len) positive.
Definition ssl_send_direct (buf : list byte) : Prog W (Z * list byte) :=
  ssl_direct A_send (fun w => let '(r, w) := SSL_write w buf in (r, [], w)) positive.
Definition ssl_connect_direct : Prog W (Z * list byte) :=
  ssl_direct A_connect (fun w => let '(r, w) := SSL_connect w in (r, [], w)) is_one.

Fixpoint ssl_simple_tv (fuel : nat) (direct : Prog W (Z * list byte))
    (success : Z -> bool) (tv : Z) : Prog W (Z * list byte) :=
  match fuel with
  | O => nofuel
  | S fuel =>
      r ← direct;
      if success (fst r) then mret r
      else if fst r =? SSL_OPS_FAIL then mret r else
      i ← get_ssl;
      let '(_, rfds, wfds) := ssl_set_fds i 0 [] [] in
      sel ← sys (fun w => sys_select w rfds wfds [] tv);
      let '(n, _, tv) := sel in
      if 0 <? n then ssl_simple_tv fuel direct success tv else mret r
  end.

(** [to_ms / 1000] seconds and [(to_ms % 1000) * 1000] microseconds. *)
Definition ms_tv (to_ms : Z) : Z := Z.quot to_ms 1000 * 1000000 + Z.rem to_ms 1000 * 1000.

Definition ssl_simple (direct : Prog W (Z * list byte)) (success : Z -> bool) (to_ms : Z)
  : Prog W (Z * list byte) :=
  w ← get_world; ssl_simple_tv (S (ssl_work w)) direct success (ms_tv to_ms).

Definition ssl_recv_simple (len to_ms : Z) : Prog W (Z * list byte) :=
  ssl_simple (ssl_recv_direct len) positive to_ms.
Definition ssl_send_simple (buf : list byte) (to_ms : Z) : Prog W Z :=
  r ← ssl_simple (ssl_send_direct buf) positive to_ms; mret (fst r).
Definition ssl_connect_simple (to_ms : Z) : Prog W Z :=
  r ← ssl_simple ssl_connect_direct is_one to_ms; mret (fst r).

(** [__set_block] and [__set_nonblock] *)
Definition __set_block (sock : Z) : Prog W Z :=
  arg ← sys (fun w => fcntl_getfl w sock);
  if arg <? 0 then mret (-1) else
  r ← sys (fun w => fcntl_setfl w sock (Z.land arg (Z.lnot O_NONBLOCK)));
  if r <? 0 then mret (-1) else mret 0.

Definition __set_nonblock (sock : Z) : Prog W Z :=
  arg ← sys (fun w => fcntl_getfl w sock);
  if arg <? 0 then mret (-1) else
  r ← sys (fun w => fcntl_setfl w sock (Z.lor arg O_NONBLOCK));
  if r <? 0 then mret (-1) else mret 0.
End ssl_ops.

(** ** Termination and frame of the TLS operations

    [SslProgress]: an operation that has to wait uses up one of the rounds the
    connection can still ask for (a handshake and a record have finitely many),
    and waiting adds none. *)

Class SslProgress (W : Type) `{Os W} := {
  read_progress w len r bs w' :
    SSL_read w len = (r, bs, w') -> r <= 0 ->
    SSL_get_error w' r ∈ [SSL_ERROR_WANT_READ; SSL_ERROR_WANT_WRITE] ->
    (ssl_work w' < ssl_work w)%nat;
  read_length w len r bs w' :
    SSL_read w len = (r, bs, w') -> 0 < r -> r <= len /\ zlen bs = r;
  write_progress w buf r w' :
    SSL_write w buf = (r, w') -> r <= 0 ->
    SSL_get_error w' r ∈ [SSL_ERROR_WANT_READ; SSL_ERROR_WANT_WRITE] ->
    (ssl_work w' < ssl_work w)%nat;
  connect_progress w r w' :
    SSL_connect w = (r, w') -> r <> 1 ->
    SSL_get_error w' r ∈ [SSL_ERROR_WANT_READ; SSL_ERROR_WANT_WRITE] ->
    (ssl_work w' < ssl_work w)%nat;
  select_progress w rs ws es tv r sets tv' w' :
    sys_select w rs ws es tv = (r, sets, tv', w') -> (ssl_work w' <= ssl_work w)%nat;
}.

(** Only what the connection waits for changes. *)
Definition ssl_frame {W} (s s' : St W) : Prop :=
  exists i i', ssl (at_ s) = Some i /\ at_ s' = set_ssl (Some i') (at_ s) /\
    ssl_sk i' = ssl_sk i /\ ssl_live i' = ssl_live i /\
    pre_excp_t s' = pre_excp_t s /\ rbuf s' = rbuf s.

Definition ssl_ready {W} (s : St W) : Prop :=
  exists i, ssl (at_ s) = Some i /\ ssl_live i = true.

Lemma ssl_frame_trans {W} (s1 s2 s3 : St W) :
  ssl_frame s1 s2 -> ssl_frame s2 s3 -> ssl_frame s1 s3.
Proof.
  intros (i & i' & Hi & Ha & ? & ? & ? & ?) (j & j' & Hj & Hb & ? & ? & ? & ?).
  rewrite Ha in Hj. injection Hj as <-. exists i, j'. rewrite Hb, Ha.
  split_and!; try done; congruence.
Qed.

Lemma ssl_frame_ready {W} (s s' : St W) : ssl_frame s s' -> ssl_ready s -> ssl_ready s'.
Proof.
  intros (i & i' & Hi & Ha & _ & Hl & _) (j & Hj & Hlj). exists i'.
  rewrite Ha. split; [done|]. congruence.
Qed.

Section ssl_proofs.
Context {W : Type} `{SslProgress W}.
Implicit Types s : St W.

Lemma wp_upd_ssl f s (Q : unit -> St W -> Prop) i :
  ssl (at_ s) = Some i ->
  Q tt (mk_st (set_ssl (Some (f i)) (at_ s)) (world s) (pre_excp_t s) (rbuf s)) ->
  wp (upd_ssl f) s Q.
Proof.
  intros Hi HQ. unfold upd_ssl, get_ssl. wp_go. apply wp_lift. exists i. split; [done|].
  by apply wp_modify.
Qed.

(** A direct operation returns; when it asks to wait it has used up a round. *)
Definition asks_less (direct : Prog W (Z * list byte)) (success : Z -> bool) : Prop :=
  forall s, ssl_ready s ->
    wp direct s (fun r s' => ssl_frame s s' /\
      (success (fst r) = true \/ fst r = SSL_OPS_FAIL \/
       fst r = SSL_OPS_SELECT /\ success (fst r) = false /\
       (ssl_work (world s') < ssl_work (world s))%nat)).

Lemma ssl_direct_asks act func success :
  success SSL_OPS_SELECT = false ->
  (forall w r bs w', func w = (r, bs, w') -> success r = false ->
     SSL_get_error w' r ∈ [SSL_ERROR_WANT_READ; SSL_ERROR_WANT_WRITE] ->
     (ssl_work w' < ssl_work w)%nat) ->
  asks_less (ssl_direct act func success) success.
Proof.
  intros Hsel Hfunc s (i & Hi & Hlive).
  assert (Hframe : forall e w, ssl_frame s
    (mk_st (set_ssl (Some (set_we act e i)) (at_ s)) w (pre_excp_t s) (rbuf s))).
  { intros e w. exists i, (set_we act e i). split_and!; try done; by destruct act. }
  unfold ssl_direct. apply wp_bind. eapply wp_upd_ssl; [exact Hi|].
  unfold ssl_call, get_ssl. wp_go.
  2: by destruct act; simpl in *; congruence.
  apply wp_sys. intros [r bs] w' Hf. apply wp_if; intros Hs; [by split; [apply Hframe|left]|].
  apply wp_bind, wp_get_world, wp_bind. unfold _do_ssl_update_wait_event.
  assert (Hdone : forall e, SSL_get_error w' r ∈ [SSL_ERROR_WANT_READ; SSL_ERROR_WANT_WRITE] ->
    wp (upd_ssl (fun i => set_we act (e i) i);; mret SSL_OPS_SELECT)
      (mk_st (set_ssl (Some (set_we act we_none i)) (at_ s)) w' (pre_excp_t s) (rbuf s))
      (fun x s' => wp (mret (x, @nil byte)) s' (fun r0 s'0 => ssl_frame s s'0 /\
        (success (fst r0) = true \/ fst r0 = SSL_OPS_FAIL \/
         fst r0 = SSL_OPS_SELECT /\ success (fst r0) = false /\
         (ssl_work (world s'0) < ssl_work (world s))%nat)))).
  { intros e He. apply wp_bind. eapply wp_upd_ssl; [reflexivity|]. apply wp_ret, wp_ret.
    split.
    - exists i. eexists. split_and!; try done; by destruct act.
    - right; right. split_and!; try done. simpl. by eapply Hfunc. }
  apply wp_if; intros Hr; [|apply wp_if; intros Hw]; bool_simpl; simpl in *.
  - apply Hdone. rewrite Hr. apply elem_of_cons; by left.
  - apply Hdone. rewrite Hw. apply elem_of_cons; right. apply elem_of_cons; by left.
  - apply wp_ret, wp_ret. split; [apply Hframe|]. right; by left.
Qed.

Lemma recv_asks len : asks_less (ssl_recv_direct len) positive.
Proof.
  apply ssl_direct_asks; [done|]. intros w r bs w' Hr Hs He.
  eapply read_progress; [exact Hr| |exact He]. unfold positive in Hs. bool_simpl. lia.
Qed.

Lemma send_asks buf : asks_less (ssl_send_direct buf) positive.
Proof.
  apply ssl_direct_asks; [done|]. intros w r bs w' Hr Hs He.
  destruct (SSL_write w buf) as [r0 w0] eqn:Hw. injection Hr as <- <- <-.
  eapply write_progress; [exact Hw| |exact He]. unfold positive in Hs. bool_simpl. lia.
Qed.

Lemma connect_asks : asks_less ssl_connect_direct is_one.
Proof.
  apply ssl_direct_asks; [done|]. intros w r bs w' Hr Hs He.
  destruct (SSL_connect w) as [r0 w0] eqn:Hw. injection Hr as <- <- <-.
  eapply connect_progress; [exact Hw| |exact He]. unfold is_one in Hs. by bool_simpl.
Qed.

Lemma ssl_simple_tv_returns fuel direct success tv s :
  asks_less direct success -> ssl_ready s -> (ssl_work (world s) < fuel)%nat ->
  wp (ssl_simple_tv fuel direct success tv) s (fun r s' => ssl_frame s s' /\
    (success (fst r) = true \/ fst r = SSL_OPS_FAIL \/ fst r = SSL_OPS_SELECT)).
Proof.
  intros Hask. revert s tv. induction fuel as [|fuel IH]; intros s tv Hs Hf; [lia|].
  cbn [ssl_simple_tv]. apply wp_bind. eapply wp_mono; [by apply Hask|]. cbv beta.
  intros [r bs] s1 [Hfr Hr]. pose proof (ssl_frame_ready _ _ Hfr Hs) as (i & Hi & Hl).
  apply wp_if; intros Hsuc; [apply wp_ret; auto|].
  apply wp_if; intros Hfail; bool_simpl; [apply wp_ret; auto|].
  destruct Hr as [Hr|[Hr|(Hsel & _ & Hwork)]]; [congruence|done|].
  apply wp_bind. unfold get_ssl. wp_go. apply wp_lift. exists i. split; [done|].
  destruct (ssl_set_fds i 0 [] []) as [[mx rs] ws].
  apply wp_bind, wp_sys. intros [[n sets] tv'] w' Hsl. cbv beta iota.
  assert (Hfr' : ssl_frame s (mk_st (at_ s1) w' (pre_excp_t s1) (rbuf s1))) by exact Hfr.
  apply wp_if; intros Hn; [|apply wp_ret; auto].
  eapply wp_mono; [apply IH|].
  - by exists i.
  - simpl. apply select_progress in Hsl. lia.
  - intros r' s' [Hf' Hr']. split; [by eapply ssl_frame_trans|done].
Qed.

Lemma ssl_simple_returns direct success to_ms s :
  asks_less direct success -> ssl_ready s ->
  wp (ssl_simple direct success to_ms) s (fun r s' => ssl_frame s s' /\
    (success (fst r) = true \/ fst r = SSL_OPS_FAIL \/ fst r = SSL_OPS_SELECT)).
Proof.
  intros Ha Hs. unfold ssl_simple. apply wp_bind, wp_get_world.
  apply ssl_simple_tv_returns; [done..|lia].
Qed.
End ssl_proofs.
