(* ===== verification/SimWorld.v ===== *)
(** * A world to run the daemon in

    An implementation of [Os] with the driver of [DrvMain] behind the control
    file, one server, and a network that delivers given pieces of bytes and
    records what is sent.  The witnesses run the daemon in it. *)

From stdpp Require Import gmap.
From S2P Require Import Prelude RingBuf Tty Uart DrvMain Os.

Record sim_world := mk_world {
  sw_drv : adv_vcom eager_tty;
  sw_open : gset Z;
  sw_next : Z;
  (** pieces that arrive at the socket, and what was sent, latest first *)
  sw_in : list (list byte);
  sw_out : list (list byte);
  sw_ifs : list ifaddr;
  sw_addrs : list addrinfo;
  sw_bind_ok : bool;
  sw_send_ok : bool;
  sw_clock : Z;
}.

Definition sw_set_drv d w := mk_world d (sw_open w) (sw_next w) (sw_in w) (sw_out w)
  (sw_ifs w) (sw_addrs w) (sw_bind_ok w) (sw_send_ok w) (sw_clock w).
Definition sw_set_net opn nxt w := mk_world (sw_drv w) opn nxt (sw_in w) (sw_out w)
  (sw_ifs w) (sw_addrs w) (sw_bind_ok w) (sw_send_ok w) (sw_clock w).
Definition sw_set_in i w := mk_world (sw_drv w) (sw_open w) (sw_next w) i (sw_out w)
  (sw_ifs w) (sw_addrs w) (sw_bind_ok w) (sw_send_ok w) (sw_clock w).
Definition sw_set_out o w := mk_world (sw_drv w) (sw_open w) (sw_next w) (sw_in w) o
  (sw_ifs w) (sw_addrs w) (sw_bind_ok w) (sw_send_ok w) (sw_clock w).
Definition sw_set_clock t w := mk_world (sw_drv w) (sw_open w) (sw_next w) (sw_in w) (sw_out w)
  (sw_ifs w) (sw_addrs w) (sw_bind_ok w) (sw_send_ok w) t.

(** The descriptor of the control file. *)
Definition sim_fd : Z := 3.

(** A device is sound when its indices, its pages and its attribute slots are
    in order; any other answers requests with an error and maps zeros. *)
Definition idx_okb (x : Z) : bool := (0 <=? x) && (x <? PAGE_SIZE).
Definition ring_okb (b : K.ring_buf) : bool :=
  idx_okb (K.head b) && idx_okb (K.tail b) && (K.size b =? PAGE_SIZE) &&
  (zlen (K.data b) =? PAGE_SIZE).
Definition drv_okb {T} (d : adv_vcom T) : bool :=
  ring_okb (tx d) && ring_okb (rx d) &&
  (K.begin (tx d) =? 0) && (K.begin (rx d) =? PAGE_SIZE) &&
  (att_begin (attr d) =? 2 * PAGE_SIZE) &&
  (0 <=? usr_ptr (attr d)) && (usr_ptr (attr d) <? ADV_ATTRBUF_NUM) &&
  (zlen (att_data (attr d)) =? ADV_ATTRBUF_NUM).

Definition sim_ioctl (w : sim_world) (cmd arg : Z) : Z * Z * sim_world :=
  if negb (drv_okb (sw_drv w)) then (- EFAULT, arg, w) else
  match adv_proc_ioctl (sw_drv w) cmd (uarg arg) with
  | Some (ret, u, d) => (ret, u_val u, sw_set_drv d w)
  | None => (- EFAULT, arg, w)
  end.

Definition sim_map_load (w : sim_world) (off n : Z) : option (list byte) :=
  if negb (drv_okb (sw_drv w)) then Some (replicate (Z.to_nat n) Byte.x00)
  else if off <? PAGE_SIZE then load off n (K.data (tx (sw_drv w)))
  else load (off - PAGE_SIZE) n (K.data (rx (sw_drv w))).

Definition sim_map_store (w : sim_world) (off : Z) (bs : list byte) : option sim_world :=
  let d := sw_drv w in
  if negb (drv_okb d) then Some w
  else if off <? PAGE_SIZE then
    m ← store off bs (K.data (tx d)); Some (sw_set_drv (set_tx (K.set_data m (tx d)) d) w)
  else
    m ← store (off - PAGE_SIZE) bs (K.data (rx d));
    Some (sw_set_drv (set_rx (K.set_data m (rx d)) d) w).

Definition sim_map_info (w : sim_world) (off : Z) : option adv_port_info :=
  if negb (drv_okb (sw_drv w)) then Some (mk_info 0 0 0 0 0 0 0) else
  let o := off - 2 * PAGE_SIZE in
  if (0 <=? o) && (o mod 28 =? 0) then att_data (attr (sw_drv w)) !! Z.to_nat (o / 28) else None.

(** The control file is polled, a socket is readable when a piece has arrived
    and always writable. *)
Definition sim_select (w : sim_world) (rs ws es : list Z) (tv : Z)
  : Z * (list Z * list Z * list Z) * Z * sim_world :=
  let m := default 0 (poll_mask (sw_drv w)) in
  let rs' := List.filter (fun x => if x =? sim_fd then m &? POLLIN else 0 <? zlen (sw_in w)) rs in
  let ws' := List.filter (fun x => if x =? sim_fd then m &? POLLOUT else true) ws in
  let es' := List.filter (fun x => (x =? sim_fd) && (m &? POLLPRI)) es in
  (zlen rs' + zlen ws' + zlen es', (rs', ws', es'), tv, w).

Definition sim_send (w : sim_world) (x : Z) (bs : list byte) : Z * sim_world :=
  if sw_send_ok w then (zlen bs, sw_set_out (bs :: sw_out w) w) else (-1, w).

Definition sim_recv (w : sim_world) (x n : Z) : Z * list byte * sim_world :=
  match sw_in w with
  | [] => (0, [], w)
  | p :: l =>
      if zlen p <=? n then (zlen p, p, sw_set_in l w)
      else (n, ztake n p, sw_set_in (zdrop n p :: l) w)
  end.

#[export] Instance sim_os : Os sim_world := {
  drv_ioctl := sim_ioctl;
  map_load := sim_map_load;
  map_store := sim_map_store;
  map_info := sim_map_info;
  sys_select := sim_select;
  sys_send := sim_send;
  sys_recv := sim_recv;
  sys_close w x := sw_set_net (sw_open w ∖ {[x]}) (sw_next w) w;
  sys_time w := (sw_clock w, sw_set_clock (sw_clock w + 1) w);
  sys_sleep w n := sw_set_clock (sw_clock w + n) w;
  fcntl_getfl w _ := (2, w);
  fcntl_setfl w _ _ := (0, w);
  set_nodelay w _ := w;
  getifaddrs w := (Some (sw_ifs w), w);
  getaddrinfo w _ := (Some (sw_addrs w), w);
  sys_socket w _ :=
    let x := Z.max 4 (sw_next w) in
    if bool_decide (x ∈ sw_open w) then (-1, w)
    else (x, sw_set_net ({[x]} ∪ sw_open w) (x + 1) w);
  sys_bind w _ _ := (if sw_bind_ok w then 0 else -1, w);
  sys_connect w _ _ := (-1, EINPROGRESS, w);
  sys_so_error w _ := (0, 0, w);
  SSL_new w := w;
  SSL_free w := w;
  SSL_shutdown w := w;
  SSL_set_fd w _ := (1, w);
  SSL_connect w := (1, w);
  SSL_read := fun w n => sim_recv w 0 n;
  SSL_write := fun w bs => sim_send w 0 bs;
  SSL_get_error _ _ := 1;
  SSL_pending _ := 0;
  ssl_work _ := O;
  uninit _ n := replicate (Z.to_nat n) Byte.xee;
}.

(** A port of the daemon before it was set up. *)
Definition blank_ring : U.ring_buf := U.mk 0 0 0 0 0.
Definition blank_attr : vc_attr :=
  mk_attr sim_fd (-1) 0 0 3 None 1 0 0x3ee (mk_stk (-1) (replicate 10 None)) 1 None
    (mk_info 0 0 0 0 0 0 0) 0 blank_ring blank_ring.

Definition sim_if : ifaddr := mk_ifaddr (Some 2) 7.
Definition sim_server : addrinfo := mk_addrinfo 2 99.

Definition sim_start (d : adv_vcom eager_tty) (incoming : list (list byte)) : sim_world :=
  mk_world d ({[0; 1; 2; 3]} : gset Z) 4 incoming [] [sim_if] [sim_server] true true 100.
