(* ===== verification/Vcom.v ===== *)
(** * The daemon's toolbox

    [daemon/vcom.h]: the stack of states, the descriptor checks, sending a
    packet, and the access to the driver's rings and attributes.  The monitor
    file the stack operations write to is left out: it has no influence on the
    control flow. *)

From S2P Require Import Prelude RingBuf Uart DrvMain Proto Os SslSelect.

Definition ADV_PAIR_UNDEF : Z := 5.
Definition ADV_FLOW_UNDEF : Z := 4.
Definition ADV_STOP_UNDEF : Z := 3.
Definition EXCP_SLEEPTIME : Z := 3.
Definition EXCP_RECONN_TIME : Z := 5.
Definition VC_PULL_TIME : Z := 10000000.
Definition FD_RD_RDY : Z := 1.
Definition FD_WR_RDY : Z := 2.
Definition VC_BUF_RX : Z := 0.
Definition VC_BUF_TX : Z := 1.
Definition VC_BUF_ATTR : Z := 2.
Definition sizeof_adv_port_info : Z := 28.

(** ** The stack of states *)

Section stack.
Context {W : Type}.

Definition stk_full (k : stk_vc) : bool := STACK_MAX - 1 <=? top k.
Definition stk_empty (k : stk_vc) : bool := top k <? 0.
Definition stk_bot (k : stk_vc) : bool := top k =? 0.

(** [stk->stk_stat[stk->top]]: [None] for an index outside of the array and
    for an entry that was never written. *)
Definition stk_slot (k : stk_vc) : option state_id :=
  if (0 <=? top k) && (top k <? STACK_MAX)
  then x ← stk_stat k !! Z.to_nat (top k); x else None.

Definition stk_write (i : Z) (x : state_id) (k : stk_vc) : option stk_vc :=
  if (0 <=? i) && (i <? STACK_MAX)
  then Some (mk_stk (top k) (<[Z.to_nat i := Some x]> (stk_stat k))) else None.

Definition set_top (t : Z) (k : stk_vc) : stk_vc := mk_stk t (stk_stat k).

Definition stk_push (current : state_id) : Prog W Z :=
  k ← gets stk;
  if stk_full k then mret (-1) else
  let k := set_top (top k + 1) k in
  k ← lift (stk_write (top k) current k);
  modify (set_stk k);; mret 0.

Definition stk_pop : Prog W Z :=
  k ← gets stk;
  if stk_empty k then mret (-1) else
  modify (set_stk (set_top (top k - 1) k));; mret 0.

(** The state on top; an empty stack ends the program. *)
Definition stk_curnt : Prog W state_id :=
  k ← gets stk;
  if stk_empty k then exit0 else lift (stk_slot k).

Definition stk_rpls (current : state_id) : Prog W Z :=
  k ← gets stk;
  k ← lift (stk_write (top k) current k);
  modify (set_stk k);; mret 0.

Definition stk_restart : Prog W Z :=
  k ← gets stk;
  if stk_bot k then mret (-1) else
  modify (set_stk (set_top 0 k));; mret 0.

(** [_stk_log] asks for the name of the current state. *)
Definition _stk_log : Prog W unit :=
  k ← gets stk;
  if top k <? 0 then exit0 else _ ← stk_curnt; mret tt.

Definition set_pre_excp_t (t : Z) : Prog W unit := fun s =>
  Ok tt (mk_st (at_ s) (world s) t (rbuf s)).
Definition get_pre_excp_t : Prog W Z := fun s => Ok (pre_excp_t s) s.
End stack.

Section vcom.
Context {W : Type} `{Os W}.

Definition _stk_excp : Prog W Z :=
  k ← gets stk;
  if stk_bot k then mret (-1) else
  modify (set_stk (set_top 0 k));;
  pre ← get_pre_excp_t;
  (if pre =? 0 then
     t ← sys sys_time; set_pre_excp_t t
   else
     now ← sys sys_time;
     when (now - pre <? EXCP_RECONN_TIME) (sys_ (fun w => sys_sleep w EXCP_SLEEPTIME));;
     set_pre_excp_t now);;
  mret 0.

(** The macro builds the message first, from the name of the current state. *)
Definition stk_excp : Prog W Z :=
  k ← gets stk;
  when (0 <=? top k) (_ ← lift (stk_slot k); mret tt);;
  _stk_excp.

(** ** Sockets *)

Definition __vc_sock_enblock (sk enable : Z) : Prog W Z :=
  skarg ← sys (fun w => fcntl_getfl w sk);
  if skarg <? 0 then mret (-1) else
  let skarg := if enable =? 0 then Z.lor skarg O_NONBLOCK
               else Z.land skarg (Z.lnot O_NONBLOCK) in
  r ← sys (fun w => fcntl_setfl w sk skarg);
  if r <? 0 then mret (-1) else mret 0.

Definition VC_SKOPT_BLOCK : Z := 0.
Definition VC_SKOPT_NONBLOCK : Z := 1.

Definition vc_config_sock (sk option : Z) : Prog W Z :=
  if (option =? VC_SKOPT_BLOCK) || (option =? VC_SKOPT_NONBLOCK)
  then __vc_sock_enblock sk (if option =? VC_SKOPT_BLOCK then 1 else 0)
  else mret (-1).

(** With a null timeout pointer: a poll. *)
Definition fdcheck (fd type : Z) : Prog W Z :=
  let rfds := if type &? FD_RD_RDY then [fd] else [] in
  let wfds := if type &? FD_WR_RDY then [fd] else [] in
  sel ← sys (fun w => sys_select w rfds wfds [] 0);
  let '(ret, (rfds, wfds, _), _) := sel in
  if ret =? 0 then mret 0 else
  let ret := 0 in
  let ret := if bool_decide (fd ∈ rfds) then Z.lor ret FD_RD_RDY else ret in
  let ret := if bool_decide (fd ∈ wfds) then Z.lor ret FD_WR_RDY else ret in
  mret ret.

(** [packet] is the memory of the packet, of which [plen] bytes are sent. *)
Definition vc_check_send (packet : list byte) (plen : Z) : Prog W Z :=
  bs ← lift (load 0 plen packet);
  tls ← gets ssl;
  match tls with
  | Some _ =>
      r ← ssl_send_simple bs 1000;
      if negb (r =? plen) then _stk_log;; mret (-1) else mret 0
  | None =>
      sk ← gets sk;
      c ← fdcheck sk FD_WR_RDY;
      if c =? 0 then mret (-1) else
      r ← sys (fun w => sys_send w sk bs);
      if negb (r =? plen) then mret (-1) else mret 0
  end.

(** ** Rings and attributes *)

Definition ioctl_get (cmd : Z) : Prog W (Z * Z) := sys (fun w => drv_ioctl w cmd 0).
Definition ioctl_set (cmd arg : Z) : Prog W Z :=
  r ← sys (fun w => drv_ioctl w cmd arg); mret (fst r).

Definition set_user_idx (head tail : Z) (b : U.ring_buf) : U.ring_buf :=
  U.mk head tail (U.begin b) (U.size b) (U.mbase b).

(** A failing attribute request leaves the pointer as it was. *)
Definition vc_buf_update (rb_id : Z) : Prog W Z :=
  let update cmd_head cmd_tail (set : U.ring_buf -> vc_attr -> vc_attr)
      (get : vc_attr -> U.ring_buf) : Prog W Z :=
    h ← ioctl_get cmd_head;
    if fst h <? 0 then mret (-1) else
    t ← ioctl_get cmd_tail;
    if fst t <? 0 then mret (-1) else
    modify (fun a => set (set_user_idx (snd h) (snd t) (get a)) a);; mret 0 in
  if rb_id =? VC_BUF_RX then update ADVVCOM_IOCGRXHEAD ADVVCOM_IOCGRXTAIL set_urx urx
  else if rb_id =? VC_BUF_TX then update ADVVCOM_IOCGTXHEAD ADVVCOM_IOCGTXTAIL set_utx utx
  else if rb_id =? VC_BUF_ATTR then
    p ← gets attr_ptr;
    r ← sys (fun w => drv_ioctl w ADVVCOM_IOCGATTRPTR p);
    modify (set_attr_ptr (snd r));; mret 0
  else mret (-1).

Definition vc_buf_clear (clrflags : Z) : Prog W unit :=
  r ← ioctl_set ADVVCOM_IOCSCLR clrflags;
  if r <? 0 then mret tt else
  when (clrflags &? ADV_CLR_RX)
    (_ ← ioctl_set ADVVCOM_IOCSRXHEAD 0;
     _ ← vc_buf_update VC_BUF_RX; mret tt);;
  when (clrflags &? ADV_CLR_TX) (_ ← vc_buf_update VC_BUF_TX; mret tt).

Definition set_user_geom (begin size : Z) (b : U.ring_buf) : U.ring_buf :=
  U.mk (U.head b) (U.tail b) begin size begin.

Definition vc_buf_setup (rb_id : Z) : Prog W Z :=
  let ring cmd_begin cmd_size (set : U.ring_buf -> vc_attr -> vc_attr)
      (get : vc_attr -> U.ring_buf) : Prog W Z :=
    b ← ioctl_get cmd_begin;
    if truthy (fst b) then mret (-1) else
    z ← ioctl_get cmd_size;
    if truthy (fst z) then mret (-1) else
    modify (fun a => set (set_user_geom (snd b) (snd z) (get a)) a);;
    vc_buf_update rb_id in
  if rb_id =? VC_BUF_RX then ring ADVVCOM_IOCGRXBEGIN ADVVCOM_IOCGRXSIZE set_urx urx
  else if rb_id =? VC_BUF_TX then ring ADVVCOM_IOCGTXBEGIN ADVVCOM_IOCGTXSIZE set_utx utx
  else if rb_id =? VC_BUF_ATTR then
    b ← ioctl_get ADVVCOM_IOCGATTRBEGIN;
    if truthy (fst b) then mret (-1) else
    modify (set_attr_off (snd b));;
    vc_buf_update rb_id
  else mret (-1).

(** [attr_p]: the attributes the driver shows, at the slot of [attr_ptr]. *)
Definition attr_p : Prog W adv_port_info :=
  off ← gets attr_off;
  p ← gets attr_ptr;
  w ← get_world;
  lift (map_info w (off + p * sizeof_adv_port_info)).

(** The packet buffer on the stack of a function. *)
Definition pbuf_of (n : Z) : Prog W (list byte) :=
  w ← get_world; mret (ztake n (uninit w n ++ replicate (Z.to_nat n) Byte.x00)).

Definition tid_incr : Prog W unit := modify (fun a => set_tid (u32 (tid a + 1)) a).

Definition update_eki_attr (f : adv_port_info -> adv_port_info) : Prog W unit :=
  modify (fun a => set_eki (f (eki a)) a).
End vcom.

Definition e_is_open v i :=
  mk_info v (i_baud i) (i_flowctl i) (i_byte i) (i_pair i) (i_stop i) (i_ms i).
Definition e_baud v i :=
  mk_info (i_is_open i) v (i_flowctl i) (i_byte i) (i_pair i) (i_stop i) (i_ms i).
Definition e_flowctl v i :=
  mk_info (i_is_open i) (i_baud i) v (i_byte i) (i_pair i) (i_stop i) (i_ms i).
Definition e_byte v i :=
  mk_info (i_is_open i) (i_baud i) (i_flowctl i) v (i_pair i) (i_stop i) (i_ms i).
Definition e_pair v i :=
  mk_info (i_is_open i) (i_baud i) (i_flowctl i) (i_byte i) v (i_stop i) (i_ms i).
Definition e_stop v i :=
  mk_info (i_is_open i) (i_baud i) (i_flowctl i) (i_byte i) (i_pair i) v (i_ms i).
Definition e_ms v i :=
  mk_info (i_is_open i) (i_baud i) (i_flowctl i) (i_byte i) (i_pair i) (i_stop i) v.
