(* ===== verification/Connect.v ===== *)
(** * Connecting

    [vc_connect] of [daemon/state_mach/vc_client_netdown.c]: one non-blocking
    connection attempt per local interface and address of the server, the
    first one that succeeds is kept and the others are closed.  The wait list
    of sockets (a [list_head] of allocated entries) is a list of
    descriptors here; [ConnList] has it in memory.

    [SockLaws] says which descriptors are open; the theorems account for every
    socket that is created on the way. *)

From stdpp Require Import gmap.
From S2P Require Import Prelude RingBuf Tty Uart DrvMain Os SimWorld Vcom.

Definition CONN_TO : Z := 10.
Definition AF_UNSPEC : Z := 0.

Section connect.
Context {W : Type} `{Os W}.

(** 0 or -1; the message is not modelled. *)
Definition _sock_err (sk : Z) : Prog W Z :=
  r ← sys (fun w => sys_so_error w sk);
  let '(ret, arg) := r in
  if ret <? 0 then mret (-1) else
  if truthy arg then mret (-1) else mret 0.

(** The loop over the resolved addresses; [sk] is the variable of the
    function, which a failing [bind] and a family mismatch leave as it is. *)
Fixpoint sklist_loop (family : Z) (ifa : ifaddr) (result : list addrinfo)
    (sk : Z) (sklist : list Z) : Prog W (Z * list Z) :=
  match result with
  | [] => mret (sk, sklist)
  | ptr :: result =>
      if negb (ai_family ptr =? family) then sklist_loop family ifa result sk sklist else
      sk ← sys (fun w => sys_socket w (ai_family ptr));
      if sk <? 0 then sklist_loop family ifa result sk sklist else
      b ← sys (fun w => sys_bind w sk (ifa_addr ifa));
      if b <? 0 then
        sys_ (fun w => sys_close w sk);;
        sklist_loop family ifa result sk sklist
      else
      _ ← vc_config_sock sk VC_SKOPT_NONBLOCK;
      r ← sys (fun w => sys_connect w sk (ai_addr ptr));
      let '(ret, errno) := r in
      if (ret <? 0) && negb (errno =? EINPROGRESS) then
        sys_ (fun w => sys_close w sk);;
        sklist_loop family ifa result (-1) sklist
      else if ret =? 0 then mret (sk, sklist)
      else sklist_loop family ifa result (-1) (sklist ++ [sk])
  end.

Definition _create_sklist (sklist : list Z) (addr : Z) (ifa : ifaddr) : Prog W (Z * list Z) :=
  let family := default AF_UNSPEC (ifa_family ifa) in
  r ← sys (fun w => getaddrinfo w addr);
  match r with
  | None => mret (-1, sklist)
  | Some result => sklist_loop family ifa result (-1) sklist
  end.

(** The loop over the interfaces: [addr] stays with the redundant address
    once it was tried. *)
Fixpoint ifa_loop (ip_red : option Z) (ifaddr : list ifaddr) (addr sk : Z)
    (clients : list Z) : Prog W (Z * list Z) :=
  match ifaddr with
  | [] => mret (sk, clients)
  | ifa :: ifaddr =>
      r ← _create_sklist clients addr ifa;
      let '(sk, clients) := r in
      r ← match ip_red with
          | Some red =>
              if sk <? 0 then r ← _create_sklist clients red ifa; mret (red, fst r, snd r)
              else mret (addr, sk, clients)
          | None => mret (addr, sk, clients)
          end;
      let '(addr, sk, clients) := r in
      if 0 <=? sk then mret (sk, clients)
      else ifa_loop ip_red ifaddr addr sk clients
  end.

(** One pass over the wait list: the first socket that is ready and has no
    error, and the list without the sockets that were taken or failed. *)
Fixpoint pick_ready (ready clients : list Z) (sk : Z) : Prog W (Z * list Z) :=
  match clients with
  | [] => mret (sk, [])
  | c :: clients =>
      if negb (bool_decide (c ∈ ready)) then
        r ← pick_ready ready clients sk; mret (fst r, c :: snd r)
      else
      e ← _sock_err c;
      if truthy e then
        sys_ (fun w => sys_close w c);;
        _stk_log;;
        pick_ready ready clients sk
      else mret (c, clients)
  end.

Fixpoint wait_loop (fuel : nat) (tv : Z) (sk : Z) (clients : list Z) : Prog W (Z * list Z) :=
  match fuel with
  | O => nofuel
  | S fuel =>
      if 0 <=? sk then mret (sk, clients) else
      sel ← sys (fun w => sys_select w [] clients [] tv);
      let '(ret, (_, ready, _), tv) := sel in
      if ret <=? 0 then _stk_log;; mret (sk, clients)
      else
      r ← pick_ready ready clients sk;
      wait_loop fuel tv (fst r) (snd r)
  end.

Fixpoint close_all (clients : list Z) : Prog W unit :=
  match clients with
  | [] => mret tt
  | c :: clients => sys_ (fun w => sys_close w c);; close_all clients
  end.

(** An [int] that was not set. *)
Definition uninit_int : Prog W Z :=
  p ← pbuf_of 4; mret (s32 (le_val p)).

Definition vc_connect : Prog W Z :=
  addr ← gets ip_ptr;
  red ← gets ip_red;
  sk ← uninit_int;
  ifs ← sys getifaddrs;
  match ifs with
  | None => _stk_log;; mret (-1)
  | Some ifaddr =>
      r ← ifa_loop red ifaddr addr sk [];
      let '(sk, clients) := r in
      if bool_decide (clients = []) then _stk_log;; mret sk
      else
      r ← wait_loop (S (S (length clients))) (CONN_TO * 1000000) sk clients;
      let '(sk, clients) := r in
      close_all clients;;
      when (0 <=? sk)
        (_ ← vc_config_sock sk VC_SKOPT_BLOCK;
         sys_ (fun w => set_nodelay w sk));;
      mret sk
  end.
End connect.

(** ** Accounting of descriptors *)

Class SockLaws (W : Type) `{Os W} := {
  open_fds : W -> gset Z;
  socket_fds w f r w' :
    sys_socket w f = (r, w') ->
    r < 0 /\ open_fds w' = open_fds w \/
    0 <= r /\ (r ∉ open_fds w) /\ open_fds w' = {[r]} ∪ open_fds w;
  close_fds w x : open_fds (sys_close w x) = open_fds w ∖ {[x]};
  bind_fds w x a : open_fds (snd (sys_bind w x a)) = open_fds w;
  connect_fds w x a : open_fds (snd (sys_connect w x a)) = open_fds w;
  so_error_fds w x : open_fds (snd (sys_so_error w x)) = open_fds w;
  select_fds w rs ws es tv : open_fds (snd (sys_select w rs ws es tv)) = open_fds w;
  getfl_fds w x : open_fds (snd (fcntl_getfl w x)) = open_fds w;
  setfl_fds w x a : open_fds (snd (fcntl_setfl w x a)) = open_fds w;
  nodelay_fds w x : open_fds (set_nodelay w x) = open_fds w;
  getaddrinfo_fds w a : open_fds (snd (getaddrinfo w a)) = open_fds w;
  getifaddrs_fds w : open_fds (snd (getifaddrs w)) = open_fds w;
  (** a positive count means that a descriptor of a set is ready *)
  select_ready w rs ws es tv n rs' ws' es' tv' w' :
    sys_select w rs ws es tv = (n, (rs', ws', es'), tv', w') -> 0 < n ->
    exists x, (x ∈ rs /\ x ∈ rs') \/ (x ∈ ws /\ x ∈ ws') \/ (x ∈ es /\ x ∈ es');
}.

Lemma diff_added (A : gset Z) x : x ∉ A -> (A ∪ {[x]}) ∖ {[x]} = A.
Proof.
  intros Hx. apply set_eq. intros y. rewrite elem_of_difference, elem_of_union, elem_of_singleton.
  split; [by intros [[?|?] ?]|]. intros Hy. split; [by left|]. by intros ->.
Qed.

Section accounting.
Context {W : Type} `{SockLaws W}.
(** [good]: [bind] does not fail. *)
Context (base : gset Z) (good : Prop).
Hypothesis bind_good : good -> forall w x a, 0 <= fst (sys_bind w x a).
Implicit Types s : St W.

(** The daemon's own sockets: the wait list, and [sk] when it is held. *)
Definition held (w : W) (sk : Z) (clients : list Z) : Prop :=
  0 <= sk /\ (sk ∉ base) /\ (sk ∉ clients) /\
  open_fds w = base ∪ list_to_set clients ∪ {[sk]}.

Definition acct (w : W) (sk : Z) (clients : list Z) : Prop :=
  NoDup clients /\ (forall c, c ∈ clients -> 0 <= c /\ c ∉ base) /\
  (held w sk clients \/
   open_fds w = base ∪ list_to_set clients /\ (good -> sk < 0)).

(** The port is the same and the stack can be asked for its top. *)
Definition same_port s s' : Prop :=
  at_ s' = at_ s /\ pre_excp_t s' = pre_excp_t s /\ rbuf s' = rbuf s.

Definition loggable s : Prop :=
  0 <= top (stk (at_ s)) /\ is_Some (stk_slot (stk (at_ s))).

Lemma wp_stk_log s (Q : unit -> St W -> Prop) : loggable s -> Q tt s -> wp _stk_log s Q.
Proof.
  intros [Ht [x Hx]] HQ. unfold _stk_log, stk_curnt, stk_empty. wp_go; bool_simpl; try lia.
  apply wp_lift. exists x. split; [done|]. by wp_go.
Qed.

(** A call that opens and closes nothing. *)
Lemma wp_sys_keep {A} (f : W -> A * W) s (Q : A -> St W -> Prop) :
  (forall w, open_fds (snd (f w)) = open_fds w) ->
  (forall x s', same_port s s' -> open_fds (world s') = open_fds (world s) ->
     f (world s) = (x, world s') -> Q x s') ->
  wp (sys f) s Q.
Proof.
  intros Hk HQ. apply wp_sys. intros x w Hf. apply HQ; [done| |done].
  simpl. specialize (Hk (world s)). by rewrite Hf in Hk.
Qed.

Lemma wp_config s x o (Q : Z -> St W -> Prop) :
  (forall r s', same_port s s' -> open_fds (world s') = open_fds (world s) -> Q r s') ->
  wp (vc_config_sock x o) s Q.
Proof.
  intros HQ. unfold vc_config_sock, __vc_sock_enblock. apply wp_if; intros _; [|apply wp_ret; by apply HQ].
  apply wp_bind, wp_sys_keep; [intros; apply getfl_fds|]. intros r s1 H1 E1 _.
  apply wp_if; intros _; [apply wp_ret; by apply HQ|].
  apply wp_bind, wp_sys_keep; [intros; apply setfl_fds|]. intros r2 s2 H2 E2 _.
  assert (Hs : same_port s s2) by (destruct H1 as (? & ? & ?), H2 as (? & ? & ?); split_and!; congruence).
  apply wp_if; intros _; apply wp_ret; apply HQ; congruence.
Qed.

Lemma wp_sock_err s x (Q : Z -> St W -> Prop) :
  (forall r s', same_port s s' -> open_fds (world s') = open_fds (world s) -> Q r s') ->
  wp (_sock_err x) s Q.
Proof.
  intros HQ. unfold _sock_err. apply wp_bind, wp_sys_keep; [intros; apply so_error_fds|].
  intros [ret arg] s1 H1 E1 _. cbv beta iota. wp_go; by apply HQ.
Qed.

Lemma same_port_trans s1 s2 s3 : same_port s1 s2 -> same_port s2 s3 -> same_port s1 s3.
Proof. intros (? & ? & ?) (? & ? & ?). split_and!; congruence. Qed.

Lemma same_port_loggable s1 s2 : same_port s1 s2 -> loggable s1 -> loggable s2.
Proof. intros (E & _). unfold loggable. by rewrite E. Qed.

(** Not holding [sk]. *)
Definition free (w : W) (clients : list Z) : Prop :=
  NoDup clients /\ (forall c, c ∈ clients -> 0 <= c /\ c ∉ base) /\
  open_fds w = base ∪ list_to_set clients.

Lemma acct_of_free w sk clients : free w clients -> (good -> sk < 0) -> acct w sk clients.
Proof. intros (? & ? & ?) ?. split_and!; auto. Qed.

Lemma free_of_acct w sk clients : acct w sk clients -> sk < 0 -> free w clients.
Proof. intros (? & ? & [[? _]|[? _]]) ?; [lia|]. by split_and!. Qed.

Lemma free_fds w w' clients : open_fds w' = open_fds w -> free w clients -> free w' clients.
Proof. intros E (? & ? & ?). split_and!; try done; congruence. Qed.

(** A fresh socket, held, waiting or closed again. *)
Lemma fresh_held w w' f r clients :
  free w clients -> sys_socket w f = (r, w') -> 0 <= r -> held w' r clients.
Proof.
  intros (Hnd & Hc & Ho) Hs Hr. destruct (socket_fds _ _ _ _ Hs) as [[? _]|(_ & Hn & E)]; [lia|].
  rewrite Ho in Hn, E. apply not_elem_of_union in Hn as [Hb Hl].
  unfold held. split_and!; [done|done| |by rewrite E, (union_comm_L {[r]})].
  intros Hx. apply Hl. by apply elem_of_list_to_set.
Qed.

Lemma held_fds w w' sk clients : open_fds w' = open_fds w -> held w sk clients -> held w' sk clients.
Proof. intros E (? & ? & ? & ?). split_and!; try done; congruence. Qed.

Lemma held_close w sk clients :
  NoDup clients -> (forall c, c ∈ clients -> 0 <= c /\ c ∉ base) ->
  held w sk clients -> free (sys_close w sk) clients.
Proof.
  intros Hnd Hc (? & ? & ? & E). split_and!; [done|done|]. rewrite close_fds, E.
  apply diff_added. rewrite not_elem_of_union, elem_of_list_to_set. done.
Qed.

Lemma held_wait w sk clients :
  NoDup clients -> (forall c, c ∈ clients -> 0 <= c /\ c ∉ base) ->
  held w sk clients -> free w (clients ++ [sk]).
Proof.
  intros Hnd Hc (? & ? & ? & E). split_and!.
  - apply NoDup_app. split_and!; [done| |apply NoDup_singleton].
    intros x Hx Hs. apply list_elem_of_singleton in Hs. by subst.
  - intros c [?|Hx]%elem_of_app; [auto|]. apply list_elem_of_singleton in Hx. by subst.
  - rewrite E, list_to_set_app_L. simpl. by rewrite union_empty_r_L, union_assoc_L.
Qed.

Lemma wp_sklist_loop family ifa result sk clients s (Q : Z * list Z -> St W -> Prop) :
  free (world s) clients -> (good -> sk < 0) ->
  (forall r s', same_port s s' -> acct (world s') (fst r) (snd r) -> Q r s') ->
  wp (sklist_loop family ifa result sk clients) s Q.
Proof.
  revert sk clients s. induction result as [|ptr result IH]; intros sk clients s Hf Hg HQ; simpl.
  { apply wp_ret, HQ; [done|]. by apply acct_of_free. }
  assert (Hnext : forall sk' cl' s', same_port s s' -> free (world s') cl' -> (good -> sk' < 0) ->
    wp (sklist_loop family ifa result sk' cl') s' Q).
  { intros sk' cl' s' Hsp Hf' Hg'. apply IH; try done. intros r s2 Hs2 Ha.
    apply HQ; [by eapply same_port_trans|done]. }
  apply wp_if; intros _; [by apply Hnext|].
  apply wp_bind, wp_sys. intros x w Hsock. cbv beta.
  apply wp_if; intros Hx; bool_simpl.
  { apply Hnext; [done| |lia]. simpl. destruct (socket_fds _ _ _ _ Hsock) as [[_ E]|[? _]]; [|lia].
    by eapply free_fds. }
  pose proof (fresh_held _ _ _ _ _ Hf Hsock Hx) as Hheld. destruct Hf as (Hnd & Hc & _).
  apply wp_bind, wp_sys_keep; [intros; apply bind_fds|]. intros b s1 Hs1 E1 Hb. simpl in E1.
  pose proof (held_fds _ _ _ _ E1 Hheld) as Hheld1. apply wp_if; intros Hbind; bool_simpl.
  { apply wp_bind, wp_sys_, Hnext; [done|by apply held_close|].
    intros g. specialize (bind_good g w x (ifa_addr ifa)). simpl in Hb. rewrite Hb in bind_good.
    simpl in bind_good. lia. }
  apply wp_bind, wp_config. intros _ s2 Hs2 E2. pose proof (held_fds _ _ _ _ E2 Hheld1) as Hheld2.
  apply wp_bind, wp_sys_keep; [intros; apply connect_fds|]. intros [ret errno] s3 Hs3 E3 _. cbv beta iota.
  pose proof (held_fds _ _ _ _ E3 Hheld2) as Hheld3.
  assert (Hsp : same_port s s3) by (do 2 (eapply same_port_trans; [|done]); exact Hs1).
  apply wp_if; intros _.
  { apply wp_bind, wp_sys_, Hnext; [done|by apply held_close|lia]. }
  apply wp_if; intros _.
  { apply wp_ret, HQ; [done|]. split_and!; auto. }
  apply Hnext; [done|by apply held_wait|lia].
Qed.

Lemma wp_create_sklist clients addr ifa s (Q : Z * list Z -> St W -> Prop) :
  free (world s) clients ->
  (forall r s', same_port s s' -> acct (world s') (fst r) (snd r) -> Q r s') ->
  wp (_create_sklist clients addr ifa) s Q.
Proof.
  intros Hf HQ. unfold _create_sklist. apply wp_bind, wp_sys_keep; [intros; apply getaddrinfo_fds|].
  intros [result|] s1 Hs1 E1 _.
  - apply wp_sklist_loop; [by eapply free_fds|lia|]. intros r s2 Hs2 Ha.
    apply HQ; [by eapply same_port_trans|done].
  - apply wp_ret, HQ; [done|]. apply acct_of_free; [by eapply free_fds|simpl; lia].
Qed.

Lemma wp_ifa_loop red ifs addr sk clients s (Q : Z * list Z -> St W -> Prop) :
  free (world s) clients -> (good -> sk < 0 \/ ifs <> []) ->
  (forall r s', same_port s s' -> acct (world s') (fst r) (snd r) -> Q r s') ->
  wp (ifa_loop red ifs addr sk clients) s Q.
Proof.
  revert addr sk clients s. induction ifs as [|ifa ifs IH]; intros addr sk clients s Hf Hg HQ; simpl.
  { apply wp_ret, HQ; [done|]. apply acct_of_free; [done|]. intros g. by destruct (Hg g). }
  apply wp_bind, wp_create_sklist; [done|]. intros [sk1 cl1] s1 Hs1 Ha1. simpl in Ha1.
  assert (Hend : forall addr' sk' cl' s', same_port s s' -> acct (world s') sk' cl' ->
    wp (if 0 <=? sk' then mret (sk', cl') else ifa_loop red ifs addr' sk' cl') s' Q).
  { intros addr' sk' cl' s' Hsp Ha. apply wp_if; intros Hsk; bool_simpl; [by apply wp_ret, HQ|].
    apply IH; [by eapply free_of_acct|by left|]. intros r s2 Hs2 Ha2.
    apply HQ; [by eapply same_port_trans|done]. }
  apply wp_bind. destruct red as [red|]; [|apply wp_ret; by apply Hend].
  apply wp_if; intros Hsk; bool_simpl; [|apply wp_ret; by apply Hend].
  apply wp_bind, wp_create_sklist; [by eapply free_of_acct|]. intros [sk2 cl2] s2 Hs2 Ha2.
  apply wp_ret, Hend; [by eapply same_port_trans|done].
Qed.

(** Taking a socket out of the wait list. *)
Lemma free_take w pre c l :
  free w (pre ++ c :: l) ->
  held w c (pre ++ l) /\ NoDup (pre ++ l) /\
  (forall x, x ∈ pre ++ l -> 0 <= x /\ x ∉ base).
Proof.
  intros (Hnd & Hc & E). rewrite <- Permutation_middle in Hnd. apply NoDup_cons in Hnd as [Hn Hnd].
  destruct (Hc c) as [? ?]; [apply elem_of_app; right; apply elem_of_cons; by left|].
  split; [|split; [done|]].
  - split_and!; try done. rewrite E, !list_to_set_app_L. simpl. apply set_eq. intros x.
    rewrite !elem_of_union, elem_of_singleton. tauto.
  - intros x Hx. apply Hc. apply elem_of_app in Hx as [?|?]; apply elem_of_app; [by left|].
    right. apply elem_of_cons. by right.
Qed.

Lemma wp_pick_ready ready pre clients sk s (Q : Z * list Z -> St W -> Prop) :
  free (world s) (pre ++ clients) -> sk < 0 -> loggable s ->
  (forall r s', same_port s s' -> acct (world s') (fst r) (pre ++ snd r) ->
     (length (snd r) <= length clients)%nat ->
     (forall x, x ∈ clients -> x ∈ ready -> 0 <= fst r \/ (length (snd r) < length clients)%nat) ->
     Q r s') ->
  wp (pick_ready ready clients sk) s Q.
Proof.
  revert pre s Q. induction clients as [|c clients IH]; intros pre s Q Hf Hsk Hlog HQ; simpl.
  { apply wp_ret, HQ; [done|by apply acct_of_free|done|]. intros x Hx. by apply elem_of_nil in Hx. }
  apply wp_if; intros Hr.
  - apply negb_true_iff, bool_decide_eq_false in Hr.
    apply wp_bind, (IH (pre ++ [c])); [by rewrite <- app_assoc|done|done|].
    intros r s1 Hs1 Ha Hl Hx. apply wp_ret, HQ; [done|by rewrite <- app_assoc in Ha|simpl; lia|].
    intros x Hxc Hxr. apply elem_of_cons in Hxc as [->|Hxc]; [done|].
    destruct (Hx x Hxc Hxr); [by left|right; simpl; lia].
  - destruct (free_take _ _ _ _ Hf) as (Hheld & Hnd & Hc).
    apply wp_bind, wp_sock_err. intros e s1 Hs1 E1.
    pose proof (held_fds _ _ _ _ E1 Hheld) as Hheld1. apply wp_if; intros _.
    + apply wp_bind, wp_sys_. apply wp_bind, wp_stk_log; [by eapply same_port_loggable|].
      apply (IH pre); [by apply held_close|done|by eapply same_port_loggable|].
      intros r s2 Hs2 Ha Hl _. apply HQ; [by eapply same_port_trans|done|simpl; lia|].
      intros _ _ _. right. simpl. lia.
    + apply wp_ret, HQ; [done|split_and!; auto|simpl; lia|]. intros _ _ _. left. apply Hheld.
Qed.

Lemma wp_wait_loop fuel tv sk clients s (Q : Z * list Z -> St W -> Prop) :
  acct (world s) sk clients -> loggable s ->
  (length clients + (if (0 <=? sk)%Z then 0 else 1) < fuel)%nat ->
  (forall r s', same_port s s' -> acct (world s') (fst r) (snd r) -> Q r s') ->
  wp (wait_loop fuel tv sk clients) s Q.
Proof.
  revert tv sk clients s. induction fuel as [|fuel IH]; intros tv sk clients s Ha Hlog Hfuel HQ; [lia|].
  cbn [wait_loop]. apply wp_if; intros Hsk; [by apply wp_ret, HQ|].
  rewrite Hsk in Hfuel. bool_simpl.
  apply wp_bind, wp_sys_keep; [intros; apply select_fds|].
  intros [[n [[rs ready] es]] tv'] s1 Hs1 E1 Hsel. cbv beta iota.
  assert (Ha1 : free (world s1) clients) by (eapply free_fds; [done|by eapply free_of_acct]).
  apply wp_if; intros Hn; bool_simpl.
  { apply wp_bind, wp_stk_log; [by eapply same_port_loggable|]. apply wp_ret, HQ; [done|].
    apply acct_of_free; [done|simpl; lia]. }
  destruct (select_ready _ _ _ _ _ _ _ _ _ _ _ Hsel) as (x & Hx); [lia|].
  assert (Hready : x ∈ clients /\ x ∈ ready).
  { destruct Hx as [[Hx _]|[?|[Hx _]]]; [by apply elem_of_nil in Hx|done|by apply elem_of_nil in Hx]. }
  apply wp_bind, (wp_pick_ready _ []); [done|done|by eapply same_port_loggable|].
  intros [sk2 cl2] s2 Hs2 Ha2 Hl2 Hp. simpl in *.
  apply IH; [done|by do 2 (eapply same_port_loggable; [done|])| |].
  - destruct (Hp x (proj1 Hready) (proj2 Hready)); case_if; lia.
  - intros r s3 Hs3 Ha3. apply HQ; [|done]. by do 2 (eapply same_port_trans; [done|]).
Qed.

(** What is left at the end: nothing but the socket that is returned. *)
Definition connected (w : W) (sk : Z) : Prop :=
  held w sk [] \/ open_fds w = base /\ (good -> sk < 0).

Lemma wp_close_all clients sk s (Q : unit -> St W -> Prop) :
  acct (world s) sk clients ->
  (forall s', same_port s s' -> connected (world s') sk -> Q tt s') ->
  wp (close_all clients) s Q.
Proof.
  revert s. induction clients as [|c clients IH]; intros s (Hnd & Hc & Ho) HQ; simpl.
  - apply wp_ret, HQ; [done|]. destruct Ho as [?|[E ?]]; [by left|right].
    split; [|done]. rewrite E. simpl. by rewrite union_empty_r_L.
  - apply wp_bind, wp_sys_, IH; [|done]. apply NoDup_cons in Hnd as [Hn Hnd].
    assert (Hc' : forall x, x ∈ clients -> 0 <= x /\ x ∉ base)
      by (intros x Hx; apply Hc, elem_of_cons; by right).
    destruct (Hc c) as [? Hcb]; [apply elem_of_cons; by left|].
    split_and!; try done. simpl. destruct Ho as [(Hp & Hnb & Hnc & E)|[E Hg]].
    + left. apply not_elem_of_cons in Hnc as [Hne Hnc]. split_and!; try done.
      rewrite close_fds, E. simpl. apply set_eq. intros x.
      rewrite elem_of_difference, !elem_of_union, !elem_of_singleton, !elem_of_list_to_set.
      split; [tauto|]. intros Hx. split; [tauto|]. intros ->. destruct_or?; congruence || done.
    + right. split; [|done]. rewrite close_fds, E. simpl. apply set_eq. intros x.
      rewrite elem_of_difference, !elem_of_union, !elem_of_singleton, !elem_of_list_to_set.
      split; [tauto|]. intros Hx. split; [tauto|]. intros ->. destruct_or?; congruence || done.
Qed.

Lemma wp_vc_connect s (Q : Z -> St W -> Prop) :
  open_fds (world s) = base -> loggable s ->
  (good -> fst (getifaddrs (world s)) <> Some []) ->
  (forall sk s', same_port s s' -> connected (world s') sk -> Q sk s') ->
  wp vc_connect s Q.
Proof.
  intros Hbase Hlog Hifs HQ. unfold vc_connect, uninit_int, pbuf_of. wp_go.
  apply wp_sys_keep; [intros; apply getifaddrs_fds|]. intros [ifs|] s1 Hs1 E1 Hg.
  2:{ apply wp_bind, wp_stk_log; [by eapply same_port_loggable|]. apply wp_ret, HQ; [done|].
      right. split; [congruence|lia]. }
  assert (Hf : free (world s1) []).
  { split_and!; [apply NoDup_nil_2|intros c Hc; by apply elem_of_nil in Hc|].
    simpl. rewrite union_empty_r_L. congruence. }
  apply wp_bind, wp_ifa_loop; [done| |].
  { intros g. right. intros ->. apply (Hifs g). by rewrite Hg. }
  intros [sk cl] s2 Hs2 Ha. cbv beta iota. simpl in Ha.
  assert (Hsp : same_port s s2) by by eapply same_port_trans.
  apply wp_if; intros Hcl.
  - apply bool_decide_eq_true in Hcl as ->. apply wp_bind, wp_stk_log; [by eapply same_port_loggable|].
    apply wp_ret, HQ; [done|]. destruct Ha as (_ & _ & [?|[E ?]]); [by left|right].
    split; [|done]. rewrite E. simpl. by rewrite union_empty_r_L.
  - apply wp_bind, wp_wait_loop; [done|by eapply same_port_loggable| |].
    { case_if; lia. }
    intros [sk3 cl3] s3 Hs3 Ha3. cbv beta iota. simpl in Ha3.
    apply wp_bind, (wp_close_all cl3 sk3); [done|]. intros s4 Hs4 Hc4.
    assert (Hsp4 : same_port s s4) by (do 2 (eapply same_port_trans; [|done]); done).
    apply wp_bind. apply wp_when; intros _; [|by apply wp_ret, HQ].
    apply wp_bind, wp_config. intros _ s5 Hs5 E5. apply wp_sys_, wp_ret, HQ.
    + eapply same_port_trans; [done|]. exact Hs5.
    + assert (E6 : open_fds (set_nodelay (world s5) sk3) = open_fds (world s4))
        by (rewrite nodelay_fds; done).
      simpl. destruct Hc4 as [Hh|[E Hg4]]; [left; by eapply held_fds|right; split; [congruence|done]].
Qed.
End accounting.

(** C38: [vc_connect] leaves no socket behind: it ends, and afterwards the open
    descriptors are the ones there were before, and in addition at most the
    socket it returns.  When binding to an interface does not fail and there is
    an interface, the socket it returns as connected is open and new. *)
Theorem vc_connect_no_leak {W} `{SockLaws W} (s : St W) :
  loggable s ->
  exists sk s', vc_connect s = Ok sk s' /\ at_ s' = at_ s /\
    (open_fds (world s') = open_fds (world s) \/
     0 <= sk /\ (sk ∉ open_fds (world s)) /\
     open_fds (world s') = open_fds (world s) ∪ {[sk]}) /\
    ((forall w x a, 0 <= fst (sys_bind w x a)) -> fst (getifaddrs (world s)) <> Some [] ->
     0 <= sk -> sk ∈ open_fds (world s')).
Proof.
  intros Hlog.
  pose proof (wp_vc_connect (open_fds (world s))
    ((forall w x a, 0 <= fst (sys_bind w x a)) /\ fst (getifaddrs (world s)) <> Some [])
    (fun g => proj1 g) s
    (fun sk s' => same_port s s' /\ connected (open_fds (world s))
      ((forall w x a, 0 <= fst (sys_bind w x a)) /\ fst (getifaddrs (world s)) <> Some [])
      (world s') sk) eq_refl Hlog (fun g => proj2 g)) as Hwp.
  unfold wp in Hwp. destruct (vc_connect s) as [sk s'| | |]; try (exfalso; apply Hwp; by split).
  destruct Hwp as [(Hat & _) Hc]; [done|]. exists sk, s'. split; [done|]. split; [done|].
  destruct Hc as [(Hp & Hn & _ & E)|[E Hg]]; simpl in *.
  - rewrite union_empty_r_L in E. split; [by right|]. intros _ _ _. rewrite E.
    apply elem_of_union. right. by apply elem_of_singleton.
  - split; [by left|]. intros Hb Hi Hp. specialize (Hg (conj Hb Hi)). lia.
Qed.

(** ** A run in the simulated world *)

Lemma filter_some {A} (f : A -> bool) l : 0 < zlen (List.filter f l) -> exists x, x ∈ l /\ x ∈ List.filter f l.
Proof.
  destruct (List.filter f l) as [|x k] eqn:E; [intros Hl; by compute in Hl|]. intros _. exists x.
  assert (Hx : In x (List.filter f l)) by (rewrite E; by left). apply filter_In in Hx as [Hx _].
  split; [by apply list_elem_of_In|apply elem_of_cons; by left].
Qed.

#[export] Instance sim_sock_laws : SockLaws sim_world.
Proof.
  refine {| open_fds := sw_open |}; try done.
  - intros w f r w'. simpl. case_bool_decide as Hx; intros [= <- <-]; [by left|].
    right. split_and!; [lia|done|done].
  - intros w rs ws es tv n rs' ws' es' tv' w' Hs Hn. simpl in Hs. unfold sim_select in Hs.
    injection Hs as <- <- <- <- <- <-.
    match type of Hn with 0 < zlen ?a + zlen ?b + zlen ?c =>
      pose proof (zlen_nonneg a); pose proof (zlen_nonneg b); pose proof (zlen_nonneg c);
      destruct (decide (0 < zlen a)); [|destruct (decide (0 < zlen b))] end.
    + destruct (filter_some _ _ l) as (x & ? & ?). exists x. left. done.
    + destruct (filter_some _ _ l) as (x & ? & ?). exists x. right; left. done.
    + destruct (filter_some (fun x => (x =? sim_fd) && (default 0 (poll_mask (sw_drv w)) &? POLLPRI)) es)
        as (x & ? & ?); [lia|]. exists x. right; right. done.
Qed.

(** A port in the state Net Down. *)
Definition down_attr : vc_attr :=
  set_stk (mk_stk 0 (Some S_netdown :: replicate 9 None)) blank_attr.
Definition down_st (w : sim_world) : St sim_world := mk_st down_attr w 0 (replicate 4096 Byte.x00).

Lemma vc_connect_no_leak_witness :
  let s := down_st (sim_start (fresh_port []) []) in
  exists sk s', vc_connect s = Ok sk s' /\ at_ s' = at_ s /\
    (open_fds (world s') = open_fds (world s) \/
     0 <= sk /\ (sk ∉ open_fds (world s)) /\
     open_fds (world s') = open_fds (world s) ∪ {[sk]}) /\
    ((forall (w : sim_world) x a, 0 <= fst (sys_bind w x a)) ->
     fst (getifaddrs (world s)) <> Some [] -> 0 <= sk -> sk ∈ open_fds (world s')).
Proof.
  apply (vc_connect_no_leak (down_st (sim_start (fresh_port []) []))).
  split; [vm_compute; congruence|by eexists].
Defined.

(** A run: the address of the server is tried on the interface and the
    socket that connects is returned. *)
Example vc_connect_runs :
  match vc_connect (down_st (sim_start (fresh_port []) [])) with
  | Ok sk s => sk = 4 /\ sw_open (world s) = {[0; 1; 2; 3; 4]}
  | _ => False
  end.
Proof. vm_compute. split; reflexivity. Qed.

(** a socket that could not be bound is closed and still returned as
    connected when no other address follows: the daemon then works on a
    descriptor it does not own. *)
Theorem vc_connect_returns_closed_socket :
  exists (s : St sim_world) sk s', loggable s /\ vc_connect s = Ok sk s' /\
    0 <= sk /\ (sk ∉ sw_open (world s')) /\ sw_open (world s') = sw_open (world s).
Proof.
  pose (w := sim_start (fresh_port []) []).
  pose (w1 := mk_world (sw_drv w) (sw_open w) 4 [] [] (sw_ifs w) (sw_addrs w) false true 100).
  exists (down_st w1). eexists 4, _. split; [split; [vm_compute; congruence|by eexists]|].
  split; [vm_compute; reflexivity|]. split_and!; [lia| |vm_compute; reflexivity].
  vm_compute. congruence.
Qed.
