(* ===== verification/Client.v ===== *)
(** * The daemon's state machine

    [daemon/state_mach/*.c].  A state is a table of operations ([struct
    vc_ops]); the machine keeps a stack of states and calls the operations of
    the one on top.  The operations of a state call those of whatever is on
    top afterwards, [stk_curnt(stk)->op(attr)]; they are written here with
    that call as an argument, [call], and [handler] is the table of all
    states.  A call of an operation the state does not have is a call through
    a null pointer, a fault. *)

From S2P Require Import Prelude RingBuf Uart DrvMain Proto Os SslSelect Vcom Connect.

Inductive vc_op :=
  | OpOpen | OpClose | OpIoctl | OpXmit | OpRecv (buf : list byte) (len : Z)
  | OpPoll | OpInit | OpPause | OpResume.

Section handlers.
Context {W : Type} `{Os W}.
Context (call : vc_op -> Prog W state_id).

(** [stk_excp(stk); return stk_curnt(stk)->init(attr);] *)
Definition excp_init : Prog W state_id := _ ← stk_excp; call OpInit.

(** ** [vc_client_common.c] *)

Definition vc_common_open : Prog W state_id :=
  port ← gets port;
  devid ← gets devid;
  pbuf ← pbuf_of 1024;
  r ← lift (vc_pack_open pbuf 0x001 devid (s32 port) 1024);
  let '(plen, packet) := r in
  if plen =? 0 then excp_init else
  e ← vc_check_send packet plen;
  if negb (e =? 0) then excp_init else
  tid_incr;;
  update_eki_attr (e_is_open 1);;
  _ ← stk_push S_sync;
  call OpInit.

Definition XMIT_LEN : Z := 1024.

Definition vc_common_xmit : Prog W state_id :=
  rx ← gets urx;
  let llen := get_rb_llength rx in
  let len := get_rb_length rx in
  let sizeof_pbuf := XMIT_LEN + sizeof_vc_proto_hdr + sizeof_vc_attach_param in
  pbuf ← pbuf_of sizeof_pbuf;
  tid ← gets tid;
  w ← get_world;
  let llen := if XMIT_LEN <? llen then XMIT_LEN else llen in
  let len := if XMIT_LEN <? len then XMIT_LEN else len in
  r ← (if llen =? len then
         data ← lift (map_load w (U.mbase rx + get_rb_head rx) llen);
         lift (vc_pack_xmit pbuf tid llen (Some data) sizeof_pbuf)
       else
         d1 ← lift (map_load w (U.mbase rx + get_rb_head rx) llen);
         packet ← lift (store off_data d1 pbuf);
         d2 ← lift (map_load w (U.mbase rx) (len - llen));
         packet ← lift (store (off_data + llen) d2 packet);
         lift (vc_pack_xmit packet tid len None sizeof_pbuf));
  let '(plen, packet) := r in
  if plen <=? 0 then excp_init else
  e ← vc_check_send packet plen;
  if negb (e =? 0) then excp_init else
  modify (set_xmit_pending len);;
  tid_incr;;
  stk_curnt.

(** One [case] of [_set_ms]: a packet behind the ones packed so far. *)
Definition set_ms_step (line : Z) (eki_ms uart_ms : Z)
    (set clr : list byte -> Z -> Z -> option (Z * list byte))
    (plen : Z) (pbuf : list byte) (buflen : Z) : Prog W (Z * list byte) :=
  if Z.land eki_ms line =? Z.land uart_ms line then mret (plen, pbuf) else
  tid ← gets tid;
  r ← lift ((if uart_ms &? line then set else clr) (zdrop plen pbuf) tid (buflen - plen));
  let '(len, m) := r in
  let pbuf := ztake plen pbuf ++ m in
  if len <=? 0 then mret (plen, pbuf) else
  tid_incr;; mret (plen + len, pbuf).

Definition _set_ms (pbuf : list byte) (buflen uart_ms : Z) : Prog W (Z * list byte) :=
  eki ← gets eki;
  r ← set_ms_step ADV_MS_RTS (i_ms eki) uart_ms vc_pack_setrts vc_pack_clrrts 0 pbuf buflen;
  set_ms_step ADV_MS_DTR (i_ms eki) uart_ms vc_pack_setdtr vc_pack_clrdtr (fst r) (snd r) buflen.

Definition vc_check_comset (a e : adv_port_info) : bool :=
  negb (i_pair a =? i_pair e) || negb (i_stop a =? i_stop e) || negb (i_byte a =? i_byte e).

Definition hflow_args (flowctl : Z) : Z * Z :=
  if flowctl =? ADV_FLOW_RTSCTS then (0x09000000, 0x80000080)
  else if flowctl =? ADV_FLOW_XONXOFF then (0x01000000, 0x43000080)
  else (0x01000000, 0x40000080).

(** One round of the loop: the packet that is due, if any. *)
Definition ioctl_packet (pbuf : list byte) : Prog W (Z * list byte) :=
  a ← attr_p;
  e ← gets eki;
  tid ← gets tid;
  if negb (i_baud a =? i_baud e) then
    update_eki_attr (e_baud (i_baud a));;
    lift (vc_pack_sbaud pbuf tid (u32 (i_baud a)) 1024)
  else if vc_check_comset a e then
    update_eki_attr (e_pair (i_pair a));;
    update_eki_attr (e_stop (i_stop a));;
    update_eki_attr (e_byte (i_byte a));;
    lift (vc_pack_setlctl pbuf tid (u8 (i_pair a)) (u8 (i_byte a)) (u8 (i_stop a)) 1024)
  else if negb (i_flowctl a =? i_flowctl e) then
    let '(chflow, flowrep) := hflow_args (i_flowctl a) in
    r ← lift (vc_pack_hflow pbuf tid chflow flowrep 1024);
    update_eki_attr (e_flowctl (i_flowctl a));;
    mret r
  else if negb (i_ms a =? i_ms e) then
    r ← _set_ms pbuf 1024 (i_ms a);
    update_eki_attr (e_ms (i_ms a));;
    mret r
  else mret (0, pbuf).

Fixpoint ioctl_loop (loop_count : nat) (pbuf : list byte) : Prog W state_id :=
  match loop_count with
  | O => stk_curnt
  | S loop_count =>
      r ← ioctl_packet pbuf;
      let '(plen, pbuf) := r in
      if plen <=? 0 then stk_curnt else
      e ← vc_check_send pbuf plen;
      if negb (e =? 0) then excp_init else
      tid_incr;;
      ioctl_loop loop_count pbuf
  end.

Definition vc_common_ioctl : Prog W state_id :=
  pbuf ← pbuf_of 1024; ioctl_loop 15 pbuf.

Definition check_ioctl_ret (pbuf : list byte) (buflen : Z) : Prog W Z :=
  status ← lift (get32 off_p1 pbuf);
  subcmd ← lift (get32 off_p2 pbuf);
  if negb (status =? STATUS_SUCCESS) then mret (-1) else
  if bool_decide (subcmd ∈ [VCOM_IOCTL_WAIT_ON_MASK; VCOM_IOCTL_GET_MODEMSTATUS;
                            VCOM_IOCTL_SET_WAIT_MASK]) then
    _ ← stk_push S_sync;
    _ ← call (OpRecv pbuf buflen);
    mret 0
  else mret 0.

Definition vc_check_ioctl (pbuf : list byte) (buflen : Z)
    (func : list byte -> Z -> Prog W Z) : Prog W Z :=
  let plen := vc_pack_size sizeof_vc_attach_param in
  if buflen <? plen then mret (-1) else func pbuf buflen.

(** The copies of the [VCOM_CMD_DATAREADY] case, into the mapped page. *)
Definition copy_payload (tx : U.ring_buf) (packet : list byte) (datalen : Z) : Prog W unit :=
  let lroom := get_rb_lroom tx in
  let tail := get_rb_tail tx in
  w ← get_world;
  if datalen <=? lroom then
    d ← lift (load off_data datalen packet);
    w ← lift (map_store w (U.mbase tx + tail) d);
    put_world w
  else
    d1 ← lift (load off_data lroom packet);
    w ← lift (map_store w (U.mbase tx + tail) d1);
    d2 ← lift (load (off_data + lroom) (datalen - lroom) packet);
    w ← lift (map_store w (U.mbase tx) d2);
    put_world w.

(** The [VCOM_CMD_DATAREADY] case. *)
Definition recv_dataready (packet : list byte) (len : Z) : Prog W state_id :=
  tx ← gets utx;
  let room := get_rb_room tx in
  c ← lift (vc_check_recv packet len);
  match c with
  | (0, Some datalen) =>
      if room <? datalen then excp_init else
      copy_payload tx packet datalen;;
      _ ← ioctl_set ADVVCOM_IOCSTXTAIL datalen;
      stk_curnt
  | _ => excp_init
  end.

(** The [VCOM_CMD_WRITE] case. *)
Definition recv_write (packet : list byte) (len : Z) : Prog W state_id :=
  xmit_len ← gets xmit_pending;
  modify (set_xmit_pending 0);;
  c ← lift (vc_check_xmit packet xmit_len STATUS_SUCCESS len);
  if c =? 0 then
    _ ← ioctl_set ADVVCOM_IOCSRXHEAD xmit_len;
    _ ← vc_buf_update VC_BUF_RX;
    stk_curnt
  else
  c ← lift (vc_check_xmit packet xmit_len STATUS_DEVICE_BUSY len);
  if c =? 0 then stk_curnt else excp_init.

Definition vc_common_recv (packet : list byte) (len : Z) : Prog W state_id :=
  if len <? sizeof_vc_proto_hdr then excp_init else
  cmd ← lift (get16 off_cmd packet);
  if cmd =? VCOM_CMD_CREATE then
    devid ← gets devid;
    port ← gets port;
    c ← lift (vc_check_open packet (u8 devid) port len);
    if truthy c then excp_init else stk_curnt
  else if cmd =? VCOM_CMD_IOCTL then
    c ← vc_check_ioctl packet len check_ioctl_ret;
    if truthy c then excp_init else stk_curnt
  else if cmd =? VCOM_CMD_DATAREADY then recv_dataready packet len
  else if cmd =? VCOM_CMD_WRITE then recv_write packet len
  else stk_curnt.

Definition vc_common_purge (pflags : Z) : Prog W unit :=
  pbuf ← pbuf_of 1024;
  tid ← gets tid;
  r ← lift (vc_pack_purge pbuf tid pflags 1024);
  let '(plen, packet) := r in
  if plen =? 0 then mret tt else
  e ← vc_check_send packet plen;
  if negb (e =? 0) then mret tt else tid_incr.

Definition vc_common_close : Prog W state_id :=
  update_eki_attr (e_is_open 0);;
  update_eki_attr (e_stop ADV_STOP_UNDEF);;
  update_eki_attr (e_flowctl ADV_FLOW_UNDEF);;
  update_eki_attr (e_pair ADV_PAIR_UNDEF);;
  pbuf ← pbuf_of 1024;
  tid ← gets tid;
  r ← lift (vc_pack_close pbuf tid 1024);
  let '(plen, packet) := r in
  if plen =? 0 then excp_init else
  e ← vc_check_send packet plen;
  if negb (e =? 0) then excp_init else
  tid_incr;;
  _ ← stk_restart;
  call OpInit.

(** A packet without further arguments, sent; 0 or -1. *)
Definition send_packet (pack : list byte -> Z -> Z -> option (Z * list byte)) (size : Z)
  : Prog W Z :=
  pbuf ← pbuf_of size;
  tid ← gets tid;
  r ← lift (pack pbuf tid size);
  let '(plen, packet) := r in
  if plen <=? 0 then mret (-1) else
  e ← vc_check_send packet plen;
  if negb (e =? 0) then mret (-1) else
  tid_incr;; mret 0.

(** Clearing and closing, shared by Net Up, Pause and Idle. *)
Definition purge_close : Prog W state_id :=
  vc_buf_clear (Z.lor ADV_CLR_RX ADV_CLR_TX);;
  vc_common_purge 0x0000000f;;
  vc_common_close.

(** ** [vc_client_netdown.c] *)

(** The TLS session and the socket are given up. *)
Definition drop_socket : Prog W unit :=
  sk ← gets sk;
  when (0 <=? sk)
    (tls ← gets ssl;
     match tls with
     | Some i =>
         _ ← __set_block (ssl_sk i);
         _ ← ssl_call (fun w => (tt, SSL_shutdown w));
         _ ← ssl_call (fun w => (tt, SSL_free w));
         upd_ssl (fun i => set_ssl_conn (ssl_sk i) false i)
     | None => mret tt
     end;;
     sys_ (fun w => sys_close w sk);;
     modify (set_sk (-1))).

Definition vc_netdown_close : Prog W state_id :=
  vc_buf_clear (Z.lor ADV_CLR_RX ADV_CLR_TX);;
  drop_socket;;
  mret S_netdown.

Definition vc_netdown_open : Prog W state_id :=
  ret ← vc_connect;
  if ret <? 0 then
    vc_buf_clear ADV_CLR_RX;;
    modify (set_sk (-1));;
    mret S_netdown
  else
  modify (set_sk ret);;
  tls ← gets ssl;
  ok ← match tls with
       | None => mret true
       | Some _ =>
           upd_ssl (set_ssl_conn ret true);;
           sys_ SSL_new;;
           r ← ssl_call (fun w => SSL_set_fd w ret);
           if r =? 0 then mret false else
           _ ← __set_nonblock ret;
           r ← ssl_connect_simple 1000;
           if negb (r =? 1) then _stk_log;; mret false else mret true
       end;
  if negb ok then call OpInit else
  tx ← gets utx;
  _ ← stk_push (if is_rb_empty tx then S_netup else S_pause);
  call OpOpen.

Definition reset_eki : adv_port_info :=
  mk_info 0 0 ADV_FLOW_UNDEF 0 ADV_PAIR_UNDEF ADV_STOP_UNDEF 0.

Definition vc_netdown_init : Prog W state_id :=
  drop_socket;;
  modify (set_tid 0);;
  modify (set_xmit_pending 0);;
  modify (set_eki reset_eki);;
  mret S_netdown.

(** ** [vc_client_netup.c] *)

Definition vc_netup_init : Prog W state_id :=
  _ ← vc_buf_update VC_BUF_RX;
  _ ← vc_buf_update VC_BUF_TX;
  mret S_netup.

Definition _pause_queue : Prog W Z :=
  send_packet (fun p t n => vc_pack_qfsize p t 0 n) 1024.

Definition vc_netup_pause : Prog W state_id :=
  r ← _pause_queue;
  if r <? 0 then excp_init else
  _ ← stk_rpls S_pause;
  call OpInit.

Definition vc_netup_poll : Prog W state_id :=
  _ ← stk_push S_idle;
  call OpInit.

(** ** [vc_client_idle.c] *)

Definition vc_idle_open : Prog W state_id :=
  _ ← stk_pop; call OpOpen.

Definition vc_idle_poll : Prog W state_id :=
  vc_buf_clear ADV_CLR_RX;;
  excp_init.

Definition vc_idle_recv (buf : list byte) (len : Z) : Prog W state_id :=
  _ ← stk_pop; call (OpRecv buf len).

Definition vc_idle_init : Prog W state_id :=
  r ← send_packet vc_pack_getwmask (sizeof_vc_proto_hdr + sizeof_vc_attach_param);
  if negb (r =? 0) then excp_init else mret S_idle.

(** ** [vc_client_pause.c] *)

Definition vc_pause_init : Prog W state_id :=
  _ ← vc_buf_update VC_BUF_RX;
  _ ← vc_buf_update VC_BUF_TX;
  mret S_pause.

Definition _resume_queue : Prog W Z :=
  send_packet (fun p t n => vc_pack_qfsize p t 1024 n) 1024.

Definition vc_pause_resume : Prog W state_id :=
  r ← _resume_queue;
  if truthy r then excp_init else
  _ ← stk_rpls S_netup;
  call OpInit.

Definition vc_pause_poll : Prog W state_id :=
  _ ← stk_push S_idle;
  call OpInit.

(** ** [vc_client_sync.c] *)

Definition vc_sync_open : Prog W state_id := exit0.

Definition vc_sync_close : Prog W state_id :=
  vc_buf_clear (Z.lor ADV_CLR_RX ADV_CLR_TX);;
  _ ← stk_excp;
  exit0.

Definition _sync_ms (uart_ms : Z) : Prog W Z :=
  r ← send_packet (if uart_ms &? ADV_MS_RTS then vc_pack_setrts else vc_pack_clrrts) 1024;
  if negb (r =? 0) then mret (-1) else
  send_packet (if uart_ms &? ADV_MS_DTR then vc_pack_setdtr else vc_pack_clrdtr) 1024.

Definition _sync_event : Prog W Z :=
  r ← send_packet (fun p t n => vc_pack_setwmask p t 0x38010000 n) 1024;
  if negb (r =? 0) then mret (-1) else
  send_packet vc_pack_getmodem 1024.

Definition _reg_sync_event : Prog W Z := send_packet vc_pack_womask 1024.

Definition _sync_queue : Prog W Z :=
  tx ← gets utx;
  let qfsize := if is_rb_empty tx then 1024 else 0 in
  send_packet (fun p t n => vc_pack_qfsize p t qfsize n) 1024.

Definition vc_sync_init : Prog W state_id :=
  a ← attr_p;
  let uart_ms := i_ms a in
  r ← _sync_ms uart_ms;
  if truthy r then excp_init else
  update_eki_attr (e_ms uart_ms);;
  r ← _sync_event;
  if truthy r then excp_init else
  r ← _sync_queue;
  if truthy r then excp_init else
  _ ← stk_pop;
  call OpInit.

Definition vc_sync_recv (pbuf : list byte) (len : Z) : Prog W state_id :=
  subcmd ← lift (get32 off_p2 pbuf);
  r ← (if subcmd =? VCOM_IOCTL_WAIT_ON_MASK then _sync_event
       else if subcmd =? VCOM_IOCTL_SET_WAIT_MASK then _reg_sync_event
       else if subcmd =? VCOM_IOCTL_GET_MODEMSTATUS then
         modem ← lift (load off_uint 4 pbuf);
         ioctl_set ADVVCOM_IOCSMCTRL (le_val modem)
       else mret 0);
  if truthy r then excp_init else
  _ ← stk_pop;
  call OpInit.

(** ** The states

    Each state's [struct vc_ops]: the operation it has for a call, if any. *)

Definition vc_netdown_ops (o : vc_op) : option (Prog W state_id) :=
  match o with
  | OpOpen => Some vc_netdown_open
  | OpClose => Some vc_netdown_close
  | OpInit => Some vc_netdown_init
  | _ => None
  end.

Definition vc_netup_xmit : Prog W state_id := vc_common_xmit.
Definition vc_netup_close : Prog W state_id := purge_close.
Definition vc_netup_open : Prog W state_id := vc_common_open.
Definition vc_netup_ioctl : Prog W state_id := vc_common_ioctl.
Definition vc_netup_recv (buf : list byte) (len : Z) : Prog W state_id := vc_common_recv buf len.

Definition vc_netup_ops (o : vc_op) : option (Prog W state_id) :=
  match o with
  | OpOpen => Some vc_netup_open
  | OpClose => Some vc_netup_close
  | OpXmit => Some vc_netup_xmit
  | OpInit => Some vc_netup_init
  | OpRecv buf len => Some (vc_netup_recv buf len)
  | OpIoctl => Some vc_netup_ioctl
  | OpPoll => Some vc_netup_poll
  | OpPause => Some vc_netup_pause
  | OpResume => None
  end.

Definition vc_pause_xmit : Prog W state_id := vc_common_xmit.
Definition vc_pause_close : Prog W state_id := purge_close.
Definition vc_pause_open : Prog W state_id := vc_common_open.
Definition vc_pause_ioctl : Prog W state_id := vc_common_ioctl.
Definition vc_pause_recv (buf : list byte) (len : Z) : Prog W state_id := vc_common_recv buf len.

Definition vc_pause_ops (o : vc_op) : option (Prog W state_id) :=
  match o with
  | OpOpen => Some vc_pause_open
  | OpClose => Some vc_pause_close
  | OpXmit => Some vc_pause_xmit
  | OpInit => Some vc_pause_init
  | OpRecv buf len => Some (vc_pause_recv buf len)
  | OpIoctl => Some vc_pause_ioctl
  | OpPoll => Some vc_pause_poll
  | OpResume => Some vc_pause_resume
  | OpPause => None
  end.

Definition vc_idle_close : Prog W state_id := purge_close.

Definition vc_idle_ops (o : vc_op) : option (Prog W state_id) :=
  match o with
  | OpOpen => Some vc_idle_open
  | OpClose => Some vc_idle_close
  | OpInit => Some vc_idle_init
  | OpPoll => Some vc_idle_poll
  | OpRecv buf len => Some (vc_idle_recv buf len)
  | _ => None
  end.

Definition vc_sync_ops (o : vc_op) : option (Prog W state_id) :=
  match o with
  | OpInit => Some vc_sync_init
  | OpRecv buf len => Some (vc_sync_recv buf len)
  | OpOpen => Some vc_sync_open
  | OpClose => Some vc_sync_close
  | _ => None
  end.

Definition handler (s : state_id) : vc_op -> option (Prog W state_id) :=
  match s with
  | S_netdown => vc_netdown_ops
  | S_netup => vc_netup_ops
  | S_pause => vc_pause_ops
  | S_idle => vc_idle_ops
  | S_sync => vc_sync_ops
  end.
End handlers.

(** [stk_curnt(stk)->op(attr)].  Each nested call pops the stack, resets it or
    is an [init], so the depth stays below [call_depth]. *)
Fixpoint dispatch {W} `{Os W} (fuel : nat) (o : vc_op) : Prog W state_id :=
  match fuel with
  | O => nofuel
  | S fuel =>
      s ← stk_curnt;
      match handler (dispatch fuel) s o with
      | Some m => m
      | None => fault
      end
  end.

Definition call_depth : nat := 8.

Section calls.
Context {W : Type} `{Os W}.

Definition call_op (o : vc_op) : Prog W state_id := dispatch call_depth o.

(** The macro [try_ops]: an operation the state does not have is skipped. *)
Definition try_op (o : vc_op) : Prog W state_id :=
  s ← stk_curnt;
  match handler (dispatch call_depth) s o with
  | Some m => m
  | None => mret s
  end.

(** The [event] operations: [port.fd] in the read and the write set. *)
Definition vc_netup_event (rfds wfds : list Z) : Prog W (list Z * list Z) :=
  p ← gets xmit_pending;
  fd ← gets fd;
  mret (if p =? 0 then fd :: rfds else rfds, wfds).

Definition vc_pause_event (rfds wfds : list Z) : Prog W (list Z * list Z) :=
  p ← gets xmit_pending;
  fd ← gets fd;
  mret (if p =? 0 then fd :: rfds else rfds, fd :: wfds).

Definition try_event (rfds wfds : list Z) : Prog W (list Z * list Z) :=
  s ← stk_curnt;
  match s with
  | S_netup => vc_netup_event rfds wfds
  | S_pause => vc_pause_event rfds wfds
  | _ => mret (rfds, wfds)
  end.
End calls.
