(* ===== verification/ClientProofs.v ===== *)
(** * Correctness of the state machine

    The invariant of the daemon between two operations: the stack is Net Down
    alone, or Net Up or Pause on top of it, or Idle on top of that; the socket
    and the TLS session exist exactly when the stack is not Net Down alone;
    the cached ring indices are in range; at most [XMIT_LEN] bytes wait for an
    acknowledgement.

    [G] is that invariant with the stack, the connection and the open flag as
    parameters.  Every operation of the tables is shown to return from it, with
    a stack of the right shape. *)

From S2P Require Import Prelude RingBuf Uart DrvMain Proto Os SslSelect Vcom Connect Client.

(** ** What the daemon relies on of the driver and the kernel *)

Definition in_page (off n : Z) : Prop :=
  0 <= n /\ (0 <= off /\ off + n <= PAGE_SIZE \/ PAGE_SIZE <= off /\ off + n <= 2 * PAGE_SIZE).

Class DrvLaws (W : Type) `{Os W} := {
  (** indices a successful request reports are inside the page *)
  get_index w cmd arg r v w' :
    drv_ioctl w cmd arg = (r, v, w') ->
    cmd ∈ [ADVVCOM_IOCGRXHEAD; ADVVCOM_IOCGRXTAIL; ADVVCOM_IOCGTXHEAD; ADVVCOM_IOCGTXTAIL] ->
    0 <= r -> 0 <= v < PAGE_SIZE;
  get_attrptr w arg r v w' :
    drv_ioctl w ADVVCOM_IOCGATTRPTR arg = (r, v, w') -> 0 <= arg < 2 -> 0 <= v < 2;
  (** the two ring pages and the attribute slots are mapped *)
  map_load_ok w off n : in_page off n -> exists bs, map_load w off n = Some bs /\ zlen bs = n;
  map_store_ok w off bs : in_page off (zlen bs) -> exists w', map_store w off bs = Some w';
  map_info_ok w p : 0 <= p < 2 -> exists i,
    map_info w (2 * PAGE_SIZE + p * sizeof_adv_port_info) = Some i;
  (** a successful read delivers at most what was asked for *)
  recv_length w x n r bs w' :
    sys_recv w x n = (r, bs, w') -> 0 < r -> r <= n /\ zlen bs = r;
}.

(** ** The invariant *)

Definition stack_is (k : stk_vc) (l : list state_id) : Prop :=
  top k = zlen l - 1 /\ length (stk_stat k) = 10%nat /\ (length l <= 4)%nat /\
  take (length l) (stk_stat k) = Some <$> l.

Definition user_ring (b : U.ring_buf) (begin : Z) : Prop :=
  U.mbase b = begin /\ U.size b = PAGE_SIZE /\
  0 <= U.head b < PAGE_SIZE /\ 0 <= U.tail b < PAGE_SIZE.

Definition bufs_ok (a : vc_attr) : Prop :=
  user_ring (utx a) 0 /\ user_ring (urx a) PAGE_SIZE /\
  attr_off a = 2 * PAGE_SIZE /\ 0 <= attr_ptr a < 2.

Definition conn_is (c : bool) (a : vc_attr) : Prop :=
  (if c then 0 <= sk a else sk a = -1) /\
  match ssl a with Some i => ssl_live i = c | None => True end.

(** Whether the daemon was started with TLS; it never changes. *)
Class TlsMode := tls_on : bool.

Record G {W} `{TlsMode} (l : list state_id) (c : bool) (o : Z) (s : St W) : Prop := mk_G {
  G_nonempty : l <> [];
  G_stack : stack_is (stk (at_ s)) l;
  G_bufs : bufs_ok (at_ s);
  G_conn : conn_is c (at_ s);
  G_pending : 0 <= xmit_pending (at_ s) <= XMIT_LEN;
  G_open : i_is_open (eki (at_ s)) = o;
  G_rbuf : zlen (rbuf s) = 4096;
  G_tls : match ssl (at_ s) with Some _ => true | None => false end = tls_on;
}.

Lemma stack_slot k l x : stack_is k (l ++ [x]) -> stk_slot k = Some x.
Proof.
  intros (Ht & Hl & H4 & Hs). rewrite length_app in *. simpl in *.
  unfold stk_slot. rewrite Ht, zlen_app. unfold zlen, STACK_MAX. simpl.
  rewrite (proj2 (andb_true_iff _ _)) by (rewrite Z.leb_le, Z.ltb_lt; lia).
  replace (Z.to_nat (Z.of_nat (length l) + Z.of_nat 1 - 1)) with (length l) by lia.
  assert (Hx : take (length l + 1) (stk_stat k) !! length l = Some (Some x)).
  { rewrite Hs, fmap_app, lookup_app_r; rewrite length_fmap; [|done]. by rewrite Nat.sub_diag. }
  rewrite lookup_take_lt in Hx by lia. by rewrite Hx.
Qed.

Lemma stack_last (l : list state_id) : l <> [] -> exists l' x, l = l' ++ [x].
Proof. intros H. destruct l using rev_ind; [done|eauto]. Qed.

Lemma wp_get_pre {W} (s : St W) (Q : Z -> St W -> Prop) :
  Q (pre_excp_t s) s -> wp get_pre_excp_t s Q.
Proof. done. Qed.

Lemma wp_set_pre {W} t (s : St W) (Q : unit -> St W -> Prop) :
  Q tt (mk_st (at_ s) (world s) t (rbuf s)) -> wp (set_pre_excp_t t) s Q.
Proof. done. Qed.

Section G.
Context {W : Type} `{Os W} `{!DrvLaws W} `{!SockLaws W} `{!SslProgress W} `{TlsMode}.
Implicit Types s : St W.

Lemma G_loggable l c o s : G l c o s -> loggable s.
Proof.
  intros Hg. destruct (stack_last l) as (l' & x & ->); [apply Hg|].
  pose proof (G_stack _ _ _ _ Hg) as Hs. split.
  - destruct Hs as (-> & _). rewrite zlen_app. unfold zlen. simpl. lia.
  - rewrite (stack_slot _ _ _ Hs). by eexists.
Qed.

(** *** The stack operations *)

Lemma wp_curnt l x c o s (Q : state_id -> St W -> Prop) :
  G (l ++ [x]) c o s -> Q x s -> wp stk_curnt s Q.
Proof.
  intros Hg HQ. unfold stk_curnt. wp_go; unfold stk_empty in *; bool_simpl.
  - destruct (G_loggable _ _ _ _ Hg) as [? _]. lia.
  - apply wp_lift. exists x. split; [|done]. eapply stack_slot, Hg.
Qed.

(** Replacing the stack. *)
Lemma G_set_stk l l' c o s k :
  G l c o s -> l' <> [] -> stack_is k l' ->
  G l' c o (mk_st (set_stk k (at_ s)) (world s) (pre_excp_t s) (rbuf s)).
Proof. intros [] ??. by constructor. Qed.

Lemma wp_push l x c o s (Q : Z -> St W -> Prop) :
  G l c o s -> (length l <= 3)%nat ->
  (forall s', G (l ++ [x]) c o s' -> Q 0 s') -> wp (stk_push x) s Q.
Proof.
  intros Hg Hl HQ. pose proof (G_stack _ _ _ _ Hg) as (Ht & Hlen & H4 & Hs).
  assert (Hz : 0 <= zlen l <= 3) by (unfold zlen; lia).
  unfold stk_push. apply wp_bind, wp_gets. unfold stk_full, STACK_MAX. rewrite Ht.
  apply wp_if; intros Hf; bool_simpl; [lia|].
  apply wp_bind, wp_lift. eexists. split.
  { unfold stk_write, STACK_MAX. simpl.
    rewrite (proj2 (andb_true_iff _ _)) by (rewrite Z.leb_le, Z.ltb_lt; lia). done. }
  apply wp_bind, wp_modify, wp_ret, HQ. eapply G_set_stk; [done|by destruct l|].
  replace (Z.to_nat (zlen l - 1 + 1)) with (length l) by (unfold zlen; lia).
  split_and!; simpl.
  - rewrite zlen_app. unfold zlen. simpl. lia.
  - by rewrite length_insert.
  - rewrite length_app. simpl. lia.
  - rewrite length_app, Nat.add_1_r. simpl. rewrite fmap_app, <- Hs. simpl.
    rewrite <- (take_insert_ge (stk_stat (stk (at_ s))) (length l) (length l) (Some x)) by lia.
    rewrite (take_S_r _ _ (Some x)) by (apply list_lookup_insert_eq; lia). done.
Qed.

Lemma wp_pop l x c o s (Q : Z -> St W -> Prop) :
  G (l ++ [x]) c o s -> l <> [] ->
  (forall s', G l c o s' -> Q 0 s') -> wp stk_pop s Q.
Proof.
  intros Hg Hl HQ. pose proof (G_stack _ _ _ _ Hg) as (Ht & Hlen & H4 & Hs).
  rewrite length_app in *. simpl in *. rewrite zlen_app in Ht. unfold zlen in Ht. simpl in Ht.
  unfold stk_pop. apply wp_bind, wp_gets. unfold stk_empty. rewrite Ht.
  apply wp_if; intros He; bool_simpl; [lia|].
  apply wp_bind, wp_modify, wp_ret, HQ. eapply G_set_stk; [done|done|].
  split_and!; simpl; [unfold zlen; lia|done|lia|].
  apply (f_equal (take (length l))) in Hs. rewrite take_take in Hs.
  rewrite fmap_app, take_app_length' in Hs by (by rewrite length_fmap).
  by rewrite <- Hs, Nat.min_l by lia.
Qed.

Lemma wp_rpls l x y c o s (Q : Z -> St W -> Prop) :
  G (l ++ [x]) c o s ->
  (forall s', G (l ++ [y]) c o s' -> Q 0 s') -> wp (stk_rpls y) s Q.
Proof.
  intros Hg HQ. pose proof (G_stack _ _ _ _ Hg) as (Ht & Hlen & H4 & Hs).
  rewrite length_app in *. simpl in *. rewrite zlen_app in Ht. unfold zlen in Ht. simpl in Ht.
  unfold stk_rpls. apply wp_bind, wp_gets, wp_bind, wp_lift. eexists. split.
  { unfold stk_write, STACK_MAX. rewrite Ht.
    rewrite (proj2 (andb_true_iff _ _)) by (rewrite Z.leb_le, Z.ltb_lt; lia). done. }
  apply wp_bind, wp_modify, wp_ret, HQ. eapply G_set_stk; [done|by destruct l|].
  replace (Z.to_nat (Z.of_nat (length l) + Z.of_nat 1 - 1)) with (length l) by lia.
  split_and!; simpl.
  - rewrite zlen_app. unfold zlen. simpl. lia.
  - by rewrite length_insert.
  - rewrite length_app. simpl. lia.
  - rewrite length_app, fmap_app. simpl. rewrite Nat.add_1_r.
    rewrite (take_S_r _ _ (Some y)) by (apply list_lookup_insert_eq; lia). f_equal.
    rewrite take_insert_ge by lia. apply (f_equal (take (length l))) in Hs.
    rewrite take_take in Hs. rewrite fmap_app, take_app_length' in Hs by (by rewrite length_fmap).
    by rewrite <- Hs, Nat.min_l by lia.
Qed.

(** Both resets leave the bottom of the stack. *)
Lemma stack_bottom k x l : stack_is k (x :: l) -> stack_is (set_top 0 k) [x].
Proof.
  intros (Ht & Hl & H4 & Hs). simpl in *. split_and!; simpl; [done|done|lia|].
  destruct (stk_stat k); simpl in *; [done|]. by injection Hs as ->.
Qed.

Lemma wp_restart x l c o s (Q : Z -> St W -> Prop) :
  G (x :: l) c o s -> (forall r s', G [x] c o s' -> Q r s') -> wp stk_restart s Q.
Proof.
  intros Hg HQ. pose proof (G_stack _ _ _ _ Hg) as Hs.
  unfold stk_restart. apply wp_bind, wp_gets. apply wp_if; intros Hb; unfold stk_bot in *; bool_simpl.
  - apply wp_ret, HQ. destruct Hs as (Ht & _). rewrite Ht, zlen_cons in Hb.
    assert (l = []) as -> by (apply zlen_0_nil; lia). done.
  - apply wp_bind, wp_modify, wp_ret, HQ. eapply G_set_stk; [done|done|]. by eapply stack_bottom.
Qed.

Lemma G_world l c o s (w : W) t :
  G l c o s -> G l c o (mk_st (at_ s) w t (rbuf s)).
Proof. intros []. by constructor. Qed.

Lemma wp_excp x l c o s (Q : Z -> St W -> Prop) :
  G (x :: l) c o s -> (forall r s', G [x] c o s' -> Q r s') -> wp stk_excp s Q.
Proof.
  intros Hg HQ. destruct (G_loggable _ _ _ _ Hg) as [Hpos [y Hy]].
  pose proof (G_stack _ _ _ _ Hg) as Hs.
  unfold stk_excp. apply wp_bind, wp_gets, wp_bind, wp_when; intros Hp; bool_simpl; [|lia].
  apply wp_bind, wp_lift. exists y. split; [done|]. apply wp_ret.
  unfold _stk_excp. apply wp_bind, wp_gets. apply wp_if; intros Hb; unfold stk_bot in *; bool_simpl.
  { apply wp_ret, HQ. destruct Hs as (Ht & _). rewrite Ht, zlen_cons in Hb.
    assert (l = []) as -> by (apply zlen_0_nil; lia). done. }
  assert (Hg' : forall (w : W) t, G [x] c o
    (mk_st (set_stk (set_top 0 (stk (at_ s))) (at_ s)) w t (rbuf s))).
  { intros w t. apply (G_world _ _ _ (mk_st _ (world s) (pre_excp_t s) _)).
    eapply G_set_stk; [done|done|]. by eapply stack_bottom. }
  apply wp_bind, wp_modify, wp_bind, wp_get_pre. cbn [pre_excp_t]. apply wp_bind, wp_if; intros _.
  - apply wp_bind, wp_sys. intros t w _. apply wp_set_pre, wp_ret, HQ, Hg'.
  - apply wp_bind, wp_sys. intros t w _. apply wp_bind, wp_when; intros _.
    + apply wp_sys_, wp_set_pre, wp_ret, HQ, Hg'.
    + apply wp_set_pre, wp_ret, HQ, Hg'.
Qed.

(** *** Operations that keep the invariant *)

Lemma wp_sys_G {A} (f : W -> A * W) l c o s (Q : A -> St W -> Prop) :
  G l c o s -> (forall x s', G l c o s' -> Q x s') -> wp (sys f) s Q.
Proof. intros Hg HQ. apply wp_sys. intros x w _. apply HQ. by apply G_world. Qed.

Lemma wp_sys__G f l c o s (Q : unit -> St W -> Prop) :
  G l c o s -> (forall s', G l c o s' -> Q tt s') -> wp (sys_ f) s Q.
Proof. intros Hg HQ. apply wp_sys_, HQ. by apply G_world. Qed.

Lemma wp_ioctl_set cmd arg l c o s (Q : Z -> St W -> Prop) :
  G l c o s -> (forall r s', G l c o s' -> Q r s') -> wp (ioctl_set cmd arg) s Q.
Proof.
  intros Hg HQ. unfold ioctl_set. eapply wp_bind, wp_sys_G; [done|].
  intros x s' Hg'. by apply wp_ret, HQ.
Qed.

Lemma wp_attr_p l c o s (Q : adv_port_info -> St W -> Prop) :
  G l c o s -> (forall i, Q i s) -> wp attr_p s Q.
Proof.
  intros Hg HQ. destruct (G_bufs _ _ _ _ Hg) as (_ & _ & Hoff & Hp).
  unfold attr_p. wp_go. apply wp_lift. rewrite Hoff.
  destruct (map_info_ok (world s) (attr_ptr (at_ s)) Hp) as [i Hi]. eauto.
Qed.

Lemma wp_pbuf_of n s (Q : list byte -> St W -> Prop) :
  0 <= n -> (forall p, zlen p = n -> Q p s) -> wp (pbuf_of n) s Q.
Proof.
  intros Hn HQ. unfold pbuf_of. wp_go. apply HQ. apply zlen_ztake.
  rewrite zlen_app. unfold zlen. rewrite length_replicate. lia.
Qed.

Lemma wp_modify_G f l c o s (Q : unit -> St W -> Prop) l' c' o' :
  G l c o s ->
  (G l c o s -> G l' c' o' (mk_st (f (at_ s)) (world s) (pre_excp_t s) (rbuf s))) ->
  (forall s', G l' c' o' s' -> Q tt s') -> wp (modify f) s Q.
Proof. intros Hg Hf HQ. apply wp_modify, HQ, Hf, Hg. Qed.

Lemma wp_tid_incr l c o s (Q : unit -> St W -> Prop) :
  G l c o s -> (forall s', G l c o s' -> Q tt s') -> wp tid_incr s Q.
Proof. intros Hg HQ. eapply wp_modify_G; [done| |done]. intros []. by constructor. Qed.

Lemma wp_update_eki f l c o s (Q : unit -> St W -> Prop) o' :
  G l c o s -> (forall e, i_is_open e = o -> i_is_open (f e) = o') ->
  (forall s', G l c o' s' -> Q tt s') -> wp (update_eki_attr f) s Q.
Proof.
  intros Hg Hf HQ. eapply wp_modify_G; [done| |done]. intros []. constructor; try done.
  by apply Hf.
Qed.

(** Refreshing the cached indices. *)
Lemma G_set_ring (id : bool) h t l c o s :
  G l c o s -> 0 <= h < PAGE_SIZE -> 0 <= t < PAGE_SIZE ->
  G l c o (mk_st (if id then set_urx (set_user_idx h t (urx (at_ s))) (at_ s)
                  else set_utx (set_user_idx h t (utx (at_ s))) (at_ s))
             (world s) (pre_excp_t s) (rbuf s)).
Proof.
  intros [? ? ((? & ? & ? & ?) & (? & ? & ? & ?) & ? & ?) ? ? ? ? ?] Hh Ht.
  destruct id; constructor; try done; by split_and!.
Qed.

Lemma wp_get_index cmd l c o s (Q : Z * Z -> St W -> Prop) :
  cmd ∈ [ADVVCOM_IOCGRXHEAD; ADVVCOM_IOCGRXTAIL; ADVVCOM_IOCGTXHEAD; ADVVCOM_IOCGTXTAIL] ->
  G l c o s -> (forall r s', G l c o s' -> (0 <= fst r -> 0 <= snd r < PAGE_SIZE) -> Q r s') ->
  wp (ioctl_get cmd) s Q.
Proof.
  intros Hc Hg HQ. unfold ioctl_get. apply wp_sys. intros [r v] w Hi.
  apply HQ; [by apply G_world|]. simpl. by eapply get_index.
Qed.

Lemma wp_buf_update id l c o s (Q : Z -> St W -> Prop) :
  G l c o s -> (forall r s', G l c o s' -> Q r s') -> wp (vc_buf_update id) s Q.
Proof.
  intros Hg HQ. unfold vc_buf_update. apply wp_if; intros _.
  { eapply wp_bind, wp_get_index; [apply elem_of_cons; by left|done|]. intros [rh h] s1 Hg1 Hh.
    apply wp_if; intros Ehd; bool_simpl; [by apply wp_ret, HQ|].
    eapply wp_bind, wp_get_index; [apply elem_of_cons; right; apply elem_of_cons; by left|done|].
    intros [rt t] s2 Hg2 Ht. apply wp_if; intros Etl; bool_simpl; [by apply wp_ret, HQ|].
    simpl in *. eapply wp_bind, wp_modify_G; [exact Hg2| |intros s3 Hg3; by apply wp_ret, HQ].
    intros _. apply (G_set_ring true); auto. }
  apply wp_if; intros _.
  { eapply wp_bind, wp_get_index; [do 2 (apply elem_of_cons; right); apply elem_of_cons; by left|done|].
    intros [rh h] s1 Hg1 Hh. apply wp_if; intros Ehd; bool_simpl; [by apply wp_ret, HQ|].
    eapply wp_bind, wp_get_index; [do 3 (apply elem_of_cons; right); apply elem_of_cons; by left|done|].
    intros [rt t] s2 Hg2 Ht. apply wp_if; intros Etl; bool_simpl; [by apply wp_ret, HQ|].
    simpl in *. eapply wp_bind, wp_modify_G; [exact Hg2| |intros s3 Hg3; by apply wp_ret, HQ].
    intros _. apply (G_set_ring false); auto. }
  apply wp_if; intros _; [|by apply wp_ret, HQ].
  apply wp_bind, wp_gets, wp_bind, wp_sys. intros [r v] w Hi.
  apply wp_bind, wp_modify, wp_ret, HQ.
  destruct Hg as [? ? (? & ? & ? & Hp) ? ? ? ? ?]. constructor; try done. split_and!; try done;
    apply (get_attrptr _ _ _ _ _ Hi Hp).
Qed.

Lemma wp_buf_clear flags l c o s (Q : unit -> St W -> Prop) :
  G l c o s -> (forall s', G l c o s' -> Q tt s') -> wp (vc_buf_clear flags) s Q.
Proof.
  intros Hg HQ. unfold vc_buf_clear. eapply wp_bind, wp_ioctl_set; [done|]. intros r s1 Hg1.
  apply wp_if; intros _; [by apply wp_ret, HQ|].
  assert (Hlast : forall s2, G l c o s2 ->
    wp (when (flags &? ADV_CLR_TX) (_ ← vc_buf_update VC_BUF_TX; mret tt)) s2 Q).
  { intros s2 Hg2. apply wp_when; intros _; [|by apply HQ].
    eapply wp_bind, wp_buf_update; [done|]. intros _ s3 Hg3. by apply wp_ret, HQ. }
  apply wp_bind, wp_when; intros _; [|by apply Hlast].
  eapply wp_bind, wp_ioctl_set; [done|]. intros _ s2 Hg2.
  eapply wp_bind, wp_buf_update; [done|]. intros _ s3 Hg3. by apply wp_ret, Hlast.
Qed.

(** *** Sending *)

Lemma G_ssl_frame l c o s s' : ssl_frame s s' -> G l c o s -> G l c o s'.
Proof.
  intros (i & i' & Hi & Ha & _ & Hl & _ & Hr) [? ? Hb Hc ? ? ? ?].
  rewrite Hi in *. constructor; rewrite ?Ha, ?Hr; try done.
  destruct Hc as [? Hc]. split; [done|]. simpl. rewrite Hi in Hc. congruence.
Qed.

Lemma G_ssl_ready l o s i : G l true o s -> ssl (at_ s) = Some i -> ssl_ready s.
Proof.
  intros Hg Hi. exists i. split; [done|]. destruct (G_conn _ _ _ _ Hg) as [_ Hc].
  by rewrite Hi in Hc.
Qed.

Lemma wp_fdcheck x type l c o s (Q : Z -> St W -> Prop) :
  G l c o s -> (forall r s', G l c o s' -> Q r s') -> wp (fdcheck x type) s Q.
Proof.
  intros Hg HQ. unfold fdcheck. eapply wp_bind, wp_sys_G; [done|].
  intros [[n [[rs ws] es]] tv] s1 Hg1. cbv beta iota. apply wp_if; intros _; by apply wp_ret, HQ.
Qed.

Lemma wp_check_send packet plen l o s (Q : Z -> St W -> Prop) :
  G l true o s -> 0 <= plen <= zlen packet ->
  (forall r s', G l true o s' -> Q r s') -> wp (vc_check_send packet plen) s Q.
Proof.
  intros Hg Hp HQ. unfold vc_check_send. apply wp_bind, wp_lift.
  eexists. split; [apply load_Some; lia|]. apply wp_bind, wp_gets.
  destruct (ssl (at_ s)) as [i|] eqn:Hi.
  - unfold ssl_send_simple. apply wp_bind, wp_bind. eapply wp_mono.
    { apply ssl_simple_returns; [apply send_asks|by eapply G_ssl_ready]. }
    cbv beta. intros r s1 [Hf _]. pose proof (G_ssl_frame _ _ _ _ _ Hf Hg) as Hg1. apply wp_ret.
    apply wp_if; intros _; [|by apply wp_ret, HQ].
    apply wp_bind, wp_stk_log; [by eapply G_loggable|]. by apply wp_ret, HQ.
  - apply wp_bind, wp_gets, wp_bind. eapply wp_fdcheck; [done|]. intros r s1 Hg1.
    apply wp_if; intros _; [by apply wp_ret, HQ|].
    eapply wp_bind, wp_sys_G; [done|]. intros n s2 Hg2. apply wp_if; intros _; by apply wp_ret, HQ.
Qed.

(** *** Packets *)

(** The function packs into a buffer of the given size. *)
Definition packs (pack : list byte -> Z -> Z -> option (Z * list byte)) (size : Z) : Prop :=
  forall pbuf tid, zlen pbuf = size ->
    exists n m, pack pbuf tid size = Some (n, m) /\ 0 < n <= size /\ zlen m = size.

Lemma packed_packs pbuf f size :
  20 + zlen (f_ext f) <= size -> zlen pbuf = size ->
  exists n m, packed pbuf f = Some (n, m) /\ 0 < n <= size /\ zlen m = size.
Proof.
  intros Hs Hp. pose proof (zlen_nonneg (f_ext f)). eexists _, _. split; [done|].
  rewrite zlen_app, zlen_frame_bytes, zlen_zdrop by lia. lia.
Qed.

Lemma packs_param subcmd size : 20 <= size -> packs (fun p t n => _pack_ioctl_param p t subcmd n) size.
Proof. intros Hs pbuf tid Hp. rewrite pack_ioctl_param_spec by lia. by apply packed_packs. Qed.

Lemma packs_qfsize x size : 20 <= size -> packs (fun p t n => vc_pack_qfsize p t x n) size.
Proof. intros Hs pbuf tid Hp. rewrite vc_pack_qfsize_spec by lia. by apply packed_packs. Qed.

Lemma packs_getwmask size : 20 <= size -> packs vc_pack_getwmask size.
Proof. intros Hs pbuf tid Hp. rewrite vc_pack_getwmask_spec by lia. by apply packed_packs. Qed.

Lemma packs_setwmask x size : 24 <= size -> packs (fun p t n => vc_pack_setwmask p t x n) size.
Proof.
  intros Hs pbuf tid Hp. rewrite vc_pack_setwmask_spec by lia. apply packed_packs; [|done].
  simpl. rewrite zlen_be. lia.
Qed.

Lemma packs_lines size : 20 <= size ->
  packs vc_pack_setrts size /\ packs vc_pack_clrrts size /\
  packs vc_pack_setdtr size /\ packs vc_pack_clrdtr size /\
  packs vc_pack_getmodem size /\ packs vc_pack_womask size.
Proof. intros Hs. split_and!; by apply packs_param. Qed.

Lemma wp_send_packet pack size l o s (Q : Z -> St W -> Prop) :
  packs pack size -> 0 <= size -> G l true o s ->
  (forall r s', G l true o s' -> Q r s') -> wp (send_packet pack size) s Q.
Proof.
  intros Hpack Hsz Hg HQ. unfold send_packet. apply wp_bind, wp_pbuf_of; [done|]. intros pbuf Hp.
  apply wp_bind, wp_gets, wp_bind, wp_lift.
  destruct (Hpack pbuf (tid (at_ s)) Hp) as (n & m & -> & Hn & Hm). eexists. split; [done|].
  cbv beta iota. apply wp_if; intros _; [by apply wp_ret, HQ|].
  eapply wp_bind, wp_check_send; [done|lia|]. intros r s1 Hg1.
  apply wp_if; intros _; [by apply wp_ret, HQ|].
  eapply wp_bind, wp_tid_incr; [done|]. intros s2 Hg2. by apply wp_ret, HQ.
Qed.

Lemma wp_ssl_call {A} (f : W -> A * W) i s (Q : A -> St W -> Prop) :
  ssl (at_ s) = Some i -> ssl_live i = true ->
  (forall x w, Q x (mk_st (at_ s) w (pre_excp_t s) (rbuf s))) -> wp (ssl_call f) s Q.
Proof.
  intros Hi Hl HQ. unfold ssl_call, get_ssl. apply wp_bind, wp_bind, wp_gets, wp_lift.
  exists i. split; [done|]. rewrite Hl. apply wp_sys. intros x w _. apply HQ.
Qed.

(** ** The [init] operations *)

Definition Down s : Prop :=
  G [S_netdown] false 0 s /\ tid (at_ s) = 0 /\ xmit_pending (at_ s) = 0 /\
  eki (at_ s) = reset_eki.

Definition base (b : state_id) : Prop := b = S_netup \/ b = S_pause.

(** The socket and the TLS session go together. *)
Lemma wp_drop_socket l c o s (Q : unit -> St W -> Prop) :
  G l c o s -> (forall s', G l false o s' -> Q tt s') -> wp drop_socket s Q.
Proof.
  intros Hg HQ. unfold drop_socket. apply wp_bind, wp_gets, wp_when; intros Hsk; bool_simpl.
  2:{ apply HQ. destruct Hg as [? ? ? [Hc Hl] ? ? ? ?]. destruct c; [lia|]. by constructor. }
  destruct c; [|destruct (G_conn _ _ _ _ Hg) as [Hc _]; lia].
  assert (Hclose : forall s1 (x : Z),
    (exists i, ssl (at_ s1) = Some i /\ ssl_live i = false) \/ ssl (at_ s1) = None ->
    l <> [] -> stack_is (stk (at_ s1)) l -> bufs_ok (at_ s1) ->
    0 <= xmit_pending (at_ s1) <= XMIT_LEN -> i_is_open (eki (at_ s1)) = o -> zlen (rbuf s1) = 4096 ->
    match ssl (at_ s1) with Some _ => true | None => false end = tls_on ->
    wp (sys_ (fun w => sys_close w x);; modify (set_sk (-1))) s1 Q).
  { intros s1 x Hssl ???????. apply wp_bind, wp_sys_, wp_modify, HQ. constructor; try done.
    split; [done|]. simpl. by destruct Hssl as [(i & -> & Hi)| ->]. }
  apply wp_bind, wp_gets. pose proof Hg as [? ? ? [_ Hl] ? ? ? ?].
  apply wp_bind. destruct (ssl (at_ s)) as [i|] eqn:Hi; [|apply wp_ret, Hclose; rewrite ?Hi; auto].
  assert (Hblock : wp (__set_block (ssl_sk i)) s (fun _ s' => exists w, s' = mk_st (at_ s) w (pre_excp_t s) (rbuf s))).
  { unfold __set_block. apply wp_bind, wp_sys. intros a w _. apply wp_if; intros _; [apply wp_ret; eauto|].
    apply wp_bind, wp_sys. intros r w' _. apply wp_if; intros _; apply wp_ret; eauto. }
  apply wp_bind. eapply wp_mono; [exact Hblock|]. cbv beta. intros _ s1 [w1 ->].
  eapply wp_bind, wp_ssl_call; [done|done|]. intros _ w2.
  eapply wp_bind, wp_ssl_call; [done|done|]. intros _ w3.
  eapply wp_upd_ssl; [done|]. apply Hclose; try done. left. by eexists.
Qed.

Lemma wp_init_down n c o s (Q : state_id -> St W -> Prop) :
  G [S_netdown] c o s -> (forall s', Down s' -> Q S_netdown s') ->
  wp (dispatch (S n) OpInit) s Q.
Proof.
  intros Hg HQ. cbn [dispatch]. eapply wp_bind, (wp_curnt []); [done|]. cbn [handler].
  unfold vc_netdown_init. eapply wp_bind, wp_drop_socket; [done|]. intros s1 [].
  do 3 apply wp_bind, wp_modify. apply wp_ret, HQ. split; [|done].
  constructor; try done.
Qed.

Lemma wp_init_base n b c o s (Q : state_id -> St W -> Prop) :
  base b -> G [S_netdown; b] c o s -> (forall s', G [S_netdown; b] c o s' -> Q b s') ->
  wp (dispatch (S n) OpInit) s Q.
Proof.
  intros Hb Hg HQ. cbn [dispatch]. eapply wp_bind, (wp_curnt [S_netdown] b); [exact Hg|].
  destruct Hb as [-> | ->]; cbn [handler]; unfold vc_netup_init, vc_pause_init.
  all: eapply wp_bind, wp_buf_update; [done|]; intros _ s1 Hg1.
  all: eapply wp_bind, wp_buf_update; [done|]; intros _ s2 Hg2; by apply wp_ret, HQ.
Qed.

Lemma wp_excp_init n l c o s (Q : state_id -> St W -> Prop) :
  G (S_netdown :: l) c o s -> (forall s', Down s' -> Q S_netdown s') ->
  wp (excp_init (dispatch (S n))) s Q.
Proof.
  intros Hg HQ. unfold excp_init. eapply wp_bind, wp_excp; [done|]. intros _ s1 Hg1.
  by eapply wp_init_down.
Qed.

(** Either the connection was given up or the stack is back to [l]. *)
Definition ends (l : list state_id) (o : Z) (Q : state_id -> St W -> Prop) : Prop :=
  (forall r s', Down s' -> Q r s') /\ (forall r s', G (S_netdown :: l) true o s' -> Q r s').

Ltac to_down Hends := eapply wp_excp_init; [eassumption|intros; by apply (proj1 Hends)].

Lemma wp_sync_init n b o s (Q : state_id -> St W -> Prop) :
  base b -> G [S_netdown; b; S_sync] true o s -> ends [b] o Q ->
  wp (dispatch (S (S n)) OpInit) s Q.
Proof.
  intros Hb Hg Hends. cbn [dispatch]. eapply wp_bind, (wp_curnt [S_netdown; b] S_sync); [exact Hg|].
  fold (@dispatch W _ (S n)). cbn [handler]. unfold vc_sync_init, _sync_ms, _sync_event, _sync_queue.
  destruct (packs_lines 1024) as (Hsr & Hcr & Hsd & Hcd & Hgm & _); [lia|].
  eapply wp_bind, wp_attr_p; [done|]. intros i.
  assert (Hrts : packs (if i_ms i &? ADV_MS_RTS then vc_pack_setrts else vc_pack_clrrts) 1024)
    by (case_if; done).
  assert (Hdtr : packs (if i_ms i &? ADV_MS_DTR then vc_pack_setdtr else vc_pack_clrdtr) 1024)
    by (case_if; done).
  assert (Hlater : forall s1, G [S_netdown; b; S_sync] true o s1 ->
    wp (update_eki_attr (e_ms (i_ms i));;
        r ← (r ← send_packet (fun p t n => vc_pack_setwmask p t 0x38010000 n) 1024;
             if negb (r =? 0) then mret (-1) else send_packet vc_pack_getmodem 1024);
        if truthy r then excp_init (dispatch (S n)) else
        r ← (tx ← gets utx;
             let qfsize := if is_rb_empty tx then 1024 else 0 in
             send_packet (fun p t n => vc_pack_qfsize p t qfsize n) 1024);
        if truthy r then excp_init (dispatch (S n)) else
        _ ← stk_pop; dispatch (S n) OpInit) s1 Q).
  { intros s1 Hg1. eapply wp_bind, wp_update_eki; [done|by intros e|]. intros s2 Hg2.
    assert (Hqueue : forall r s3, G [S_netdown; b; S_sync] true o s3 ->
      wp (if truthy r then excp_init (dispatch (S n)) else
          r ← (tx ← gets utx;
               let qfsize := if is_rb_empty tx then 1024 else 0 in
               send_packet (fun p t n => vc_pack_qfsize p t qfsize n) 1024);
          if truthy r then excp_init (dispatch (S n)) else
          _ ← stk_pop; dispatch (S n) OpInit) s3 Q).
    { intros r s3 Hg3. apply wp_if; intros _; [to_down Hends|].
      apply wp_bind, wp_bind, wp_gets. eapply wp_send_packet; [by apply packs_qfsize|lia|done|].
      intros r' s4 Hg4. apply wp_if; intros _; [to_down Hends|].
      eapply wp_bind, (wp_pop [S_netdown; b] S_sync); [exact Hg4|done|]. intros s5 Hg5.
      eapply wp_init_base; [done|done|]. intros; by apply (proj2 Hends). }
    apply wp_bind, wp_bind. eapply wp_send_packet; [by apply packs_setwmask|lia|done|].
    intros r s3 Hg3. apply wp_if; intros _; [by apply wp_ret, Hqueue|].
    eapply wp_send_packet; [done|lia|done|]. intros r' s4 Hg4. by apply Hqueue. }
  apply wp_bind, wp_bind. eapply wp_send_packet; [exact Hrts|lia|done|]. intros r s1 Hg1.
  apply wp_if; intros _.
  - apply wp_ret, wp_if; intros _; [to_down Hends|by apply Hlater].
  - eapply wp_send_packet; [exact Hdtr|lia|done|]. intros r' s2 Hg2.
    apply wp_if; intros _; [to_down Hends|by apply Hlater].
Qed.

(** ** Opening *)

Lemma packs_open dev p size : 20 <= size -> packs (fun b t n => vc_pack_open b t dev p n) size.
Proof. intros Hs pbuf tid Hp. rewrite vc_pack_open_spec by lia. by apply packed_packs. Qed.

Lemma wp_common_open n b o s (Q : state_id -> St W -> Prop) :
  base b -> G [S_netdown; b] true o s -> ends [b] 1 Q ->
  wp (vc_common_open (dispatch (S (S n)))) s Q.
Proof.
  intros Hb Hg Hends. unfold vc_common_open. apply wp_bind, wp_gets, wp_bind, wp_gets.
  apply wp_bind, wp_pbuf_of; [lia|]. intros pbuf Hp. apply wp_bind, wp_lift.
  destruct (packs_open (devid (at_ s)) (s32 (port (at_ s))) 1024 ltac:(lia) pbuf 1 Hp)
    as (k & m & Hpk & Hk & Hm).
  eexists. split; [exact Hpk|]. cbv beta iota. apply wp_if; intros _; [to_down Hends|].
  eapply wp_bind, wp_check_send; [done|lia|]. intros r s1 Hg1.
  apply wp_if; intros _; [to_down Hends|].
  eapply wp_bind, wp_tid_incr; [done|]. intros s2 Hg2.
  eapply wp_bind, (wp_update_eki _ _ _ _ _ _ 1); [done|done|]. intros s3 Hg3.
  eapply wp_bind, wp_push; [exact Hg3|simpl; lia|]. intros s4 Hg4.
  by eapply wp_sync_init.
Qed.

(** ** Transmitting *)

Lemma user_geom (r : U.ring_buf) begin : user_ring r begin -> geom_ok r.
Proof. intros (_ & Hs & ? & ?). unfold geom_ok. simpl. rewrite Hs. unfold PAGE_SIZE in *. lia. Qed.

Lemma xmit_lengths (r : U.ring_buf) begin :
  user_ring r begin ->
  let llen := if XMIT_LEN <? get_rb_llength r then XMIT_LEN else get_rb_llength r in
  let len := if XMIT_LEN <? get_rb_length r then XMIT_LEN else get_rb_length r in
  0 <= llen <= len /\ len <= XMIT_LEN /\ U.head r + llen <= PAGE_SIZE /\
  (llen <> len -> 0 <= len - llen <= PAGE_SIZE).
Proof.
  intros Hr. pose proof (user_geom _ _ Hr) as Hg. destruct Hr as (_ & Hs & _).
  pose proof (rb_llength_range _ Hg) as [Hl Hh]. pose proof (rb_length_range _ Hg) as Hlen.
  simpl in Hh, Hlen. rewrite Hs in *. cbv zeta. unfold XMIT_LEN, PAGE_SIZE in *. repeat case_if; lia.
Qed.

Lemma wp_common_xmit n b o s (Q : state_id -> St W -> Prop) :
  G [S_netdown; b] true o s -> ends [b] o Q ->
  wp (vc_common_xmit (dispatch (S n))) s Q.
Proof.
  intros Hg Hends. destruct (G_bufs _ _ _ _ Hg) as (_ & Hrx & _).
  destruct (xmit_lengths _ _ Hrx) as (Hll & Hlen & Hhd & Hrest).
  pose proof Hrx as (Hmb & Hsz & Hh & Ht).
  unfold vc_common_xmit. apply wp_bind, wp_gets. cbv zeta.
  change (XMIT_LEN + sizeof_vc_proto_hdr + sizeof_vc_attach_param) with 1044.
  apply wp_bind, wp_pbuf_of; [lia|]. intros pbuf Hp.
  apply wp_bind, wp_gets, wp_bind, wp_get_world.
  set (llen := if XMIT_LEN <? get_rb_llength (urx (at_ s)) then _ else _) in *.
  set (len := if XMIT_LEN <? get_rb_length (urx (at_ s)) then _ else _) in *.
  clearbody llen len. unfold XMIT_LEN in Hlen. change (get_rb_head (urx (at_ s))) with (U.head (urx (at_ s))).
  destruct (map_load_ok (world s) (U.mbase (urx (at_ s)) + U.head (urx (at_ s))) llen) as (d1 & Hd1 & Hl1).
  { split; [lia|]. right. unfold PAGE_SIZE in *. lia. }
  assert (Hsend : forall plen packet, 0 < plen <= 1044 -> zlen packet = 1044 ->
    wp (if plen <=? 0 then excp_init (dispatch (S n)) else
        e ← vc_check_send packet plen;
        if negb (e =? 0) then excp_init (dispatch (S n)) else
        modify (set_xmit_pending len);; tid_incr;; stk_curnt) s Q).
  { intros plen packet Hpl Hpk. apply wp_if; intros _; [to_down Hends|].
    eapply wp_bind, wp_check_send; [done|lia|]. intros r s1 Hg1.
    apply wp_if; intros _; [to_down Hends|].
    eapply wp_bind, (wp_modify_G _ _ _ _ _ _ [S_netdown; b] true o); [exact Hg1| |].
    { intros []. constructor; try done. simpl. unfold XMIT_LEN. lia. }
    intros s2 Hg2. eapply wp_bind, wp_tid_incr; [done|]. intros s3 Hg3.
    eapply (wp_curnt [S_netdown] b); [exact Hg3|]. by apply (proj2 Hends). }
  apply wp_bind, wp_if; intros Heq; bool_simpl.
  - apply wp_bind, wp_lift. eexists. split; [exact Hd1|]. apply wp_lift.
    destruct (packed_packs pbuf (mk_frame (tid (at_ s)) VCOM_CMD_WRITE llen 0 (ztake llen d1)) 1044)
      as (k & m & Hpk & Hk & Hm); [simpl; rewrite zlen_ztake; lia|done|].
    eexists. split; [rewrite vc_pack_xmit_ptr by lia; exact Hpk|]. by apply Hsend.
  - specialize (Hrest Heq).
    destruct (map_load_ok (world s) (U.mbase (urx (at_ s))) (len - llen)) as (d2 & Hd2 & Hl2).
    { split; [lia|]. right. unfold PAGE_SIZE in *. lia. }
    apply wp_bind, wp_lift. eexists. split; [exact Hd1|].
    assert (Hs1 : exists p1, store off_data d1 pbuf = Some p1) by (rewrite store_Some; [eauto|done|unfold off_data; lia]).
    destruct Hs1 as [p1 Hs1]. pose proof (store_zlen _ _ _ _ Hs1) as Hz1.
    apply wp_bind, wp_lift. exists p1. split; [done|].
    apply wp_bind, wp_lift. eexists. split; [exact Hd2|].
    assert (Hs2 : exists p2, store (off_data + llen) d2 p1 = Some p2)
      by (rewrite store_Some; [eauto|unfold off_data; lia|unfold off_data; lia]).
    destruct Hs2 as [p2 Hs2]. pose proof (store_zlen _ _ _ _ Hs2) as Hz2.
    apply wp_bind, wp_lift. exists p2. split; [done|]. apply wp_lift.
    destruct (packed_packs p2 (mk_frame (tid (at_ s)) VCOM_CMD_WRITE len 0 (ztake len (zdrop 20 p2))) 1044)
      as (k & m & Hpk & Hk & Hm); [simpl; rewrite zlen_ztake; [lia|rewrite zlen_zdrop; lia]|lia|].
    eexists. split; [rewrite vc_pack_xmit_null by lia; exact Hpk|]. by apply Hsend.
Qed.

(** ** Line settings *)

Lemma packs_sbaud x size : 24 <= size -> packs (fun b t n => vc_pack_sbaud b t x n) size.
Proof.
  intros Hs pbuf tid Hp. rewrite vc_pack_sbaud_spec by lia. apply packed_packs; [|done].
  simpl. rewrite zlen_le. lia.
Qed.

Lemma packs_setlctl x y z size : 23 <= size -> packs (fun b t n => vc_pack_setlctl b t x y z n) size.
Proof.
  intros Hs pbuf tid Hp. rewrite vc_pack_setlctl_spec by lia. apply packed_packs; [|done].
  cbn [f_ext]. rewrite !zlen_app, !zlen_be. lia.
Qed.

Lemma packs_hflow x y size : 36 <= size -> packs (fun b t n => vc_pack_hflow b t x y n) size.
Proof.
  intros Hs pbuf tid Hp. rewrite vc_pack_hflow_spec by lia. apply packed_packs; [|done].
  cbn [f_ext]. rewrite !zlen_app, !zlen_be, zlen_ztake; [lia|].
  unfold off_xofflimit. rewrite zlen_zdrop; lia.
Qed.

(** A line control that is packed is one packet of twenty bytes. *)
Lemma wp_set_ms_step line e u subset subclr plen pbuf l o s (Q : Z * list byte -> St W -> Prop) :
  G l true o s -> zlen pbuf = 1024 -> 0 <= plen <= 20 ->
  (forall r s', G l true o s' -> zlen (snd r) = 1024 -> 0 <= fst r <= plen + 20 -> Q r s') ->
  wp (set_ms_step line e u (fun b t n => _pack_ioctl_param b t subset n)
        (fun b t n => _pack_ioctl_param b t subclr n) plen pbuf 1024) s Q.
Proof.
  intros Hg Hp Hpl HQ. unfold set_ms_step.
  apply wp_if; intros _; [apply wp_ret, HQ; simpl; try done; lia|].
  apply wp_bind, wp_gets, wp_bind, wp_lift.
  assert (Hz : zlen (zdrop plen pbuf) = 1024 - plen) by (rewrite zlen_zdrop; lia).
  set (sub := if u &? line then subset else subclr).
  exists (20, frame_bytes (mk_frame (tid (at_ s)) VCOM_CMD_IOCTL sub 0 []) ++ zdrop 20 (zdrop plen pbuf)).
  split.
  { unfold sub. destruct (u &? line); rewrite pack_ioctl_param_spec by lia; reflexivity. }
  cbv beta iota. apply wp_if; intros Hlen; bool_simpl; [lia|].
  eapply wp_bind, wp_tid_incr; [done|]. intros s1 Hg1. apply wp_ret, HQ; [done| |simpl; lia].
  cbn [snd]. rewrite !zlen_app, zlen_ztake, zlen_frame_bytes, zlen_zdrop; cbn [f_ext]; rewrite ?zlen_nil, ?Hz; lia.
Qed.

Lemma wp_ioctl_packet pbuf l o s (Q : Z * list byte -> St W -> Prop) :
  G l true o s -> zlen pbuf = 1024 ->
  (forall r s', G l true o s' -> zlen (snd r) = 1024 -> 0 <= fst r <= 1024 -> Q r s') ->
  wp (ioctl_packet pbuf) s Q.
Proof.
  intros Hg Hp HQ. unfold ioctl_packet. eapply wp_bind, wp_attr_p; [done|]. intros a.
  apply wp_bind, wp_gets, wp_bind, wp_gets.
  assert (Hpack : forall pack s1, packs pack 1024 -> G l true o s1 ->
    wp (lift (pack pbuf (tid (at_ s)) 1024)) s1 Q).
  { intros pack s1 Hpk Hg1. apply wp_lift.
    destruct (Hpk pbuf (tid (at_ s)) Hp) as (k & m & Hk & Hr & Hm).
    exists (k, m). split; [done|]. apply HQ; simpl; (done || lia). }
  apply wp_if; intros _.
  { eapply wp_bind, wp_update_eki; [done|by intros e|]. intros s1 Hg1.
    by apply (Hpack (fun b t n => vc_pack_sbaud b t _ n)); [apply packs_sbaud|]. }
  apply wp_if; intros _.
  { eapply wp_bind, wp_update_eki; [done|by intros e|]. intros s1 Hg1.
    eapply wp_bind, wp_update_eki; [done|by intros e|]. intros s2 Hg2.
    eapply wp_bind, wp_update_eki; [done|by intros e|]. intros s3 Hg3.
    by apply (Hpack (fun b t n => vc_pack_setlctl b t _ _ _ n)); [apply packs_setlctl|]. }
  apply wp_if; intros _.
  { destruct (hflow_args (i_flowctl a)) as [ch fr]. apply wp_bind, wp_lift.
    destruct (packs_hflow ch fr 1024 ltac:(lia) pbuf (tid (at_ s)) Hp) as (k & m & Hk & Hr & Hm).
    exists (k, m). split; [done|]. eapply wp_bind, wp_update_eki; [done|by intros e|]. intros s1 Hg1.
    apply wp_ret, HQ; simpl; (done || lia). }
  apply wp_if; intros _; [|apply wp_ret, HQ; simpl; (done || lia)].
  unfold _set_ms. apply wp_bind, wp_bind, wp_gets, wp_bind.
  eapply (wp_set_ms_step _ _ _ VCOM_IOCTL_SET_RTS VCOM_IOCTL_CLR_RTS); [done|done|lia|].
  intros [p1 b1] s1 Hg1 Hb1 Hp1. simpl in *.
  eapply (wp_set_ms_step _ _ _ VCOM_IOCTL_SET_DTR VCOM_IOCTL_CLR_DTR); [done|done|lia|].
  intros [p2 b2] s2 Hg2 Hb2 Hp2. simpl in *.
  eapply wp_bind, wp_update_eki; [done|by intros e|]. intros s3 Hg3.
  apply wp_ret, HQ; simpl; (done || lia).
Qed.

Lemma wp_ioctl_loop k n b pbuf o s (Q : state_id -> St W -> Prop) :
  G [S_netdown; b] true o s -> zlen pbuf = 1024 -> ends [b] o Q ->
  wp (ioctl_loop (dispatch (S n)) k pbuf) s Q.
Proof.
  revert pbuf s. induction k as [|k IH]; intros pbuf s Hg Hp Hends; cbn [ioctl_loop].
  { eapply (wp_curnt [S_netdown] b); [exact Hg|]. by apply (proj2 Hends). }
  eapply wp_bind, wp_ioctl_packet; [done|done|]. intros [plen m] s1 Hg1 Hm Hpl. simpl in *.
  apply wp_if; intros _.
  { eapply (wp_curnt [S_netdown] b); [exact Hg1|]. by apply (proj2 Hends). }
  eapply wp_bind, wp_check_send; [done|lia|]. intros r s2 Hg2.
  apply wp_if; intros _; [to_down Hends|].
  eapply wp_bind, wp_tid_incr; [done|]. intros s3 Hg3. by apply IH.
Qed.

(** ** Receiving *)

(** The packet lies in the buffer. *)
Definition whole_packet (buf : list byte) : Prop :=
  zlen buf = 4096 /\ exists x, get16 off_len buf = Some x /\ off_data + x <= zlen buf.

Lemma get_fields buf :
  zlen buf = 4096 ->
  (forall o, 0 <= o <= 100 -> exists v, get16 o buf = Some v) /\
  (forall o, 0 <= o <= 100 -> exists v, get32 o buf = Some v).
Proof.
  intros Hb. unfold get16, get32. split; intros o Ho; rewrite load_Some by lia; simpl; eauto.
Qed.

Lemma check_xmit_total buf d st n : zlen buf = 4096 -> exists r, vc_check_xmit buf d st n = Some r.
Proof.
  intros Hb. unfold vc_check_xmit, vc_check_hdr, off_pid, off_cmd, off_len, off_p1, off_p2.
  rewrite !load_Some by lia. cbn [mbind option_bind]. repeat case_if; eauto.
Qed.

Lemma check_open_total buf d p n : zlen buf = 4096 -> exists r, vc_check_open buf d p n = Some r.
Proof.
  intros Hb. unfold vc_check_open, vc_check_hdr, off_pid, off_cmd, off_len, off_p1, off_p2.
  rewrite !load_Some by lia. cbn [mbind option_bind]. repeat case_if; eauto.
Qed.

Lemma wp_sync_recv n b buf len o s (Q : state_id -> St W -> Prop) :
  base b -> G [S_netdown; b; S_sync] true o s -> zlen buf = 4096 -> ends [b] o Q ->
  wp (dispatch (S (S n)) (OpRecv buf len)) s Q.
Proof.
  intros Hb Hg Hz Hends. cbn [dispatch]. eapply wp_bind, (wp_curnt [S_netdown; b] S_sync); [exact Hg|].
  fold (@dispatch W _ (S n)). cbn [handler]. unfold vc_sync_recv, _sync_event, _reg_sync_event.
  destruct (packs_lines 1024) as (_ & _ & _ & _ & Hgm & Hwm); [lia|].
  destruct (proj2 (get_fields buf Hz) off_p2 ltac:(by vm_compute)) as [sub Hsub].
  apply wp_bind, wp_lift. exists sub. split; [done|].
  assert (Hend : forall r s1, G [S_netdown; b; S_sync] true o s1 ->
    wp (if truthy r then excp_init (dispatch (S n)) else _ ← stk_pop; dispatch (S n) OpInit) s1 Q).
  { intros r s1 Hg1. apply wp_if; intros _; [to_down Hends|].
    eapply wp_bind, (wp_pop [S_netdown; b] S_sync); [exact Hg1|done|]. intros s2 Hg2.
    eapply wp_init_base; [done|done|]. intros; by apply (proj2 Hends). }
  apply wp_bind, wp_if; intros _.
  { apply wp_bind. eapply wp_send_packet; [by apply packs_setwmask|lia|done|].
    intros r s1 Hg1. apply wp_if; intros _; [by apply wp_ret, Hend|].
    eapply wp_send_packet; [done|lia|done|]. intros; by apply Hend. }
  apply wp_if; intros _.
  { eapply wp_send_packet; [done|lia|done|]. intros; by apply Hend. }
  apply wp_if; intros _; [|by apply wp_ret, Hend].
  apply wp_bind, wp_lift. eexists. split; [apply load_Some; unfold off_uint; lia|].
  eapply wp_ioctl_set; [done|]. intros; by apply Hend.
Qed.
End G.
