(* ===== verification/SimLaws.v ===== *)
(** * The simulated world obeys the laws

    The laws the theorems about the daemon are stated with are those of the
    driver of [DrvMain]: they hold in [sim_world], with [fresh_port] behind the
    control file. *)

From stdpp Require Import gmap.
From S2P Require Import Prelude RingBuf Tty Uart DrvMain Proto Os SslSelect SimWorld Vcom Connect.
From S2P Require Import Client ClientProofs.

Lemma ring_okb_spec b : ring_okb b = true ->
  0 <= K.head b < PAGE_SIZE /\ 0 <= K.tail b < PAGE_SIZE /\ K.size b = PAGE_SIZE /\
  zlen (K.data b) = PAGE_SIZE.
Proof. unfold ring_okb, idx_okb. intros Hb. bool_simpl. destruct_and?. lia. Qed.

Lemma drv_okb_spec {T} (d : adv_vcom T) : drv_okb d = true ->
  ring_okb (tx d) = true /\ ring_okb (rx d) = true /\ K.begin (tx d) = 0 /\
  K.begin (rx d) = PAGE_SIZE /\ att_begin (attr d) = 2 * PAGE_SIZE /\ attr_ok (attr d).
Proof.
  unfold drv_okb, attr_ok. intros Hd. bool_simpl. destruct_and?. split_and!; try done; lia.
Qed.

#[export] Instance sim_drv_laws : DrvLaws sim_world.
Proof.
  constructor.
  - intros w cmd arg r v w' Hi Hc Hr. simpl in Hi. unfold sim_ioctl in Hi.
    destruct (drv_okb (sw_drv w)) eqn:Hd; simpl in Hi; [|injection Hi as <- <- <-; unfold EFAULT in Hr; lia].
    apply drv_okb_spec in Hd as (Ht & Hx & _).
    apply ring_okb_spec in Ht as (? & ? & _). apply ring_okb_spec in Hx as (? & ? & _).
    repeat (apply elem_of_cons in Hc as [->|Hc]; [injection Hi as <- <- <-; assumption|]).
    by apply elem_of_nil in Hc.
  - intros w arg r v w' Hi Ha. simpl in Hi. unfold sim_ioctl in Hi.
    destruct (drv_okb (sw_drv w)) eqn:Hd; simpl in Hi; [|by injection Hi as <- <- <-].
    apply drv_okb_spec in Hd as (_ & _ & _ & _ & _ & Hat).
    destruct (flush_attr_info_spec _ Hat) as (p & a & Hf & [Hp _] & -> & _).
    change (adv_proc_ioctl (sw_drv w) ADVVCOM_IOCGATTRPTR (uarg arg)) with
      (r ← flush_attr_info (attr (sw_drv w));
       let '(tmp, a) := r in Some (0, uarg tmp, set_attr a (sw_drv w))) in Hi.
    rewrite Hf in Hi. injection Hi as <- <- <-. exact Hp.
  - intros w off n [Hn Hoff]. simpl. unfold sim_map_load.
    destruct (drv_okb (sw_drv w)) eqn:Hd; simpl.
    + apply drv_okb_spec in Hd as (Ht & Hx & _).
      apply ring_okb_spec in Ht as (_ & _ & _ & Ht). apply ring_okb_spec in Hx as (_ & _ & _ & Hx).
      unfold PAGE_SIZE in *. case_if; rewrite load_Some by lia; eexists; (split; [done|]);
        apply zlen_ztake; rewrite zlen_zdrop; lia.
    + eexists. split; [done|]. unfold zlen. rewrite length_replicate. lia.
  - intros w off bs [Hn Hoff]. simpl. unfold sim_map_store.
    destruct (drv_okb (sw_drv w)) eqn:Hd; simpl; [|eauto].
    apply drv_okb_spec in Hd as (Ht & Hx & _).
    apply ring_okb_spec in Ht as (_ & _ & _ & Ht). apply ring_okb_spec in Hx as (_ & _ & _ & Hx).
    unfold PAGE_SIZE in *. case_if; rewrite store_Some by lia; simpl; eauto.
  - intros w p Hp. simpl. unfold sim_map_info.
    destruct (drv_okb (sw_drv w)) eqn:Hd; simpl; [|eauto].
    apply drv_okb_spec in Hd as (_ & _ & _ & _ & _ & [_ Hl]). unfold sizeof_adv_port_info.
    replace (2 * PAGE_SIZE + p * 28 - 2 * PAGE_SIZE) with (p * 28) by lia.
    rewrite Z_mod_mult, Z.div_mul by lia. rewrite (proj2 (Z.leb_le 0 (p * 28))) by lia. simpl.
    apply lookup_lt_is_Some_2. unfold ADV_ATTRBUF_NUM, zlen in *. lia.
  - intros w x n r bs w' Hr Hpos. simpl in Hr. unfold sim_recv in Hr.
    destruct (sw_in w) as [|p l]; [injection Hr as <- <- <-; lia|].
    destruct (zlen p <=? n) eqn:E; injection Hr as <- <- <-; bool_simpl; [done|].
    split; [lia|]. apply zlen_ztake. lia.
Qed.

#[export] Instance sim_ssl_progress : SslProgress sim_world.
Proof.
  constructor; try done.
  - intros w len r bs w' _ _ He. simpl in He.
    apply elem_of_cons in He as [He|He]; [done|]. by apply list_elem_of_singleton in He.
  - intros w len r bs w' Hr Hpos. by eapply (recv_length w 0).
  - intros w buf r w' _ _ He. simpl in He.
    apply elem_of_cons in He as [He|He]; [done|]. by apply list_elem_of_singleton in He.
  - intros w r w' _ _ He. simpl in He.
    apply elem_of_cons in He as [He|He]; [done|]. by apply list_elem_of_singleton in He.
Qed.
