(* ===== verification/ClientInv.v ===== *)
(** * The invariant of the state machine

    The operations of [ClientProofs] continued: receiving, closing, pausing,
    polling and connecting.  Then the invariant [Inv] of the daemon between two
    operations, kept by every operation the main loop calls. *)

From stdpp Require Import gmap.
From S2P Require Import Prelude RingBuf Uart DrvMain Proto Os SslSelect Vcom Connect Client.
From S2P Require Import ClientProofs.

Section G.
Context {W : Type} `{Os W} `{!DrvLaws W} `{!SockLaws W} `{!SslProgress W} `{TlsMode}.
Implicit Types s : St W.

Ltac to_down Hends := eapply wp_excp_init; [eassumption|intros; by apply (proj1 Hends)].

(** ** Receiving, continued *)

(** Whatever the handler returns, it asks the stack at the end. *)
Lemma wp_curnt_ends b o s (Q : state_id -> St W -> Prop) :
  ends [b] o Q -> Down s \/ G [S_netdown; b] true o s -> wp stk_curnt s Q.
Proof.
  intros Hends [Hd|Hg].
  - eapply (wp_curnt [] S_netdown); [apply Hd|]. by apply (proj1 Hends).
  - eapply (wp_curnt [S_netdown] b); [exact Hg|]. by apply (proj2 Hends).
Qed.

Lemma wp_check_ioctl_ret n b buf len o s (Q : Z -> St W -> Prop) :
  base b -> G [S_netdown; b] true o s -> zlen buf = 4096 ->
  (forall s', G [S_netdown; b] true o s' -> Q (-1) s') ->
  (forall s', Down s' \/ G [S_netdown; b] true o s' -> Q 0 s') ->
  wp (check_ioctl_ret (dispatch (S (S n))) buf len) s Q.
Proof.
  intros Hb Hg Hz Herr Hok. unfold check_ioctl_ret.
  destruct (proj2 (get_fields buf Hz) off_p1 ltac:(by vm_compute)) as [st Hst].
  destruct (proj2 (get_fields buf Hz) off_p2 ltac:(by vm_compute)) as [sub Hsub].
  apply wp_bind, wp_lift. exists st. split; [done|].
  apply wp_bind, wp_lift. exists sub. split; [done|].
  apply wp_if; intros _; [by apply wp_ret, Herr|].
  apply wp_if; intros _; [|apply wp_ret, Hok; by right].
  eapply wp_bind, wp_push; [exact Hg|simpl; lia|]. intros s1 Hg1. apply wp_bind.
  eapply wp_sync_recv; [done|exact Hg1|done|]. split; intros; apply wp_ret, Hok; auto.
Qed.

Lemma check_recv_total buf n :
  zlen buf = 4096 -> exists r, vc_check_recv buf n = Some r /\
    forall d, r = (0, Some d) -> get16 off_len buf = Some d /\ 0 <= d.
Proof.
  intros Hb. unfold vc_check_recv.
  destruct (proj1 (get_fields buf Hb) off_len ltac:(by vm_compute)) as [l Hl].
  destruct (proj2 (get_fields buf Hb) off_p1 ltac:(by vm_compute)) as [p1 Hp1].
  destruct (proj2 (get_fields buf Hb) off_p2 ltac:(by vm_compute)) as [p2 Hp2].
  rewrite Hl, Hp1, Hp2. cbn [mbind option_bind].
  assert (Hpos : 0 <= l).
  { unfold get16 in Hl. destruct (load off_len 2 buf); [|done]. injection Hl as <-.
    apply be_val_nonneg. }
  case_if; [eexists; split; [done|]; by intros d|].
  case_if; [eexists; split; [done|]; by intros d|].
  eexists. split; [done|]. intros d [= <-]. bool_simpl. subst. auto.
Qed.

Lemma put_world_G l c o s (w : W) (Q : unit -> St W -> Prop) :
  G l c o s -> (forall s', G l c o s' -> Q tt s') -> wp (put_world w) s Q.
Proof. intros Hg HQ. apply HQ. by apply G_world. Qed.

Lemma wp_recv_dataready n b buf len o s (Q : state_id -> St W -> Prop) :
  G [S_netdown; b] true o s -> whole_packet buf -> ends [b] o Q ->
  wp (recv_dataready (dispatch (S n)) buf len) s Q.
Proof.
  intros Hg (Hz & x & Hx & Hfit) Hends. unfold recv_dataready. apply wp_bind, wp_gets. cbv zeta.
  destruct (check_recv_total buf len Hz) as ([c d] & Hc & Hd).
  apply wp_bind, wp_lift. exists (c, d). split; [done|].
  assert (Hbad : wp (excp_init (dispatch (S n))) s Q) by to_down Hends.
  destruct c; [|exact Hbad..]. destruct d as [datalen|]; [|exact Hbad].
  destruct (Hd datalen eq_refl) as [Hlen Hpos]. rewrite Hlen in Hx. injection Hx as <-.
  apply wp_if; intros Hroom; bool_simpl; [done|].
  destruct (G_bufs _ _ _ _ Hg) as (Htx & _). pose proof Htx as (Hmb & Hsz & Hhd & Htl).
  destruct (rb_lroom_range _ (user_geom _ _ Htx)) as [Hlr Hend]. simpl in Hend. rewrite Hsz in Hend.
  change (get_rb_tail (utx (at_ s))) with (U.tail (utx (at_ s))).
  pose proof (rb_room_range _ (user_geom _ _ Htx)) as Hrr. simpl in Hrr. rewrite Hsz in Hrr.
  assert (Hfin : forall s1, G [S_netdown; b] true o s1 ->
    wp (_ ← ioctl_set ADVVCOM_IOCSTXTAIL datalen; stk_curnt) s1 Q).
  { intros s1 Hg1. eapply wp_bind, wp_ioctl_set; [done|]. intros _ s2 Hg2.
    eapply wp_curnt_ends; [done|by right]. }
  assert (Hzl : forall n, 0 <= n <= datalen -> exists d, load off_data n buf = Some d /\ zlen d = n).
  { intros k Hk. eexists. split; [apply load_Some; unfold off_data in *; lia|].
    apply zlen_ztake. unfold off_data in *. rewrite zlen_zdrop; lia. }
  unfold copy_payload. apply wp_bind, wp_bind, wp_get_world, wp_if; intros Hl; bool_simpl.
  - destruct (Hzl datalen) as (d & Hld & Hdl); [lia|].
    apply wp_bind, wp_lift. exists d. split; [done|].
    destruct (map_store_ok (world s) (U.mbase (utx (at_ s)) + U.tail (utx (at_ s))) d) as [w Hw].
    { split; [lia|]. left. unfold PAGE_SIZE in *. lia. }
    apply wp_bind, wp_lift. exists w. split; [done|]. eapply put_world_G; [done|]. exact Hfin.
  - destruct (Hzl (get_rb_lroom (utx (at_ s)))) as (d & Hld & Hdl); [lia|].
    apply wp_bind, wp_lift. exists d. split; [done|].
    destruct (map_store_ok (world s) (U.mbase (utx (at_ s)) + U.tail (utx (at_ s))) d) as [w Hw].
    { split; [lia|]. left. unfold PAGE_SIZE in *. lia. }
    apply wp_bind, wp_lift. exists w. split; [done|].
    apply wp_bind, wp_lift. eexists. split; [apply load_Some; unfold off_data in *; lia|].
    destruct (map_store_ok w (U.mbase (utx (at_ s)))
      (ztake (datalen - get_rb_lroom (utx (at_ s))) (zdrop (off_data + get_rb_lroom (utx (at_ s))) buf)))
      as [w' Hw'].
    { split; [apply zlen_nonneg|]. left. unfold off_data, PAGE_SIZE in *.
      rewrite zlen_ztake; [|rewrite zlen_zdrop]; lia. }
    apply wp_bind, wp_lift. exists w'. split; [done|]. eapply put_world_G; [done|]. exact Hfin.
Qed.

Lemma wp_recv_write n b buf len o s (Q : state_id -> St W -> Prop) :
  G [S_netdown; b] true o s -> zlen buf = 4096 -> ends [b] o Q ->
  wp (recv_write (dispatch (S n)) buf len) s Q.
Proof.
  intros Hg Hz Hends. unfold recv_write. apply wp_bind, wp_gets.
  eapply wp_bind, (wp_modify_G _ _ _ _ _ _ [S_netdown; b] true o); [exact Hg| |].
  { intros []. by constructor. }
  intros s1 Hg1.
  destruct (check_xmit_total buf (xmit_pending (at_ s)) STATUS_SUCCESS len Hz) as [r Hr].
  apply wp_bind, wp_lift. exists r. split; [done|]. apply wp_if; intros _.
  { eapply wp_bind, wp_ioctl_set; [done|]. intros _ s2 Hg2.
    eapply wp_bind, wp_buf_update; [done|]. intros _ s3 Hg3. eapply wp_curnt_ends; [done|by right]. }
  destruct (check_xmit_total buf (xmit_pending (at_ s)) STATUS_DEVICE_BUSY len Hz) as [r' Hr'].
  apply wp_bind, wp_lift. exists r'. split; [done|]. apply wp_if; intros _; [|to_down Hends].
  eapply wp_curnt_ends; [done|by right].
Qed.

Lemma wp_common_recv n b buf len o s (Q : state_id -> St W -> Prop) :
  base b -> G [S_netdown; b] true o s -> whole_packet buf -> ends [b] o Q ->
  wp (vc_common_recv (dispatch (S (S n))) buf len) s Q.
Proof.
  intros Hb Hg Hw Hends. pose proof Hw as [Hz _]. unfold vc_common_recv.
  apply wp_if; intros _; [to_down Hends|].
  destruct (proj1 (get_fields buf Hz) off_cmd ltac:(by vm_compute)) as [cmd Hcmd].
  apply wp_bind, wp_lift. exists cmd. split; [done|]. apply wp_if; intros _.
  { apply wp_bind, wp_gets, wp_bind, wp_gets.
    destruct (check_open_total buf (u8 (devid (at_ s))) (port (at_ s)) len Hz) as [r Hr].
    apply wp_bind, wp_lift. exists r. split; [done|]. apply wp_if; intros _; [to_down Hends|].
    eapply wp_curnt_ends; [done|by right]. }
  apply wp_if; intros _.
  { unfold vc_check_ioctl. apply wp_bind, wp_if; intros _.
    { apply wp_ret, wp_if; intros Ht; [to_down Hends|done]. }
    eapply wp_check_ioctl_ret; [done|done|done| |].
    - intros s1 Hg1. apply wp_if; intros Ht; [to_down Hends|done].
    - intros s1 Hs1. apply wp_if; intros Ht; [done|]. by eapply wp_curnt_ends. }
  apply wp_if; intros _; [by eapply wp_recv_dataready|].
  apply wp_if; intros _; [by eapply wp_recv_write|]. eapply wp_curnt_ends; [done|by right].
Qed.

(** ** Closing *)

Lemma packs_purge x size : 24 <= size -> packs (fun b t n => vc_pack_purge b t x n) size.
Proof.
  intros Hs pbuf tid Hp. rewrite vc_pack_purge_spec by lia. apply packed_packs; [|done].
  simpl. rewrite zlen_le. lia.
Qed.

Lemma packs_close size : 20 <= size -> packs vc_pack_close size.
Proof. intros Hs pbuf tid Hp. rewrite vc_pack_close_spec by lia. by apply packed_packs. Qed.

Lemma wp_common_purge x l o s (Q : unit -> St W -> Prop) :
  G l true o s -> (forall s', G l true o s' -> Q tt s') -> wp (vc_common_purge x) s Q.
Proof.
  intros Hg HQ. unfold vc_common_purge. apply wp_bind, wp_pbuf_of; [lia|]. intros pbuf Hp.
  apply wp_bind, wp_gets, wp_bind, wp_lift.
  destruct (packs_purge x 1024 ltac:(lia) pbuf (tid (at_ s)) Hp) as (k & m & Hpk & Hk & Hm).
  eexists. split; [exact Hpk|]. cbv beta iota. apply wp_if; intros _; [by apply wp_ret, HQ|].
  eapply wp_bind, wp_check_send; [done|lia|]. intros r s1 Hg1.
  apply wp_if; intros _; [by apply wp_ret, HQ|]. by eapply wp_tid_incr.
Qed.

(** Closing gives the connection up, whether or not the packets get out. *)
Lemma wp_purge_close n l o s (Q : state_id -> St W -> Prop) :
  G (S_netdown :: l) true o s -> (forall r s', Down s' -> Q r s') ->
  wp (purge_close (dispatch (S n))) s Q.
Proof.
  intros Hg HQ. unfold purge_close, vc_common_close.
  eapply wp_bind, wp_buf_clear; [done|]. intros s1 Hg1.
  eapply wp_bind, wp_common_purge; [done|]. intros s2 Hg2.
  eapply wp_bind, (wp_update_eki _ _ _ _ _ _ 0); [done|done|]. intros s3 Hg3.
  eapply wp_bind, wp_update_eki; [done|by intros e|]. intros s4 Hg4.
  eapply wp_bind, wp_update_eki; [done|by intros e|]. intros s5 Hg5.
  eapply wp_bind, wp_update_eki; [done|by intros e|]. intros s6 Hg6.
  apply wp_bind, wp_pbuf_of; [lia|]. intros pbuf Hp. apply wp_bind, wp_gets, wp_bind, wp_lift.
  destruct (packs_close 1024 ltac:(lia) pbuf (tid (at_ s6)) Hp) as (k & m & Hpk & Hk & Hm).
  eexists. split; [exact Hpk|]. cbv beta iota.
  assert (Hd : forall l' s', G (S_netdown :: l') true 0 s' -> wp (excp_init (dispatch (S n))) s' Q).
  { intros l' s' Hg'. eapply wp_excp_init; [done|]. intros; by apply HQ. }
  apply wp_if; intros _; [by eapply Hd|].
  eapply wp_bind, wp_check_send; [done|lia|]. intros r s7 Hg7.
  apply wp_if; intros _; [by eapply Hd|].
  eapply wp_bind, wp_tid_incr; [done|]. intros s8 Hg8.
  eapply wp_bind, wp_restart; [exact Hg8|]. intros _ s9 Hg9.
  eapply wp_init_down; [done|]. intros; by apply HQ.
Qed.

(** ** Pause, resume and poll *)

Lemma wp_switch b b' n size (pack : list byte -> Z -> Z -> option (Z * list byte))
    (bad : Z -> bool) o s (Q : state_id -> St W -> Prop) :
  packs pack size -> 0 <= size -> base b' ->
  G [S_netdown; b] true o s ->
  (forall r s', Down s' -> Q r s') -> (forall s', G [S_netdown; b'] true o s' -> Q b' s') ->
  wp (r ← send_packet pack size;
      if bad r then excp_init (dispatch (S n)) else
      _ ← stk_rpls b'; dispatch (S n) OpInit) s Q.
Proof.
  intros Hpk Hsz Hb Hg Hd HQ. apply wp_bind. eapply wp_send_packet; [done..|]. intros r s1 Hg1.
  apply wp_if; intros _; [eapply wp_excp_init; [exact Hg1|]; intros; by apply Hd|].
  eapply wp_bind, (wp_rpls [S_netdown] b b'); [exact Hg1|]. intros s2 Hg2. by eapply wp_init_base.
Qed.

Lemma wp_idle_init n b o s (Q : state_id -> St W -> Prop) :
  G [S_netdown; b; S_idle] true o s -> ends [b; S_idle] o Q -> wp (dispatch (S (S n)) OpInit) s Q.
Proof.
  intros Hg Hends. cbn [dispatch]. eapply wp_bind, (wp_curnt [S_netdown; b] S_idle); [exact Hg|].
  fold (@dispatch W _ (S n)). cbn [handler]. unfold vc_idle_init.
  apply wp_bind. eapply wp_send_packet; [by apply packs_getwmask|by vm_compute|done|].
  intros r s1 Hg1. apply wp_if; intros _; [to_down Hends|]. apply wp_ret. by apply (proj2 Hends).
Qed.

Lemma wp_poll n b o s (Q : state_id -> St W -> Prop) :
  G [S_netdown; b] true o s -> ends [b; S_idle] o Q ->
  wp (_ ← stk_push S_idle; dispatch (S (S n)) OpInit) s Q.
Proof.
  intros Hg Hends. eapply wp_bind, wp_push; [exact Hg|simpl; lia|]. intros s1 Hg1.
  eapply wp_idle_init; [exact Hg1|done].
Qed.

(** ** Connecting *)

(** The TLS handshake of [vc_netdown_open]. *)
Lemma wp_tls_start x s i (Q : bool -> St W -> Prop) :
  G [S_netdown] false 0 s -> ssl (at_ s) = Some i -> 0 <= x ->
  (forall r s', G [S_netdown] true 0 s' -> Q r s') ->
  wp (upd_ssl (set_ssl_conn x true);;
      sys_ SSL_new;;
      r ← ssl_call (fun w => SSL_set_fd w x);
      if r =? 0 then mret false else
      _ ← __set_nonblock x;
      r ← ssl_connect_simple 1000;
      if negb (r =? 1) then _stk_log;; mret false else mret true)
    (mk_st (set_sk x (at_ s)) (world s) (pre_excp_t s) (rbuf s)) Q.
Proof.
  intros Hg Hi Hx HQ.
  apply wp_bind. eapply wp_upd_ssl; [exact Hi|].
  assert (Hg1 : forall w : W, G [S_netdown] true 0
    (mk_st (set_ssl (Some (set_ssl_conn x true i)) (set_sk x (at_ s))) w (pre_excp_t s) (rbuf s))).
  { intros w. destruct Hg. rewrite Hi in *. by constructor. }
  apply wp_bind, wp_sys_. eapply wp_bind, wp_ssl_call; [reflexivity|reflexivity|]. intros r w.
  apply wp_if; intros _; [by apply wp_ret, HQ, Hg1|].
  assert (Hblock : forall s1, G [S_netdown] true 0 s1 ->
    (exists i, ssl (at_ s1) = Some i) -> wp (__set_nonblock x) s1 (fun _ s2 =>
      G [S_netdown] true 0 s2 /\ exists i, ssl (at_ s2) = Some i)).
  { intros s1 Hg2 Hi2. unfold __set_nonblock. apply wp_bind, wp_sys. intros a w1 _.
    apply wp_if; intros _; [apply wp_ret; split; [by apply G_world|done]|].
    apply wp_bind, wp_sys. intros r' w' _.
    apply wp_if; intros _; apply wp_ret; (split; [by apply (G_world _ _ _ s1)|done]). }
  apply wp_bind. eapply wp_mono; [apply Hblock; [apply Hg1|by eexists]|].
  cbv beta. intros _ s2 [Hg2 [i2 Hi2]]. unfold ssl_connect_simple. apply wp_bind, wp_bind.
  eapply wp_mono; [apply ssl_simple_returns; [apply connect_asks|by eapply G_ssl_ready]|].
  cbv beta. intros r3 s3 [Hf _]. pose proof (G_ssl_frame _ _ _ _ _ Hf Hg2) as Hg3. apply wp_ret.
  apply wp_if; intros _; [|by apply wp_ret, HQ].
  apply wp_bind, wp_stk_log; [by eapply G_loggable|]. by apply wp_ret, HQ.
Qed.

(** The outcome of an operation: Net Down, or Net Up or Pause with the port
    opened, possibly idle. *)
Definition Inv s : Prop :=
  Down s \/ exists b, base b /\
    (G [S_netdown; b] true 1 s \/ G [S_netdown; b; S_idle] true 1 s).

Lemma G_same_port l c o s s' : same_port s s' -> G l c o s -> G l c o s'.
Proof. intros (E & _ & R) []. constructor; by rewrite ?E, ?R. Qed.

Lemma Down_same_port s s' : same_port s s' -> Down s -> Down s'.
Proof. intros Hs (Hg & Hr). split; [by eapply G_same_port|]. destruct Hs as [-> _]. done. Qed.

Lemma ends_Inv b : base b -> ends [b] 1 (fun _ => Inv) /\ ends [b; S_idle] 1 (fun _ => Inv).
Proof. intros Hb. unfold Inv. split; split; eauto 6. Qed.

(** Refreshing the rings touches nothing else. *)
Definition rest_of (a : vc_attr) : Z * Z * adv_port_info := (tid a, xmit_pending a, eki a).

Lemma wp_and {A} (m : Prog W A) s (P Q : A -> St W -> Prop) :
  wp m s P -> wp m s Q -> wp m s (fun x s' => P x s' /\ Q x s').
Proof. unfold wp. by destruct (m s). Qed.

Lemma buf_update_rest id s :
  wp (vc_buf_update id) s (fun _ s' => rest_of (at_ s') = rest_of (at_ s)).
Proof.
  unfold vc_buf_update, ioctl_get. cbv zeta. apply wp_if; intros _; [|apply wp_if; intros _].
  1,2: apply wp_bind, wp_sys; intros h w1 _; apply wp_if; intros _; [by apply wp_ret|].
  1,2: apply wp_bind, wp_sys; intros t w2 _; apply wp_if; intros _; [by apply wp_ret|].
  1,2: by apply wp_bind, wp_modify, wp_ret.
  apply wp_if; intros _; [|by apply wp_ret]. apply wp_bind, wp_gets, wp_bind, wp_sys.
  intros r w _. by apply wp_bind, wp_modify, wp_ret.
Qed.

Lemma buf_clear_rest flags s :
  wp (vc_buf_clear flags) s (fun _ s' => rest_of (at_ s') = rest_of (at_ s)).
Proof.
  assert (Hset : forall cmd arg s0, rest_of (at_ s0) = rest_of (at_ s) ->
    wp (ioctl_set cmd arg) s0 (fun _ s' => rest_of (at_ s') = rest_of (at_ s))).
  { intros cmd arg s0 E. unfold ioctl_set. apply wp_bind, wp_sys. intros r w _. by apply wp_ret. }
  assert (Hupd : forall id s0, rest_of (at_ s0) = rest_of (at_ s) ->
    wp (_ ← vc_buf_update id; mret tt) s0 (fun _ s' => rest_of (at_ s') = rest_of (at_ s))).
  { intros id s0 E. apply wp_bind. eapply wp_mono; [apply buf_update_rest|]. cbv beta.
    intros _ s1 E1. apply wp_ret. congruence. }
  unfold vc_buf_clear. apply wp_bind. eapply wp_mono; [by apply Hset|]. cbv beta. intros r s1 E1.
  apply wp_if; intros _; [by apply wp_ret|]. apply wp_bind, wp_when; intros _.
  - apply wp_bind. eapply wp_mono; [by apply Hset|]. cbv beta. intros _ s2 E2.
    eapply wp_mono; [by apply Hupd|]. cbv beta. intros _ s3 E3.
    apply wp_when; intros _; [by apply Hupd|done].
  - apply wp_when; intros _; [by apply Hupd|done].
Qed.

Lemma Down_rest s s' :
  Down s -> G [S_netdown] false 0 s' -> rest_of (at_ s') = rest_of (at_ s) -> Down s'.
Proof.
  intros (_ & Ht & Hp & He) Hg E. injection E as E1 E2 E3. split_and!; [done|congruence..].
Qed.

Lemma wp_buf_update_down id s (Q : Z -> St W -> Prop) :
  Down s -> (forall r s', Down s' -> Q r s') -> wp (vc_buf_update id) s Q.
Proof.
  intros Hd HQ. eapply wp_mono; [apply wp_and; [|apply (buf_update_rest id)]|].
  - eapply (wp_buf_update _ _ _ _ _ (fun _ => G [S_netdown] false 0)); [apply Hd|done].
  - cbv beta. intros r s' [Hg E]. apply HQ. by eapply Down_rest.
Qed.

Lemma wp_buf_clear_down flags s (Q : unit -> St W -> Prop) :
  Down s -> (forall s', Down s' -> Q tt s') -> wp (vc_buf_clear flags) s Q.
Proof.
  intros Hd HQ. eapply wp_mono; [apply wp_and; [|apply (buf_clear_rest flags)]|].
  - eapply (wp_buf_clear _ _ _ _ _ (fun _ => G [S_netdown] false 0)); [apply Hd|done].
  - cbv beta. intros [] s' [Hg E]. apply HQ. by eapply Down_rest.
Qed.

Lemma wp_open_base n b s :
  base b -> G [S_netdown; b] true 0 s \/ G [S_netdown; b] true 1 s ->
  wp (dispatch (S (S (S n))) OpOpen) s (fun _ => Inv).
Proof.
  intros Hb Hg.
  assert (Hrun : forall o, G [S_netdown; b] true o s ->
    wp (dispatch (S (S (S n))) OpOpen) s (fun _ => Inv)).
  { intros o Ho. cbn [dispatch]. eapply wp_bind, (wp_curnt [S_netdown] b); [exact Ho|].
    fold (@dispatch W _ (S n)). fold (@dispatch W _ (S (S n))).
    destruct Hb as [-> | ->]; cbn [handler]; eapply wp_common_open;
      try exact Ho; try (by left); try (by right); apply ends_Inv; by (left + right). }
  destruct Hg; by eapply Hrun.
Qed.

Lemma wp_netdown_open n s :
  Down s -> wp (vc_netdown_open (dispatch (S (S (S n))))) s (fun _ => Inv).
Proof.
  intros Hd. pose proof Hd as (Hg & Ht & Hp & He). unfold vc_netdown_open. apply wp_bind.
  apply (wp_vc_connect (open_fds (world s)) False ltac:(done)); [done|by eapply G_loggable|done|].
  intros x s1 Hs1 _. pose proof (Down_same_port _ _ Hs1 Hd) as Hd1. pose proof (proj1 Hd1) as Hg1.
  apply wp_if; intros Hx; bool_simpl.
  { eapply wp_bind, wp_buf_clear_down; [done|]. intros s2 Hd2.
    apply wp_bind, wp_modify, wp_ret. left. destruct Hd2 as ([? ? ? [Hsk ?] ? ? ? ?] & ?).
    split; [|done]. by constructor. }
  apply wp_bind, wp_modify, wp_bind, wp_gets. cbn [at_ ssl set_sk].
  assert (Hpush : forall (ok : bool) s2, G [S_netdown] true 0 s2 ->
    wp (if negb ok then dispatch (S (S (S n))) OpInit else
        tx ← gets utx;
        _ ← stk_push (if is_rb_empty tx then S_netup else S_pause);
        dispatch (S (S (S n))) OpOpen) s2 (fun _ => Inv)).
  { intros ok s2 Hg2. apply wp_if; intros _.
    { eapply wp_init_down; [done|]. intros; by left. }
    apply wp_bind, wp_gets. set (b := if is_rb_empty _ then _ else _).
    assert (Hb : base b) by (unfold b, base; destruct (is_rb_empty _); auto).
    eapply wp_bind, wp_push; [exact Hg2|simpl; lia|]. intros s3 Hg3.
    apply (wp_open_base n b); [done|by left]. }
  apply wp_bind. destruct (ssl (at_ s1)) as [i|] eqn:Hi.
  - eapply (wp_tls_start x s1 i); [done..|]. intros; by apply Hpush.
  - apply wp_ret, Hpush. destruct Hg1 as [? ? ? [? ?] ? ? ? ?]. constructor; try done.
    split; [done|]. simpl. by rewrite Hi.
Qed.

(** ** The operations of the main loop *)

Lemma dispatch_S n o : @dispatch W _ (S n) o =
  (s ← stk_curnt; match handler (dispatch n) s o with Some m => m | None => fault end).
Proof. done. Qed.

Lemma wp_netdown_close s :
  Down s -> wp vc_netdown_close s (fun _ => Inv).
Proof.
  intros Hd. unfold vc_netdown_close. eapply wp_bind, wp_buf_clear_down; [done|]. intros s1 Hd1.
  unfold drop_socket. apply wp_bind, wp_bind, wp_gets, wp_when; intros Hsk; bool_simpl.
  - destruct Hd1 as [[? ? ? [Hc _] ? ? ? ?] _]. lia.
  - apply wp_ret. by left.
Qed.

(** The operations of Net Up and Pause, from the top of the table. *)
Lemma wp_base_op n b o s m :
  base b -> G [S_netdown; b] true 1 s ->
  match o with OpRecv buf _ => whole_packet buf | OpInit => False | _ => True end ->
  handler (dispatch (S (S (S n)))) b o = Some m -> wp m s (fun _ => Inv).
Proof.
  intros Hb Hg Ho Hh. destruct (ends_Inv b Hb) as [Hends Hidle].
  assert (Hup : forall b' (s' : St W), base b' -> G [S_netdown; b'] true 1 s' -> Inv s')
    by (unfold Inv; eauto).
  assert (Hdown : forall (r : state_id) (s' : St W), Down s' -> Inv s') by (by left).
  destruct o.
  - assert (m = vc_common_open (dispatch (S (S (S n))))) as -> by (destruct Hb as [-> | ->]; by injection Hh).
    by eapply wp_common_open.
  - assert (m = purge_close (dispatch (S (S (S n))))) as -> by (destruct Hb as [-> | ->]; by injection Hh).
    eapply wp_purge_close; [exact Hg|exact Hdown].
  - assert (m = vc_common_ioctl (dispatch (S (S (S n))))) as -> by (destruct Hb as [-> | ->]; by injection Hh).
    unfold vc_common_ioctl. apply wp_bind, wp_pbuf_of; [lia|]. intros pbuf Hp. by eapply wp_ioctl_loop.
  - assert (m = vc_common_xmit (dispatch (S (S (S n))))) as -> by (destruct Hb as [-> | ->]; by injection Hh).
    eapply wp_common_xmit; [exact Hg|exact Hends].
  - assert (m = vc_common_recv (dispatch (S (S (S n)))) buf len) as -> by (destruct Hb as [-> | ->]; by injection Hh).
    by eapply wp_common_recv.
  - assert (m = (_ ← stk_push S_idle; dispatch (S (S (S n))) OpInit)) as -> by (destruct Hb as [-> | ->]; by injection Hh).
    eapply wp_poll; [exact Hg|exact Hidle].
  - done.
  - destruct Hb as [-> | ->]; [|done]. injection Hh as <-. unfold vc_netup_pause, _pause_queue.
    apply (wp_switch S_netup S_pause (S (S n)) 1024 _ (fun r => r <? 0) 1);
      [by apply packs_qfsize|lia|by right|exact Hg|exact Hdown|]. intros. apply (Hup S_pause); [by right|done].
  - destruct Hb as [-> | ->]; [done|]. injection Hh as <-. unfold vc_pause_resume, _resume_queue.
    apply (wp_switch S_pause S_netup (S (S n)) 1024 _ truthy 1);
      [by apply packs_qfsize|lia|by left|exact Hg|exact Hdown|]. intros. apply (Hup S_netup); [by left|done].
Qed.

(** The same for Idle: what it does not do itself it hands to the state below. *)
Lemma wp_idle_op n b o s m :
  base b -> G [S_netdown; b; S_idle] true 1 s ->
  match o with OpRecv buf _ => whole_packet buf | OpInit => False | _ => True end ->
  handler (dispatch (S (S (S (S n))))) S_idle o = Some m -> wp m s (fun _ => Inv).
Proof.
  intros Hb Hg Ho Hh.
  assert (Hdown : forall (r : state_id) (s' : St W), Down s' -> Inv s') by (by left).
  destruct o; try done.
  - assert (m = vc_idle_open (dispatch (S (S (S (S n)))))) as -> by (by injection Hh).
    unfold vc_idle_open. eapply wp_bind, (wp_pop [S_netdown; b] S_idle); [exact Hg|done|].
    intros s1 Hg1. apply (wp_open_base (S n) b); [done|by right].
  - assert (m = purge_close (dispatch (S (S (S (S n)))))) as -> by (by injection Hh).
    eapply wp_purge_close; [exact Hg|exact Hdown].
  - assert (m = vc_idle_recv (dispatch (S (S (S (S n))))) buf len) as -> by (by injection Hh).
    unfold vc_idle_recv. eapply wp_bind, (wp_pop [S_netdown; b] S_idle); [exact Hg|done|].
    intros s1 Hg1. rewrite dispatch_S. eapply wp_bind, (wp_curnt [S_netdown] b); [exact Hg1|].
    destruct (handler (dispatch (S (S (S n)))) b (OpRecv buf len)) as [m|] eqn:Hm.
    + eapply (wp_base_op n b (OpRecv buf len)); [exact Hb|exact Hg1|exact Ho|exact Hm].
    + by destruct Hb as [-> | ->].
  - assert (m = vc_idle_poll (dispatch (S (S (S (S n)))))) as -> by (by injection Hh).
    unfold vc_idle_poll. eapply wp_bind, wp_buf_clear; [done|]. intros s1 Hg1.
    eapply wp_excp_init; [exact Hg1|]. intros; by apply (Hdown S_netdown).
Qed.

Lemma wp_down_op n o s m :
  Down s -> match o with OpInit => False | _ => True end ->
  handler (dispatch (S (S (S n)))) S_netdown o = Some m -> wp m s (fun _ => Inv).
Proof.
  intros Hd Ho Hh. destruct o; try done.
  - assert (m = vc_netdown_open (dispatch (S (S (S n))))) as -> by (by injection Hh).
    by apply wp_netdown_open.
  - assert (m = vc_netdown_close) as -> by (by injection Hh). by apply wp_netdown_close.
Qed.

(** The operations the loop calls between two [init]s. *)
Definition loop_op (o : vc_op) : Prop :=
  match o with OpRecv buf _ => whole_packet buf | OpInit => False | _ => True end.

Lemma wp_try_op o s : Inv s -> loop_op o -> wp (try_op o) s (fun _ => Inv).
Proof.
  intros Hi Ho. unfold try_op. apply wp_bind.
  assert (Hnone : forall x, wp (mret (M := Prog W) x) s (fun _ : state_id => Inv)) by (by intros).
  pose proof Hi as [Hd|(b & Hb & [Hg|Hg])].
  - eapply (wp_curnt [] S_netdown); [apply Hd|].
    destruct (handler _ S_netdown o) eqn:Hh; [|done]. eapply wp_down_op; [done| |exact Hh]. by destruct o.
  - eapply (wp_curnt [S_netdown] b); [exact Hg|].
    destruct (handler _ b o) eqn:Hh; [|done]. eapply wp_base_op; [done|done|done|exact Hh].
  - eapply (wp_curnt [S_netdown; b] S_idle); [exact Hg|].
    destruct (handler _ S_idle o) eqn:Hh; [|done]. eapply wp_idle_op; [done|done|done|exact Hh].
Qed.

(** [open] and [close] are called without asking whether the state has them. *)
Lemma wp_call_op o s : Inv s -> o = OpOpen \/ o = OpClose -> wp (call_op o) s (fun _ => Inv).
Proof.
  intros Hi Ho. unfold call_op, call_depth. rewrite dispatch_S. apply wp_bind.
  assert (Hl : loop_op o) by by destruct Ho as [-> | ->].
  pose proof Hi as [Hd|(b & Hb & [Hg|Hg])].
  - eapply (wp_curnt [] S_netdown); [apply Hd|].
    destruct (handler _ S_netdown o) eqn:Hh; [|by destruct Ho as [-> | ->]].
    eapply (wp_down_op 4); [done| |exact Hh]. by destruct o.
  - eapply (wp_curnt [S_netdown] b); [exact Hg|].
    destruct (handler _ b o) eqn:Hh; [|by destruct Ho as [-> | ->], Hb as [-> | ->]].
    eapply (wp_base_op 4); [done|done|done|exact Hh].
  - eapply (wp_curnt [S_netdown; b] S_idle); [exact Hg|].
    destruct (handler _ S_idle o) eqn:Hh; [|by destruct Ho as [-> | ->]].
    eapply (wp_idle_op 3); [done|done|done|exact Hh].
Qed.
End G.
