(* ===== verification/MainLoop.v ===== *)
(** * The main loop of the daemon

    [daemon/vcom_client.c]: receiving a packet in two steps (the fixed part,
    then the payload the header announces), the setup of the port and the loop
    around [select].  The arguments of the program and the messages are not
    modelled. *)

From S2P Require Import Prelude RingBuf Uart DrvMain Proto Os SslSelect Vcom Connect Client.

Definition RBUF_SIZE : Z := 4096.

(** [FD_SET] on a set, for a descriptor that is one. *)
Definition FD_SET (x : Z) (l : list Z) : list Z := x :: l.
Definition FD_ISSET (x : Z) (l : list Z) : bool := bool_decide (x ∈ l).

Section main.
Context {W : Type} `{Os W}.

(** ** Receiving a packet *)

Definition rbuf_store (off : Z) (bs : list byte) : Prog W unit := fun s =>
  match store off bs (rbuf s) with
  | Some b => Ok tt (mk_st (at_ s) (world s) (pre_excp_t s) b)
  | None => Fault
  end.
Definition get_rbuf : Prog W (list byte) := fun s => Ok (rbuf s) s.

(** [recv(sock, &buf[off], n, 0)] *)
Definition recv_into (sock off n : Z) : Prog W Z :=
  r ← sys (fun w => sys_recv w sock n);
  let '(len, bs) := r in
  when (0 <? len) (rbuf_store off bs);;
  mret len.

Definition recv_second_chance (sock off buflen : Z) : Prog W Z :=
  sel ← sys (fun w => sys_select w [sock] [] [] 10000);
  let '(ret, _, _) := sel in
  if ret <=? 0 then mret 0 else recv_into sock off buflen.

Definition vc_frame_recv_tcp (off rlen : Z) : Prog W Z :=
  sk ← gets sk;
  len ← recv_into sk off rlen;
  if len <=? 0 then mret (-1) else
  if len =? rlen then mret len else
  if len <? rlen then
    more ← recv_second_chance sk (off + len) (rlen - len);
    let len := len + more in
    if len =? rlen then mret len else mret (-2)
  else mret (-2).

(** The TLS operations into the buffer. *)
Definition ssl_into (off : Z) (m : Prog W (Z * list byte)) : Prog W Z :=
  r ← m;
  let '(len, bs) := r in
  when (0 <? len) (rbuf_store off bs);;
  mret len.

Definition vc_frame_recv_ssl (off rlen : Z) : Prog W Z :=
  let failed := _stk_log;; mret SSL_OPS_FAIL in
  len ← ssl_into off (ssl_recv_direct rlen);
  if len =? SSL_OPS_SELECT then mret len else
  if len <=? 0 then failed else
  if len =? rlen then mret len else
  if len <? rlen then
    more ← ssl_into (off + len) (ssl_recv_simple (rlen - len) 500);
    let len := len + more in
    if len =? rlen then mret len else failed
  else failed.

Definition lost : Prog W state_id := excp_init (dispatch call_depth).

Definition hdr_len : Z := sizeof_vc_proto_hdr + sizeof_vc_attach_param.

(** The payload the header announces; [false] when the connection is to be
    given up. *)
Definition recv_body (tls : option ssl_info) (packet_len : Z) : Prog W bool :=
  if 0 <? packet_len then
    if RBUF_SIZE - hdr_len <? packet_len then mret false else
    match tls with
    | Some _ => r ← vc_frame_recv_ssl hdr_len packet_len; mret (negb (r <=? 0))
    | None => r ← vc_frame_recv_tcp hdr_len packet_len; mret (negb (r <? 0))
    end
  else mret true.

Definition recv_payload (tls : option ssl_info) (packet_len : Z) : Prog W state_id :=
  if packet_len <? 0 then lost else
  ok ← recv_body tls packet_len;
  if negb ok then lost else
  buf ← get_rbuf;
  try_op (OpRecv buf (hdr_len + packet_len)).

Definition recv_packet (tls : option ssl_info) : Prog W state_id :=
  buf ← get_rbuf;
  packet_len ← lift (get16 off_len buf);
  cmd ← lift (get16 off_cmd buf);
  when (cmd =? VCOM_CMD_DATAREADY) (_ ← vc_buf_update VC_BUF_TX; mret tt);;
  recv_payload tls packet_len.

Definition vc_recv_desp : Prog W state_id :=
  tls ← gets ssl;
  match tls with
  | Some _ =>
      r ← vc_frame_recv_ssl 0 hdr_len;
      if r =? SSL_OPS_SELECT then stk_curnt else
      if r <=? 0 then lost else recv_packet tls
  | None =>
      r ← vc_frame_recv_tcp 0 hdr_len;
      if r <? 0 then lost else recv_packet tls
  end.

(** ** Setting up *)

Definition main_setup : Prog W state_id :=
  modify (fun a => set_stk (set_top (-1) (stk a)) a);;
  modify (set_sk (-1));;
  _ ← vc_buf_setup VC_BUF_TX;
  _ ← vc_buf_setup VC_BUF_RX;
  _ ← vc_buf_setup VC_BUF_ATTR;
  _ ← stk_push S_netdown;
  call_op OpInit.

(** ** The loop *)

(** What [FD_SET] does to a set when the descriptor is negative, as it is in
    Net Down; C leaves that open. *)
Context (fd_set_undef : list Z -> list Z).

Definition set_sock (x : Z) (l : list Z) : list Z :=
  if 0 <=? x then FD_SET x l else fd_set_undef l.

Definition attrs_differ (a e : adv_port_info) : bool :=
  negb (i_baud a =? i_baud e) || negb (i_pair a =? i_pair e) ||
  negb (i_flowctl a =? i_flowctl e) || negb (i_byte a =? i_byte e) ||
  negb (i_stop a =? i_stop e) || negb (i_ms a =? i_ms e).

Definition run (m : Prog W state_id) : Prog W unit := _ ← m; mret tt.

(** Up to the descriptor sets: follow the attributes and the rings. *)
Definition follow_open : Prog W unit :=
  a ← attr_p;
  e ← gets eki;
  when (negb (i_is_open a =? i_is_open e))
    (run (if truthy (i_is_open a) then call_op OpOpen else call_op OpClose)).

Definition follow_line : Prog W unit :=
  a ← attr_p;
  e ← gets eki;
  when (attrs_differ a e) (run (try_op OpIoctl)).

Definition follow_rx : Prog W unit :=
  pending ← gets xmit_pending;
  rx ← gets urx;
  when ((pending =? 0) && negb (is_rb_empty rx)) (run (try_op OpXmit)).

Definition follow_tx : Prog W unit :=
  tx ← gets utx;
  when (negb (is_rb_empty tx)) (run (try_op OpPause)).

Definition loop_head : Prog W unit := follow_open;; follow_line;; follow_rx;; follow_tx.

(** With TLS: receive what is there, then ask the connection what it waits
    for.  The result is whether bytes are already decrypted. *)
Definition tls_ask (rfds wfds : list Z) : Prog W (bool * list Z * list Z) :=
  i ← get_ssl;
  let '(_, rfds, wfds) := ssl_set_fds i 0 rfds wfds in
  upd_ssl (fun i => set_we A_recv (mk_we (we_write (w_recv i)) 1) i);;
  pending ← ssl_call (fun w => (SSL_pending w, w));
  mret (truthy pending, rfds, wfds).

Definition tls_step (rfds wfds : list Z) : Prog W (bool * list Z * list Z) :=
  _ ← vc_recv_desp;
  tls_ask rfds wfds.

(** The connection is given up when nothing was received for too long. *)
Definition check_silence (lrecv : Z) : Prog W Z :=
  if VC_PULL_TIME <? lrecv then run lost;; mret 0 else mret lrecv.

Definition add_used (tv lrecv : Z) : Z :=
  let used := u32 (VC_PULL_TIME - tv) in u32 (lrecv + (if 0 <? used then used else 1)).

Definition serve_socket (zero : bool) (tv lrecv : Z) (rfds wfds : list Z) : Prog W Z :=
  sk ← gets sk;
  if sk <? 0 then mret lrecv else
  tls ← gets ssl;
  match tls with
  | Some i =>
      pending ← ssl_call (fun w => (SSL_pending w, w));
      let tasks := ssl_handle_fds i pending rfds wfds in
      if tasks &? invoke_ssl_recv then run vc_recv_desp;; mret 0
      else check_silence (if zero then lrecv else add_used tv lrecv)
  | None =>
      if FD_ISSET sk rfds then run vc_recv_desp;; mret 0
      else check_silence (add_used tv lrecv)
  end.

(** From the select call to the end of the round. *)
Definition loop_wait (fd maxfd : Z) (zero : bool) (rfds wfds : list Z) (lrecv : Z)
  : Prog W Z :=
  let efds := FD_SET fd [] in
  let upto := List.filter (fun x => x <=? maxfd) in
  sel ← sys (fun w => sys_select w (upto rfds) (upto wfds) (upto efds)
                        (if zero then 0 else VC_PULL_TIME));
  let '(ret, (rfds, wfds, efds), tv) := sel in
  if (ret =? 0) && negb zero then run (try_op OpPoll);; mret lrecv else
  when (FD_ISSET fd efds) (_ ← vc_buf_update VC_BUF_ATTR; mret tt);;
  lrecv ← serve_socket zero tv lrecv rfds wfds;
  when (FD_ISSET fd rfds) (_ ← vc_buf_update VC_BUF_RX; mret tt);;
  when (FD_ISSET fd wfds) (_ ← vc_buf_update VC_BUF_TX; run (try_op OpResume));;
  mret lrecv.

(** [None]: the loop is left. *)
Definition loop_body (lrecv : Z) : Prog W (option Z) :=
  loop_head;;
  fd ← gets fd;
  sk ← gets sk;
  ev ← try_event (set_sock sk []) [];
  let '(rfds, wfds) := ev in
  r ← ioctl_set ADVVCOM_IOCSINTER (Z.lor ADV_INT_RX ADV_INT_TX);
  if r <? 0 then mret None else
  let maxfd := if 0 <=? sk then Z.max sk fd else fd in
  tls ← gets ssl;
  t ← (if bool_decide (tls <> None) && (0 <=? sk) then tls_step rfds wfds
       else mret (false, rfds, wfds));
  let '(zero, rfds, wfds) := t in
  lrecv ← loop_wait fd maxfd zero rfds wfds lrecv;
  mret (Some lrecv).

(** The first rounds of the loop, or all of it when it is left. *)
Fixpoint main_loop (rounds : nat) (lrecv : Z) : Prog W (option Z) :=
  match rounds with
  | O => mret (Some lrecv)
  | S rounds =>
      r ← loop_body lrecv;
      match r with Some lrecv => main_loop rounds lrecv | None => mret None end
  end.
End main.
