(* ===== verification/MainProofs.v ===== *)
(** * Correctness of the main loop

    Receiving keeps the invariant of the state machine and hands complete
    packets to it; every round of the loop keeps the invariant. *)

From stdpp Require Import gmap.
From S2P Require Import Prelude RingBuf Tty Uart DrvMain Proto Os SslSelect SimWorld Vcom Connect.
From S2P Require Import Client ClientProofs SimLaws ClientInv MainLoop.

(** ** Receiving *)

(** The buffer below [off] is as it was. *)
Definition below {W} (off : Z) (s s' : St W) : Prop :=
  forall o n, o + n <= off -> load o n (rbuf s') = load o n (rbuf s).

Section recv.
Context {W : Type} `{Os W} `{!DrvLaws W} `{!SockLaws W} `{!SslProgress W} `{TlsMode}.
Implicit Types s : St W.

Lemma below_refl off s : below off s s.
Proof. by intros o n. Qed.

Lemma below_trans off off' s1 s2 s3 :
  below off s1 s2 -> below off' s2 s3 -> off <= off' -> below off s1 s3.
Proof. intros H1 H2 Hle o n Hn. rewrite H2 by lia. by apply H1. Qed.

Lemma wp_rbuf_store off bs l c o s (Q : unit -> St W -> Prop) :
  G l c o s -> 0 <= off -> off + zlen bs <= 4096 ->
  (forall s', G l c o s' -> below off s s' -> Q tt s') -> wp (rbuf_store off bs) s Q.
Proof.
  intros Hg Ho Hl HQ. pose proof (G_rbuf _ _ _ _ Hg) as Hr.
  destruct (store off bs (rbuf s)) as [b|] eqn:Hs; [|rewrite store_Some in Hs by lia; done].
  unfold wp, rbuf_store. rewrite Hs. apply HQ.
  - pose proof (store_zlen _ _ _ _ Hs). destruct Hg. constructor; try done. simpl. lia.
  - intros o' n Hn. simpl. by eapply load_store_before.
Qed.

(** A read into the buffer, whoever delivers the bytes. *)
Lemma wp_into off n l c o s s1 r bs (Q : Z -> St W -> Prop) :
  G l c o s1 -> rbuf s1 = rbuf s -> 0 <= off -> off + n <= 4096 ->
  (0 < r -> r <= n /\ zlen bs = r) ->
  (forall s', G l c o s' -> below off s s' -> r <= Z.max 0 n -> Q r s') ->
  wp (when (0 <? r) (rbuf_store off bs);; mret r) s1 Q.
Proof.
  intros Hg Hrb Ho Hn Hr HQ. apply wp_bind, wp_when; intros Hpos; bool_simpl.
  - destruct (Hr Hpos) as [Hle Hz]. eapply wp_rbuf_store; [done|done|lia|].
    intros s' Hg' Hb. apply wp_ret, HQ; [done| |lia]. intros o' k Hk. rewrite <- Hrb. by apply Hb.
  - apply wp_ret, HQ; [done| |lia]. intros o' k Hk. by rewrite Hrb.
Qed.

Lemma wp_recv_into x off n l c o s (Q : Z -> St W -> Prop) :
  G l c o s -> 0 <= off -> off + n <= 4096 ->
  (forall r s', G l c o s' -> below off s s' -> r <= Z.max 0 n -> Q r s') ->
  wp (recv_into x off n) s Q.
Proof.
  intros Hg Ho Hn HQ. unfold recv_into. apply wp_bind, wp_sys. intros [r bs] w Hr.
  eapply wp_into; [by apply G_world|done|done|done| |apply HQ].
  intros Hpos. by eapply recv_length.
Qed.

Lemma wp_frame_recv_tcp off n l c o s (Q : Z -> St W -> Prop) :
  G l c o s -> 0 <= off -> off + n <= 4096 ->
  (forall r s', G l c o s' -> below off s s' -> r < 0 \/ r = n -> Q r s') ->
  wp (vc_frame_recv_tcp off n) s Q.
Proof.
  intros Hg Ho Hn HQ. unfold vc_frame_recv_tcp. apply wp_bind, wp_gets, wp_bind.
  eapply wp_recv_into; [done..|]. intros r s1 Hg1 Hb1 Hr1.
  apply wp_if; intros H1; bool_simpl; [apply wp_ret, HQ; [done..|lia]|].
  apply wp_if; intros H2; bool_simpl; [apply wp_ret, HQ; [done..|lia]|].
  apply wp_if; intros H3; bool_simpl; [|apply wp_ret, HQ; [done..|lia]].
  assert (Hend : forall more s2, G l c o s2 -> below off s s2 ->
    wp (if r + more =? n then mret (r + more) else mret (-2)) s2 Q).
  { intros more s2 Hg2 Hb2. apply wp_if; intros He; bool_simpl; apply wp_ret, HQ; (done || lia). }
  unfold recv_second_chance. apply wp_bind, wp_bind, wp_sys. intros [[m [[? ?] ?]] tv] w _. cbv beta iota.
  apply wp_if; intros _; [apply wp_ret, Hend; [by apply G_world|done]|].
  eapply wp_recv_into; [by apply G_world|lia|lia|]. intros more s2 Hg2 Hb2 _.
  apply Hend; [done|]. eapply below_trans; [done|exact Hb2|lia].
Qed.

(** What a successful direct or waiting TLS read delivers. *)
Definition reads_len (m : Prog W (Z * list byte)) (n : Z) : Prop :=
  forall s, ssl_ready s -> wp m s (fun r s' => ssl_frame s s' /\
    (0 < fst r -> fst r <= n /\ zlen (snd r) = fst r)).

Lemma recv_direct_reads n : reads_len (ssl_recv_direct n) n.
Proof.
  intros s Hs. eapply wp_mono; [apply wp_and; [by apply (recv_asks n)|]|].
  - instantiate (1 := fun r _ => 0 < fst r -> fst r <= n /\ zlen (snd r) = fst r).
    destruct Hs as (i & Hi & Hl). unfold ssl_recv_direct, ssl_direct.
    apply wp_bind. eapply wp_upd_ssl; [exact Hi|]. apply wp_bind.
    unfold ssl_call, get_ssl. apply wp_bind, wp_bind, wp_gets, wp_lift. eexists. split; [reflexivity|].
    apply wp_if; intros Hlive; [|simpl in *; congruence].
    apply wp_sys. intros [r bs] w Hr. apply wp_if; intros _; [|].
    + apply wp_ret. by eapply read_length.
    + apply wp_bind, wp_get_world, wp_bind. unfold _do_ssl_update_wait_event.
      apply wp_if; intros _; [|apply wp_if; intros _].
      1,2: apply wp_bind; eapply wp_upd_ssl; [reflexivity|]; by apply wp_ret, wp_ret.
      by apply wp_ret, wp_ret.
  - cbv beta. intros r s' [[Hf _] Hr]. auto.
Qed.

Lemma simple_tv_reads fuel direct n tv s :
  asks_less direct positive -> reads_len direct n -> ssl_ready s ->
  (ssl_work (world s) < fuel)%nat ->
  wp (ssl_simple_tv fuel direct positive tv) s (fun r _ => 0 < fst r -> fst r <= n /\ zlen (snd r) = fst r).
Proof.
  intros Hask Hread. revert s tv. induction fuel as [|fuel IH]; intros s tv Hs Hf; [lia|].
  cbn [ssl_simple_tv]. apply wp_bind. eapply wp_mono; [apply wp_and; [by apply Hask|by apply Hread]|].
  cbv beta. intros [r bs] s1 [[Hfr Hr] [_ Hlen]].
  pose proof (ssl_frame_ready _ _ Hfr Hs) as (i & Hi & Hl).
  apply wp_if; intros Hsuc; [by apply wp_ret|].
  apply wp_if; intros Hfail; bool_simpl; [by apply wp_ret|].
  destruct Hr as [Hr|[Hr|(Hsel & _ & Hwork)]]; [congruence|done|].
  apply wp_bind. unfold get_ssl. wp_go. apply wp_lift. exists i. split; [done|].
  destruct (ssl_set_fds i 0 [] []) as [[mx rs] ws].
  apply wp_bind, wp_sys. intros [[k sets] tv'] w' Hsl. cbv beta iota.
  apply wp_if; intros Hn; [|by apply wp_ret].
  apply IH; [by exists i|]. simpl. apply select_progress in Hsl. lia.
Qed.

Lemma recv_simple_reads n to : reads_len (ssl_recv_simple n to) n.
Proof.
  intros s Hs. eapply wp_mono; [apply wp_and|].
  - apply (ssl_simple_returns (ssl_recv_direct n) positive to); [apply recv_asks|done].
  - unfold ssl_simple. apply wp_bind, wp_get_world. apply simple_tv_reads; [apply recv_asks|apply recv_direct_reads|done|lia].
  - cbv beta. intros r s' [[Hf _] Hr]. auto.
Qed.

Lemma wp_ssl_into m off n l o s (Q : Z -> St W -> Prop) :
  reads_len m n -> G l true o s -> tls_on = true -> 0 <= off -> off + n <= 4096 ->
  (forall r s', G l true o s' -> below off s s' -> r <= Z.max 0 n -> Q r s') ->
  wp (ssl_into off m) s Q.
Proof.
  intros Hm Hg Htls Ho Hn HQ. unfold ssl_into. apply wp_bind.
  destruct (ssl (at_ s)) as [i|] eqn:Hi; [|pose proof (G_tls _ _ _ _ Hg) as E; rewrite Hi in E; congruence].
  eapply wp_mono; [apply Hm; by eapply G_ssl_ready|]. cbv beta. intros [r bs] s1 [Hf Hr].
  eapply wp_into; [by eapply G_ssl_frame| |done|done|exact Hr|apply HQ].
  by destruct Hf as (? & ? & ? & ? & ? & ? & ? & ?).
Qed.

Lemma wp_frame_recv_ssl off n l o s (Q : Z -> St W -> Prop) :
  G l true o s -> tls_on = true -> 0 <= off -> off + n <= 4096 ->
  (forall r s', G l true o s' -> below off s s' -> r < 0 \/ r = n -> Q r s') ->
  wp (vc_frame_recv_ssl off n) s Q.
Proof.
  intros Hg Htls Ho Hn HQ. unfold vc_frame_recv_ssl. cbv zeta. apply wp_bind.
  eapply wp_ssl_into; [apply recv_direct_reads|done..|]. intros r s1 Hg1 Hb1 Hr1.
  assert (Hfail : forall s2, G l true o s2 -> below off s s2 -> wp (_stk_log;; mret SSL_OPS_FAIL) s2 Q).
  { intros s2 Hg2 Hb2. apply wp_bind, wp_stk_log; [by eapply G_loggable|].
    apply wp_ret, HQ; [done..|unfold SSL_OPS_FAIL; lia]. }
  apply wp_if; intros Hsel; bool_simpl; [apply wp_ret, HQ; [done..|unfold SSL_OPS_SELECT in *; lia]|].
  apply wp_if; intros H1; bool_simpl; [by apply Hfail|].
  apply wp_if; intros H2; bool_simpl; [apply wp_ret, HQ; [done..|lia]|].
  apply wp_if; intros H3; bool_simpl; [|by apply Hfail].
  apply wp_bind. eapply wp_ssl_into; [apply recv_simple_reads|done|done|lia|lia|].
  intros more s2 Hg2 Hb2 _.
  assert (Hb : below off s s2) by (eapply below_trans; [done|exact Hb2|lia]).
  apply wp_if; intros He; bool_simpl; [apply wp_ret, HQ; [done..|lia]|by apply Hfail].
Qed.

(** The states of the invariant that have a connection. *)
Definition up_stack (l : list state_id) : Prop := exists b, base b /\ (l = [b] \/ l = [b; S_idle]).

Lemma up_Inv l s : up_stack l -> G (S_netdown :: l) true 1 s -> Inv s.
Proof. intros (b & Hb & [-> | ->]) Hg; right; eauto. Qed.

Lemma Inv_up s : Inv s -> 0 <= sk (at_ s) -> exists l, up_stack l /\ G (S_netdown :: l) true 1 s.
Proof.
  intros [([? ? ? [Hc _] ? ? ? ?] & _)|(b & Hb & [Hg|Hg])] Hsk; [lia| |].
  all: eexists; split; [|exact Hg]; exists b; auto.
Qed.

Lemma wp_lost l o s : G (S_netdown :: l) true o s -> wp lost s (fun _ => Inv).
Proof. intros Hg. unfold lost. eapply wp_excp_init; [exact Hg|]. intros; by left. Qed.

(** The payload, when the header announces one. *)
Lemma wp_recv_body (tls : option ssl_info) n l s (Q : bool -> St W -> Prop) :
  G (S_netdown :: l) true 1 s -> (tls <> None <-> tls_on = true) ->
  (forall (r : bool) s', G (S_netdown :: l) true 1 s' -> below 20 s s' ->
     (r = true -> n <= 4076) -> Q r s') ->
  wp (recv_body tls n) s Q.
Proof.
  intros Hg Htls HQ. unfold recv_body. change (RBUF_SIZE - hdr_len) with 4076.
  change hdr_len with 20. apply wp_if; intros Hn; bool_simpl.
  2:{ apply wp_ret, HQ; [done|apply below_refl|lia]. }
  apply wp_if; intros Hbig; bool_simpl; [apply wp_ret, HQ; [done|apply below_refl|done]|].
  destruct tls as [i|]; apply wp_bind.
  - eapply wp_frame_recv_ssl; [exact Hg|by apply Htls|lia|lia|]. intros r s1 Hg1 Hb1 _.
    apply wp_ret, HQ; [done..|lia].
  - eapply wp_frame_recv_tcp; [exact Hg|lia|lia|]. intros r s1 Hg1 Hb1 _.
    apply wp_ret, HQ; [done..|lia].
Qed.

Lemma below_update s s1 id (Q : Z -> St W -> Prop) l :
  G (S_netdown :: l) true 1 s1 -> rbuf s1 = rbuf s ->
  (forall r s2, G (S_netdown :: l) true 1 s2 -> rbuf s2 = rbuf s -> Q r s2) ->
  wp (vc_buf_update id) s1 Q.
Proof.
  intros Hg E HQ. eapply wp_mono; [apply wp_and|].
  - eapply (wp_buf_update id _ _ _ _ (fun _ => G (S_netdown :: l) true 1)); [exact Hg|done].
  - instantiate (1 := fun _ s2 => rbuf s2 = rbuf s).
    unfold vc_buf_update, ioctl_get. cbv zeta. apply wp_if; intros _; [|apply wp_if; intros _].
    1,2: apply wp_bind, wp_sys; intros h w1 _; apply wp_if; intros _; [by apply wp_ret|].
    1,2: apply wp_bind, wp_sys; intros t w2 _; apply wp_if; intros _; [by apply wp_ret|].
    1,2: by apply wp_bind, wp_modify, wp_ret.
    apply wp_if; intros _; [|by apply wp_ret]. apply wp_bind, wp_gets, wp_bind, wp_sys.
    intros r w _. by apply wp_bind, wp_modify, wp_ret.
  - cbv beta. intros r s2 [Hg2 E2]. auto.
Qed.

Lemma wp_get_rbuf s (Q : list byte -> St W -> Prop) : Q (rbuf s) s -> wp get_rbuf s Q.
Proof. done. Qed.

Lemma wp_recv_payload (tls : option ssl_info) n l s :
  up_stack l -> G (S_netdown :: l) true 1 s -> (tls <> None <-> tls_on = true) ->
  get16 off_len (rbuf s) = Some n -> wp (recv_payload tls n) s (fun _ => Inv).
Proof.
  intros Hup Hg Htls Hn. unfold recv_payload. apply wp_if; intros _; [by eapply wp_lost|].
  eapply wp_bind, wp_recv_body; [exact Hg|done|]. intros ok s2 Hg2 Hb2 Hok.
  apply wp_if; intros Ht; [by eapply wp_lost|]. apply wp_bind, wp_get_rbuf.
  apply wp_try_op; [by eapply up_Inv|]. split; [apply Hg2|]. exists n. split.
  - rewrite <- Hn. unfold get16. by rewrite (Hb2 off_len 2) by by vm_compute.
  - rewrite (G_rbuf _ _ _ _ Hg2). unfold off_data. apply negb_false_iff in Ht.
    specialize (Hok Ht). lia.
Qed.

(** A packet whose header was received: the rest, and its operation. *)
Lemma wp_recv_packet (tls : option ssl_info) l s :
  up_stack l -> G (S_netdown :: l) true 1 s -> (tls <> None <-> tls_on = true) ->
  wp (recv_packet tls) s (fun _ => Inv).
Proof.
  intros Hup Hg Htls. pose proof (G_rbuf _ _ _ _ Hg) as Hr. unfold recv_packet.
  apply wp_bind, wp_get_rbuf.
  destruct (proj1 (get_fields _ Hr) off_len ltac:(by vm_compute)) as [n Hn].
  destruct (proj1 (get_fields _ Hr) off_cmd ltac:(by vm_compute)) as [cmd Hcmd].
  apply wp_bind, wp_lift. exists n. split; [done|]. apply wp_bind, wp_lift. exists cmd. split; [done|].
  apply wp_bind, wp_when; intros _; [|by eapply wp_recv_payload].
  eapply wp_bind, below_update; [exact Hg|done|]. intros r s1 Hg1 E1. apply wp_ret.
  eapply wp_recv_payload; [done..|congruence].
Qed.

Lemma wp_recv_desp s : Inv s -> 0 <= sk (at_ s) -> wp vc_recv_desp s (fun _ => Inv).
Proof.
  intros Hi Hsk. destruct (Inv_up s Hi Hsk) as (l & Hup & Hg).
  pose proof (G_tls _ _ _ _ Hg) as Ht. unfold vc_recv_desp.
  apply wp_bind, wp_gets. destruct (ssl (at_ s)) as [i|] eqn:Hssl; apply wp_bind.
  - eapply wp_frame_recv_ssl; [exact Hg|done|lia|by vm_compute|]. intros r s1 Hg1 _ _.
    apply wp_if; intros _; [|apply wp_if; intros _].
    + destruct (stack_last (S_netdown :: l)) as (l' & x & El); [done|].
      eapply (wp_curnt l' x); [rewrite <- El; exact Hg1|]. by eapply up_Inv.
    + by eapply wp_lost.
    + by eapply wp_recv_packet.
  - eapply wp_frame_recv_tcp; [exact Hg|lia|by vm_compute|]. intros r s1 Hg1 _ _.
    apply wp_if; intros _; [by eapply wp_lost|]. eapply wp_recv_packet; [done|exact Hg1|]. by rewrite <- Ht.
Qed.
End recv.

(** ** The loop *)

(** Like [wp], but the program may also fault, provided that [F]. *)
Definition wpf {W A} (F : Prop) (m : Prog W A) (s : St W) (Q : A -> St W -> Prop) : Prop :=
  match m s with Ok x s' => Q x s' | Fault => F | _ => False end.

Lemma wpf_wp {W A} F (m : Prog W A) s Q : wp m s Q -> wpf F m s Q.
Proof. unfold wp, wpf. by destruct (m s). Qed.

Lemma wpf_bind {W A B} F (m : Prog W A) (k : A -> Prog W B) s Q :
  wpf F m s (fun x s' => wpf F (k x) s' Q) -> wpf F (m ≫= k) s Q.
Proof. unfold wpf, mbind, prog_bind. by destruct (m s). Qed.

Lemma wpf_mono {W A} F (m : Prog W A) s (Q Q' : A -> St W -> Prop) :
  wpf F m s Q -> (forall x s', Q x s' -> Q' x s') -> wpf F m s Q'.
Proof. unfold wpf. destruct (m s); auto. Qed.

Section loop.
Context {W : Type} `{Os W} `{!DrvLaws W} `{!SockLaws W} `{!SslProgress W} `{TlsMode}.
Context (fd_set_undef : list Z -> list Z).
Implicit Types s : St W.

Lemma Inv_G s : Inv s -> exists l c o, G l c o s.
Proof. intros [[Hg _]|(b & _ & [Hg|Hg])]; eauto. Qed.

Lemma Inv_world s (w : W) t : Inv s -> Inv (mk_st (at_ s) w t (rbuf s)).
Proof.
  intros [[Hg Hr]|(b & Hb & [Hg|Hg])]; [left; split; [by apply G_world|exact Hr]|right; exists b..].
  all: split; [done|]; (left + right); by apply G_world.
Qed.

Lemma Inv_ssl_frame s s' : ssl_frame s s' -> 0 <= sk (at_ s) -> Inv s -> Inv s'.
Proof.
  intros Hf Hsk Hi. destruct (Inv_up s Hi Hsk) as (l & Hup & Hg).
  eapply up_Inv; [done|]. by eapply G_ssl_frame.
Qed.

Lemma wp_update_Inv id s (Q : Z -> St W -> Prop) :
  Inv s -> (forall r s', Inv s' -> Q r s') -> wp (vc_buf_update id) s Q.
Proof.
  intros [Hd|(b & Hb & [Hg|Hg])] HQ.
  - eapply wp_buf_update_down; [done|]. intros; apply HQ; by left.
  - eapply wp_buf_update; [exact Hg|]. intros; apply HQ; right; eauto.
  - eapply wp_buf_update; [exact Hg|]. intros; apply HQ; right; eauto.
Qed.

Lemma wp_attr_Inv s (Q : adv_port_info -> St W -> Prop) :
  Inv s -> (forall i, Q i s) -> wp attr_p s Q.
Proof. intros (l & c & o & Hg)%Inv_G HQ. by eapply wp_attr_p. Qed.

Lemma wp_run m s (Q : unit -> St W -> Prop) :
  wp m s (fun _ => Inv) -> (forall s', Inv s' -> Q tt s') -> wp (run m) s Q.
Proof. intros Hm HQ. unfold run. apply wp_bind. eapply wp_mono; [exact Hm|]. cbv beta. intros; by apply wp_ret, HQ. Qed.

Lemma wp_loop_head s : Inv s -> wp loop_head s (fun _ => Inv).
Proof.
  intros Hi. unfold loop_head, follow_open, follow_line, follow_rx, follow_tx.
  apply wp_bind. eapply (wp_mono _ _ (fun _ => Inv)).
  { eapply wp_bind, wp_attr_Inv; [done|]. intros a. apply wp_bind, wp_gets, wp_when; intros _; [|done].
    apply wp_run; [|done]. case_if; apply wp_call_op; auto. }
  intros _ s1 Hi1. apply wp_bind. eapply (wp_mono _ _ (fun _ => Inv)).
  { eapply wp_bind, wp_attr_Inv; [done|]. intros a. apply wp_bind, wp_gets, wp_when; intros _; [|done].
    apply wp_run; [by apply wp_try_op|done]. }
  intros _ s2 Hi2. apply wp_bind. eapply (wp_mono _ _ (fun _ => Inv)).
  { apply wp_bind, wp_gets, wp_bind, wp_gets, wp_when; intros _; [|done].
    apply wp_run; [by apply wp_try_op|done]. }
  intros _ s3 Hi3. apply wp_bind, wp_gets, wp_when; intros _; [|done].
  apply wp_run; [by apply wp_try_op|done].
Qed.

Lemma wp_check_silence lrecv s (Q : Z -> St W -> Prop) :
  Inv s -> 0 <= sk (at_ s) -> (forall r s', Inv s' -> Q r s') -> wp (check_silence lrecv) s Q.
Proof.
  intros Hi Hsk HQ. unfold check_silence. apply wp_if; intros _; [|by apply wp_ret, HQ].
  destruct (Inv_up s Hi Hsk) as (l & _ & Hg). apply wp_bind, wp_run; [by eapply wp_lost|].
  intros; by apply wp_ret, HQ.
Qed.

Lemma wp_serve_socket zero tv lrecv rfds wfds s (Q : Z -> St W -> Prop) :
  Inv s -> (forall r s', Inv s' -> Q r s') -> wp (serve_socket zero tv lrecv rfds wfds) s Q.
Proof.
  intros Hi HQ. unfold serve_socket. apply wp_bind, wp_gets, wp_if; intros Hsk; bool_simpl; [by apply wp_ret, HQ|].
  assert (Hrecv : forall s', Inv s' -> 0 <= sk (at_ s') -> wp (run vc_recv_desp;; mret 0) s' Q).
  { intros s' Hs' Hk. apply wp_bind, wp_run; [by apply wp_recv_desp|]. intros; by apply wp_ret, HQ. }
  apply wp_bind, wp_gets. destruct (ssl (at_ s)) as [i|] eqn:Hssl.
  - destruct (Inv_up s Hi Hsk) as (l & _ & Hg). destruct (G_ssl_ready _ _ _ _ Hg Hssl) as (i' & Hi' & Hl).
    eapply wp_bind, wp_ssl_call; [done|done|]. intros pending w. cbv zeta.
    apply wp_if; intros _; [apply Hrecv|apply wp_check_silence]; try done; by apply Inv_world.
  - apply wp_if; intros _; [by apply Hrecv|by apply wp_check_silence].
Qed.

(** Asking a connection that was given up is the one fault. *)
Lemma tls_ask_spec rfds wfds s i :
  ssl (at_ s) = Some i ->
  if ssl_live i then exists r s', tls_ask rfds wfds s = Ok r s' /\ ssl_frame s s'
  else tls_ask rfds wfds s = Fault.
Proof.
  destruct s as [[] w t b]. simpl. intros ->.
  unfold tls_ask, upd_ssl, ssl_call, get_ssl, mbind, prog_bind, gets, modify, sys.
  cbn -[ssl_set_fds]. destruct (ssl_set_fds i 0 rfds wfds) as [[mx rs] ws]. cbn.
  destruct (ssl_live i) eqn:El; [|done].
  eexists _, _. split; [reflexivity|]. eexists i, _. split_and!; try done.
Qed.

Lemma wpf_tls_step rfds wfds s :
  Inv s -> 0 <= sk (at_ s) -> tls_on = true ->
  wpf (tls_on = true) (tls_step rfds wfds) s (fun _ => Inv).
Proof.
  intros Hi Hsk Ht. unfold tls_step. apply wpf_bind, wpf_wp.
  eapply wp_mono; [by apply wp_recv_desp|]. cbv beta. intros _ s1 Hi1.
  destruct (Inv_G s1 Hi1) as (l & c & o & Hg). pose proof (G_tls _ _ _ _ Hg) as Hssl.
  destruct (ssl (at_ s1)) as [i|] eqn:Ei; [|congruence].
  pose proof (tls_ask_spec rfds wfds s1 i Ei) as Hask. unfold wpf.
  destruct (ssl_live i) eqn:El; [|by rewrite Hask]. destruct Hask as (r & s2 & -> & Hf).
  eapply Inv_ssl_frame; [done| |done].
  destruct (G_conn _ _ _ _ Hg) as [Hk Hl]. rewrite Ei, El in Hl. by subst c.
Qed.

Lemma wp_loop_wait fd maxfd zero rfds wfds lrecv s :
  Inv s -> wp (loop_wait fd maxfd zero rfds wfds lrecv) s (fun _ => Inv).
Proof.
  intros Hi. unfold loop_wait. cbv zeta. apply wp_bind, wp_sys.
  intros [[ret [[rs ws] es]] tv] w _. cbv beta iota. pose proof (Inv_world _ w (pre_excp_t s) Hi) as Hi1.
  apply wp_if; intros _.
  { apply wp_bind, wp_run; [by apply wp_try_op|]. intros; by apply wp_ret. }
  assert (Hupd : forall (b : bool) id s', Inv s' ->
    wp (when b (_ ← vc_buf_update id; mret tt)) s' (fun _ => Inv)).
  { intros b id s' Hs'. apply wp_when; intros _; [|done]. eapply wp_bind, wp_update_Inv; [done|].
    intros; by apply wp_ret. }
  apply wp_bind. eapply wp_mono; [by apply Hupd|]. cbv beta. intros _ s2 Hi2.
  eapply wp_bind, wp_serve_socket; [done|]. intros lr s3 Hi3.
  apply wp_bind. eapply wp_mono; [by apply Hupd|]. cbv beta. intros _ s4 Hi4.
  apply wp_bind, wp_when; intros _; [|by apply wp_ret].
  eapply wp_bind, wp_update_Inv; [done|]. intros r s5 Hi5.
  apply wp_run; [by apply wp_try_op|]. intros; by apply wp_ret.
Qed.

Lemma wp_try_event rfds wfds s : Inv s -> wp (try_event rfds wfds) s (fun _ s' => s' = s).
Proof.
  intros (l & c & o & Hg)%Inv_G. unfold try_event. apply wp_bind.
  destruct (stack_last l) as (l' & x & ->); [apply Hg|]. eapply wp_curnt; [exact Hg|].
  destruct x; try by apply wp_ret. all: by apply wp_bind, wp_gets, wp_bind, wp_gets, wp_ret.
Qed.

Lemma wpf_loop_body lrecv s :
  Inv s -> wpf (tls_on = true) (loop_body fd_set_undef lrecv) s (fun _ => Inv).
Proof.
  intros Hi. unfold loop_body. apply wpf_bind, wpf_wp.
  eapply wp_mono; [by apply wp_loop_head|]. cbv beta. intros _ s1 Hi1.
  apply wpf_bind, wpf_wp, wp_gets, wpf_bind, wpf_wp, wp_gets. apply wpf_bind, wpf_wp.
  eapply wp_mono; [by apply wp_try_event|]. cbv beta. intros [rfds wfds] s2 ->. cbv beta iota.
  apply wpf_bind, wpf_wp. unfold ioctl_set at 1. apply wp_bind, wp_sys. intros [r v] w _.
  apply wp_ret. pose proof (Inv_world _ w (pre_excp_t s1) Hi1) as Hi2.
  set (s2 := mk_st (at_ s1) w (pre_excp_t s1) (rbuf s1)) in *. cbn [fst]. case_if; [exact Hi2|].
  cbv zeta. apply wpf_bind, wpf_wp, wp_gets.
  assert (Hend : forall t s3, Inv s3 -> wpf (tls_on = true)
    (let '(zero, rfds, wfds) := t in
     lrecv ← loop_wait (fd (at_ s1)) (if 0 <=? sk (at_ s1) then Z.max (sk (at_ s1)) (fd (at_ s1)) else fd (at_ s1))
       zero rfds wfds lrecv; mret (Some lrecv)) s3 (fun _ => Inv)).
  { intros [[zero rs] ws] s3 Hi3. apply wpf_wp, wp_bind. eapply wp_mono; [by apply wp_loop_wait|].
    cbv beta. intros; by apply wp_ret. }
  apply wpf_bind. case_if; [|apply wpf_wp, wp_ret; by apply (Hend (false, rfds, wfds))].
  destruct_and?. rename select (bool_decide _ = true) into Hssl. apply bool_decide_eq_true in Hssl.
  assert (Htls : tls_on = true).
  { destruct (Inv_G _ Hi2) as (l & c & o & Hg). rewrite <- (G_tls _ _ _ _ Hg). by destruct (ssl (at_ s2)). }
  eapply wpf_mono; [by apply wpf_tls_step|]. cbv beta. intros t s3 Hi3. by apply Hend.
Qed.

Lemma wpf_main_loop rounds lrecv s :
  Inv s -> wpf (tls_on = true) (main_loop fd_set_undef rounds lrecv) s (fun _ => Inv).
Proof.
  revert lrecv s. induction rounds as [|rounds IH]; intros lrecv s Hi; cbn [main_loop]; [done|].
  apply wpf_bind. eapply wpf_mono; [by apply wpf_loop_body|]. cbv beta. intros [lr|] s1 Hi1; [by apply IH|done].
Qed.
End loop.

(** ** Setting up, on the driver *)

Lemma sw_set_drv_id w : sw_set_drv (sw_drv w) w = w.
Proof. by destruct w. Qed.

(** A request that only reads. *)
Lemma wp_sim_get cmd v (s : St sim_world) (Q : Z * Z -> St sim_world -> Prop) :
  drv_okb (sw_drv (world s)) = true ->
  adv_proc_ioctl (sw_drv (world s)) cmd (uarg 0) = Some (0, uarg v, sw_drv (world s)) ->
  Q (0, v) s -> wp (ioctl_get cmd) s Q.
Proof.
  intros Hd Hi HQ. unfold ioctl_get. apply wp_sys. intros x w Hs. simpl in Hs. unfold sim_ioctl in Hs.
  rewrite Hd, Hi in Hs. simpl in Hs. rewrite sw_set_drv_id in Hs. injection Hs as <- <-.
  by destruct s.
Qed.

(** A port of the daemon before [main] sets it up: what is not set by the
    program arguments is arbitrary. *)
Definition raw_port (tls : bool) (s : St sim_world) : Prop :=
  drv_okb (sw_drv (world s)) = true /\ length (stk_stat (stk (at_ s))) = 10%nat /\
  match ssl (at_ s) with Some i => ssl_live i = false /\ tls = true | None => tls = false end /\
  zlen (rbuf s) = 4096.

Ltac sim_get := eapply wp_bind, wp_sim_get; [done|reflexivity|]; apply wp_if; intros ?; [done|].

Lemma wp_setup_rings tls (s : St sim_world) (Q : unit -> St sim_world -> Prop) :
  raw_port tls s ->
  (forall s', raw_port tls s' -> stk (at_ s') = stk (at_ s) -> sk (at_ s') = sk (at_ s) ->
     user_ring (utx (at_ s')) 0 -> user_ring (urx (at_ s')) PAGE_SIZE -> Q tt s') ->
  wp (_ ← vc_buf_setup VC_BUF_TX; _ ← vc_buf_setup VC_BUF_RX; mret tt) s Q.
Proof.
  intros Hraw HQ. pose proof Hraw as (Hd & Hl & Hs & Hr).
  pose proof (drv_okb_spec _ Hd) as (Ht & Hx & Hbt & Hbx & _).
  apply ring_okb_spec in Ht as (? & ? & ? & _). apply ring_okb_spec in Hx as (? & ? & ? & _).
  unfold vc_buf_setup, vc_buf_update. cbn -[wp ioctl_get mbind mret].
  apply wp_bind. do 2 sim_get. apply wp_bind, wp_modify. do 2 sim_get.
  apply wp_bind, wp_modify, wp_ret, wp_bind. do 2 sim_get. apply wp_bind, wp_modify. do 2 sim_get.
  apply wp_bind, wp_modify, wp_ret, wp_ret, HQ; try done.
Qed.

(** The attribute page. *)
Lemma wp_setup_attr tls (s : St sim_world) (Q : Z -> St sim_world -> Prop) :
  raw_port tls s ->
  (forall r s', length (stk_stat (stk (at_ s'))) = 10%nat -> stk (at_ s') = stk (at_ s) ->
     sk (at_ s') = sk (at_ s) -> ssl (at_ s') = ssl (at_ s) -> rbuf s' = rbuf s ->
     utx (at_ s') = utx (at_ s) -> urx (at_ s') = urx (at_ s) ->
     attr_off (at_ s') = 2 * PAGE_SIZE -> 0 <= attr_ptr (at_ s') < 2 -> Q r s') ->
  wp (vc_buf_setup VC_BUF_ATTR) s Q.
Proof.
  intros (Hd & Hl & Hs & Hr) HQ. pose proof (drv_okb_spec _ Hd) as (_ & _ & _ & _ & Hb & Ha).
  unfold vc_buf_setup, vc_buf_update. cbn -[wp ioctl_get mbind mret sys]. sim_get.
  apply wp_bind, wp_modify, wp_bind, wp_gets, wp_bind, wp_sys. intros [r v] w Hi.
  apply wp_bind, wp_modify, wp_ret, HQ; try done. simpl. cbn [world at_ set_attr_off attr_ptr] in Hi.
  simpl in Hi. unfold sim_ioctl in Hi. rewrite Hd in Hi. cbn [negb] in Hi.
  destruct (flush_attr_info_spec _ Ha) as (p & a & Hf & [Hp _] & -> & _).
  change (adv_proc_ioctl (sw_drv (world s)) ADVVCOM_IOCGATTRPTR (uarg (attr_ptr (at_ s)))) with
    (r ← flush_attr_info (attr (sw_drv (world s)));
     let '(tmp, a) := r in Some (0, uarg tmp, set_attr a (sw_drv (world s)))) in Hi.
  rewrite Hf in Hi. injection Hi as <- <- <-. exact Hp.
Qed.

Lemma wp_main_setup (tls : bool) (s : St sim_world) :
  raw_port tls s ->
  wp main_setup s (fun x s' => x = S_netdown /\ @Inv sim_world tls s' /\ sk (at_ s') = -1).
Proof.
  intros (Hd & Hl & Hs & Hr). unfold main_setup. apply wp_bind, wp_modify, wp_bind, wp_modify.
  assert (Hassoc : forall (k : Prog sim_world state_id) s0 Q,
    wp (_ ← (_ ← vc_buf_setup VC_BUF_TX; _ ← vc_buf_setup VC_BUF_RX; mret tt); k) s0 Q ->
    wp (_ ← vc_buf_setup VC_BUF_TX; _ ← vc_buf_setup VC_BUF_RX; k) s0 Q).
  { intros k s0 Q. unfold wp, mbind, prog_bind, mret, prog_ret.
    destruct (vc_buf_setup VC_BUF_TX s0) as [? s1| | |]; [|done..].
    by destruct (vc_buf_setup VC_BUF_RX s1). }
  apply Hassoc, wp_bind. eapply wp_setup_rings; [by split_and!|]. intros s1 Hraw Hst Hsk Htx Hrx.
  eapply wp_bind, wp_setup_attr; [done|]. intros _ s2 Hl2 Hst2 Hsk2 Hssl2 Hrb2 Htx2 Hrx2 Hoff Hp.
  rewrite Hst2, Hst in Hl2. simpl in Hl2.
  unfold stk_push. apply wp_bind, wp_bind, wp_gets. rewrite Hst2, Hst.
  apply wp_if; intros Hf; [done|]. cbv zeta.
  apply wp_bind, wp_lift. eexists. split; [reflexivity|]. apply wp_bind, wp_modify, wp_ret.
  unfold call_op, call_depth. rewrite dispatch_S. apply wp_bind.
  destruct (stk_stat (stk (at_ s))) as [|x0 k0] eqn:Hk; [done|].
  unfold stk_curnt. apply wp_bind, wp_gets. apply wp_if; intros He; [done|].
  apply wp_lift. exists S_netdown. split; [unfold stk_slot; simpl; by rewrite Hk|].
  cbn [handler]. unfold vc_netdown_init, drop_socket. apply wp_bind, wp_bind, wp_gets.
  apply wp_when; intros Hc; [exfalso; simpl in Hc; rewrite Hsk2, Hsk in Hc; done|]. do 3 apply wp_bind, wp_modify. apply wp_ret.
  destruct Hraw as (_ & _ & Hs1 & Hr1). rewrite <- Hssl2 in Hs1.
  split; [done|]. split; [|simpl; by rewrite Hsk2, Hsk]. left. split; [|done]. constructor; simpl; try done.
  - simpl. rewrite Hk. split_and!; simpl; try done. lia.
  - unfold bufs_ok. simpl. rewrite Htx2, Hrx2. repeat (split; [assumption|]); assumption.
  - split; [simpl; by rewrite Hsk2, Hsk|]. simpl. by destruct (ssl (at_ s2)) as [i|]; [destruct Hs1|].
  - congruence.
  - by destruct (ssl (at_ s2)) as [i|]; [destruct Hs1|].
Qed.

(** ** Runs in the simulated world *)

Definition raw_st (tls : bool) (d : adv_vcom eager_tty) : St sim_world :=
  mk_st (if tls then set_ssl (Some sslinfo_alloc) blank_attr else blank_attr)
    (sim_start d []) 0 (replicate 4096 Byte.x00).

Lemma raw_st_raw tls d : drv_okb d = true -> raw_port tls (raw_st tls d).
Proof. by destruct tls. Qed.

Definition result_state {A} (m : Prog sim_world A) (s : St sim_world) : St sim_world :=
  match m s with Ok _ s' => s' | _ => s end.

(** The port as [main] sets it up, and after the connection was opened. *)
Definition set_up (tls : bool) (d : adv_vcom eager_tty) : St sim_world :=
  result_state main_setup (raw_st tls d).
Definition connected_st (tls : bool) (d : adv_vcom eager_tty) : St sim_world :=
  result_state (call_op OpOpen) (set_up tls d).

Lemma wp_result {A} (m : Prog sim_world A) s Q : wp m s Q -> exists x, Q x (result_state m s).
Proof. unfold wp, result_state. destruct (m s); [eauto|done..]. Qed.

Lemma set_up_Inv tls d : drv_okb d = true -> @Inv sim_world tls (set_up tls d).
Proof.
  intros Hd. destruct (wp_result _ _ _ (wp_main_setup tls _ (raw_st_raw tls d Hd))) as (x & _ & Hi & _).
  exact Hi.
Qed.

Lemma connected_Inv tls d : drv_okb d = true -> @Inv sim_world tls (connected_st tls d).
Proof.
  intros Hd.
  pose proof (@wp_call_op sim_world _ _ _ _ tls OpOpen _ (set_up_Inv tls d Hd) (or_introl eq_refl)) as Hw.
  destruct (wp_result _ _ _ Hw) as [_ Hi]. exact Hi.
Qed.

Definition idle_port : adv_vcom eager_tty := fresh_port [].

(** C11: [main] sets the port up to a state of the invariant, Net Down, from
    whatever the variables hold, on every sound device. *)
Theorem main_setup_invariant (tls : bool) (s : St sim_world) :
  raw_port tls s ->
  exists s', main_setup s = Ok S_netdown s' /\ @Inv sim_world tls s' /\ sk (at_ s') = -1.
Proof.
  intros Hraw. pose proof (wp_main_setup tls s Hraw) as Hw.
  unfold wp in Hw. destruct (main_setup s) as [x s'| | |]; try done. destruct Hw as (-> & ? & ?). eauto.
Qed.

Lemma main_setup_invariant_witness :
  exists s', main_setup (raw_st true idle_port) = Ok S_netdown s' /\ @Inv sim_world true s' /\
    sk (at_ s') = -1.
Proof. apply (main_setup_invariant true), raw_st_raw. reflexivity. Defined.

(** What the invariant says of the state on top of the stack. *)
Lemma Inv_shape {W} `{TlsMode} (s : St W) :
  Inv s -> exists x, stk_curnt s = Ok x s /\ x <> S_sync /\
    (x = S_netdown <-> sk (at_ s) = -1) /\
    (match ssl (at_ s) with Some i => ssl_live i = true <-> x <> S_netdown | None => True end).
Proof.
  intros Hi. assert (Hcur : forall l x c o, G (l ++ [x]) c o s -> stk_curnt s = Ok x s).
  { intros l x c o Hg. destruct (G_loggable _ _ _ _ Hg) as [Hp _].
    pose proof (stack_slot _ _ _ (G_stack _ _ _ _ Hg)) as Hs.
    unfold stk_curnt, mbind, prog_bind, gets, stk_empty. rewrite (proj2 (Z.ltb_ge _ _)) by lia. by rewrite Hs. }
  assert (Hup : forall x, x <> S_netdown -> 0 <= sk (at_ s) ->
    match ssl (at_ s) with Some i => ssl_live i = true | None => True end ->
    (x = S_netdown <-> sk (at_ s) = -1) /\
    (match ssl (at_ s) with Some i => ssl_live i = true <-> x <> S_netdown | None => True end)).
  { intros x Hx Hsk Hl. split; [split; [done|lia]|]. by destruct (ssl (at_ s)). }
  destruct Hi as [[Hg _]|(b & Hb & [Hg|Hg])]; destruct (G_conn _ _ _ _ Hg) as [Hc Hl].
  - exists S_netdown. split; [by apply (Hcur [] _ _ _ Hg)|]. split; [done|]. split; [done|].
    destruct (ssl (at_ s)); [|done]. rewrite Hl. by split.
  - exists b. split; [by apply (Hcur [S_netdown] _ _ _ Hg)|]. split; [by destruct Hb as [-> | ->]|].
    apply Hup; [by destruct Hb as [-> | ->]|done|done].
  - exists S_idle. split; [by apply (Hcur [S_netdown; b] _ _ _ Hg)|]. split; [done|]. by apply Hup.
Qed.



(** C1: without TLS the daemon never gets stuck: from a state of the
    invariant, every number of rounds of the main loop returns, in a state of
    the invariant, whatever the driver, the kernel and the peer do.  No call
    goes through an unset or null handler, no packet is read or written outside
    of its buffer, no state exits the program, and the nested calls of the
    state machine end within [call_depth]. *)
Theorem main_loop_invariant {W} `{Os W} `{!DrvLaws W} `{!SockLaws W} `{!SslProgress W}
    (undef : list Z -> list Z) (rounds : nat) (lrecv : Z) (s : St W) :
  @Inv W false s ->
  exists r s', main_loop undef rounds lrecv s = Ok r s' /\ @Inv W false s'.
Proof.
  intros Hi. pose proof (@wpf_main_loop W _ _ _ _ false undef rounds lrecv s Hi) as Hw.
  unfold wpf in Hw. destruct (main_loop undef rounds lrecv s) as [r s'| | |]; try done.
  - by exists r, s'.
Qed.

Lemma main_loop_invariant_witness :
  exists r s', main_loop (fun l => l) 7 0 (set_up false idle_port) = Ok r s' /\ @Inv sim_world false s'.
Proof. apply (main_loop_invariant (fun l => l) 7 0 (set_up false idle_port)), set_up_Inv. reflexivity. Defined.

(** C39: with TLS a round that receives ahead of its select call and loses the
    connection doing so goes on to ask OpenSSL about the session it has just
    freed; while the connection lasts the step keeps the invariant. *)
Theorem tls_step_use_after_free {W} `{Os W} `{!DrvLaws W} `{!SockLaws W} `{!SslProgress W}
    (rfds wfds : list Z) (s : St W) :
  @Inv W true s -> 0 <= sk (at_ s) ->
  exists c s1, vc_recv_desp s = Ok c s1 /\ @Inv W true s1 /\
    (sk (at_ s1) = -1 -> tls_step rfds wfds s = Fault) /\
    (sk (at_ s1) <> -1 -> exists r s2, tls_step rfds wfds s = Ok r s2 /\ @Inv W true s2).
Proof.
  intros Hi Hsk. pose proof (@wp_recv_desp W _ _ _ _ true s Hi Hsk) as Hw. unfold wp in Hw.
  unfold tls_step, mbind, prog_bind.
  destruct (vc_recv_desp s) as [c s1| | |]; try done. exists c, s1.
  destruct (Inv_G s1 Hw) as (l & up & o & Hg). pose proof (G_tls _ _ _ _ Hg) as Hssl.
  destruct (ssl (at_ s1)) as [i|] eqn:Ei; [|done].
  pose proof (tls_ask_spec rfds wfds s1 i Ei) as Hask.
  destruct (G_conn _ _ _ _ Hg) as [Hk Hl]. rewrite Ei in Hl. rewrite Hl in Hask.
  split_and!; try done; intros Hc; destruct up; try lia; [done|].
  destruct Hask as (r & s2 & Hr & Hf). exists r, s2. split; [done|]. by eapply Inv_ssl_frame.
Qed.

Lemma tls_step_use_after_free_witness :
  exists c s1, vc_recv_desp (connected_st true idle_port) = Ok c s1 /\ @Inv sim_world true s1 /\
    tls_step [] [] (connected_st true idle_port) = Fault.
Proof.
  destruct (tls_step_use_after_free [] [] (connected_st true idle_port)) as (c & s1 & Hr & Hi & Hf & _);
    [apply connected_Inv; reflexivity|vm_compute; discriminate|].
  exists c, s1. split; [exact Hr|]. split; [exact Hi|]. apply Hf.
  assert (Hsk : match vc_recv_desp (connected_st true idle_port) with
                | Ok _ s => sk (at_ s) = -1 | _ => False end) by (vm_compute; reflexivity).
  rewrite Hr in Hsk. exact Hsk.
Defined.



(** ** Pieces of a frame *)

(** a part of a packet that arrives in two pieces is put together in the
    buffer; when the two pieces are not all of it, it is refused. *)
Theorem frame_recv_two_pieces (off rlen : Z) (p1 p2 : list byte) (more : list (list byte))
    (s : St sim_world) :
  zlen (rbuf s) = 4096 -> 0 <= off -> off + rlen <= 4096 -> sk (at_ s) <> sim_fd ->
  0 < zlen p1 -> 0 < zlen p2 -> zlen p1 + zlen p2 <= rlen ->
  sw_in (world s) = p1 :: p2 :: more ->
  exists s', vc_frame_recv_tcp off rlen s =
      Ok (if zlen p1 + zlen p2 =? rlen then rlen else -2) s' /\
    load off (zlen p1 + zlen p2) (rbuf s') = Some (p1 ++ p2) /\
    sw_in (world s') = more /\ at_ s' = at_ s.
Proof.
  intros Hb Ho Hr Hsk H1 H2 Hle Hin.
  destruct (store off p1 (rbuf s)) as [m1|] eqn:Hs1; [|rewrite store_Some in Hs1 by lia; done].
  pose proof (store_zlen _ _ _ _ Hs1) as Hz1.
  destruct (store (off + zlen p1) p2 m1) as [m2|] eqn:Hs2; [|rewrite store_Some in Hs2 by lia; done].
  pose proof (load_store_two _ _ _ _ _ _ Hs1 Hs2) as Hload.
  assert (Hw : wp (vc_frame_recv_tcp off rlen) s (fun r s' =>
    r = (if zlen p1 + zlen p2 =? rlen then rlen else -2) /\ rbuf s' = m2 /\
    sw_in (world s') = more /\ at_ s' = at_ s)).
  { assert (Hput : forall o p m s0 (Q : unit -> St sim_world -> Prop), store o p (rbuf s0) = Some m ->
      Q tt (mk_st (at_ s0) (world s0) (pre_excp_t s0) m) -> wp (rbuf_store o p) s0 Q).
    { intros o p m s0 Q Hs HQ. unfold wp, rbuf_store. by rewrite Hs. }
    unfold vc_frame_recv_tcp, recv_into. apply wp_bind, wp_gets, wp_bind, wp_bind, wp_sys.
    intros x w Hx. simpl in Hx. unfold sim_recv in Hx. rewrite Hin in Hx.
    rewrite (proj2 (Z.leb_le (zlen p1) rlen)) in Hx by lia. injection Hx as <- <-. cbv beta iota.
    apply wp_bind, wp_when; intros Hp; bool_simpl; [|lia].
    eapply Hput; [exact Hs1|]. apply wp_ret.
    apply wp_if; intros Ha; bool_simpl; [lia|]. apply wp_if; intros Hb'; bool_simpl; [lia|].
    apply wp_if; intros Hc; bool_simpl; [|lia].
    unfold recv_second_chance. apply wp_bind, wp_bind, wp_sys. intros x w Hx. simpl in Hx.
    unfold sim_select in Hx. simpl in Hx. rewrite (proj2 (Z.eqb_neq _ _) Hsk) in Hx.
    rewrite (proj2 (Z.ltb_lt 0 (zlen (p2 :: more)))) in Hx
      by (rewrite zlen_cons; pose proof (zlen_nonneg more); lia).
    injection Hx as <- <-. cbv beta iota. apply wp_if; intros Hd; [vm_compute in Hd; discriminate Hd|].
    unfold recv_into. apply wp_bind, wp_sys. intros x w Hx. simpl in Hx. unfold sim_recv in Hx. simpl in Hx.
    rewrite (proj2 (Z.leb_le (zlen p2) (rlen - zlen p1))) in Hx by lia. injection Hx as <- <-. cbv beta iota.
    apply wp_bind, wp_when; intros Hp2; bool_simpl; [|lia].
    eapply Hput; [exact Hs2|]. apply wp_ret. cbv zeta. case_if; apply wp_ret; done. }
  unfold wp in Hw. destruct (vc_frame_recv_tcp off rlen s) as [r s'| | |]; try done.
  destruct Hw as (-> & Hm & ? & ?). exists s'. rewrite Hm. by split_and!.
Qed.

Lemma frame_recv_two_pieces_witness :
  let s := mk_st blank_attr (sw_set_in [be 3 5; be 2 6; be 1 7] (sim_start idle_port [])) 0
             (replicate 4096 Byte.x00) in
  exists s', vc_frame_recv_tcp 0 5 s = Ok 5 s' /\ load 0 5 (rbuf s') = Some (be 3 5 ++ be 2 6).
Proof.
  intros s. destruct (frame_recv_two_pieces 0 5 (be 3 5) (be 2 6) [be 1 7] s) as (s' & Hr & Hl & _);
    [vm_compute; reflexivity|lia|lia|vm_compute; discriminate|vm_compute; reflexivity|vm_compute; reflexivity
    |vm_compute; discriminate|reflexivity|].
  exists s'. split; [exact Hr|exact Hl].
Defined.
