(* ===== verification/System.v ===== *)
(** * The daemon on the driver

    The data path across the two programs, in [sim_world]: what the daemon does
    to the rings is one of the port operations of [DrvMain], so that the
    pipes of [port_refines_pipes] carry the payload of the packets.

    [synced] says that the indices the daemon has cached are the driver's, as
    they are after [vc_buf_update]. *)

From stdpp Require Import gmap.
From S2P Require Import Prelude RingBuf Tty Uart DrvMain Proto Os SslSelect SimWorld Vcom Connect.
From S2P Require Import Client ClientProofs SimLaws ClientInv MainLoop MainProofs.

Definition synced (u : U.ring_buf) (k : K.ring_buf) : Prop :=
  U.head u = K.head k /\ U.tail u = K.tail k /\ U.size u = K.size k.

Lemma synced_funs u k : synced u k ->
  get_rb_length u = get_rb_length k /\ get_rb_llength u = get_rb_llength k /\
  get_rb_room u = get_rb_room k /\ get_rb_lroom u = get_rb_lroom k.
Proof.
  intros (Hh & Ht & Hs). unfold get_rb_llength, get_rb_lroom, get_rb_room, get_rb_length. simpl.
  by rewrite Hh, Ht, Hs.
Qed.

Local Notation "'drv' s" := (sw_drv (world s)) (at level 10).

Lemma synced_user u k begin : user_ring u begin -> ring_okb k = true ->
  U.head u = K.head k -> U.tail u = K.tail k -> synced u k.
Proof. intros (_ & Hs & _) (_ & _ & Hk & _)%ring_okb_spec ??. split_and!; congruence. Qed.

(** A device whose pages were written to is still sound. *)
Lemma okb_set_tx d m :
  drv_okb d = true -> zlen m = zlen (K.data (tx d)) ->
  drv_okb (set_tx (K.set_data m (tx d)) d : adv_vcom eager_tty) = true.
Proof. intros Hd Hm. unfold drv_okb, ring_okb in *. simpl in *. by rewrite Hm. Qed.

Section data.
Context `{TlsMode}.
Implicit Types s : St sim_world.

(** *** The peer's data *)

(** The two copies into the page are [ring_copy]. *)
Lemma wp_copy_payload buf p s (Q : unit -> St sim_world -> Prop) :
  drv_okb (drv s) = true -> ring_ok (tx (drv s)) -> synced (utx (at_ s)) (tx (drv s)) ->
  U.mbase (utx (at_ s)) = 0 -> zlen p <= get_rb_room (tx (drv s)) ->
  load off_data (zlen p) buf = Some p ->
  (forall m, ring_copy (tx (drv s)) p = Some (K.set_data m (tx (drv s))) ->
     zlen m = zlen (K.data (tx (drv s))) ->
     Q tt (mk_st (at_ s) (sw_set_drv (set_tx (K.set_data m (tx (drv s))) (drv s)) (world s))
             (pre_excp_t s) (rbuf s))) ->
  wp (copy_payload (utx (at_ s)) buf (zlen p)) s Q.
Proof.
  intros Hd Hok Hsync Hmb Hroom Hp HQ.
  destruct (synced_funs _ _ Hsync) as (_ & _ & _ & Hlr). destruct Hsync as (_ & Ht & _).
  pose proof (drv_okb_spec _ Hd) as (Hrb & _). apply ring_okb_spec in Hrb as (_ & Htl & Hsz & Hdl).
  destruct (rb_lroom_range _ (ring_ok_geom _ Hok)) as [Hl Hend]. simpl in Hend.
  pose proof (rb_room_range _ (ring_ok_geom _ Hok)) as Hrr. simpl in Hrr. pose proof (zlen_nonneg p).
  unfold copy_payload. rewrite Hlr, Hmb. change (get_rb_tail (utx (at_ s))) with (U.tail (utx (at_ s))).
  rewrite Ht, Z.add_0_l. apply wp_bind, wp_get_world. apply wp_if; intros Hfit; bool_simpl.
  - apply wp_bind, wp_lift. exists p. split; [done|]. apply wp_bind, wp_lift.
    destruct (store (K.tail (tx (drv s))) p (K.data (tx (drv s)))) as [m|] eqn:Hst;
      [|rewrite store_Some in Hst by lia; done].
    eexists. split.
    { simpl. unfold sim_map_store. rewrite Hd. simpl. rewrite (proj2 (Z.ltb_lt _ _)) by lia.
      rewrite Hst. reflexivity. }
    apply (HQ m).
    + unfold ring_copy. rewrite (proj2 (Z.leb_le _ _)) by lia. by rewrite Hst.
    + by apply store_zlen in Hst.
  - assert (Hload : forall n, 0 <= n <= zlen p -> load off_data n buf = Some (ztake n p) /\
      load (off_data + n) (zlen p - n) buf = Some (zdrop n p)).
    { intros n Hn. by apply load_split. }
    destruct (Hload (get_rb_lroom (tx (drv s)))) as [Hp1 Hp2]; [lia|].
    set (lr := get_rb_lroom (tx (drv s))) in *.
    assert (Hz1 : zlen (ztake lr p) = lr) by (apply zlen_ztake; lia).
    assert (Hz2 : zlen (zdrop lr p) = zlen p - lr) by (apply zlen_zdrop; lia).
    apply wp_bind, wp_lift. eexists. split; [exact Hp1|]. apply wp_bind, wp_lift.
    destruct (store (K.tail (tx (drv s))) (ztake lr p) (K.data (tx (drv s)))) as [m|] eqn:Hst;
      [|rewrite store_Some in Hst by lia; done].
    pose proof (store_zlen _ _ _ _ Hst) as Hm. eexists. split.
    { simpl. unfold sim_map_store. rewrite Hd. simpl. rewrite (proj2 (Z.ltb_lt _ _)) by lia.
      rewrite Hst. reflexivity. }
    apply wp_bind, wp_lift. eexists. split; [exact Hp2|]. apply wp_bind, wp_lift.
    destruct (store 0 (zdrop lr p) m) as [m2|] eqn:Hst2; [|rewrite store_Some in Hst2 by lia; done].
    pose proof (store_zlen _ _ _ _ Hst2) as Hm2. eexists. split.
    { simpl. unfold sim_map_store. cbn [sw_drv sw_set_drv]. rewrite okb_set_tx by done. simpl.
      rewrite Hst2. reflexivity. }
    apply (HQ m2).
    + unfold ring_copy. fold lr. rewrite (proj2 (Z.leb_gt _ _)) by lia. by rewrite Hst; simpl; rewrite Hst2.
    + congruence.
Qed.

(** The cases of [vc_common_recv] by command. *)
Lemma recv_case_data call buf len s Q :
  get16 off_cmd buf = Some VCOM_CMD_DATAREADY -> sizeof_vc_proto_hdr <= len ->
  wp (recv_dataready call buf len) s Q -> wp (vc_common_recv call buf len) s Q.
Proof.
  intros Hc Hl Hw. unfold wp, vc_common_recv in *. rewrite (proj2 (Z.ltb_ge _ _)) by done.
  rewrite Hc. exact Hw.
Qed.

Lemma recv_case_write {W} `{Os W} call buf len (s : St W) Q :
  get16 off_cmd buf = Some VCOM_CMD_WRITE -> sizeof_vc_proto_hdr <= len ->
  wp (recv_write call buf len) s Q -> wp (vc_common_recv call buf len) s Q.
Proof.
  intros Hc Hl Hw. unfold wp, vc_common_recv in *. rewrite (proj2 (Z.ltb_ge _ _)) by done.
  rewrite Hc. exact Hw.
Qed.

(** A request of the daemon that the device carries out. *)
Lemma wp_sim_set cmd arg d' s (Q : Z -> St sim_world -> Prop) :
  drv_okb (drv s) = true -> ioctl_on (drv s) cmd arg = Some d' ->
  (forall r, Q r (mk_st (at_ s) (sw_set_drv d' (world s)) (pre_excp_t s) (rbuf s))) ->
  wp (ioctl_set cmd arg) s Q.
Proof.
  intros Hd Hi HQ. unfold ioctl_set. apply wp_bind, wp_sys. intros x w Hs. simpl in Hs.
  unfold sim_ioctl in Hs. rewrite Hd in Hs. cbn [negb] in Hs. unfold ioctl_on in Hi.
  destruct (adv_proc_ioctl (drv s) cmd (uarg arg)) as [[[r u] d]|]; [|done].
  injection Hi as ->. injection Hs as <- <-. apply wp_ret, HQ.
Qed.

Definition data_frame (tid : Z) (p : list byte) : frame :=
  mk_frame tid VCOM_CMD_DATAREADY STATUS_SUCCESS (zlen p) p.

Lemma wp_dataready b call tid p rest len s (Q : state_id -> St sim_world -> Prop) :
  G [S_netdown; b] true 1 s -> frame_ok (data_frame tid p) ->
  drv_okb (drv s) = true -> drv_ok (drv s) -> synced (utx (at_ s)) (tx (drv s)) ->
  zlen p <= get_rb_room (tx (drv s)) ->
  (forall d', port_do (drv s) (O_produce p) = Some d' ->
     Q b (mk_st (at_ s) (sw_set_drv d' (world s)) (pre_excp_t s) (rbuf s))) ->
  wp (recv_dataready call (frame_bytes (data_frame tid p) ++ rest) len) s Q.
Proof.
  intros Hg Hf Hd Hok Hsync Hroom HQ. destruct (G_bufs _ _ _ _ Hg) as ((Hmb & _) & _).
  destruct (synced_funs _ _ Hsync) as (_ & _ & Hr & _).
  unfold recv_dataready. apply wp_bind, wp_gets. cbv zeta. apply wp_bind, wp_lift.
  eexists. split; [by apply vc_check_recv_spec|]. cbn [data_frame f_p1 f_p2 f_ext].
  rewrite Z.eqb_refl, Z.eqb_refl. cbn [andb]. rewrite Hr.
  apply wp_if; intros Hbad; bool_simpl; [lia|]. apply wp_bind.
  apply wp_copy_payload; try done; [apply Hok|apply (load_ext (data_frame tid p))|].
  intros m Hcopy Hm.
  destruct (produce_runs (drv s) p Hok Hroom) as (d' & Hdo & _). pose proof Hdo as Hdo'.
  unfold port_do in Hdo. rewrite Hcopy in Hdo. cbn [mbind option_bind] in Hdo.
  eapply wp_bind, wp_sim_set; [by apply okb_set_tx|exact Hdo|]. intros r.
  eapply (wp_curnt [S_netdown] b); [|by apply HQ].
  apply (G_world _ _ _ s). exact Hg.
Qed.
End data.

(** C4: the payload of a data packet reaches the application.  The daemon's
    handling of the packet is the port operation [O_produce] of the driver:
    the bytes are appended, in order, to what the application has received and
    what waits for it; and nothing else of the daemon's state changes. *)
Theorem dataready_delivers (tls : bool) (b : state_id) (tid : Z) (p rest : list byte)
    (s : St sim_world) :
  base b -> @G sim_world tls [S_netdown; b] true 1 s ->
  frame_ok (data_frame tid p) ->
  drv_okb (sw_drv (world s)) = true -> drv_ok (sw_drv (world s)) ->
  synced (utx (at_ s)) (tx (sw_drv (world s))) ->
  zlen p <= get_rb_room (tx (sw_drv (world s))) ->
  exists s', try_op (OpRecv (frame_bytes (data_frame tid p) ++ rest) (20 + zlen p)) s = Ok b s' /\
    at_ s' = at_ s /\ drv_ok (sw_drv (world s')) /\
    port_do (sw_drv (world s)) (O_produce p) = Some (sw_drv (world s')) /\
    stream_down (view (sw_drv (world s'))) = stream_down (view (sw_drv (world s))) ++ p.
Proof.
  intros Hb Hg Hf Hd Hok Hsync Hroom.
  destruct (produce_runs (sw_drv (world s)) p Hok Hroom) as (d' & Hdo & Hok' & Hstep).
  destruct (pipe_step_streams (O_produce p) _ _ Hstep eq_refl) as (Hdn & _). simpl in Hdn.
  rewrite app_nil_r in Hdn.
  assert (Hw : wp (try_op (OpRecv (frame_bytes (data_frame tid p) ++ rest) (20 + zlen p))) s
    (fun x s' => x = b /\ at_ s' = at_ s /\ sw_drv (world s') = d')).
  { unfold try_op. eapply wp_bind, (@wp_curnt sim_world tls [S_netdown] b); [exact Hg|].
    assert (Hh : handler (dispatch call_depth) b (OpRecv (frame_bytes (data_frame tid p) ++ rest) (20 + zlen p))
      = Some (vc_common_recv (dispatch call_depth) (frame_bytes (data_frame tid p) ++ rest) (20 + zlen p)))
      by (destruct Hb as [-> | ->]; done).
    rewrite Hh. pose proof (zlen_nonneg p).
    apply recv_case_data; [unfold get16; by rewrite load_cmd|change sizeof_vc_proto_hdr with 12; lia|].
    eapply (@wp_dataready tls b); try done.
    intros d'' Hdo2. rewrite Hdo2 in Hdo. by injection Hdo as ->. }
  unfold wp in Hw. destruct (try_op _ s) as [x s'| | |]; try done.
  destruct Hw as (-> & Hat & <-). exists s'. split_and!; done.
Qed.

(** *** Acknowledged writes *)

Definition ack_of (tid n : Z) : frame := mk_frame tid VCOM_CMD_WRITE STATUS_SUCCESS n [].

Lemma okb_consume (d : adv_vcom eager_tty) n :
  drv_okb d = true -> drv_ok d -> 0 <= n <= get_rb_length (rx d) ->
  drv_okb (set_rx (move_rb_head (rx d) n) d) = true.
Proof.
  intros Hd (_ & Hrx & _) Hn. destruct (move_rb_head_idle _ _ Hrx Hn) as ([[Hg Hl] _] & _).
  destruct Hrx as [_ Hst]. apply drv_okb_spec in Hd as (Ht & Hx & Hbt & Hbx & Hba & [Hp Ha]).
  apply ring_okb_spec in Hx as (_ & _ & Hsz & _).
  assert (Hsize : K.size (move_rb_head (rx d) n) = PAGE_SIZE) by (by rewrite move_rb_head_size).
  assert (Hbeg : K.begin (move_rb_head (rx d) n) = PAGE_SIZE) by (unfold move_rb_head; by rewrite Hst).
  destruct Hg as (_ & Hh & Htl). simpl in Hh, Htl. rewrite Hsize in *.
  unfold drv_okb, ring_okb at 2, idx_okb. cbn [tx rx attr set_rx]. rewrite Ht, Hsize, Hbeg, Hl, Hbt, Hba, Ha.
  rewrite !(proj2 (Z.leb_le 0 _)), !(proj2 (Z.ltb_lt _ _)) by lia. reflexivity.
Qed.

(** The cached indices of a ring are the driver's. *)
Lemma wp_sim_update_rx `{TlsMode} b s (Q : Z -> St sim_world -> Prop) :
  G [S_netdown; b] true 1 s -> drv_okb (sw_drv (world s)) = true ->
  (forall s', G [S_netdown; b] true 1 s' -> world s' = world s ->
     xmit_pending (at_ s') = xmit_pending (at_ s) ->
     synced (urx (at_ s')) (rx (sw_drv (world s'))) -> Q 0 s') ->
  wp (vc_buf_update VC_BUF_RX) s Q.
Proof.
  intros Hg Hd HQ. unfold vc_buf_update. cbn -[wp ioctl_get mbind mret]. do 2 sim_get.
  apply wp_bind, wp_modify, wp_ret. pose proof (drv_okb_spec _ Hd) as (_ & Hx & _).
  pose proof (ring_okb_spec _ Hx) as (? & ? & ? & _).
  pose proof (G_set_ring true (K.head (rx (sw_drv (world s)))) (K.tail (rx (sw_drv (world s))))
    _ _ _ _ Hg) as Hg'. apply HQ; [by apply Hg'|done|done|].
  destruct (G_bufs _ _ _ _ Hg) as (_ & (_ & Hs & _) & _). split_and!; [done|done|]. simpl. congruence.
Qed.

(** C5: an acknowledgement of the outstanding write takes exactly the written
    bytes out of the application's stream: it is the port operation
    [O_consume] of the driver; afterwards no write is outstanding and the
    daemon's view of the ring is the driver's. *)
Theorem write_ack_consumes (tls : bool) (b : state_id) (tid n : Z) (rest : list byte)
    (s : St sim_world) :
  base b -> @G sim_world tls [S_netdown; b] true 1 s ->
  frame_ok (ack_of tid n) -> n = xmit_pending (at_ s) ->
  drv_okb (sw_drv (world s)) = true -> drv_ok (sw_drv (world s)) ->
  n <= get_rb_length (rx (sw_drv (world s))) ->
  exists s', try_op (OpRecv (frame_bytes (ack_of tid n) ++ rest) 20) s = Ok b s' /\
    xmit_pending (at_ s') = 0 /\ drv_ok (sw_drv (world s')) /\
    port_do (sw_drv (world s)) (O_consume n) = Some (sw_drv (world s')) /\
    stream_up (view (sw_drv (world s'))) = zdrop n (stream_up (view (sw_drv (world s)))) /\
    synced (urx (at_ s')) (rx (sw_drv (world s'))).
Proof.
  intros Hb Hg Hf Hn Hd Hok Hlen. pose proof (G_pending _ _ _ _ Hg) as Hp.
  destruct (consume_runs (sw_drv (world s)) n Hok) as (d' & Hdo & Hok' & Hstep); [lia|].
  destruct (pipe_step_streams (O_consume n) _ _ Hstep eq_refl) as (_ & Hup & _). simpl in Hup.
  rewrite Z.add_0_r in Hup.
  assert (Hd' : drv_okb d' = true).
  { assert (d' = set_rx (move_rb_head (rx (sw_drv (world s))) n) (sw_drv (world s))) as ->
      by (by injection Hdo as <-). apply okb_consume; [done|done|lia]. }
  assert (Hw : wp (try_op (OpRecv (frame_bytes (ack_of tid n) ++ rest) 20)) s
    (fun x s' => x = b /\ sw_drv (world s') = d' /\ xmit_pending (at_ s') = 0 /\
       synced (urx (at_ s')) (rx (sw_drv (world s'))))).
  { unfold try_op. eapply wp_bind, (@wp_curnt sim_world tls [S_netdown] b); [exact Hg|].
    assert (Hh : handler (dispatch call_depth) b (OpRecv (frame_bytes (ack_of tid n) ++ rest) 20)
      = Some (vc_common_recv (dispatch call_depth) (frame_bytes (ack_of tid n) ++ rest) 20))
      by (destruct Hb as [-> | ->]; done).
    rewrite Hh. apply recv_case_write; [unfold get16; by rewrite load_cmd|done|].
    unfold recv_write. apply wp_bind, wp_gets, wp_bind, wp_modify.
    apply wp_bind, wp_lift. exists 0. split.
    { rewrite vc_check_xmit_spec by done. cbn [ack_of f_cmd f_ext f_p1 f_p2].
      rewrite <- Hn, (u32_small n) by (unfold XMIT_LEN in *; lia). by rewrite (Z.eqb_refl n). }
    rewrite <- Hn. apply wp_if; intros Hz; [|discriminate Hz].
    eapply wp_bind, wp_sim_set; [exact Hd|exact Hdo|]. intros r.
    eapply wp_bind, (@wp_sim_update_rx tls b); [|exact Hd'|].
    { apply (G_world _ _ _ (mk_st (set_xmit_pending 0 (at_ s)) (world s) (pre_excp_t s) (rbuf s))).
      destruct Hg. by constructor. }
    intros s1 Hg1 Hw1 Hp1 Hs1. eapply (@wp_curnt sim_world tls [S_netdown] b); [exact Hg1|].
    split_and!; [done|by rewrite Hw1|by rewrite Hp1|done]. }
  unfold wp in Hw. destruct (try_op _ s) as [x s'| | |]; try done.
  destruct Hw as (-> & <- & ? & ?). exists s'. split_and!; done.
Qed.

(** *** Transmitting *)

(** A network that takes what is sent, on a descriptor of its own. *)
Definition can_send (s : St sim_world) : Prop :=
  ssl (at_ s) = None /\ sw_send_ok (world s) = true /\ sk (at_ s) <> sim_fd.

Lemma wp_sim_send_bytes packet bs s (Q : Z -> St sim_world -> Prop) :
  can_send s -> load 0 (zlen bs) packet = Some bs ->
  Q 0 (mk_st (at_ s) (sw_set_out (bs :: sw_out (world s)) (world s)) (pre_excp_t s) (rbuf s)) ->
  wp (vc_check_send packet (zlen bs)) s Q.
Proof.
  intros (Hssl & Hok & Hsk) Hl HQ. unfold vc_check_send. apply wp_bind, wp_lift.
  exists bs. split; [done|].
  apply wp_bind, wp_gets. rewrite Hssl. apply wp_bind, wp_gets, wp_bind. unfold fdcheck.
  apply wp_bind, wp_sys. intros x w Hs. simpl in Hs. unfold sim_select in Hs. simpl in Hs.
  rewrite (proj2 (Z.eqb_neq _ _) Hsk) in Hs. injection Hs as <- <-. cbv beta iota. simpl.
  apply wp_ret. rewrite bool_decide_true by (by apply list_elem_of_singleton).
  apply wp_if; intros Hz'; [vm_compute in Hz'; discriminate Hz'|]. apply wp_bind, wp_sys. intros r w Hs.
  simpl in Hs. unfold sim_send in Hs. simpl in Hs. rewrite Hok in Hs. injection Hs as <- <-.
  rewrite Z.eqb_refl. cbn [negb]. by apply wp_ret.
Qed.

Lemma wp_sim_send f rest s (Q : Z -> St sim_world -> Prop) :
  can_send s ->
  Q 0 (mk_st (at_ s) (sw_set_out (frame_bytes f :: sw_out (world s)) (world s)) (pre_excp_t s) (rbuf s)) ->
  wp (vc_check_send (frame_bytes f ++ rest) (zlen (frame_bytes f))) s Q.
Proof.
  intros Hc HQ. apply wp_sim_send_bytes; [done| |done].
  rewrite load_Some; [|lia|apply zlen_nonneg|rewrite zlen_app; pose proof (zlen_nonneg rest); lia].
  by rewrite zdrop_0, ztake_app_l, ztake_all by lia.
Qed.

(** What [vc_common_xmit] reads from the page is the front of the ring [k] its
    cached indices describe. *)
Lemma xmit_data (w : sim_world) u k :
  drv_okb (sw_drv w) = true -> K.data k = K.data (rx (sw_drv w)) -> ring_ok k -> synced u k ->
  U.mbase u = PAGE_SIZE ->
  let llen := if XMIT_LEN <? get_rb_llength u then XMIT_LEN else get_rb_llength u in
  let len := if XMIT_LEN <? get_rb_length u then XMIT_LEN else get_rb_length u in
  let q := contents k in
  len = Z.min XMIT_LEN (zlen q) /\ 0 <= llen <= len /\
  sim_map_load w (U.mbase u + get_rb_head u) llen = Some (ztake llen q) /\
  (llen <> len -> sim_map_load w (U.mbase u) (len - llen) = Some (zdrop llen (ztake len q))).
Proof.
  intros Hd Hk Hok Hsync Hmb. destruct (synced_funs _ _ Hsync) as (Hl & Hll & _). cbv zeta.
  rewrite Hl, Hll, Hmb, (contents_length _ Hok). destruct Hsync as (Hh & _ & _).
  change (get_rb_head u) with (U.head u). rewrite Hh.
  pose proof (rb_llength_range _ (ring_ok_geom _ Hok)) as [Hr1 _].
  pose proof (ring_ok_geom _ Hok) as (_ & Hhd & _). simpl in Hhd.
  assert (Hload : forall o n, 0 <= o -> sim_map_load w (PAGE_SIZE + o) n = load o n (K.data k)).
  { intros o n Ho. unfold sim_map_load. rewrite Hd, Hk. cbn [negb].
    rewrite (proj2 (Z.ltb_ge _ _)) by lia. by replace (PAGE_SIZE + o - PAGE_SIZE) with o by lia. }
  split; [unfold XMIT_LEN; case_if; lia|]. split; [unfold XMIT_LEN; repeat case_if; lia|]. split.
  - rewrite Hload by lia. apply contents_first_piece; [done|]. unfold XMIT_LEN; repeat case_if; lia.
  - intros Hne. replace PAGE_SIZE with (PAGE_SIZE + 0) by lia. rewrite Hload by lia.
    assert (E : (if XMIT_LEN <? get_rb_llength k then XMIT_LEN else get_rb_llength k)
                = get_rb_llength k /\ get_rb_llength k <= XMIT_LEN).
    { revert Hne. unfold XMIT_LEN. repeat case_if; lia. }
    destruct E as [E Hx]. rewrite E in *. clear E. revert Hne. unfold XMIT_LEN in *.
    case_if; intros Hne; apply contents_second_piece; (done || lia).
Qed.

(** The packet [vc_common_xmit] makes of what it reads, in one piece or two. *)
Lemma wp_xmit_packet {W} `{Os W} (s : St W) w (q pbuf : list byte) base hd llen len :
  map_load w (base + hd) llen = Some (ztake llen q) ->
  (llen <> len -> map_load w base (len - llen) = Some (zdrop llen (ztake len q))) ->
  0 <= llen <= len -> len <= zlen q -> len <= XMIT_LEN -> zlen pbuf = 1044 ->
  wp (if llen =? len then
        data ← lift (map_load w (base + hd) llen);
        lift (vc_pack_xmit pbuf (tid (at_ s)) llen (Some data) 1044)
      else
        d1 ← lift (map_load w (base + hd) llen);
        packet ← lift (store off_data d1 pbuf);
        d2 ← lift (map_load w base (len - llen));
        packet ← lift (store (off_data + llen) d2 packet);
        lift (vc_pack_xmit packet (tid (at_ s)) len None 1044)) s
    (fun r s' => s' = s /\ exists m, r = (20 + len,
       frame_bytes (mk_frame (tid (at_ s)) VCOM_CMD_WRITE len 0 (ztake len q)) ++ m)).
Proof.
  intros Hl1 Hl2 Hll Hlen Hmax Hp. unfold XMIT_LEN in Hmax.
  assert (Hzl : zlen (ztake len q) = len) by (apply zlen_ztake; lia).
  apply wp_if; intros Heq; bool_simpl.
  - subst llen. apply wp_bind, wp_lift. eexists. split; [exact Hl1|]. apply wp_lift.
    eexists. split; [rewrite vc_pack_xmit_ptr by lia; reflexivity|]. cbn [f_ext].
    rewrite ztake_all, Hzl by lia. eauto.
  - apply wp_bind, wp_lift. eexists. split; [exact Hl1|].
    assert (Hz1 : zlen (ztake llen q) = llen) by (apply zlen_ztake; lia).
    assert (Hz2 : zlen (zdrop llen (ztake len q)) = len - llen) by (rewrite zlen_zdrop; lia).
    destruct (store off_data (ztake llen q) pbuf) as [p1|] eqn:Hs1;
      [|rewrite store_Some in Hs1 by (unfold off_data; lia); done].
    pose proof (store_zlen _ _ _ _ Hs1) as Hp1.
    apply wp_bind, wp_lift. exists p1. split; [done|].
    apply wp_bind, wp_lift. eexists. split; [by apply Hl2|].
    destruct (store (off_data + llen) (zdrop llen (ztake len q)) p1) as [p2|] eqn:Hs2;
      [|rewrite store_Some in Hs2 by (unfold off_data; lia); done].
    pose proof (store_zlen _ _ _ _ Hs2) as Hp2.
    apply wp_bind, wp_lift. exists p2. split; [done|]. apply wp_lift.
    eexists. split; [rewrite vc_pack_xmit_null by lia; reflexivity|]. cbn [f_ext].
    assert (E : ztake len (zdrop 20 p2) = ztake len q).
    { rewrite <- Hz1 in Hs2 at 1. pose proof (load_store_two _ _ _ _ _ _ Hs1 Hs2) as Hl.
      rewrite Hz1, Hz2 in Hl. replace (llen + (len - llen)) with len in Hl by lia.
      rewrite load_Some in Hl by (unfold off_data; lia). change off_data with 20 in Hl. injection Hl as ->.
      rewrite <- (ztake_ztake llen len q) by lia. apply ztake_zdrop. }
    rewrite E, Hzl. eauto.
Qed.

(** The end of [vc_common_xmit]: the packet is sent and its bytes are pending. *)
Lemma wp_xmit_send `{TlsMode} b call s (Q : state_id -> St sim_world -> Prop) data len m :
  G [S_netdown; b] true 1 s -> can_send s -> zlen data = len -> 0 <= len <= XMIT_LEN ->
  Q b (mk_st (set_tid (u32 (tid (at_ s) + 1)) (set_xmit_pending len (at_ s)))
         (sw_set_out (frame_bytes (mk_frame (tid (at_ s)) VCOM_CMD_WRITE len 0 data) :: sw_out (world s)) (world s))
         (pre_excp_t s) (rbuf s)) ->
  wp (let '(plen, packet) := (20 + zlen data, frame_bytes (mk_frame (tid (at_ s)) VCOM_CMD_WRITE len 0 data) ++ m) in
      if plen <=? 0 then excp_init call else
      e ← vc_check_send packet plen;
      if negb (e =? 0) then excp_init call else
      modify (set_xmit_pending len);; tid_incr;; stk_curnt) s Q.
Proof.
  intros Hg Hsend Hzl Hlen HQ. cbv beta iota. apply wp_if; intros Hz; bool_simpl; [lia|].
  replace (20 + zlen data) with (zlen (frame_bytes (mk_frame (tid (at_ s)) VCOM_CMD_WRITE len 0 data)))
    by (rewrite zlen_frame_bytes; done).
  apply wp_bind, wp_sim_send; [done|]. apply wp_if; intros Hz'; [discriminate Hz'|].
  apply wp_bind, wp_modify, wp_bind, wp_modify.
  eapply (wp_curnt [S_netdown] b); [|exact HQ].
  destruct Hg. constructor; try done.
Qed.

(** The front of the ring, sent as one packet. *)
Lemma wp_sim_xmit `{TlsMode} b call s (Q : state_id -> St sim_world -> Prop) :
  G [S_netdown; b] true 1 s -> can_send s ->
  drv_okb (sw_drv (world s)) = true -> drv_ok (sw_drv (world s)) ->
  synced (urx (at_ s)) (rx (sw_drv (world s))) ->
  (let data := ztake XMIT_LEN (contents (rx (sw_drv (world s)))) in
   Q b (mk_st (set_tid (u32 (tid (at_ s) + 1)) (set_xmit_pending (zlen data) (at_ s)))
          (sw_set_out (frame_bytes (mk_frame (tid (at_ s)) VCOM_CMD_WRITE (zlen data) 0 data)
                       :: sw_out (world s)) (world s))
          (pre_excp_t s) (rbuf s))) ->
  wp (vc_common_xmit call) s Q.
Proof.
  intros Hg Hsend Hd (_ & [Hok _] & _) Hsync HQ. cbv zeta in HQ.
  destruct (G_bufs _ _ _ _ Hg) as (_ & (Hmb & _) & _).
  destruct (xmit_data (world s) (urx (at_ s)) _ Hd eq_refl Hok Hsync Hmb) as (Hlen & Hll & Hl1 & Hl2).
  set (q := contents _) in *. unfold vc_common_xmit. apply wp_bind, wp_gets. cbv zeta.
  change (XMIT_LEN + sizeof_vc_proto_hdr + sizeof_vc_attach_param) with 1044.
  apply wp_bind, wp_pbuf_of; [lia|]. intros pbuf Hp. apply wp_bind, wp_gets, wp_bind, wp_get_world.
  set (llen := if XMIT_LEN <? get_rb_llength (urx (at_ s)) then _ else _) in *.
  set (len := if XMIT_LEN <? get_rb_length (urx (at_ s)) then _ else _) in *.
  clearbody llen len. pose proof (zlen_nonneg q).
  assert (Hdata : ztake XMIT_LEN q = ztake len q).
  { destruct (Z.le_gt_cases XMIT_LEN (zlen q)); [f_equal; lia|].
    rewrite !ztake_all by lia. done. }
  assert (Hzl : zlen (ztake len q) = len) by (apply zlen_ztake; lia).
  rewrite Hdata, Hzl in HQ. apply wp_bind.
  eapply wp_mono; [apply (wp_xmit_packet _ _ q); [exact Hl1|exact Hl2|done|lia|lia|done]|].
  cbv beta. intros r s' (-> & m & ->).
  replace (20 + len) with (20 + zlen (ztake len q)) by lia.
  apply (wp_xmit_send b call s Q (ztake len q) len m); [done|done|done|lia|exact HQ].
Qed.

(** C6: transmitting sends the front of the application's stream, at most
    [XMIT_LEN] bytes, as one write packet, wrapped around the end of the ring
    or not; the bytes stay in the ring until they are acknowledged. *)
Theorem xmit_sends_front (tls : bool) (b : state_id) (s : St sim_world) :
  base b -> @G sim_world tls [S_netdown; b] true 1 s -> can_send s ->
  drv_okb (sw_drv (world s)) = true -> drv_ok (sw_drv (world s)) ->
  synced (urx (at_ s)) (rx (sw_drv (world s))) ->
  let data := ztake XMIT_LEN (contents (rx (sw_drv (world s)))) in
  exists s', try_op OpXmit s = Ok b s' /\
    sw_out (world s') =
      frame_bytes (mk_frame (tid (at_ s)) VCOM_CMD_WRITE (zlen data) 0 data) :: sw_out (world s) /\
    xmit_pending (at_ s') = zlen data /\ tid (at_ s') = u32 (tid (at_ s) + 1) /\
    sw_drv (world s') = sw_drv (world s).
Proof.
  intros Hb Hg Hsend Hd Hok Hsync data.
  assert (Hw : wp (try_op OpXmit) s (fun x s' => x = b /\ sw_out (world s') =
      frame_bytes (mk_frame (tid (at_ s)) VCOM_CMD_WRITE (zlen data) 0 data) :: sw_out (world s) /\
    xmit_pending (at_ s') = zlen data /\ tid (at_ s') = u32 (tid (at_ s) + 1) /\
    sw_drv (world s') = sw_drv (world s))).
  { unfold try_op. eapply wp_bind, (@wp_curnt sim_world tls [S_netdown] b); [exact Hg|].
    assert (Hh : handler (dispatch call_depth) b OpXmit
      = Some (vc_common_xmit (dispatch call_depth))) by (destruct Hb as [-> | ->]; done).
    rewrite Hh. eapply (@wp_sim_xmit tls b); try done. }
  unfold wp in Hw. destruct (try_op OpXmit s) as [x s'| | |]; try done.
  destruct Hw as (-> & Hw). eauto.
Qed.

(** *** Runs *)

Lemma Inv_top `{TlsMode} b (s : St sim_world) :
  Inv s -> base b -> stk_slot (stk (at_ s)) = Some b -> G [S_netdown; b] true 1 s.
Proof.
  intros Hi Hb Hs. destruct Hi as [[Hg _]|(b' & Hb' & [Hg|Hg])].
  - pose proof (stack_slot _ [] S_netdown (G_stack _ _ _ _ Hg)) as E. rewrite E in Hs.
    injection Hs as <-. by destruct Hb.
  - pose proof (stack_slot _ [S_netdown] b' (G_stack _ _ _ _ Hg)) as E. rewrite E in Hs.
    by injection Hs as ->.
  - pose proof (stack_slot _ [S_netdown; b'] S_idle (G_stack _ _ _ _ Hg)) as E. rewrite E in Hs.
    injection Hs as <-. by destruct Hb.
Qed.

(** A port whose application has written six bytes, connected; and the same
    with those bytes sent. *)
Definition writing_port : adv_vcom eager_tty :=
  default (fresh_port []) (port_run (fresh_port (be 6 77)) [O_tty T_startup; O_tty T_start_tx]).
Definition ready_st : St sim_world := connected_st false writing_port.
Definition sent_st : St sim_world := result_state (try_op OpXmit) ready_st.

Lemma writing_port_ok : drv_ok writing_port.
Proof.
  destruct (port_run_sim (fresh_port (be 6 77)) [O_tty T_startup; O_tty T_start_tx])
    as (d' & ps & Hr & Hd & _); [apply fresh_port_ok|reflexivity|].
  unfold writing_port. by rewrite Hr.
Qed.

Lemma ready_G : @G sim_world false [S_netdown; S_netup] true 1 ready_st.
Proof.
  apply Inv_top; [apply connected_Inv; vm_compute; reflexivity|by left|vm_compute; reflexivity].
Qed.

Ltac concrete_drv_ok :=
  unfold drv_ok, ring_idle, ring_ok, geom_ok, attr_ok; vm_compute; intuition congruence.

Lemma ready_ok : drv_ok (sw_drv (world ready_st)).
Proof. concrete_drv_ok. Qed.

Lemma sent_G : @G sim_world false [S_netdown; S_netup] true 1 sent_st.
Proof.
  apply Inv_top; [|by left|vm_compute; reflexivity].
  assert (Hd : drv_okb writing_port = true) by (vm_compute; reflexivity).
  pose proof (@wp_try_op sim_world _ _ _ _ false OpXmit ready_st
    (connected_Inv false writing_port Hd) I) as Hw.
  destruct (wp_result _ _ _ Hw) as [_ Hi]. exact Hi.
Qed.

Lemma sent_ok : drv_ok (sw_drv (world sent_st)).
Proof. concrete_drv_ok. Qed.

Lemma xmit_sends_front_witness :
  exists s', try_op OpXmit ready_st = Ok S_netup s' /\ xmit_pending (at_ s') = 6 /\
    head (sw_out (world s')) =
      Some (frame_bytes (mk_frame (tid (at_ ready_st)) VCOM_CMD_WRITE 6 0 (be 6 77))).
Proof.
  destruct (xmit_sends_front false S_netup ready_st) as (s' & Hr & Ho & Hp & _);
    [by left|apply ready_G|split_and!; [vm_compute; reflexivity|vm_compute; reflexivity|vm_compute; discriminate]
    |vm_compute; reflexivity|apply ready_ok|split_and!; vm_compute; reflexivity|].
  exists s'. split; [exact Hr|].
  assert (Hc : ztake XMIT_LEN (contents (rx (sw_drv (world ready_st)))) = be 6 77) by (vm_compute; reflexivity).
  rewrite Hc in Ho, Hp. split; [exact Hp|]. rewrite Ho. reflexivity.
Defined.

Lemma write_ack_consumes_witness :
  exists s', try_op (OpRecv (frame_bytes (ack_of 9 6) ++ []) 20) sent_st = Ok S_netup s' /\
    xmit_pending (at_ s') = 0 /\ stream_up (view (sw_drv (world s'))) = [].
Proof.
  destruct (write_ack_consumes false S_netup 9 6 [] sent_st) as (s' & Hr & Hp & _ & _ & Hu & _);
    [by left|apply sent_G|vm_compute; intuition congruence|vm_compute; reflexivity|vm_compute; reflexivity
    |apply sent_ok|vm_compute; discriminate|].
  exists s'. split; [exact Hr|]. split; [exact Hp|]. rewrite Hu. vm_compute. reflexivity.
Defined.

Lemma dataready_delivers_witness :
  exists s', try_op (OpRecv (frame_bytes (data_frame 9 (be 3 5)) ++ []) 23) ready_st = Ok S_netup s' /\
    stream_down (view (sw_drv (world s'))) = be 3 5.
Proof.
  destruct (dataready_delivers false S_netup 9 (be 3 5) [] ready_st) as (s' & Hr & _ & _ & _ & Hs);
    [by left|apply ready_G|vm_compute; intuition congruence|vm_compute; reflexivity
    |apply ready_ok|split_and!; vm_compute; reflexivity|vm_compute; discriminate|].
  exists s'. split; [exact Hr|]. rewrite Hs. vm_compute. reflexivity.
Defined.
