(* ===== verification/Dialogue.v ===== *)
(** * What the daemon says to the device

    The packets of the handshake after a connection and of the line settings,
    in the order they are sent, as they leave the daemon in [sim_world]. *)

From stdpp Require Import gmap.
From S2P Require Import Prelude RingBuf Tty Uart DrvMain Proto Os SslSelect SimWorld Vcom Connect.
From S2P Require Import Client ClientProofs SimLaws ClientInv MainLoop MainProofs System.

(** The port after one more packet. *)
Definition say (f : frame) (s : St sim_world) : St sim_world :=
  mk_st (set_tid (u32 (tid (at_ s) + 1)) (at_ s))
    (sw_set_out (frame_bytes f :: sw_out (world s)) (world s)) (pre_excp_t s) (rbuf s).

Lemma can_say f s : can_send s -> can_send (say f s).
Proof. done. Qed.

Section dialogue.
Context `{TlsMode}.
Implicit Types s : St sim_world.

Lemma G_say f l o s : G l true o s -> G l true o (say f s).
Proof. intros []. by constructor. Qed.

(** The function packs this frame. *)
Definition packs_as (pack : list byte -> Z -> Z -> option (Z * list byte)) (size : Z)
    (f : Z -> frame) : Prop :=
  forall pbuf tid, zlen pbuf = size -> pack pbuf tid size = packed pbuf (f tid).

Lemma wp_sim_packet pack size f s (Q : Z -> St sim_world -> Prop) :
  packs_as pack size f -> 0 <= size -> can_send s -> Q 0 (say (f (tid (at_ s))) s) ->
  wp (send_packet pack size) s Q.
Proof.
  intros Hp Hs Hc HQ. unfold send_packet. apply wp_bind, wp_pbuf_of; [done|]. intros pbuf Hz.
  apply wp_bind, wp_gets, wp_bind, wp_lift. eexists. split; [by apply Hp|]. cbv beta iota.
  pose proof (zlen_nonneg (f_ext (f (tid (at_ s))))).
  apply wp_if; intros Hl; bool_simpl; [lia|].
  rewrite <- (zlen_frame_bytes (f (tid (at_ s)))). apply wp_bind, wp_sim_send; [done|].
  apply wp_if; intros He; [discriminate He|]. by apply wp_bind, wp_modify, wp_ret.
Qed.

Lemma ioctl_out w cmd arg r v w' :
  sim_ioctl w cmd arg = (r, v, w') -> sw_out w' = sw_out w.
Proof.
  unfold sim_ioctl. case_if; [by intros [= <- <- <-]|].
  destruct (adv_proc_ioctl _ _ _) as [[[? ?] ?]|]; by intros [= <- <- <-].
Qed.

Lemma update_out id s :
  wp (vc_buf_update id) s (fun _ s' => sw_out (world s') = sw_out (world s)).
Proof.
  assert (Hget : forall cmd s0, sw_out (world s0) = sw_out (world s) ->
    wp (ioctl_get cmd) s0 (fun _ s' => sw_out (world s') = sw_out (world s))).
  { intros cmd s0 E. apply wp_sys. intros [r v] w Hi. simpl. rewrite <- E. by eapply ioctl_out. }
  unfold vc_buf_update. cbv zeta. apply wp_if; intros _; [|apply wp_if; intros _].
  1,2: apply wp_bind; eapply wp_mono; [by apply Hget|]; cbv beta; intros h s1 E1;
    apply wp_if; intros _; [by apply wp_ret|];
    apply wp_bind; eapply wp_mono; [by apply Hget|]; cbv beta; intros t s2 E2;
    apply wp_if; intros _; [by apply wp_ret|]; by apply wp_bind, wp_modify, wp_ret.
  apply wp_if; intros _; [|by apply wp_ret]. apply wp_bind, wp_gets, wp_bind, wp_sys.
  intros [r v] w Hi. apply wp_bind, wp_modify, wp_ret. simpl. by eapply ioctl_out.
Qed.

Lemma wp_init_quiet n b o s (Q : state_id -> St sim_world -> Prop) :
  base b -> G [S_netdown; b] true o s ->
  (forall s', G [S_netdown; b] true o s' -> sw_out (world s') = sw_out (world s) -> Q b s') ->
  wp (dispatch (S n) OpInit) s Q.
Proof.
  intros Hb Hg HQ. rewrite dispatch_S. eapply wp_bind, (wp_curnt [S_netdown] b); [exact Hg|].
  assert (Hrun : forall x : state_id, wp (_ ← vc_buf_update VC_BUF_RX; _ ← vc_buf_update VC_BUF_TX; mret x) s
    (fun y s' => y = x /\ G [S_netdown; b] true o s' /\ sw_out (world s') = sw_out (world s))).
  { intros x. apply wp_bind. eapply wp_mono; [apply wp_and; [|apply update_out]|].
    { eapply (wp_buf_update _ _ _ _ _ (fun _ => G [S_netdown; b] true o)); [exact Hg|done]. }
    cbv beta. intros _ s1 [Hg1 E1]. apply wp_bind. eapply wp_mono; [apply wp_and; [|apply update_out]|].
    { eapply (wp_buf_update _ _ _ _ _ (fun _ => G [S_netdown; b] true o)); [exact Hg1|done]. }
    cbv beta. intros _ s2 [Hg2 E2]. apply wp_ret. split_and!; [done|done|congruence]. }
  destruct Hb as [-> | ->]; cbn [handler]; (eapply wp_mono; [apply Hrun|]);
    cbv beta; intros y s' (-> & ? & ?); by apply HQ.
Qed.
End dialogue.

(** The stack operations leave the rest of the state. *)
Definition same_but_stk (s s' : St sim_world) : Prop :=
  exists k, s' = mk_st (set_stk k (at_ s)) (world s) (pre_excp_t s) (rbuf s).

Lemma push_same x (s s' : St sim_world) r : stk_push x s = Ok r s' -> r = 0 -> same_but_stk s s'.
Proof.
  unfold stk_push, mbind, prog_bind, gets, modify. destruct (stk_full _); [by intros [= <- <-]|].
  destruct (stk_write _ _ _) as [k|]; simpl; [|done]. intros [= <- <-] _. by exists k.
Qed.

Lemma pop_same (s s' : St sim_world) r : stk_pop s = Ok r s' -> r = 0 -> same_but_stk s s'.
Proof.
  unfold stk_pop, mbind, prog_bind, gets, modify. destruct (stk_empty _); [by intros [= <- <-]|].
  intros [= <- <-] _. by eexists.
Qed.

Lemma wp_ok {A} (m : Prog sim_world A) s Q :
  wp m s Q -> wp m s (fun x s' => Q x s' /\ m s = Ok x s').
Proof. unfold wp. by destruct (m s). Qed.

(** ** The handshake *)

(** The open packet, the two lines, the events, the modem status and the queue
    size, with their transaction numbers: the open packet always has number 1
    and the counter only starts behind it. *)
Definition handshake (devid port ms : Z) (tx_empty : bool) : list frame :=
  [msg_frame [] 1 (M_open devid (s32 port));
   msg_frame [] 1 (M_ioctl (if ms &? ADV_MS_RTS then VCOM_IOCTL_SET_RTS else VCOM_IOCTL_CLR_RTS));
   msg_frame [] 2 (M_ioctl (if ms &? ADV_MS_DTR then VCOM_IOCTL_SET_DTR else VCOM_IOCTL_CLR_DTR));
   msg_frame [] 3 (M_wmask 0x38010000);
   msg_frame [] 4 (M_ioctl VCOM_IOCTL_GET_MODEMSTATUS);
   msg_frame [] 5 (M_qfree (if tx_empty then 1024 else 0))].

(** What was sent, in order. *)
Definition said (s s' : St sim_world) (fs : list frame) : Prop :=
  sw_out (world s') = rev (frame_bytes <$> fs) ++ sw_out (world s).

Section handshake.
Context `{TlsMode}.
Implicit Types s : St sim_world.

Lemma line_packs (on : bool) (set clr : Z) size : 20 <= size ->
  packs_as (if on then (fun p t n => _pack_ioctl_param p t set n)
            else (fun p t n => _pack_ioctl_param p t clr n)) size
    (fun t => msg_frame [] t (M_ioctl (if on then set else clr))).
Proof. intros Hs pbuf t Hp. destruct on; rewrite pack_ioctl_param_spec by lia; done. Qed.

Lemma wp_sync_says n b o s a (Q : state_id -> St sim_world -> Prop) :
  base b -> G [S_netdown; b; S_sync] true o s -> can_send s -> tid (at_ s) = 1 ->
  map_info (world s) (attr_off (at_ s) + attr_ptr (at_ s) * sizeof_adv_port_info) = Some a ->
  (forall s', G [S_netdown; b] true o s' ->
     said s s' (tail (handshake (devid (at_ s)) (port (at_ s)) (i_ms a) (is_rb_empty (utx (at_ s))))) ->
     Q b s') ->
  wp (dispatch (S (S n)) OpInit) s Q.
Proof.
  intros Hb Hg Hc Ht Ha HQ. rewrite dispatch_S.
  eapply wp_bind, (wp_curnt [S_netdown; b] S_sync); [exact Hg|]. cbn [handler].
  unfold vc_sync_init, _sync_ms, _sync_event, _sync_queue.
  apply wp_bind. unfold attr_p at 1. apply wp_bind, wp_gets, wp_bind, wp_gets, wp_bind, wp_get_world, wp_lift.
  exists a. split; [exact Ha|].
  apply wp_bind, wp_bind. eapply wp_sim_packet; [by apply (line_packs (i_ms a &? ADV_MS_RTS))|lia|done|].
  apply wp_if; intros Hz; [discriminate Hz|]; clear Hz.
  eapply wp_sim_packet; [by apply (line_packs (i_ms a &? ADV_MS_DTR))|lia|done|].
  apply wp_if; intros Hz; [discriminate Hz|]; clear Hz.
  apply wp_bind, wp_modify. apply wp_bind, wp_bind.
  eapply (wp_sim_packet _ _ (fun t => msg_frame [] t (M_wmask 0x38010000)));
    [intros pbuf t Hp; rewrite vc_pack_setwmask_spec by lia; done|lia|done|].
  apply wp_if; intros Hz; [discriminate Hz|]; clear Hz.
  eapply wp_sim_packet; [by apply (line_packs true VCOM_IOCTL_GET_MODEMSTATUS 0)|lia|done|].
  apply wp_if; intros Hz; [discriminate Hz|]; clear Hz.
  apply wp_bind, wp_bind, wp_gets. cbv zeta.
  eapply (wp_sim_packet _ _ (fun t => msg_frame [] t (M_qfree _)));
    [intros pbuf t Hp; rewrite vc_pack_qfsize_spec by lia; done|lia|done|].
  apply wp_if; intros Hz; [discriminate Hz|]; clear Hz.
  match goal with |- wp _ ?x _ => set (s5 := x) end.
  assert (Hg5 : G [S_netdown; b; S_sync] true o s5) by (destruct Hg; by constructor).
  apply wp_bind. eapply wp_mono.
  { apply wp_ok. eapply (wp_pop [S_netdown; b] S_sync _ _ _ (fun r s' => r = 0 /\ G [S_netdown; b] true o s'));
      [exact Hg5|done|done]. }
  cbv beta. intros r s6 [[-> Hg6] Hpop]. destruct (pop_same _ _ _ Hpop eq_refl) as [k Hk].
  eapply wp_init_quiet; [done|exact Hg6|]. intros s7 Hg7 E7. apply HQ; [done|].
  unfold said. rewrite E7, Hk. unfold s5, say. cbn [world sw_out sw_set_out at_ tid set_tid set_eki].
  rewrite Ht. reflexivity.
Qed.

Lemma wp_open_says n b s a (Q : state_id -> St sim_world -> Prop) :
  base b -> G [S_netdown; b] true 0 s -> can_send s -> tid (at_ s) = 0 ->
  map_info (world s) (attr_off (at_ s) + attr_ptr (at_ s) * sizeof_adv_port_info) = Some a ->
  (forall s', G [S_netdown; b] true 1 s' ->
     said s s' (handshake (devid (at_ s)) (port (at_ s)) (i_ms a) (is_rb_empty (utx (at_ s)))) ->
     Q b s') ->
  wp (vc_common_open (dispatch (S (S n)))) s Q.
Proof.
  intros Hb Hg Hc Ht Ha HQ. unfold vc_common_open. apply wp_bind, wp_gets, wp_bind, wp_gets.
  apply wp_bind, wp_pbuf_of; [lia|]. intros pbuf Hp. apply wp_bind, wp_lift.
  eexists. split; [rewrite vc_pack_open_spec by lia; reflexivity|]. cbv beta iota.
  set (f := msg_frame [] 1 (M_open (devid (at_ s)) (s32 (port (at_ s))))).
  apply wp_if; intros Hz; [discriminate Hz|]; clear Hz.
  change (mk_frame 1 VCOM_CMD_CREATE (u32 (Z.shiftl (devid (at_ s)) 16)) (s32 (port (at_ s))) []) with f.
  rewrite <- (zlen_frame_bytes f).
  apply wp_bind, wp_sim_send; [done|]. apply wp_if; intros Hz; [discriminate Hz|]; clear Hz.
  apply wp_bind, wp_modify, wp_bind, wp_modify.
  match goal with |- wp _ ?x _ => set (s2 := x) end.
  assert (Hg2 : G [S_netdown; b] true 1 s2) by (destruct Hg; by constructor).
  apply wp_bind. eapply wp_mono.
  { apply wp_ok. eapply (wp_push _ S_sync _ _ _ (fun r s' => r = 0 /\ G [S_netdown; b; S_sync] true 1 s'));
      [exact Hg2|simpl; lia|done]. }
  cbv beta. intros r s3 [[-> Hg3] Hpush]. destruct (push_same _ _ _ _ Hpush eq_refl) as [k Hk].
  eapply (wp_sync_says n b 1 s3 a); [done|exact Hg3|by rewrite Hk| | |].
  - rewrite Hk. unfold s2. simpl. by rewrite Ht.
  - by rewrite Hk.
  - intros s4 Hg4 Hs4. apply HQ; [done|]. unfold said in *. rewrite Hs4, Hk. unfold s2. simpl.
    reflexivity.
Qed.
End handshake.

(** C34: opening a port on a fresh connection sends exactly the six packets of
    the handshake, in this order: open, the levels of RTS and DTR, the event
    mask, the request for the modem status and the queue size, zero when the
    application still has unread data. *)
Theorem open_sends_handshake (tls : bool) (b : state_id) (s : St sim_world) (a : adv_port_info) :
  base b -> @G sim_world tls [S_netdown; b] true 0 s -> can_send s -> tid (at_ s) = 0 ->
  map_info (world s) (attr_off (at_ s) + attr_ptr (at_ s) * sizeof_adv_port_info) = Some a ->
  exists s', call_op OpOpen s = Ok b s' /\ @G sim_world tls [S_netdown; b] true 1 s' /\
    sw_out (world s') = rev (frame_bytes <$>
      handshake (devid (at_ s)) (port (at_ s)) (i_ms a) (is_rb_empty (utx (at_ s)))) ++
      sw_out (world s).
Proof.
  intros Hb Hg Hc Ht Ha.
  assert (Hw : wp (call_op OpOpen) s (fun x s' => x = b /\ @G sim_world tls [S_netdown; b] true 1 s' /\
    said s s' (handshake (devid (at_ s)) (port (at_ s)) (i_ms a) (is_rb_empty (utx (at_ s)))))).
  { unfold call_op, call_depth. rewrite dispatch_S.
    eapply wp_bind, (@wp_curnt sim_world tls [S_netdown] b); [exact Hg|].
    assert (Hh : handler (dispatch 7) b OpOpen = Some (vc_common_open (dispatch 7)))
      by (destruct Hb as [-> | ->]; done).
    rewrite Hh. eapply (@wp_open_says tls 5 b s a); try done. }
  unfold wp in Hw. destruct (call_op OpOpen s) as [x s'| | |]; try done.
  destruct Hw as (-> & ? & ?). eauto.
Qed.

(** A connected port before its open packet. *)
Definition unopened_st : St sim_world :=
  let s := set_up false idle_port in
  result_state (stk_push S_netup) (mk_st (set_sk 4 (at_ s)) (world s) (pre_excp_t s) (rbuf s)).

Lemma unopened_G : @G sim_world false [S_netdown; S_netup] true 0 unopened_st.
Proof.
  assert (Hi : @Inv sim_world false (set_up false idle_port)) by (apply set_up_Inv; vm_compute; reflexivity).
  assert (Hd : @G sim_world false [S_netdown] false 0 (set_up false idle_port)).
  { assert (Hm : sk (at_ (set_up false idle_port)) = -1) by (vm_compute; reflexivity).
    destruct Hi as [[Hg _]|(b & _ & [Hg|Hg])]; [exact Hg| |]; exfalso;
      destruct (G_conn _ _ _ _ Hg) as [Hsk _]; rewrite Hm in Hsk; lia. }
  unfold unopened_st. clear Hi. revert Hd. generalize (set_up false idle_port) as s. intros s Hd.
  assert (Hg : @G sim_world false [S_netdown] true 0
    (mk_st (set_sk 4 (at_ s)) (world s) (pre_excp_t s) (rbuf s))).
  { destruct Hd as [? ? ? [? ?] ? ? ? Ht]. constructor; try done. split; [done|].
    simpl. by destruct (ssl (at_ s)). }
  pose proof (@wp_push sim_world false [S_netdown] S_netup true 0 _
    (fun _ => @G sim_world false [S_netdown; S_netup] true 0) Hg ltac:(simpl; lia) ltac:(done)) as Hw.
  destruct (wp_result _ _ _ Hw) as [_ Hr]. exact Hr.
Qed.

Lemma open_sends_handshake_witness :
  exists s', call_op OpOpen unopened_st = Ok S_netup s' /\
    sw_out (world s') = rev (frame_bytes <$> handshake 0x3ee 1 0 true).
Proof.
  destruct (open_sends_handshake false S_netup unopened_st (mk_info 0 0 0 0 0 0 0))
    as (s' & Hr & _ & Ho);
    [by left|apply unopened_G|split_and!; [vm_compute; reflexivity|vm_compute; reflexivity|vm_compute; discriminate]
    |vm_compute; reflexivity|vm_compute; reflexivity|].
  exists s'. split; [exact Hr|]. rewrite Ho. vm_compute. reflexivity.
Defined.

(** ** Line settings *)

(** The daemon's copy of the settings agrees with the device's attributes. *)
Definition agrees (a e : adv_port_info) : Prop :=
  i_baud e = i_baud a /\ i_pair e = i_pair a /\ i_stop e = i_stop a /\ i_byte e = i_byte a /\
  i_flowctl e = i_flowctl a /\ i_ms e = i_ms a.

(** The groups that still differ. *)
Definition b2n (b : bool) : nat := if b then 1 else 0.
Definition ndiff (a e : adv_port_info) : nat :=
  b2n (negb (i_baud a =? i_baud e)) + b2n (vc_check_comset a e) +
  b2n (negb (i_flowctl a =? i_flowctl e)) + b2n (negb (i_ms a =? i_ms e)).

Lemma ndiff_0 a e : ndiff a e = 0%nat -> agrees a e.
Proof.
  unfold ndiff, vc_check_comset, agrees, b2n. repeat case_if; try lia.
  all: destruct_and?; destruct_or?; try done; intros _; by split_and!.
Qed.

(** Only the counter and the copy of the settings change. *)
Definition settled (s s' : St sim_world) (e : adv_port_info) : Prop :=
  exists t, s' = mk_st (set_tid t (set_eki e (at_ s))) (world s) (pre_excp_t s) (rbuf s).

Definition shows (s : St sim_world) (a : adv_port_info) : Prop :=
  map_info (world s) (attr_off (at_ s) + attr_ptr (at_ s) * sizeof_adv_port_info) = Some a.

Section settings.
Context `{TlsMode}.
Implicit Types s : St sim_world.

Lemma settled_refl s : settled s s (eki (at_ s)).
Proof. exists (tid (at_ s)). by destruct s as [[] ? ? ?]. Qed.

Lemma wp_ms_step_settled line e u subset subclr plen pbuf s (Q : Z * list byte -> St sim_world -> Prop) :
  zlen pbuf = 1024 -> 0 <= plen <= 20 ->
  (forall r s', settled s s' (eki (at_ s)) -> zlen (snd r) = 1024 -> 0 <= fst r <= plen + 20 -> Q r s') ->
  wp (set_ms_step line e u (fun b t n => _pack_ioctl_param b t subset n)
        (fun b t n => _pack_ioctl_param b t subclr n) plen pbuf 1024) s Q.
Proof.
  intros Hp Hpl HQ. unfold set_ms_step.
  apply wp_if; intros _; [apply wp_ret, HQ; [apply settled_refl|done|simpl; lia]|].
  apply wp_bind, wp_gets, wp_bind, wp_lift.
  assert (Hz : zlen (zdrop plen pbuf) = 1024 - plen) by (rewrite zlen_zdrop; lia).
  set (sub := if u &? line then subset else subclr).
  exists (20, frame_bytes (mk_frame (tid (at_ s)) VCOM_CMD_IOCTL sub 0 []) ++ zdrop 20 (zdrop plen pbuf)).
  split.
  { unfold sub. destruct (u &? line); rewrite pack_ioctl_param_spec by lia; reflexivity. }
  cbv beta iota. apply wp_if; intros Hlen; bool_simpl; [lia|].
  apply wp_bind, wp_modify, wp_ret, HQ; [|cbn [snd]|simpl; lia].
  - exists (u32 (tid (at_ s) + 1)). by destruct s as [[] ? ? ?].
  - rewrite !zlen_app, zlen_ztake, zlen_frame_bytes, zlen_zdrop; cbn [f_ext]; rewrite ?zlen_nil, ?Hz; lia.
Qed.

(** One round of the loop settles one group, in a fixed order. *)
Lemma wp_packet_settles pbuf a s (Q : Z * list byte -> St sim_world -> Prop) :
  shows s a -> zlen pbuf = 1024 ->
  (forall r s' e, settled s s' e -> i_is_open e = i_is_open (eki (at_ s)) -> zlen (snd r) = 1024 ->
     0 < fst r <= 1024 /\ (ndiff a e < ndiff a (eki (at_ s)))%nat \/ fst r = 0 /\ ndiff a e = 0%nat ->
     Q r s') ->
  wp (ioctl_packet pbuf) s Q.
Proof.
  intros Ha Hp HQ. unfold ioctl_packet, attr_p.
  apply wp_bind, wp_bind, wp_gets, wp_bind, wp_gets, wp_bind, wp_get_world, wp_lift.
  exists a. split; [exact Ha|]. apply wp_bind, wp_gets, wp_bind, wp_gets.
  set (e0 := eki (at_ s)) in *.
  assert (Hpack : forall pack e s1, packs pack 1024 -> settled s s1 e ->
    i_is_open e = i_is_open e0 -> (ndiff a e < ndiff a e0)%nat ->
    wp (lift (pack pbuf (tid (at_ s)) 1024)) s1 Q).
  { intros pack e s1 Hpk Hs1 Ho Hn. apply wp_lift.
    destruct (Hpk pbuf (tid (at_ s)) Hp) as (k & m & Hk & Hr & Hm).
    exists (k, m). split; [done|]. eapply HQ; [exact Hs1|done|done|]. left. simpl. split; [lia|done]. }
  apply wp_if; intros Hb.
  { apply wp_bind, wp_modify.
    eapply (Hpack (fun b t n => vc_pack_sbaud b t (u32 (i_baud a)) n) (e_baud (i_baud a) e0)); [by apply packs_sbaud| |done|].
    - exists (tid (at_ s)). by destruct s as [[] ? ? ?].
    - unfold ndiff. change (vc_check_comset a (e_baud (i_baud a) e0)) with (vc_check_comset a e0). simpl.
      rewrite Z.eqb_refl, Hb. simpl. lia. }
  apply wp_if; intros Hc.
  { apply wp_bind, wp_modify, wp_bind, wp_modify, wp_bind, wp_modify.
    eapply (Hpack (fun b t n => vc_pack_setlctl b t (u8 (i_pair a)) (u8 (i_byte a)) (u8 (i_stop a)) n)
      (e_byte (i_byte a) (e_stop (i_stop a) (e_pair (i_pair a) e0)))); [by apply packs_setlctl| |done|].
    - exists (tid (at_ s)). by destruct s as [[] ? ? ?].
    - unfold ndiff. rewrite Hc. unfold vc_check_comset. simpl. rewrite !Z.eqb_refl. simpl. lia. }
  apply wp_if; intros Hfl.
  { destruct (hflow_args (i_flowctl a)) as [ch fr]. apply wp_bind, wp_lift.
    destruct (packs_hflow ch fr 1024 ltac:(lia) pbuf (tid (at_ s)) Hp) as (k & m & Hk & Hr & Hm).
    exists (k, m). split; [done|]. apply wp_bind, wp_modify, wp_ret.
    eapply (HQ _ _ (e_flowctl (i_flowctl a) e0)); [|done|done|].
    - exists (tid (at_ s)). by destruct s as [[] ? ? ?].
    - left. split; [simpl; lia|]. unfold ndiff.
      change (vc_check_comset a (e_flowctl (i_flowctl a) e0)) with (vc_check_comset a e0). simpl.
      rewrite Z.eqb_refl, Hfl. simpl. lia. }
  assert (Hrest : ndiff a (e_ms (i_ms a) e0) = 0%nat).
  { unfold ndiff. change (vc_check_comset a (e_ms (i_ms a) e0)) with (vc_check_comset a e0). simpl.
    by rewrite Hb, Hc, Hfl, Z.eqb_refl. }
  apply wp_if; intros Hms.
  2:{ apply wp_ret. eapply (HQ _ _ e0); [apply settled_refl|done|done|]. right. split; [done|].
      unfold ndiff. by rewrite Hb, Hc, Hfl, Hms. }
  unfold _set_ms. apply wp_bind, wp_bind, wp_gets, wp_bind.
  eapply (wp_ms_step_settled _ _ _ VCOM_IOCTL_SET_RTS VCOM_IOCTL_CLR_RTS); [done|lia|].
  intros [p1 b1] s1 [t1 Hs1] Hb1 Hp1. simpl in *.
  eapply (wp_ms_step_settled _ _ _ VCOM_IOCTL_SET_DTR VCOM_IOCTL_CLR_DTR); [done|lia|].
  intros [p2 b2] s2 [t2 Hs2] Hb2 Hp2. simpl in *. apply wp_bind, wp_modify, wp_ret.
  eapply (HQ _ _ (e_ms (i_ms a) e0)); [|done|done|].
  - exists t2. rewrite Hs2, Hs1. by destruct s as [[] ? ? ?].
  - simpl. destruct (Z.eq_dec p2 0) as [->|Hne]; [by right|left]. split; [lia|].
    rewrite Hrest. unfold ndiff. rewrite Hms. simpl. lia.
Qed.

Lemma wp_loop_settles k call b pbuf a s (Q : state_id -> St sim_world -> Prop) :
  G [S_netdown; b] true 1 s -> can_send s -> shows s a -> zlen pbuf = 1024 ->
  (ndiff a (eki (at_ s)) < k)%nat ->
  (forall s', G [S_netdown; b] true 1 s' -> agrees a (eki (at_ s')) -> shows s' a ->
     (length (sw_out (world s')) <= length (sw_out (world s)) + ndiff a (eki (at_ s)))%nat -> Q b s') ->
  wp (ioctl_loop call k pbuf) s Q.
Proof.
  revert pbuf s. induction k as [|k IH]; intros pbuf s Hg Hc Ha Hp Hn HQ; [lia|]. cbn [ioctl_loop].
  apply wp_bind, (wp_packet_settles pbuf a); [done|done|].
  intros [plen m] s1 e [t ->] Ho Hm Hr. simpl in Hm, Hr.
  assert (Hg1 : forall t' out, G [S_netdown; b] true 1
    (mk_st (set_tid t' (set_eki e (at_ s))) (sw_set_out out (world s)) (pre_excp_t s) (rbuf s))).
  { intros t' out. destruct Hg as [? ? ? ? ? Hop ? ?]. constructor; try done. simpl. congruence. }
  destruct Hr as [[Hpl Hlt]|[-> H0]].
  - apply wp_if; intros Hz; bool_simpl; [lia|].
    assert (Hld : exists bs, load 0 plen m = Some bs /\ zlen bs = plen).
    { eexists. split; [apply load_Some; lia|]. apply zlen_ztake. rewrite zdrop_0. lia. }
    destruct Hld as (bs & Hld & Hbs). rewrite <- Hbs. apply wp_bind, wp_sim_send_bytes; [done|by rewrite Hbs|].
    apply wp_if; intros Hz'; [discriminate Hz'|]. apply wp_bind, wp_modify.
    apply IH; [apply Hg1|done|done|done|simpl; lia|].
    intros s' Hg' Hag Hdr Hlen. apply HQ; [done|done|done|]. simpl in Hlen. lia.
  - apply wp_if; intros Hz; [|discriminate Hz].
    assert (Hgs : G [S_netdown; b] true 1
      (mk_st (set_tid t (set_eki e (at_ s))) (world s) (pre_excp_t s) (rbuf s))).
    { destruct Hg as [? ? ? ? ? Hop ? ?]. constructor; try done. simpl. congruence. }
    eapply (wp_curnt [S_netdown] b); [exact Hgs|]. apply HQ; [exact Hgs|by apply ndiff_0|done|simpl; lia].
Qed.
End settings.


