(* ===== verification/Silence.v ===== *)
(** * A silent peer is given up

    The daemon has two clocks for a peer that sends nothing: the poll operation
    of the states, called when [select] times out (Net Up and Pause ask the peer
    and turn Idle, Idle gives up), and [lrecv], the time spent in rounds that
    served something else.  Together they bound the rounds of the main loop that
    a silent connection survives.

    [keeps] is the frame of the operations: only [vc_netdown_open] gives the
    daemon another socket. *)

From stdpp Require Import gmap.
From S2P Require Import Prelude RingBuf Tty Uart DrvMain Proto Os SslSelect SimWorld Vcom Connect.
From S2P Require Import Client ClientProofs SimLaws ClientInv MainLoop MainProofs.

(** ** Who changes the socket *)

Definition same_or_down {W} (s s' : St W) : Prop :=
  sk (at_ s') = sk (at_ s) \/ sk (at_ s') = -1.

Definition keeps {W A} (m : Prog W A) : Prop :=
  forall s x s', m s = Ok x s' -> same_or_down s s'.

#[export] Instance same_or_down_pre {W} : PreOrder (@same_or_down W).
Proof.
  unfold same_or_down. split; [by left|]. intros s1 s2 s3 [H1|H1] [H2|H2]; rewrite ?H2, ?H1; auto.
Qed.

Create HintDb stays.

Section keeps.
Context {W : Type}.

Lemma stays_ret {A} (x : A) : keeps (W := W) (mret x).
Proof. intros s y s' [= _ <-]. reflexivity. Qed.

Lemma stays_bind {A B} (m : Prog W A) (k : A -> Prog W B) :
  keeps m -> (forall x, keeps (k x)) -> keeps (m ≫= k).
Proof.
  intros Hm Hk s y s'. unfold mbind, prog_bind. destruct (m s) as [x s1| | |] eqn:E; try done.
  intros Ek. transitivity s1; [by eapply Hm|by eapply Hk].
Qed.

Lemma stays_gets {A} (f : vc_attr -> A) : keeps (W := W) (gets f).
Proof. intros s y s' [= _ <-]. reflexivity. Qed.

Lemma stays_modify f : (forall a, sk (f a) = sk a \/ sk (f a) = -1) -> keeps (W := W) (modify f).
Proof. intros Hf s y s' [= _ <-]. apply Hf. Qed.

Lemma stays_sys {A} (f : W -> A * W) : keeps (sys f).
Proof. intros s y s'. unfold sys. destruct (f (world s)). intros [= _ <-]. by left. Qed.

Lemma stays_get_world : keeps (W := W) get_world.
Proof. intros s y s' [= _ <-]. reflexivity. Qed.

Lemma stays_lift {A} (x : option A) : keeps (W := W) (lift x).
Proof. destruct x; [apply stays_ret|]. by intros s y s'. Qed.

Lemma stays_none {A} : keeps (W := W) (A := A) fault /\ keeps (W := W) (A := A) exit0 /\
  keeps (W := W) (A := A) nofuel.
Proof. split_and!; by intros s y s'. Qed.

Lemma stays_pre : keeps (W := W) get_pre_excp_t /\ forall t, keeps (W := W) (set_pre_excp_t t).
Proof. split; [|intros t]; intros s y s' [= _ <-]; by left. Qed.

Lemma stays_wp {A} (m : Prog W A) s Q :
  keeps m -> wp m s Q -> wp m s (fun x s' => Q x s' /\ same_or_down s s').
Proof. unfold wp. intros Hm. destruct (m s) eqn:E; try done. intros HQ. split; [done|]. by eapply Hm. Qed.
End keeps.

#[export] Hint Resolve stays_ret stays_gets stays_sys stays_get_world stays_lift : stays.
#[export] Hint Extern 1 (keeps (modify _)) => apply stays_modify; intros []; by (left + right) : stays.
#[export] Hint Extern 1 (keeps fault) => apply stays_none : stays.
#[export] Hint Extern 1 (keeps exit0) => apply stays_none : stays.
#[export] Hint Extern 1 (keeps nofuel) => apply stays_none : stays.
#[export] Hint Extern 1 (keeps get_pre_excp_t) => apply stays_pre : stays.
#[export] Hint Extern 1 (keeps (set_pre_excp_t _)) => apply stays_pre : stays.

(** Through the structure of a program, down to the operations the database
    knows. *)
Ltac stays_go := repeat first
  [ progress cbv zeta
  | solve [eauto with stays]
  | apply stays_bind; [|intros ?]
  | match goal with
    | |- keeps (match ?x with _ => _ end) => destruct x
    | |- keeps (when ?b _) => unfold when; destruct b
    end ].

Section frames.
Context {W : Type} `{Os W}.
Abbreviation call := (@dispatch W _).

Lemma stays_ssl_direct act f suc : keeps (W := W) (ssl_direct act f suc).
Proof. unfold ssl_direct, ssl_call, _do_ssl_update_wait_event, upd_ssl, get_ssl. stays_go. Qed.

Lemma stays_simple_tv fuel d suc tv : keeps d -> keeps (W := W) (ssl_simple_tv fuel d suc tv).
Proof.
  intros Hd. revert tv. induction fuel as [|fuel IH]; intros tv; cbn [ssl_simple_tv]; [stays_go|].
  unfold get_ssl. stays_go.
Qed.

#[local] Hint Resolve stays_ssl_direct stays_simple_tv : stays.

Lemma stays_send packet plen : keeps (W := W) (vc_check_send packet plen).
Proof.
  unfold vc_check_send, ssl_send_simple, ssl_simple, ssl_send_direct, fdcheck, _stk_log, stk_curnt.
  stays_go.
Qed.
#[local] Hint Resolve stays_send : stays.

Lemma stays_curnt : keeps (W := W) stk_curnt.
Proof. unfold stk_curnt. stays_go. Qed.

Lemma stays_stack :
  (forall x, keeps (W := W) (stk_push x)) /\ keeps (W := W) stk_pop /\
  (forall x, keeps (W := W) (stk_rpls x)) /\ keeps (W := W) stk_restart /\ keeps (W := W) stk_excp.
Proof. unfold stk_push, stk_pop, stk_rpls, stk_restart, stk_excp, _stk_excp, sys_. split_and!; intros; stays_go. Qed.
#[local] Hint Resolve stays_curnt : stays.
#[local] Hint Extern 1 (keeps (stk_push _)) => apply stays_stack : stays.
#[local] Hint Extern 1 (keeps stk_pop) => apply stays_stack : stays.
#[local] Hint Extern 1 (keeps (stk_rpls _)) => apply stays_stack : stays.
#[local] Hint Extern 1 (keeps stk_restart) => apply stays_stack : stays.
#[local] Hint Extern 1 (keeps stk_excp) => apply stays_stack : stays.

Lemma stays_buf_update id : keeps (W := W) (vc_buf_update id).
Proof. unfold vc_buf_update, ioctl_get. stays_go. Qed.
#[local] Hint Resolve stays_buf_update : stays.

Lemma stays_buf_clear f : keeps (W := W) (vc_buf_clear f).
Proof. unfold vc_buf_clear, ioctl_set. stays_go. Qed.
#[local] Hint Resolve stays_buf_clear : stays.

Lemma stays_send_packet pack size : keeps (W := W) (send_packet pack size).
Proof. unfold send_packet, pbuf_of, tid_incr. stays_go. Qed.
#[local] Hint Resolve stays_send_packet : stays.

Lemma stays_drop_socket : keeps (W := W) drop_socket.
Proof. unfold drop_socket, __set_block, ssl_call, upd_ssl, get_ssl, sys_. stays_go. Qed.
#[local] Hint Resolve stays_drop_socket : stays.

Lemma stays_init n : keeps (call n OpInit).
Proof.
  induction n as [|n IH]; cbn [dispatch]; [stays_go|]. apply stays_bind; [stays_go|]. intros [].
  all: cbn [handler vc_netdown_ops vc_netup_ops vc_pause_ops vc_idle_ops vc_sync_ops].
  all: unfold vc_netdown_init, vc_netup_init, vc_pause_init, vc_idle_init, vc_sync_init, excp_init,
         _sync_ms, _sync_event, _sync_queue, update_eki_attr, attr_p; stays_go.
Qed.
#[local] Hint Resolve stays_init : stays.

Lemma stays_excp_init n : keeps (excp_init (call n)).
Proof. unfold excp_init. stays_go. Qed.
#[local] Hint Resolve stays_excp_init : stays.

Lemma stays_ioctl n : keeps (vc_common_ioctl (call n)).
Proof.
  unfold vc_common_ioctl, pbuf_of. apply stays_bind; [stays_go|]. generalize 15%nat as k.
  induction k as [|k IH]; intros pbuf; cbn [ioctl_loop]; [stays_go|].
  unfold ioctl_packet, _set_ms, set_ms_step, update_eki_attr, tid_incr, attr_p. stays_go.
Qed.

Lemma stays_xmit n : keeps (vc_common_xmit (call n)).
Proof. unfold vc_common_xmit, pbuf_of, tid_incr. stays_go. Qed.

Lemma stays_close n : keeps (purge_close (call n)).
Proof.
  unfold purge_close, vc_common_purge, vc_common_close, pbuf_of, update_eki_attr, tid_incr. stays_go.
Qed.

Lemma stays_lost : keeps (W := W) lost.
Proof. unfold lost. stays_go. Qed.

(** The operations of the loop other than opening and receiving. *)
Lemma stays_handler n x o m :
  handler (call n) x o = Some m -> match o with OpOpen | OpRecv _ _ => False | _ => True end -> keeps m.
Proof.
  intros Hh Ho. destruct x, o; try done; injection Hh as <-.
  all: try apply stays_ioctl; try apply stays_xmit; try apply stays_close.
  all: unfold vc_netdown_close, vc_netdown_init, vc_netup_init, vc_pause_init, vc_idle_init, vc_sync_init,
         vc_netup_poll, vc_pause_poll, vc_idle_poll, vc_netup_pause, vc_pause_resume, vc_sync_close,
         _pause_queue, _resume_queue, _sync_ms, _sync_event, _sync_queue, update_eki_attr, attr_p; stays_go.
Qed.

Lemma stays_try_op o : match o with OpOpen | OpRecv _ _ => False | _ => True end -> keeps (W := W) (try_op o).
Proof.
  intros Ho. unfold try_op. apply stays_bind; [stays_go|]. intros x.
  destruct (handler _ x o) eqn:Hh; [by eapply stays_handler|stays_go].
Qed.

Lemma stays_call_close : keeps (W := W) (call_op OpClose).
Proof.
  unfold call_op, call_depth. rewrite dispatch_S. apply stays_bind; [stays_go|]. intros x.
  destruct (handler _ x OpClose) eqn:Hh; [by eapply stays_handler|stays_go].
Qed.
End frames.

(** ** Rounds without a packet *)

#[local] Instance tcp : TlsMode := false.

Section silent.
Context {W : Type} `{Os W} `{!DrvLaws W} `{!SockLaws W} `{!SslProgress W}.
Context (undef : list Z -> list Z) (sk0 : Z).
Implicit Types s : St W.

(** The peer sends nothing: its socket is never readable; the time left that
    [select] reports is part of the time it was given. *)
Definition silent : Prop :=
  forall w rs ws es tv n rs' ws' es' tv' w',
    sys_select w rs ws es tv = (n, (rs', ws', es'), tv', w') ->
    (sk0 ∉ rs') /\ (0 <= tv -> 0 <= tv' <= tv).

(** The driver's flag is one of the two values it stores. *)
Definition flag_ok : Prop :=
  forall w off i, map_info w off = Some i -> i_is_open i = 0 \/ i_is_open i = 1.

Hypothesis peer_silent : silent.
Hypothesis open_flag : flag_ok.

(** Connected, with at least [k] states above Net Down: two of them when the
    state is Idle. *)
Definition Conn (k : nat) s : Prop :=
  exists l, up_stack l /\ (k <= length l)%nat /\ G (S_netdown :: l) true 1 s.

Definition Held (k : nat) s : Prop := Down s \/ Conn k s.

Lemma Inv_Held s : Inv s -> Held 1 s.
Proof.
  intros [Hd|(b & Hb & [Hg|Hg])]; [by left|right..].
  - exists [b]. split_and!; [exists b; auto|simpl; lia|exact Hg].
  - exists [b; S_idle]. split_and!; [exists b; auto|simpl; lia|exact Hg].
Qed.

Lemma Held_Inv k s : Held k s -> Inv s.
Proof. intros [Hd|(l & Hup & _ & Hg)]; [by left|by eapply up_Inv]. Qed.

Lemma Conn_sk k s : Conn k s -> 0 <= sk (at_ s).
Proof. intros (l & _ & _ & Hg). apply (G_conn _ _ _ _ Hg). Qed.

Lemma Down_sk s : Down s -> sk (at_ s) = -1.
Proof. intros [Hg _]. apply (G_conn _ _ _ _ Hg). Qed.

(** Either the state is Idle or [Held] says no more than the invariant. *)
Lemma Conn_cases k s : Conn k s ->
  exists b, base b /\ (G [S_netdown; b] true 1 s /\ (k <= 1)%nat \/ G [S_netdown; b; S_idle] true 1 s).
Proof.
  intros (l & (b & Hb & [-> | ->]) & Hk & Hg); exists b; split; [done|left|done|right]; auto.
Qed.

Lemma idle_Conn b k s : base b -> (k <= 2)%nat -> G [S_netdown; b; S_idle] true 1 s -> Conn k s.
Proof. intros Hb Hk Hg. exists [b; S_idle]. split_and!; [exists b; auto|done|exact Hg]. Qed.

Lemma Held_weaken k s : (k <= 1)%nat -> Inv s -> Held k s.
Proof.
  intros Hk [?|(l & Hup & Hl & Hg)]%Inv_Held; [by left|]. right. exists l. split_and!; [done|lia|done].
Qed.

Lemma Held_world k s (w : W) : Held k s -> Held k (mk_st (at_ s) w (pre_excp_t s) (rbuf s)).
Proof.
  intros [[Hg Hr]|(l & ? & ? & Hg)]; [left; split; [by apply G_world|exact Hr]|].
  right. exists l. split_and!; [done..|by apply G_world].
Qed.

Lemma wp_held_op o k s :
  Held k s -> o ∈ [OpIoctl; OpXmit; OpPause; OpResume] ->
  wp (try_op o) s (fun _ s' => Held k s' /\ same_or_down s s').
Proof.
  intros Hh Ho. assert (Hop : loop_op o /\ (forall c : vc_op -> Prog W state_id,
      handler c S_idle o = None /\ handler c S_netdown o = None) /\
      match o with OpOpen | OpRecv _ _ => False | _ => True end).
  { by repeat (apply elem_of_cons in Ho as [->|Ho]); [..|apply elem_of_nil in Ho]. }
  destruct Hop as (Hl & Hnone & Hk). apply stays_wp; [by apply stays_try_op|].
  destruct Hh as [Hd|Hc].
  - unfold try_op. eapply wp_bind, (wp_curnt [] S_netdown); [apply Hd|].
    rewrite (proj2 (Hnone _)). apply wp_ret. by left.
  - destruct (Conn_cases k s Hc) as (b & Hb & [[Hg Hk1]|Hg]).
    + eapply wp_mono; [apply wp_try_op; [right; eauto|done]|]. cbv beta. intros _ s' Hi. by apply Held_weaken.
    + unfold try_op. eapply wp_bind, (wp_curnt [S_netdown; b] S_idle); [exact Hg|].
      rewrite (proj1 (Hnone _)). apply wp_ret. by right.
Qed.

(** Polling brings the connection a step closer to its end. *)
Lemma wp_held_poll k s :
  Held k s ->
  wp (try_op OpPoll) s (fun _ s' => (Down s' \/ (k <= 1)%nat /\ Conn 2 s') /\ same_or_down s s').
Proof.
  intros Hh. apply stays_wp; [by apply stays_try_op|]. unfold try_op. destruct Hh as [Hd|Hc].
  - eapply wp_bind, (wp_curnt [] S_netdown); [apply Hd|]. apply wp_ret. by left.
  - destruct (Conn_cases k s Hc) as (b & Hb & [[Hg Hk1]|Hg]).
    + eapply wp_bind, (wp_curnt [S_netdown] b); [exact Hg|].
      assert (Hends : ends [b; S_idle] 1 (fun (_ : state_id) s' => Down s' \/ (k <= 1)%nat /\ Conn 2 s')).
      { split; [by left|]. intros _ s' Hg'. right. split; [done|]. by eapply idle_Conn. }
      destruct Hb as [-> | ->]; by eapply wp_poll.
    + eapply wp_bind, (wp_curnt [S_netdown; b] S_idle); [exact Hg|]. cbn [handler vc_netdown_ops vc_netup_ops vc_pause_ops vc_idle_ops vc_sync_ops]. unfold vc_idle_poll.
      eapply wp_bind, wp_buf_clear; [exact Hg|]. intros s1 Hg1.
      eapply wp_excp_init; [exact Hg1|]. by left.
Qed.

Lemma wp_held_update id k s :
  Held k s -> wp (vc_buf_update id) s (fun _ s' => Held k s' /\ same_or_down s s').
Proof.
  intros Hh. apply stays_wp; [apply stays_buf_update|]. destruct Hh as [Hd|(l & Hup & Hk & Hg)].
  - eapply wp_buf_update_down; [done|]. by left.
  - eapply wp_buf_update; [exact Hg|]. right. by exists l.
Qed.

(** The application may only close the port of a connection. *)
Lemma wp_follow_open k s :
  Conn k s -> wp follow_open s (fun _ s' => Held k s' /\ same_or_down s s').
Proof.
  intros Hc. pose proof Hc as (l & Hup & Hk & Hg). unfold follow_open.
  apply wp_bind. eapply (wp_mono _ _ (fun a s' => s' = s /\ (i_is_open a = 0 \/ i_is_open a = 1))).
  { unfold attr_p. apply wp_bind, wp_gets, wp_bind, wp_gets, wp_bind, wp_get_world, wp_lift.
    destruct (G_bufs _ _ _ _ Hg) as (_ & _ & Hao & Hp). rewrite Hao.
    destruct (map_info_ok (world s) _ Hp) as [i Hi]. exists i. split; [done|]. split; [done|].
    by eapply open_flag. }
  intros a s' [-> Ha]. apply wp_bind, wp_gets, wp_when; intros Hd.
  2:{ split; [by right|reflexivity]. }
  rewrite (G_open _ _ _ _ Hg) in Hd. destruct Ha as [Ha|Ha]; rewrite Ha in *; [|done].
  change (truthy 0) with false. cbv iota. unfold run. apply wp_bind. eapply (wp_mono _ _ (fun _ s' => Held k s' /\ same_or_down s s')).
  2:{ intros x s' Hs'. by apply wp_ret. }
  apply stays_wp; [apply stays_call_close|]. unfold call_op, call_depth. rewrite dispatch_S.
  destruct Hup as (b & Hb & [-> | ->]); apply wp_bind.
  - eapply (wp_curnt [S_netdown] b); [exact Hg|].
    destruct Hb as [-> | ->]; (eapply wp_purge_close; [exact Hg|]); by left.
  - eapply (wp_curnt [S_netdown; b] S_idle); [exact Hg|].
    eapply wp_purge_close; [exact Hg|]. by left.
Qed.

(** A conditional step that keeps [Held] and the socket. *)
Lemma wp_when_held (b : bool) m k s0 s (Q : unit -> St W -> Prop) :
  Held k s -> same_or_down s0 s ->
  wp m s (fun _ s' => Held k s' /\ same_or_down s s') ->
  (forall s', Held k s' -> same_or_down s0 s' -> Q tt s') -> wp (when b m) s Q.
Proof.
  intros Hh Hs Hm HQ. apply wp_when; intros _; [|by apply HQ].
  eapply wp_mono; [exact Hm|]. cbv beta. intros [] s' [Hh' Hs']. apply HQ; [done|]. by transitivity s.
Qed.

Lemma wp_run_held (m : Prog W state_id) (R : St W -> Prop) s :
  wp m s (fun _ => R) -> wp (run m) s (fun _ => R).
Proof. intros Hm. unfold run. apply wp_bind. eapply wp_mono; [exact Hm|]. by intros; apply wp_ret. Qed.

Ltac in_ops := rewrite !elem_of_cons; tauto.

Lemma wp_head_held k s :
  Conn k s -> wp loop_head s (fun _ s' => Held k s' /\ same_or_down s s').
Proof.
  intros Hc. unfold loop_head, follow_line, follow_rx, follow_tx.
  assert (Hop : forall o s', Held k s' -> o ∈ [OpIoctl; OpXmit; OpPause; OpResume] ->
    wp (run (try_op o)) s' (fun _ s'' => Held k s'' /\ same_or_down s' s'')).
  { intros o s' Hh Ho. by apply wp_run_held, wp_held_op. }
  apply wp_bind. eapply wp_mono; [by apply wp_follow_open|]. cbv beta. intros _ s1 [Hh1 Hs1].
  apply wp_bind, wp_bind, wp_attr_Inv; [by eapply Held_Inv|]. intros a. apply wp_bind, wp_gets.
  eapply wp_when_held; [done..|apply Hop; [done|in_ops]|]. intros s2 Hh2 Hs2.
  apply wp_bind, wp_bind, wp_gets, wp_bind, wp_gets.
  eapply wp_when_held; [done..|apply Hop; [done|in_ops]|]. intros s3 Hh3 Hs3.
  apply wp_bind, wp_gets. eapply wp_when_held; [done..|apply Hop; [done|in_ops]|]. auto.
Qed.

Lemma add_used_more tv lrecv :
  0 <= tv <= VC_PULL_TIME -> 0 <= lrecv <= VC_PULL_TIME ->
  lrecv < add_used tv lrecv.
Proof.
  unfold add_used, VC_PULL_TIME. cbv zeta. intros Ht Hl. rewrite (u32_small (_ - _)) by lia.
  destruct (Z.ltb_spec 0 (10000000 - tv)); rewrite u32_small by lia; lia.
Qed.

(** What a round leaves: nothing, an idle connection, or more time on the
    clock. *)
Definition spent (k : nat) (lrecv : Z) (lr : Z) s : Prop :=
  Down s \/ lrecv <= lr <= VC_PULL_TIME /\ ((k <= 1)%nat /\ Conn 2 s \/ Conn k s /\ lrecv < lr).

Lemma wp_serve_silent k s0 tv lrecv rs ws s :
  Held k s -> sk (at_ s0) = sk0 -> same_or_down s0 s -> (sk0 ∉ rs) ->
  0 <= tv <= VC_PULL_TIME -> 0 <= lrecv <= VC_PULL_TIME ->
  wp (serve_socket false tv lrecv rs ws) s (fun lr s' =>
    same_or_down s0 s' /\ (Down s' \/ Conn k s' /\ lrecv < lr <= VC_PULL_TIME)).
Proof.
  intros Hh H0 Hs Hrs Ht Hl. unfold serve_socket. apply wp_bind, wp_gets, wp_if; intros Hsk; bool_simpl.
  { apply wp_ret. split; [done|]. destruct Hh as [Hd|Hc]; [by left|]. apply Conn_sk in Hc. lia. }
  destruct Hh as [Hd|Hc]; [apply Down_sk in Hd; lia|].
  pose proof Hc as (l & Hup & Hk & Hg). pose proof (G_tls _ _ _ _ Hg) as Hssl.
  apply wp_bind, wp_gets. destruct (ssl (at_ s)); [done|].
  assert (Hn : FD_ISSET (sk (at_ s)) rs = false).
  { apply bool_decide_eq_false. destruct Hs as [Hs|Hs]; [congruence|lia]. }
  rewrite Hn. unfold check_silence. apply wp_if; intros Hlong; bool_simpl.
  - apply wp_bind, wp_run_held. eapply wp_mono.
    { apply (stays_wp _ _ (fun _ => Down)); [apply stays_lost|]. unfold lost.
      eapply wp_excp_init; [exact Hg|]. done. }
    cbv beta. intros _ s' [Hd Hs']. apply wp_ret. split; [by transitivity s|by left].
  - apply wp_ret. split; [done|]. right. split; [done|]. split; [by apply add_used_more|done].
Qed.

Lemma wp_wait_silent k s0 fd maxfd rfds wfds lrecv s :
  Held k s -> sk (at_ s0) = sk0 -> same_or_down s0 s -> 0 <= lrecv <= VC_PULL_TIME ->
  wp (loop_wait fd maxfd false rfds wfds lrecv) s (fun lr s' =>
    same_or_down s0 s' /\ spent k lrecv lr s').
Proof.
  intros Hh H0 Hs Hl. unfold loop_wait. cbv zeta. apply wp_bind, wp_sys.
  intros [[ret [[rs ws] es]] tv] w Hsel. cbv beta iota.
  destruct (peer_silent _ _ _ _ _ _ _ _ _ _ _ Hsel) as [Hrs Htv].
  specialize (Htv ltac:(by vm_compute)). apply (Held_world k s w) in Hh.
  set (s1 := mk_st (at_ s) w (pre_excp_t s) (rbuf s)) in *.
  assert (Hs1 : same_or_down s0 s1) by exact Hs. clearbody s1. apply wp_if; intros _.
  { apply wp_bind, wp_run_held. eapply wp_mono; [by apply wp_held_poll|]. cbv beta.
    intros _ s' [Hd Hs']. apply wp_ret. split; [by transitivity s1|].
    destruct Hd as [Hd|[Hk Hc]]; [by left|]. right. split; [lia|by left]. }
  assert (Hupd : forall id s', Held k s' ->
    wp (_ ← vc_buf_update id; mret tt) s' (fun _ s'' => Held k s'' /\ same_or_down s' s'')).
  { intros id s' Hs'. apply wp_bind. eapply wp_mono; [by apply wp_held_update|]. cbv beta.
    intros; by apply wp_ret. }
  apply wp_bind. eapply wp_when_held; [done..|by apply Hupd|]. intros s2 Hh2 Hs2.
  apply wp_bind. eapply wp_mono; [by apply (wp_serve_silent k s0)|]. cbv beta.
  intros lr s3 [Hs3 Hend].
  (* from here on only the rings are looked at *)
  assert (Hrest : forall k', Held k' s3 ->
    wp (when (FD_ISSET fd rs) (_ ← vc_buf_update VC_BUF_RX; mret tt);;
        when (FD_ISSET fd ws) (_ ← vc_buf_update VC_BUF_TX; run (try_op OpResume));; mret lr) s3
      (fun r s' => r = lr /\ Held k' s' /\ same_or_down s0 s')).
  { intros k' Hh3. apply wp_bind. eapply wp_when_held; [done..| |].
    { apply wp_bind. eapply wp_mono; [by apply wp_held_update|]. cbv beta. intros; by apply wp_ret. }
    intros s4 Hh4 Hs4. apply wp_bind. eapply wp_when_held; [done..| |].
    { apply wp_bind. eapply wp_mono; [by apply wp_held_update|]. cbv beta. intros _ s5 [Hh5 Hs5].
      apply wp_run_held. eapply wp_mono; [apply wp_held_op; [done|in_ops]|]. cbv beta.
      intros _ s6 [Hh6 Hs6]. split; [done|]. by transitivity s5. }
    intros s7 Hh7 Hs7. by apply wp_ret. }
  destruct Hend as [Hd|[Hc Hlr]].
  - eapply wp_mono; [apply (Hrest 3%nat); by left|]. cbv beta.
    intros r s' (-> & [Hd'|(l & (b & _ & [-> | ->]) & Hl3 & _)] & Hs'); [|simpl in Hl3; lia..].
    split; [done|by left].
  - eapply wp_mono; [apply (Hrest k); by right|]. cbv beta. intros r s' (-> & [Hd|Hc'] & Hs').
    + split; [done|by left].
    + split; [done|]. right. split; [lia|]. right. split; [done|lia].
Qed.

Lemma wp_round_silent k lrecv s :
  Conn k s -> sk (at_ s) = sk0 -> 0 <= lrecv <= VC_PULL_TIME ->
  wp (loop_body undef lrecv) s (fun r s' => same_or_down s s' /\
    match r with Some lr => spent k lrecv lr s' | None => True end).
Proof.
  intros Hc H0 Hl. unfold loop_body. apply wp_bind. eapply wp_mono; [by apply wp_head_held|].
  cbv beta. intros _ s1 [Hh1 Hs1]. apply wp_bind, wp_gets, wp_bind, wp_gets, wp_bind.
  eapply wp_mono; [apply wp_try_event; by eapply Held_Inv|]. cbv beta. intros [rfds wfds] s2 ->. cbv beta iota.
  unfold ioctl_set at 1. apply wp_bind, wp_bind, wp_sys. intros [r v] w _. apply wp_ret. cbn [fst].
  apply (Held_world k s1 w) in Hh1. set (s2 := mk_st (at_ s1) w (pre_excp_t s1) (rbuf s1)) in *.
  assert (Hs2 : same_or_down s s2) by exact Hs1.
  apply wp_if; intros _; [by apply wp_ret|]. cbv zeta. apply wp_bind, wp_gets.
  assert (Hssl : ssl (at_ s2) = None).
  { destruct (Inv_G s2) as (l & c & o & Hg); [by eapply Held_Inv|].
    pose proof (G_tls _ _ _ _ Hg) as Ht. by destruct (ssl (at_ s2)). }
  rewrite Hssl. apply wp_bind. rewrite bool_decide_eq_false_2 by (by intros []). apply wp_ret.
  apply wp_bind. eapply wp_mono; [by apply (wp_wait_silent k s)|]. cbv beta. intros lr s3 Hend. by apply wp_ret.
Qed.

(** The rounds left: the clock, and one for turning Idle. *)
Lemma silent_rounds n k lrecv s :
  Conn k s -> sk (at_ s) = sk0 -> (1 <= k <= 2)%nat -> 0 <= lrecv <= VC_PULL_TIME ->
  VC_PULL_TIME - lrecv + 3 - Z.of_nat k <= Z.of_nat n ->
  exists m r s', (m <= n)%nat /\ main_loop undef m lrecv s = Ok r s' /\ (r = None \/ sk (at_ s') = -1).
Proof.
  revert k lrecv s. induction n as [|n IH]; intros k lrecv s Hc H0 Hk Hl Hn; [lia|].
  pose proof (wp_round_silent k lrecv s Hc H0 Hl) as Hr. unfold wp in Hr.
  destruct (loop_body undef lrecv s) as [r s1| | |] eqn:Hb; try done. destruct Hr as [Hs Hr].
  assert (Hone : forall r', r = r' -> main_loop undef 1 lrecv s = Ok r' s1).
  { intros r' <-. cbn [main_loop]. unfold mbind, prog_bind. rewrite Hb. by destruct r. }
  destruct r as [lr|]; [|exists 1%nat; eauto 10 with lia].
  destruct Hr as [Hd|[Hlr Hr]].
  { exists 1%nat. eexists _, _. split_and!; [lia|by apply Hone|right; by apply Down_sk]. }
  assert (Hgo : forall k', Conn k' s1 -> (1 <= k' <= 2)%nat ->
    VC_PULL_TIME - lr + 3 - Z.of_nat k' <= Z.of_nat n -> exists m r s',
      (m <= S n)%nat /\ main_loop undef m lrecv s = Ok r s' /\ (r = None \/ sk (at_ s') = -1)).
  { intros k' Hc' Hk' Hn'. destruct (IH k' lr s1) as (m & r & s' & Hm & Hrun & Hend); [done| |done|lia|lia|].
    - apply Conn_sk in Hc'. destruct Hs as [Hs|Hs]; [congruence|lia].
    - exists (S m), r, s'. split_and!; [lia| |done]. cbn [main_loop]. unfold mbind at 1, prog_bind at 1.
      by rewrite Hb. }
  destruct Hr as [[Hk1 Hc']|[Hc' Hlt]]; [apply (Hgo 2%nat)|apply (Hgo k)]; done || lia.
Qed.
End silent.

(** ** A world with a silent peer

    [sim_world] with a socket that is always writable and never readable, and
    an application that keeps the port open. *)

Definition quiet_os : Os sim_world := {|
  drv_ioctl := sim_ioctl;
  map_load := sim_map_load;
  map_store := sim_map_store;
  map_info _ _ := Some (mk_info 1 9600 ADV_FLOW_NONE 8 ADV_PAIR_NONE ADV_STOP_1 0);
  sys_select w _ ws _ _ := (zlen ws, ([], ws, []), 0, w);
  sys_send := sim_send;
  sys_recv := sim_recv;
  sys_close := @sys_close _ sim_os;
  sys_time := @sys_time _ sim_os;
  sys_sleep := @sys_sleep _ sim_os;
  fcntl_getfl := @fcntl_getfl _ sim_os;
  fcntl_setfl := @fcntl_setfl _ sim_os;
  set_nodelay := @set_nodelay _ sim_os;
  getifaddrs := @getifaddrs _ sim_os;
  getaddrinfo := @getaddrinfo _ sim_os;
  sys_socket := @sys_socket _ sim_os;
  sys_bind := @sys_bind _ sim_os;
  sys_connect := @sys_connect _ sim_os;
  sys_so_error := @sys_so_error _ sim_os;
  SSL_new := @SSL_new _ sim_os;
  SSL_free := @SSL_free _ sim_os;
  SSL_shutdown := @SSL_shutdown _ sim_os;
  SSL_set_fd := @SSL_set_fd _ sim_os;
  SSL_connect := @SSL_connect _ sim_os;
  SSL_read := @SSL_read _ sim_os;
  SSL_write := @SSL_write _ sim_os;
  SSL_get_error := @SSL_get_error _ sim_os;
  SSL_pending := @SSL_pending _ sim_os;
  ssl_work := @ssl_work _ sim_os;
  uninit := @uninit _ sim_os;
|}.

Lemma quiet_drv_laws : @DrvLaws sim_world quiet_os.
Proof.
  constructor.
  - exact (@get_index sim_world sim_os sim_drv_laws).
  - exact (@get_attrptr sim_world sim_os sim_drv_laws).
  - exact (@map_load_ok sim_world sim_os sim_drv_laws).
  - exact (@map_store_ok sim_world sim_os sim_drv_laws).
  - intros w p _. by eexists.
  - exact (@recv_length sim_world sim_os sim_drv_laws).
Qed.

Lemma quiet_sock_laws : @SockLaws sim_world quiet_os.
Proof.
  refine {| open_fds := sw_open |}; try done.
  - intros w f r w'. simpl. case_bool_decide as Hx; intros [= <- <-]; [by left|].
    right. split_and!; [lia|done|done].
  - intros w rs ws es tv n rs' ws' es' tv' w' [= <- <- <- <- <- <-] Hn.
    destruct ws as [|x ws]; [done|]. exists x. right; left. split; apply elem_of_cons; by left.
Qed.

Lemma quiet_ssl_progress : @SslProgress sim_world quiet_os.
Proof.
  constructor.
  - exact (@read_progress sim_world sim_os sim_ssl_progress).
  - exact (@read_length sim_world sim_os sim_ssl_progress).
  - exact (@write_progress sim_world sim_os sim_ssl_progress).
  - exact (@connect_progress sim_world sim_os sim_ssl_progress).
  - by intros w rs ws es tv r sets tv' w' [= <- <- <- <-].
Qed.

Lemma quiet_peer x : @silent sim_world quiet_os x /\ @flag_ok sim_world quiet_os.
Proof.
  split.
  - intros w rs ws es tv n rs' ws' es' tv' w' [= <- <- <- <- <- <-].
    split; [by apply not_elem_of_nil|lia].
  - intros w off i [= <-]. by right.
Qed.

(** C14: a silent peer is given up.  Without TLS, from a connected state, if the
    peer's socket is never readable, then after at most [VC_PULL_TIME] (less
    what the clock [lrecv] already shows) and two rounds of the main loop the
    daemon has closed the connection and is in Net Down, or it has left the loop
    because the control file refused a request; no mixture of timeouts, writes
    of the application, changes of the settings, throttling and unthrottling
    keeps a dead connection. *)
Theorem silent_peer_dropped {W} `{Os W} `{!DrvLaws W} `{!SockLaws W} `{!SslProgress W}
    (undef : list Z -> list Z) (lrecv : Z) (s : St W) :
  @Inv W false s -> 0 <= sk (at_ s) -> silent (sk (at_ s)) -> flag_ok ->
  0 <= lrecv <= VC_PULL_TIME ->
  exists n r s', Z.of_nat n <= VC_PULL_TIME - lrecv + 2 /\
    main_loop undef n lrecv s = Ok r s' /\ (r = None \/ sk (at_ s') = -1).
Proof.
  intros Hi Hsk Hq Hf Hl.
  destruct (Inv_Held s Hi) as [Hd|Hc]; [apply Down_sk in Hd; lia|].
  destruct (silent_rounds undef (sk (at_ s)) Hq Hf (Z.to_nat (VC_PULL_TIME - lrecv + 2)) 1 lrecv s)
    as (n & r & s' & Hn & Hrun & Hend); [done|done|lia|done|lia|].
  exists n, r, s'. split_and!; [lia|done|done].
Qed.

Lemma silent_peer_dropped_witness :
  let s := connected_st false idle_port in
  exists n r s', Z.of_nat n <= VC_PULL_TIME - 0 + 2 /\
    @main_loop sim_world quiet_os (fun l => l) n 0 s = Ok r s' /\ (r = None \/ sk (at_ s') = -1).
Proof.
  apply (@silent_peer_dropped sim_world quiet_os quiet_drv_laws quiet_sock_laws quiet_ssl_progress
           (fun l => l) 0 (connected_st false idle_port)).
  - apply connected_Inv. reflexivity.
  - by vm_compute.
  - apply quiet_peer.
  - apply (quiet_peer 0).
  - by vm_compute.
Defined.
