(* ===== verification/Link.v ===== *)
(** * What daemon and driver are for: a link

    The abstract specification of a port together with its daemon: the bytes
    the application has written and nobody has taken, the bytes that were
    delivered to it, and the bytes of the one write packet that waits for its
    acknowledgement.  [LiveMain] shows that the main loop on the driver refines
    it.  The protocol is stop and wait: the theorem here says what its runs do
    to the stream. *)

From S2P Require Import Prelude Proto Client.

Record link := mk_link { lk_up : list byte; lk_down : list byte; lk_flight : list byte }.

(** What happens, with the bytes that arrive from the device where they cause
    it. *)
Inductive event :=
  | E_write (bs : list byte)
  | E_send (p : list byte)
  | E_ack (pkt : list byte)
  | E_data (pkt : list byte)
  | E_other (bs : list byte)
  | E_drop
  | E_clear (rx tx : bool).

(** A packet as it was received. *)
Definition pkt_cmd (pkt : list byte) : option Z := get16 off_cmd pkt.
Definition pkt_payload (pkt : list byte) : list byte := zdrop off_data pkt.

Inductive link_step : event -> link -> link -> Prop :=
  | LS_write bs l :
      link_step (E_write bs) l (mk_link (lk_up l ++ bs) (lk_down l) (lk_flight l))
  | LS_send p l :
      lk_flight l = [] -> p `prefix_of` lk_up l -> 0 < zlen p <= XMIT_LEN ->
      link_step (E_send p) l (mk_link (lk_up l) (lk_down l) p)
  | LS_ack pkt l rest :
      pkt_cmd pkt = Some VCOM_CMD_WRITE -> lk_up l = lk_flight l ++ rest ->
      link_step (E_ack pkt) l (mk_link rest (lk_down l) [])
  | LS_data pkt l :
      pkt_cmd pkt = Some VCOM_CMD_DATAREADY ->
      link_step (E_data pkt) l (mk_link (lk_up l) (lk_down l ++ pkt_payload pkt) (lk_flight l))
  | LS_other bs l : link_step (E_other bs) l l
  | LS_drop l : link_step E_drop l (mk_link (lk_up l) (lk_down l) [])
  | LS_clear (crx ctx : bool) l up down :
      up `suffix_of` lk_up l -> down `prefix_of` lk_down l ->
      (crx = false -> up = lk_up l) -> (ctx = false -> down = lk_down l) ->
      link_step (E_clear crx ctx) l
        (mk_link up down (if crx then [] else lk_flight l)).

Inductive link_run : link -> list event -> link -> Prop :=
  | LR_nil l : link_run l [] l
  | LR_snoc l es l1 e l2 : link_run l es l1 -> link_step e l1 l2 -> link_run l (es ++ [e]) l2.

(** ** What a run says *)

Definition wrote_of (e : event) : list byte := match e with E_write bs => bs | _ => [] end.
Definition sent_of (e : event) : list (list byte) := match e with E_send p => [p] | _ => [] end.
Definition input_of (e : event) : list byte :=
  match e with E_ack p | E_data p | E_other p => p | _ => [] end.
Definition data_of (e : event) : list byte :=
  match e with E_data p => pkt_payload p | _ => [] end.

Definition wrote (es : list event) : list byte := concat (wrote_of <$> es).
Definition sent (es : list event) : list (list byte) := concat (sent_of <$> es).
Definition input (es : list event) : list byte := concat (input_of <$> es).
Definition data (es : list event) : list byte := concat (data_of <$> es).

(** The payloads that were acknowledged: the write in flight at an
    acknowledgement; [fl] is the one at the start. *)
Fixpoint acked (fl : list byte) (es : list event) : list byte :=
  match es with
  | [] => []
  | E_send p :: es => acked p es
  | E_ack _ :: es => fl ++ acked [] es
  | E_drop :: es => acked [] es
  | E_clear rx _ :: es => acked (if rx then [] else fl) es
  | _ :: es => acked fl es
  end.

(** What is in flight after a run. *)
Definition fly (fl : list byte) (e : event) : list byte :=
  match e with
  | E_send p => p
  | E_ack _ | E_drop => []
  | E_clear rx _ => if rx then [] else fl
  | _ => fl
  end.

Definition is_clear_ev (e : event) : bool := match e with E_clear _ _ => true | _ => false end.

Lemma concat_snoc {A B} (f : A -> list B) es e : concat (f <$> es ++ [e]) = concat (f <$> es) ++ f e.
Proof. rewrite fmap_app, concat_app. simpl. by rewrite app_nil_r. Qed.

Lemma acked_app fl es e :
  acked fl (es ++ [e]) = acked fl es ++ acked (foldl fly fl es) [e].
Proof.
  revert fl. induction es as [|x es IH]; intros fl; [done|].
  destruct x; simpl; rewrite IH; try done. simpl. by rewrite <- app_assoc.
Qed.

Lemma link_run_flight l es l' : link_run l es l' -> lk_flight l' = foldl fly (lk_flight l) es.
Proof.
  induction 1 as [|l es l1 e l2 Hr IH Hs]; [done|]. rewrite foldl_app, <- IH.
  by inversion Hs; subst.
Qed.

Lemma link_run_trans l1 es1 l2 es2 l3 :
  link_run l1 es1 l2 -> link_run l2 es2 l3 -> link_run l1 (es1 ++ es2) l3.
Proof.
  intros H1 H2. induction H2 as [|l es l' e l'' _ IH Hs]; [by rewrite app_nil_r|].
  rewrite app_assoc. econstructor; eauto.
Qed.

(** Stop and wait: as long as nothing is cleared, what the application wrote is
    what was acknowledged followed by what is left, and what it is given is the
    payload of the data packets, both in order and without gaps. *)
Lemma link_run_streams l es l' :
  link_run l es l' -> forallb (fun e => negb (is_clear_ev e)) es = true ->
  lk_up l ++ wrote es = acked (lk_flight l) es ++ lk_up l' /\
  lk_down l' = lk_down l ++ data es.
Proof.
  induction 1 as [l|l es l1 e l2 Hr IH Hs]; intros Hc.
  { unfold wrote, data. simpl. by rewrite !app_nil_r. }
  rewrite forallb_app in Hc. apply andb_true_iff in Hc as [Hc He].
  destruct (IH Hc) as [IHu IHd]. unfold wrote, data in *.
  rewrite !concat_snoc, acked_app, <- (link_run_flight _ _ _ Hr).
  rewrite app_assoc, IHu, <- !app_assoc. simpl in He. rewrite andb_true_r in He.
  inversion Hs; subst; simpl in *; rewrite ?app_nil_r; rewrite ?IHd, <- ?app_assoc; try done.
  match goal with Hu : lk_up _ = _ |- _ => by rewrite Hu end.
Qed.

(** An empty payload does not count. *)
Lemma sublist_skip_nil (ps l : list (list byte)) :
  ps `sublist_of` [] :: l -> exists ps', ps' `sublist_of` l /\ concat ps' = concat ps.
Proof. intros [Hs|(ps' & -> & Hs)]%sublist_cons_r; [by exists ps|by exists ps']. Qed.

(** Nothing is acknowledged that was not sent: the acknowledged bytes are the
    payloads of a subsequence of the write packets. *)
Lemma acked_sublist fl es :
  exists ps, ps `sublist_of` fl :: sent es /\ acked fl es = concat ps.
Proof.
  unfold sent. revert fl. induction es as [|e es IH]; intros fl; simpl.
  { exists []. split; [apply sublist_nil_l|done]. }
  assert (Hnil : exists ps, ps `sublist_of` concat (sent_of <$> es) /\ acked [] es = concat ps).
  { destruct (IH []) as (ps & Hs & ->). destruct (sublist_skip_nil _ _ Hs) as (ps' & ? & ?). eauto. }
  destruct Hnil as (ps0 & Hs0 & Ha0).
  destruct e as [bs|p|pkt|pkt|bs| |[] ctx]; simpl; try apply IH.
  - destruct (IH p) as (ps & Hs & Ha). exists ps. split; [by apply sublist_cons|done].
  - exists (fl :: ps0). split; [by constructor|]. by rewrite Ha0.
  - exists ps0. split; [by apply sublist_cons|done].
  - exists ps0. split; [by apply sublist_cons|done].
Qed.
