(* ===== verification/LiveWorld.v ===== *)
(** * A world in which the application is alive

    [sim_world] with an application that acts while the daemon runs: before
    each call of the daemon it makes the calls its schedule says, on the
    driver behind the control file.  A request that carries out the second
    half of an operation of the port (the head move of a clear, the tail move
    after the bytes were stored) follows its first half at once.

    The world also records what the application has written and what the
    daemon has read from the network. *)

From stdpp Require Import gmap.
From S2P Require Import Prelude RingBuf Tty Uart DrvMain Proto Os SslSelect SimWorld Vcom Connect.
From S2P Require Import Client ClientProofs SimLaws.

(** ** The application *)

Inductive app_op :=
  | A_tty (o : tty_op)
  | A_write (bs : list byte).

(** [write] on the port: the serial core queues the bytes for the driver. *)
Definition tty_write (bs : list byte) (t : eager_tty) : eager_tty :=
  mk_sim (sim_received t) (sim_fifo1 t) (sim_fifo2 t ++ bs).

Record live_world := mk_live {
  lw : sim_world;
  (** what the application does before each of the next calls *)
  lw_app : list (list app_op);
  lw_wrote : list byte;
  lw_got : list byte;
}.

Definition on_sim (f : sim_world -> sim_world) (w : live_world) : live_world :=
  mk_live (f (lw w)) (lw_app w) (lw_wrote w) (lw_got w).

Definition app_step (w : live_world) (o : app_op) : live_world :=
  let d := sw_drv (lw w) in
  match o with
  | A_tty o =>
      match tty_do d o with
      | Some d => on_sim (sw_set_drv d) w
      | None => w
      end
  | A_write bs =>
      mk_live (sw_set_drv (set_tty (tty_write bs (tty d)) d) (lw w)) (lw_app w)
        (lw_wrote w ++ bs) (lw_got w)
  end.

Definition tick (w : live_world) : live_world :=
  match lw_app w with
  | [] => w
  | os :: rest => foldl app_step (mk_live (lw w) rest (lw_wrote w) (lw_got w)) os
  end.

(** ** The calls *)

Definition call {A} (f : sim_world -> A * sim_world) (w : live_world) : A * live_world :=
  let w := tick w in
  let '(x, s) := f (lw w) in (x, on_sim (fun _ => s) w).
Definition call_ (f : sim_world -> sim_world) (w : live_world) : live_world := on_sim f (tick w).

(** The bytes a read delivers are recorded. *)
Definition got_bytes (r : Z) (bs : list byte) (w : live_world) : live_world :=
  mk_live (lw w) (lw_app w) (lw_wrote w) (if 0 <? r then lw_got w ++ bs else lw_got w).

Definition live_recv (f : sim_world -> Z * list byte * sim_world) (w : live_world)
  : Z * list byte * live_world :=
  let '(r, bs, w) := call f w in (r, bs, got_bytes r bs w).

Definition second_half (cmd : Z) : bool :=
  (cmd =? ADVVCOM_IOCSRXHEAD) || (cmd =? ADVVCOM_IOCSTXTAIL).

Definition live_ioctl (w : live_world) (cmd arg : Z) : Z * Z * live_world :=
  let w := if second_half cmd then w else tick w in
  let '(x, s) := sim_ioctl (lw w) cmd arg in (x, on_sim (fun _ => s) w).

#[export] Instance live_os : Os live_world := {
  drv_ioctl := live_ioctl;
  map_load w := sim_map_load (lw w);
  map_store w off bs := s ← sim_map_store (lw w) off bs; Some (on_sim (fun _ => s) w);
  map_info w := sim_map_info (lw w);
  sys_select w rs ws es tv := call (fun s => sim_select s rs ws es tv) w;
  sys_send w x bs := call (fun s => sim_send s x bs) w;
  sys_recv w x n := live_recv (fun s => sim_recv s x n) w;
  sys_close w x := call_ (fun s => sys_close s x) w;
  sys_time := call sys_time;
  sys_sleep w n := call_ (fun s => sys_sleep s n) w;
  fcntl_getfl w x := call (fun s => fcntl_getfl s x) w;
  fcntl_setfl w x a := call (fun s => fcntl_setfl s x a) w;
  set_nodelay w x := call_ (fun s => set_nodelay s x) w;
  getifaddrs := call getifaddrs;
  getaddrinfo w a := call (fun s => getaddrinfo s a) w;
  sys_socket w f := call (fun s => sys_socket s f) w;
  sys_bind w x a := call (fun s => sys_bind s x a) w;
  sys_connect w x a := call (fun s => sys_connect s x a) w;
  sys_so_error w x := call (fun s => sys_so_error s x) w;
  SSL_new := call_ SSL_new;
  SSL_free := call_ SSL_free;
  SSL_shutdown := call_ SSL_shutdown;
  SSL_set_fd w x := call (fun s => SSL_set_fd s x) w;
  SSL_connect := call SSL_connect;
  SSL_read w n := live_recv (fun s => SSL_read s n) w;
  SSL_write w bs := call (fun s => SSL_write s bs) w;
  SSL_get_error w r := SSL_get_error (lw w) r;
  SSL_pending w := SSL_pending (lw w);
  ssl_work w := ssl_work (lw w);
  uninit w n := uninit (lw w) n;
}.

(** ** The laws *)

(** The application changes the driver and nothing else of the machine. *)
Definition same_net (s s' : sim_world) : Prop := exists d, s' = sw_set_drv d s.

Lemma same_net_refl s : same_net s s.
Proof. exists (sw_drv s). by destruct s. Qed.

Lemma app_step_net w o : same_net (lw w) (lw (app_step w o)).
Proof.
  destruct o as [o|bs]; simpl; [|by eexists].
  destruct (tty_do _ _); [by eexists|apply same_net_refl].
Qed.

Lemma foldl_app_net os w : same_net (lw w) (lw (foldl app_step w os)).
Proof.
  revert w. induction os as [|o os IH]; intros w; simpl; [apply same_net_refl|].
  destruct (IH (app_step w o)) as [d ->]. destruct (app_step_net w o) as [d' ->].
  by exists d.
Qed.

Lemma tick_net w : same_net (lw w) (lw (tick w)).
Proof.
  unfold tick. destruct (lw_app w) as [|os rest]; [apply same_net_refl|].
  apply (foldl_app_net os (mk_live _ _ _ _)).
Qed.

Lemma call_inv {A} (f : sim_world -> A * sim_world) w x w' :
  call f w = (x, w') -> exists s, f (lw (tick w)) = (x, s) /\ w' = on_sim (fun _ => s) (tick w).
Proof. unfold call. destruct (f (lw (tick w))) as [y s]. intros [= <- <-]. eauto. Qed.

Lemma live_recv_inv f w r bs w' :
  live_recv f w = (r, bs, w') -> exists s, f (lw (tick w)) = (r, bs, s) /\
    w' = got_bytes r bs (on_sim (fun _ => s) (tick w)).
Proof.
  unfold live_recv. destruct (call f w) as [[r' bs'] w1] eqn:Hc. intros [= <- <- <-].
  apply call_inv in Hc as (s & ? & ->). eauto.
Qed.

Lemma live_ioctl_inv w cmd arg r v w' :
  live_ioctl w cmd arg = (r, v, w') ->
  let w1 := if second_half cmd then w else tick w in
  exists s, sim_ioctl (lw w1) cmd arg = (r, v, s) /\ w' = on_sim (fun _ => s) w1.
Proof.
  unfold live_ioctl. cbv zeta. destruct (sim_ioctl _ cmd arg) as [[r' v'] s] eqn:E.
  intros [= <- <- <-]. eauto.
Qed.

#[export] Instance live_drv_laws : DrvLaws live_world.
Proof.
  constructor.
  - intros w cmd arg r v w' Hi Hc Hr. apply live_ioctl_inv in Hi as (s & Hi & _).
    by eapply (get_index (W := sim_world)).
  - intros w arg r v w' Hi Ha. apply live_ioctl_inv in Hi as (s & Hi & _).
    by eapply (get_attrptr (W := sim_world)).
  - intros w off n Hp. exact (map_load_ok (lw w) off n Hp).
  - intros w off bs Hp. destruct (map_store_ok (lw w) off bs Hp) as [s Hs].
    simpl in *. rewrite Hs. by eexists.
  - intros w p Hp. exact (map_info_ok (lw w) p Hp).
  - intros w x n r bs w' Hr. apply live_recv_inv in Hr as (s & Hr & _).
    exact (recv_length (lw (tick w)) x n r bs s Hr).
Qed.

Lemma call_fds {A} (f : sim_world -> A * sim_world) w :
  (forall s, sw_open (snd (f s)) = sw_open s) -> sw_open (lw (snd (call f w))) = sw_open (lw w).
Proof.
  intros Hf. specialize (Hf (lw (tick w))). unfold call.
  destruct (f (lw (tick w))) as [x s]. simpl in *. rewrite Hf.
  by destruct (tick_net w) as [d ->].
Qed.

#[export] Instance live_sock_laws : SockLaws live_world.
Proof.
  refine {| open_fds := fun w => sw_open (lw w) |}.
  1: { intros w f r w' Hs. apply (call_inv (fun s => sys_socket s f)) in Hs as (s & Hs & ->).
       simpl in *. destruct (tick_net w) as [d Hn]. rewrite Hn in Hs. simpl in Hs. revert Hs.
       case_bool_decide as Hx; intros [= <- <-]; [by left|right; split_and!; [lia|done|done]]. }
  1: intros w x; simpl; by destruct (tick_net w) as [d ->].
  1-6: intros; by apply call_fds.
  1: intros w x; simpl; by destruct (tick_net w) as [d ->].
  1: intros; by apply call_fds.
  1: intros w; by apply (call_fds getifaddrs).
  intros w rs ws es tv n rs' ws' es' tv' w' Hs Hn.
  destruct (call_inv (fun s => sim_select s rs ws es tv) w _ _ Hs) as (s & Hs' & _).
  exact (select_ready (lw (tick w)) rs ws es tv n rs' ws' es' tv' s Hs' Hn).
Qed.

#[export] Instance live_ssl_progress : SslProgress live_world.
Proof.
  constructor.
  - intros w len r bs w' Hr Hle He. apply live_recv_inv in Hr as (s & Hr & ->).
    by eapply (read_progress (W := sim_world)) in Hr.
  - intros w len r bs w' Hr. apply live_recv_inv in Hr as (s & Hr & _). exact (read_length (lw (tick w)) len r bs s Hr).
  - intros w bs r w' Hr Hle He. apply (call_inv (fun s => SSL_write s bs)) in Hr as (s & Hr & ->).
    by eapply (write_progress (W := sim_world)) in Hr.
  - intros w r w' Hr Hle He. apply (call_inv SSL_connect) in Hr as (s & Hr & ->).
    by eapply (connect_progress (W := sim_world)) in Hr.
  - intros w rs ws es tv r sets tv' w' Hs. simpl. lia.
Qed.
