(* ===== verification/LiveInv.v ===== *)
(** * Daemon and driver in step

    The invariant that ties the daemon's view of the rings to the driver while
    the application acts in between, and the history of the run as events of
    the link.

    The serial side never moves the head of the ring the daemon reads nor the
    tail of the one it writes ([fixed]); so the indices the daemon has cached
    describe a part of what is really there.  [H] says that, and that the
    driver's state is the result of the events so far. *)

From stdpp Require Import gmap.
From S2P Require Import Prelude RingBuf Tty Uart DrvMain Proto Os SslSelect SimWorld Vcom Connect.
From S2P Require Import Client ClientProofs SimLaws ClientInv Link LiveWorld.

(** ** What the serial side leaves alone *)

Definition fixed {T} (d d' : adv_vcom T) : Prop :=
  (K.head (rx d') = K.head (rx d) /\ K.begin (rx d') = K.begin (rx d) /\ K.size (rx d') = K.size (rx d)) /\
  (K.tail (tx d') = K.tail (tx d) /\ K.begin (tx d') = K.begin (tx d) /\ K.size (tx d') = K.size (tx d)) /\
  att_begin (attr d') = att_begin (attr d).

#[export] Instance fixed_preorder T : PreOrder (@fixed T).
Proof.
  split; [done|]. intros d1 d2 d3 ((? & ? & ?) & (? & ? & ?) & ?) ((? & ? & ?) & (? & ? & ?) & ?).
  unfold fixed. split_and!; congruence.
Qed.

Lemma fixed_wake {T} q (d d' : adv_vcom T) : fixed d d' -> fixed d (wake_if_active q d').
Proof. unfold wake_if_active. by destruct (active d' q). Qed.

Lemma move_rb_head_frame b n :
  K.tail (move_rb_head b n) = K.tail b /\ K.begin (move_rb_head b n) = K.begin b /\
  K.size (move_rb_head b n) = K.size b.
Proof. unfold move_rb_head. by case_if. Qed.

Section fixed.
Context {T : Type} `{TtyLaws T}.
Implicit Types d : adv_vcom T.

Lemma xmit_loop_fixed n d d' : xmit_loop n d = Some d' -> fixed d d'.
Proof.
  revert d. induction n as [|n IH]; intros d; simpl; [done|].
  repeat (case_if; [by intros [= <-]|]). destruct (store _ _ _) as [m|]; [|done]. simpl.
  intros Hx. apply IH in Hx. etrans; [|exact Hx]. done.
Qed.

Lemma xmit_fixed d d' : adv_uart_xmit d = Some d' -> fixed d d'.
Proof. unfold adv_uart_xmit. case_if; [by intros [= <-]|apply xmit_loop_fixed]. Qed.

Lemma recv_loop_fixed n c d c' d' : recv_loop n c d = Some (c', d') -> fixed d d'.
Proof.
  revert c d. induction n as [|n IH]; intros c d; simpl; [by intros [= <- <-]|].
  case_if; [|by intros [= <- <-]]. destruct (load _ _ _) as [bs|]; [|done]. simpl.
  destruct (tty_insert_flip_string _ _) as [ret t]. case_if; [|by intros [= <- <-]].
  intros Hx. apply IH in Hx. etrans; [|exact Hx].
  destruct (move_rb_head_frame (up_rx d) ret) as (? & ? & ?). by split_and!.
Qed.

Lemma recv_chars_fixed d d' : adv_uart_recv_chars d = Some d' -> fixed d d'.
Proof.
  unfold adv_uart_recv_chars. repeat (case_if; [by intros [= <-]|]).
  destruct (recv_loop _ _ _) as [[c d1]|] eqn:Hr; [|done]. simpl. apply recv_loop_fixed in Hr.
  case_if; intros [= <-]; [|done]. by apply fixed_wake.
Qed.

Lemma tty_do_fixed d o d' : tty_do d o = Some d' -> fixed d d'.
Proof.
  destruct o; simpl; try (intros [= <-]; repeat apply fixed_wake; done).
  - unfold adv_uart_start_tx. destruct (adv_uart_xmit _) as [d1|] eqn:Hx; [|done].
    intros [= <-]. apply fixed_wake. apply xmit_fixed in Hx. etrans; [|exact Hx]. done.
  - intros [= <-]. unfold adv_uart_set_termios. destruct (termios_flow _ _ _). by apply fixed_wake.
  - intros Hx. apply recv_chars_fixed in Hx. etrans; [|exact Hx]. done.
Qed.

Lemma interrupt_fixed d m d' : adv_main_interrupt d m = Some d' -> fixed d d'.
Proof.
  unfold adv_main_interrupt, adv_uart_update_xmit. intros Hi.
  assert (Hu : exists d1, fixed d d1 /\
    (if m &? ADV_INT_TX then adv_uart_recv_chars d1 else Some d1) = Some d').
  { destruct (m &? ADV_INT_RX); [|exists d; by split].
    destruct (truthy (i_is_open _)); [|exists d; by split].
    destruct (is_rb_empty _); [|eexists; split; [|exact Hi]; done].
    destruct (adv_uart_xmit d) as [d1|] eqn:Hx; [|done]. eexists. split; [|exact Hi].
    by apply xmit_fixed in Hx. }
  destruct Hu as (d1 & Hf & Hr). etrans; [exact Hf|].
  destruct (m &? ADV_INT_TX); [by apply recv_chars_fixed|by injection Hr as <-].
Qed.
End fixed.

(** A device with the geometry of a loaded module answers requests. *)
Definition geometry {T} (d : adv_vcom T) : Prop :=
  K.size (tx d) = PAGE_SIZE /\ K.size (rx d) = PAGE_SIZE /\ K.begin (tx d) = 0 /\
  K.begin (rx d) = PAGE_SIZE /\ att_begin (attr d) = 2 * PAGE_SIZE.

Lemma geometry_fixed {T} (d d' : adv_vcom T) : fixed d d' -> geometry d -> geometry d'.
Proof. intros ((? & ? & ?) & (? & ? & ?) & ?) (? & ? & ? & ? & ?). unfold geometry. split_and!; congruence. Qed.

Lemma geometry_okb {T} (d : adv_vcom T) :
  ring_ok (tx d) -> ring_ok (rx d) -> attr_ok (attr d) -> geometry d -> drv_okb d = true.
Proof.
  intros [(_ & Hh1 & Ht1) Hl1] [(_ & Hh2 & Ht2) Hl2] [Hp Ha] (Hs1 & Hs2 & Hb1 & Hb2 & Hab).
  simpl in *. rewrite Hs1 in *. rewrite Hs2 in *.
  unfold drv_okb, ring_okb, idx_okb. rewrite Hs1, Hs2, Hb1, Hb2, Hab, Hl1, Hl2, Ha.
  rewrite !(proj2 (Z.leb_le 0 _)), !(proj2 (Z.ltb_lt _ _)) by lia. reflexivity.
Qed.

(** ** Partial correctness

    [wlp m s Q]: if the program returns from [s], what it returns satisfies
    [Q].  That it returns is the business of [wp]. *)

Section wlp.
Context {W : Type}.
Implicit Types s : St W.

Definition wlp {A} (m : Prog W A) s (Q : A -> St W -> Prop) : Prop :=
  match m s with Ok x s' => Q x s' | _ => True end.

Lemma wlp_ret {A} (x : A) s Q : Q x s -> wlp (mret x) s Q.
Proof. done. Qed.

Lemma wlp_bind {A B} (m : Prog W A) (k : A -> Prog W B) s Q :
  wlp m s (fun x s' => wlp (k x) s' Q) -> wlp (m ≫= k) s Q.
Proof. unfold wlp, mbind, prog_bind. by destruct (m s). Qed.

Lemma wlp_mono {A} (m : Prog W A) s (Q Q' : A -> St W -> Prop) :
  wlp m s Q -> (forall x s', Q x s' -> Q' x s') -> wlp m s Q'.
Proof. unfold wlp. destruct (m s); auto. Qed.

Lemma wlp_wp {A} (m : Prog W A) s Q : wp m s Q -> wlp m s Q.
Proof. unfold wp, wlp. by destruct (m s). Qed.

Lemma wlp_and {A} (m : Prog W A) s (P Q : A -> St W -> Prop) :
  wlp m s P -> wlp m s Q -> wlp m s (fun x s' => P x s' /\ Q x s').
Proof. unfold wlp. by destruct (m s). Qed.

Lemma wp_wlp {A} (m : Prog W A) s (P Q : A -> St W -> Prop) :
  wp m s P -> wlp m s Q -> wp m s (fun x s' => P x s' /\ Q x s').
Proof. unfold wp, wlp. by destruct (m s). Qed.

Lemma wlp_lift {A} (x : option A) s Q : (forall y, x = Some y -> Q y s) -> wlp (lift x) s Q.
Proof. destruct x; [|done]. intros HQ. by apply HQ. Qed.

Lemma wlp_if {A} (b : bool) (m1 m2 : Prog W A) s Q :
  (b = true -> wlp m1 s Q) -> (b = false -> wlp m2 s Q) -> wlp (if b then m1 else m2) s Q.
Proof. destruct b; auto. Qed.

Lemma wlp_gets {A} (f : vc_attr -> A) s Q : Q (f (at_ s)) s -> wlp (gets f) s Q.
Proof. done. Qed.

Lemma wlp_modify f s (Q : unit -> St W -> Prop) :
  Q tt (mk_st (f (at_ s)) (world s) (pre_excp_t s) (rbuf s)) -> wlp (modify f) s Q.
Proof. done. Qed.

Lemma wlp_get_world s (Q : W -> St W -> Prop) : Q (world s) s -> wlp get_world s Q.
Proof. done. Qed.

Lemma wlp_sys {A} (f : W -> A * W) s Q :
  (forall x w, f (world s) = (x, w) -> Q x (mk_st (at_ s) w (pre_excp_t s) (rbuf s))) ->
  wlp (sys f) s Q.
Proof. unfold wlp, sys. destruct (f (world s)) as [x w]. auto. Qed.

(** What a program keeps, whatever it returns. *)
Definition keeps (P : St W -> Prop) {A} (m : Prog W A) : Prop :=
  forall s, P s -> wlp m s (fun _ => P).

Context (P : St W -> Prop).

Lemma keeps_ret {A} (x : A) : keeps P (mret x).
Proof. by intros s. Qed.
Lemma keeps_bind {A B} (m : Prog W A) (k : A -> Prog W B) :
  keeps P m -> (forall x, keeps P (k x)) -> keeps P (m ≫= k).
Proof. intros Hm Hk s Hs. apply wlp_bind. eapply wlp_mono; [by apply Hm|]. cbv beta. intros; by apply Hk. Qed.
Lemma keeps_if {A} (b : bool) (m1 m2 : Prog W A) :
  keeps P m1 -> keeps P m2 -> keeps P (if b then m1 else m2).
Proof. by destruct b. Qed.
Lemma keeps_gets {A} (f : vc_attr -> A) : keeps P (gets f).
Proof. by intros s. Qed.
Lemma keeps_get_world : keeps P get_world.
Proof. by intros s. Qed.
Lemma keeps_lift {A} (x : option A) : keeps P (lift x).
Proof. intros s Hs. by destruct x. Qed.
Lemma keeps_when (b : bool) m : keeps P m -> keeps P (when b m).
Proof. destruct b; [done|intros _; apply keeps_ret]. Qed.
Lemma keeps_exit {A} : keeps P (exit0 : Prog W A).
Proof. done. Qed.
Lemma keeps_fault {A} : keeps P (fault : Prog W A).
Proof. done. Qed.
Lemma keeps_nofuel {A} : keeps P (nofuel : Prog W A).
Proof. done. Qed.
End wlp.

Create HintDb keeps discriminated.
#[export] Hint Constants Opaque : keeps.
#[export] Hint Resolve keeps_ret keeps_gets keeps_get_world keeps_lift keeps_exit keeps_fault
  keeps_nofuel : keeps.

(** Take a program apart down to what the database knows. *)
Ltac keeps_step :=
  first
    [ match goal with |- keeps _ (mbind _ _) => apply keeps_bind; [|intros ?] end
    | solve [eauto with keeps nocore]
    | apply keeps_bind; [|intros ?]
    | apply keeps_if
    | apply keeps_when
    | match goal with |- keeps _ (match ?x with _ => _ end) => destruct x end
    | match goal with |- keeps _ (let '(_, _) := ?x in _) => destruct x end ].
Ltac keeps_tac := repeat keeps_step.

(** Run the next statement by what it keeps. *)
Ltac wlp_run lem := apply wlp_bind; eapply wlp_mono; [by apply lem|]; cbv beta.

(** ** The invariant *)

(** The write packets among what was sent, oldest first. *)
Definition write_payload (bs : list byte) : option (list byte) :=
  c ← get16 off_cmd bs; if c =? VCOM_CMD_WRITE then Some (zdrop off_data bs) else None.
Definition wire (out : list (list byte)) : list (list byte) := omap write_payload (rev out).

Definition link_with {T} `{TtyIf T} (d : adv_vcom T) (f : list byte) : link :=
  mk_link (stream_up (view d)) (stream_down (view d)) f.

(** The cached indices of the ring from the application show a part of it, and
    the write in flight is its front. *)
Record in_step (f : list byte) (a : vc_attr) (d : adv_vcom eager_tty) : Prop := mk_in_step {
  is_ok : drv_ok d;
  is_geom : geometry d;
  is_bufs : bufs_ok a;
  is_head : U.head (urx a) = K.head (rx d);
  is_len : get_rb_length (urx a) <= get_rb_length (rx d);
  is_flight : f `prefix_of` contents (rx d);
}.

(** The cached indices of the ring to the application, after they were
    fetched. *)
Definition tx_fresh (a : vc_attr) (d : adv_vcom eager_tty) : Prop :=
  U.tail (utx a) = K.tail (tx d) /\ get_rb_room (utx a) <= get_rb_room (tx d).

(** What else is relied on for the moment: whether those indices were fetched,
    and bytes known to be at the front of the ring from the application. *)
Record mode := mk_mode { m_fresh : bool; m_front : list byte }.
Definition plain (b : bool) : mode := mk_mode b [].
Coercion plain : bool >-> mode.

Definition mode_ok (m : mode) (a : vc_attr) (d : adv_vcom eager_tty) : Prop :=
  (m_fresh m = true -> tx_fresh a d) /\ m_front m `prefix_of` contents (rx d).

Lemma mode_stale a d : mode_ok false a d.
Proof. split; [done|apply prefix_nil]. Qed.

Section H.
Context (L0 : link) (w0 : live_world).
(** How the count of bytes in flight relates to the packet that is. *)
Implicit Types ph : Z -> list byte -> Prop.

Definition trace (q f : list byte) (w : live_world) : Prop :=
  exists es, link_run L0 es (link_with (sw_drv (lw w)) f) /\
    lw_wrote w = lw_wrote w0 ++ wrote es /\
    wire (sw_out (lw w)) = wire (sw_out (lw w0)) ++ sent es /\
    lw_got w = lw_got w0 ++ input es ++ q.

(** [q]: bytes that were read and not yet acted upon. *)
Definition HW ph (m : mode) (q : list byte) (a : vc_attr) (w : live_world) : Prop :=
  exists f, trace q f w /\ in_step f a (sw_drv (lw w)) /\ ph (xmit_pending a) f /\
    mode_ok m a (sw_drv (lw w)).

Definition H ph m q (s : St live_world) : Prop := HW ph m q (at_ s) (world s).

(** The relations: in the open, while the port is being closed, and after a
    packet went out. *)
Definition exact (p : Z) (f : list byte) : Prop := p = zlen f.
Definition closing (p : Z) (f : list byte) : Prop := f = [].
Definition gone (d : list byte) (p : Z) (f : list byte) : Prop := f = d.

(** *** What it depends on *)

Definition core (w : live_world) : adv_vcom eager_tty * list (list byte) * list byte * list byte :=
  (sw_drv (lw w), sw_out (lw w), lw_wrote w, lw_got w).
Definition cached (a : vc_attr) : U.ring_buf * U.ring_buf * Z * Z * Z :=
  (utx a, urx a, attr_off a, attr_ptr a, xmit_pending a).

Lemma HW_core ph fr q a w w' : core w' = core w -> HW ph fr q a w -> HW ph fr q a w'.
Proof. unfold HW, trace, core. intros [= -> -> -> ->]. done. Qed.

Lemma HW_cached ph fr q a a' w : cached a' = cached a -> HW ph fr q a w -> HW ph fr q a' w.
Proof.
  intros [= E1 E2 E3 E4 E5] (f & Ht & [] & Hp & Hf). exists f. unfold mode_ok, tx_fresh, bufs_ok in *.
  rewrite E1, E5. split; [done|]. split; [|done].
  constructor; unfold bufs_ok; rewrite ?E1, ?E2, ?E3, ?E4; done.
Qed.

Lemma trace_step q f w w' e f' :
  trace q f w -> link_step e (link_with (sw_drv (lw w)) f) (link_with (sw_drv (lw w')) f') ->
  lw_wrote w' = lw_wrote w ++ wrote_of e ->
  wire (sw_out (lw w')) = wire (sw_out (lw w)) ++ sent_of e ->
  forall q', (lw_got w' = lw_got w /\ q = input_of e ++ q') -> trace q' f' w'.
Proof.
  intros (es & Hr & Hw & Ho & Hg) Hs Hw' Ho' q' [Hg' ->].
  exists (es ++ [e]). unfold wrote, sent, input in *. rewrite !concat_snoc, <- !app_assoc.
  rewrite Hw', Ho', Hg', Hw, Ho, Hg, <- !app_assoc. split; [by econstructor|done].
Qed.

(** An event that is not seen outside. *)
Lemma trace_stay q f w e f' q' :
  trace q f w -> q = input_of e ++ q' -> wrote_of e = [] -> sent_of e = [] ->
  link_step e (link_with (sw_drv (lw w)) f) (link_with (sw_drv (lw w)) f') -> trace q' f' w.
Proof.
  intros Ht Hq Hw Ho Hs. eapply trace_step; [exact Ht|exact Hs|..|done];
    by rewrite ?Hw, ?Ho, app_nil_r.
Qed.

(** *** Moves of the serial side *)

Lemma link_internal (d d' : adv_vcom eager_tty) f :
  pipe_step L_internal (view d) (view d') -> link_with d' f = link_with d f.
Proof.
  intros Hs. destruct (pipe_step_streams O_poll _ _ Hs eq_refl) as (Hd & Hu & _).
  unfold link_with. rewrite Hd, Hu. simpl. by rewrite app_nil_r, zdrop_0.
Qed.

Lemma internal_prefix (d d' : adv_vcom eager_tty) :
  pipe_step L_internal (view d) (view d') ->
  contents (rx d) `prefix_of` contents (rx d') /\
  contents (tx d') `suffix_of` contents (tx d).
Proof.
  intros Hs. inversion Hs as [p k1 f k2 r Hf Hd E1 E2| | |]; subst. simpl in *.
  split; [by exists k1|by exists k2].
Qed.

Lemma in_step_internal f a d d' :
  in_step f a d -> drv_ok d' -> fixed d d' -> pipe_step L_internal (view d) (view d') ->
  in_step f a d' /\ (forall m, mode_ok m a d -> mode_ok m a d').
Proof.
  intros [(Htx & Hrx & _) Hg Hb Hh Hl Hf] Hok Hfix Hs. pose proof Hok as ([Htx' _] & [Hrx' _] & _).
  destruct (internal_prefix _ _ Hs) as [Hup [k Hdn]]. pose proof Hfix as ((Ehd & _ & Esz) & (Etl & _ & Ets) & _).
  assert (Hlen : get_rb_length (rx d) <= get_rb_length (rx d')).
  { rewrite <- !contents_length by (done || apply Hrx). destruct Hup as [k' ->]. rewrite zlen_app.
    pose proof (zlen_nonneg k'). lia. }
  split; [constructor; try done|].
  - by eapply geometry_fixed.
  - congruence.
  - lia.
  - by etrans.
  - intros m [Hm Hfront]. split; [|by etrans]. intros E. destruct (Hm E) as [Ht Hr]. split; [congruence|].
    assert (get_rb_length (tx d') <= get_rb_length (tx d)).
    { rewrite <- !contents_length by (done || apply Htx). rewrite Hdn, zlen_app.
      pose proof (zlen_nonneg k). lia. }
    unfold get_rb_room in *. simpl in *. lia.
Qed.

Lemma HW_internal ph fr q a w w' :
  let d := sw_drv (lw w) in let d' := sw_drv (lw w') in
  HW ph fr q a w -> (drv_ok d -> drv_ok d' /\ fixed d d' /\ pipe_step L_internal (view d) (view d')) ->
  sw_out (lw w') = sw_out (lw w) -> lw_wrote w' = lw_wrote w -> lw_got w' = lw_got w ->
  HW ph fr q a w'.
Proof.
  cbv zeta. intros (f & Ht & Hi & Hp & Hf) Hd Ho Hw Hg.
  destruct (Hd (is_ok _ _ _ Hi)) as (Hok & Hfix & Hs).
  destruct (in_step_internal _ _ _ _ Hi Hok Hfix Hs) as [Hi' Hf'].
  exists f. split_and!; auto. unfold trace. by rewrite (link_internal _ _ f Hs), Ho, Hw, Hg.
Qed.

Lemma HW_write ph fr q a w bs : HW ph fr q a w -> HW ph fr q a (app_step w (A_write bs)).
Proof.
  intros (f & Ht & [] & Hp & Hf). exists f. split_and!; try done.
  eapply (trace_step _ _ _ _ (E_write bs)); [exact Ht| |done|by rewrite app_nil_r|done].
  unfold link_with, stream_up, stream_down. simpl.
  match goal with |- link_step _ _ (mk_link ?u ?d ?f) =>
    replace u with ((contents (rx (sw_drv (lw w))) ++ xmit_fifo (tty (sw_drv (lw w)))) ++ bs)
  end.
  - apply (LS_write bs (mk_link _ _ _)).
  - simpl. by rewrite <- !app_assoc.
Qed.

Lemma HW_tick ph fr q a w : HW ph fr q a w -> HW ph fr q a (tick w).
Proof.
  unfold tick. destruct (lw_app w) as [|os rest]; [done|]. intros Hh.
  assert (Hh' : HW ph fr q a (mk_live (lw w) rest (lw_wrote w) (lw_got w))) by done.
  clear Hh. revert Hh'. generalize (mk_live (lw w) rest (lw_wrote w) (lw_got w)) as w1.
  induction os as [|o os IH]; intros w1 Hh; simpl; [done|]. apply IH.
  destruct o as [o|bs]; [|by apply HW_write]. simpl.
  destruct (tty_do (sw_drv (lw w1)) o) as [d'|] eqn:Hd; [|done].
  eapply HW_internal; [exact Hh| |done..]. intros Hok. simpl.
  destruct (tty_do_runs _ o Hok) as (d2 & Hd2 & Hs). rewrite Hd in Hd2. injection Hd2 as <-.
  split; [apply Hs|]. split; [by eapply tty_do_fixed|apply Hs].
Qed.
End H.
