(* ===== verification/LiveOps.v ===== *)
(** * The daemon's toolbox keeps step

    Every function of [Vcom], [SslSelect], [Connect] and the packet senders of
    [Client] keeps the invariant of [LiveInv]; refreshing the cached indices
    re-establishes it; clearing, sending a write packet, consuming and
    producing extend the history by their event. *)

From stdpp Require Import gmap.
From S2P Require Import Prelude RingBuf Tty Uart DrvMain Proto Os SslSelect SimWorld Vcom Connect.
From S2P Require Import Client ClientProofs SimLaws ClientInv Link LiveWorld LiveInv.

Section ops.
Context (L0 : link) (w0 : live_world).
Implicit Types s : St live_world.
Context (ph : Z -> list byte -> Prop) (fr : mode) (q : list byte).
Local Abbreviation HH := (H L0 w0 ph fr q).
Local Abbreviation HW := (HW L0 w0 ph fr q).

(** ** Calls into the world *)

Lemma keeps_sys {A} (f : live_world -> A * live_world) :
  (forall w, core (snd (f w)) = core (tick w)) -> keeps HH (sys f).
Proof.
  intros Hf s Hs. apply wlp_sys. intros x w Hw. unfold H in *. simpl.
  eapply HW_core; [|by apply HW_tick]. rewrite <- (Hf (world s)), Hw. done.
Qed.

Lemma keeps_sys_pure {A} (f : live_world -> A * live_world) :
  (forall w, snd (f w) = w) -> keeps HH (sys f).
Proof.
  intros Hf s Hs. apply wlp_sys. intros x w Hw. specialize (Hf (world s)).
  rewrite Hw in Hf. simpl in Hf. by subst.
Qed.

Lemma keeps_ssl_call {A} (f : live_world -> A * live_world) : keeps HH (sys f) -> keeps HH (ssl_call f).
Proof. intros Hf. unfold ssl_call, get_ssl. keeps_tac. Qed.

Lemma keeps_modify f : (forall a, cached (f a) = cached a) -> keeps HH (modify f).
Proof. intros Hf s Hs. apply wlp_modify. eapply HW_cached; [apply Hf|exact Hs]. Qed.

Lemma keeps_set_pre t : keeps HH (set_pre_excp_t t).
Proof. by intros s. Qed.
Lemma keeps_get_pre : keeps HH get_pre_excp_t.
Proof. by intros s. Qed.

(** Bytes that were read wait to be acted upon. *)
Lemma HW_got r bs a w : HW a w -> 0 < r ->
  LiveInv.HW L0 w0 ph fr (q ++ bs) a (got_bytes r bs w).
Proof.
  intros (f & (es & Hr & Hw & Ho & Hg) & Hi & Hp & Hf) Hpos. exists f.
  split_and!; try done. exists es. simpl. rewrite (proj2 (Z.ltb_lt _ _)) by done.
  by rewrite Hg, <- !app_assoc.
Qed.
End ops.

#[export] Hint Resolve keeps_set_pre keeps_get_pre : keeps.
#[export] Hint Extern 1 (keeps _ (modify _)) => apply keeps_modify; intros; reflexivity : keeps.
#[export] Hint Extern 1 (keeps _ (sys _)) =>
  first [apply keeps_sys; intros; reflexivity | apply keeps_sys_pure; intros; reflexivity] : keeps.
#[export] Hint Extern 1 (keeps _ (sys_ _)) => unfold sys_; apply keeps_sys; intros; reflexivity : keeps.
#[export] Hint Extern 1 (keeps _ (ssl_call _)) =>
  apply keeps_ssl_call; solve [eauto with keeps nocore] : keeps.

Section tools.
Context (L0 : link) (w0 : live_world) (ph : Z -> list byte -> Prop) (fr : mode) (q : list byte).
Local Abbreviation HH := (H L0 w0 ph fr q).

(** ** The stack *)

Lemma keeps_curnt : keeps HH stk_curnt.
Proof. unfold stk_curnt. keeps_tac. Qed.
Lemma keeps_push x : keeps HH (stk_push x).
Proof. unfold stk_push. keeps_tac. Qed.
Lemma keeps_pop : keeps HH stk_pop.
Proof. unfold stk_pop. keeps_tac. Qed.
Lemma keeps_rpls x : keeps HH (stk_rpls x).
Proof. unfold stk_rpls. keeps_tac. Qed.
Lemma keeps_restart : keeps HH stk_restart.
Proof. unfold stk_restart. keeps_tac. Qed.
Lemma keeps_log : keeps HH _stk_log.
Proof. unfold _stk_log. keeps_tac; apply keeps_curnt. Qed.
Lemma keeps_excp : keeps HH stk_excp.
Proof. unfold stk_excp, _stk_excp. keeps_tac. Qed.
End tools.
#[export] Hint Resolve keeps_curnt keeps_push keeps_pop keeps_rpls keeps_restart keeps_log keeps_excp : keeps.

Section tools.
Context (L0 : link) (w0 : live_world) (ph : Z -> list byte -> Prop) (fr : mode) (q : list byte).
Local Abbreviation HH := (H L0 w0 ph fr q).

Lemma keeps_enblock x e : keeps HH (__vc_sock_enblock x e).
Proof. unfold __vc_sock_enblock. keeps_tac. Qed.
Lemma keeps_config x o : keeps HH (vc_config_sock x o).
Proof. unfold vc_config_sock. keeps_tac; apply keeps_enblock. Qed.
Lemma keeps_fdcheck x t : keeps HH (fdcheck x t).
Proof. unfold fdcheck. keeps_tac. Qed.
Lemma keeps_get_ssl : keeps HH get_ssl.
Proof. unfold get_ssl. keeps_tac. Qed.
Lemma keeps_upd_ssl f : keeps HH (upd_ssl f).
Proof. unfold upd_ssl. keeps_tac; apply keeps_get_ssl. Qed.
Lemma keeps_pbuf n : keeps HH (pbuf_of n).
Proof. unfold pbuf_of. keeps_tac. Qed.
Lemma keeps_attr_p : keeps HH attr_p.
Proof. unfold attr_p. keeps_tac. Qed.
Lemma keeps_tid_incr : keeps HH tid_incr.
Proof. unfold tid_incr. keeps_tac. Qed.
Lemma keeps_update_eki f : keeps HH (update_eki_attr f).
Proof. unfold update_eki_attr. keeps_tac. Qed.
Lemma keeps_set_block x : keeps HH (__set_block x) /\ keeps HH (__set_nonblock x).
Proof. unfold __set_block, __set_nonblock. split; keeps_tac. Qed.
Lemma keeps_sock_err x : keeps HH (_sock_err x).
Proof. unfold _sock_err. keeps_tac. Qed.
End tools.
#[export] Hint Resolve keeps_config keeps_fdcheck keeps_get_ssl keeps_upd_ssl keeps_pbuf keeps_attr_p
  keeps_tid_incr keeps_update_eki keeps_sock_err : keeps.
#[export] Hint Extern 1 (keeps _ (__set_block _)) => apply keeps_set_block : keeps.
#[export] Hint Extern 1 (keeps _ (__set_nonblock _)) => apply keeps_set_block : keeps.

(** ** Connecting *)

Section connecting.
Context (L0 : link) (w0 : live_world) (ph : Z -> list byte -> Prop) (fr : mode) (q : list byte).
Local Abbreviation HH := (H L0 w0 ph fr q).

Lemma keeps_wait_event act e : keeps HH (_do_ssl_update_wait_event act e).
Proof. unfold _do_ssl_update_wait_event. keeps_tac. Qed.

Lemma keeps_ssl_direct act f success : keeps HH (ssl_call f) -> keeps HH (ssl_direct act f success).
Proof. intros Hf. unfold ssl_direct. keeps_tac; apply keeps_wait_event. Qed.

Lemma keeps_ssl_simple_tv n direct success tv :
  keeps HH direct -> keeps HH (ssl_simple_tv n direct success tv).
Proof.
  intros Hd. revert tv. induction n as [|n IH]; intros tv; cbn [ssl_simple_tv]; keeps_tac.
Qed.

Lemma keeps_ssl_connect to : keeps HH (ssl_connect_simple to).
Proof.
  unfold ssl_connect_simple, ssl_simple, ssl_connect_direct.
  apply keeps_bind; [|keeps_tac]. apply keeps_bind; [keeps_tac|]. intros w.
  apply keeps_ssl_simple_tv, keeps_ssl_direct, keeps_ssl_call, keeps_sys. done.
Qed.

Lemma keeps_sklist family ifa l sk cl : keeps HH (sklist_loop family ifa l sk cl).
Proof.
  revert sk cl. induction l as [|x l IH]; intros sk cl; cbn [sklist_loop]; keeps_tac.
  apply keeps_sys. intros w. simpl. unfold call. simpl. by destruct (bool_decide _).
Qed.
#[local] Hint Resolve keeps_sklist : keeps.

Lemma keeps_create_sklist cl addr ifa : keeps HH (_create_sklist cl addr ifa).
Proof. unfold _create_sklist. keeps_tac. Qed.
#[local] Hint Resolve keeps_create_sklist : keeps.

Lemma keeps_ifa_loop red ifs addr sk cl : keeps HH (ifa_loop red ifs addr sk cl).
Proof.
  revert addr sk cl. induction ifs as [|x ifs IH]; intros addr sk cl; cbn [ifa_loop]; keeps_tac.
Qed.
#[local] Hint Resolve keeps_ifa_loop : keeps.

Lemma keeps_pick_ready ready cl sk : keeps HH (pick_ready ready cl sk).
Proof. induction cl as [|c cl IH]; cbn [pick_ready]; keeps_tac. Qed.
#[local] Hint Resolve keeps_pick_ready : keeps.

Lemma keeps_wait_loop n tv sk cl : keeps HH (wait_loop n tv sk cl).
Proof.
  revert tv sk cl. induction n as [|n IH]; intros tv sk cl; cbn [wait_loop]; keeps_tac.
Qed.
#[local] Hint Resolve keeps_wait_loop : keeps.

Lemma keeps_close_all cl : keeps HH (close_all cl).
Proof. induction cl as [|c cl IH]; cbn [close_all]; keeps_tac. Qed.
#[local] Hint Resolve keeps_close_all : keeps.

Lemma keeps_vc_connect : keeps HH vc_connect.
Proof. unfold vc_connect, uninit_int. keeps_tac. Qed.

Lemma keeps_drop_socket : keeps HH drop_socket.
Proof. unfold drop_socket. keeps_tac. Qed.
End connecting.
#[export] Hint Resolve keeps_ssl_connect keeps_vc_connect keeps_drop_socket : keeps.

(** ** Requests to the driver *)

Definition internal_req (cmd arg : Z) : Prop :=
  second_half cmd = false /\ forall d : adv_vcom eager_tty, drv_ok d ->
    exists r u d', adv_proc_ioctl d cmd (uarg arg) = Some (r, u, d') /\
      drv_ok d' /\ fixed d d' /\ pipe_step L_internal (view d) (view d').

Lemma inter_internal m : internal_req ADVVCOM_IOCSINTER m.
Proof.
  split; [done|]. intros d Hd. destruct (interrupt_runs d m Hd) as (d' & Hi & Hs).
  exists 0, (uarg m), d'. split; [|split; [apply Hs|split; [by eapply interrupt_fixed|apply Hs]]].
  change (adv_proc_ioctl d ADVVCOM_IOCSINTER (uarg m)) with
    (d ← adv_main_interrupt d m; Some (0, uarg m, d)). by rewrite Hi.
Qed.

Lemma mctrl_internal m : internal_req ADVVCOM_IOCSMCTRL m.
Proof.
  split; [done|]. intros d Hd. eexists 0, (uarg m), _. split; [reflexivity|].
  destruct (quiet_sim d (snd (adv_uart_ms d (u32 m))) Hd (quiet_ms d _)) as [? ?].
  split; [done|]. split; [|done]. by split_and!.
Qed.

Lemma attrptr_internal p : internal_req ADVVCOM_IOCGATTRPTR p.
Proof.
  split; [done|]. intros d Hd. destruct (flush_attr_info_spec (attr d)) as (x & a & Hf & Ha & _); [apply Hd|].
  exists 0, (uarg x), (set_attr a d). split.
  { change (adv_proc_ioctl d ADVVCOM_IOCGATTRPTR (uarg p)) with
      (r ← flush_attr_info (attr d); let '(tmp, a) := r in Some (0, uarg tmp, set_attr a d)).
    by rewrite Hf. }
  destruct (quiet_sim d (set_attr a d) Hd) as [? ?]; [by apply quiet_attr|].
  split; [done|]. split; [|done]. split_and!; try done. revert Hf. unfold flush_attr_info.
  case_if; case_if; try done; by intros [= <- <-].
Qed.

(** A request for a number changes nothing. *)
Definition read_req (cmd : Z) (get : adv_vcom eager_tty -> Z) : Prop :=
  second_half cmd = false /\
  forall d, adv_proc_ioctl d cmd (uarg 0) = Some (0, uarg (get d), d).

Section requests.
Context (L0 : link) (w0 : live_world) (ph : Z -> list byte -> Prop) (fr : mode) (q : list byte).
Local Abbreviation HH := (H L0 w0 ph fr q).
Local Abbreviation HW := (HW L0 w0 ph fr q).
Implicit Types s : St live_world.

Lemma HW_okb a w : HW a w -> drv_ok (sw_drv (lw w)) /\ drv_okb (sw_drv (lw w)) = true.
Proof.
  intros (f & _ & Hi & _). split; [apply Hi|].
  destruct Hi as [([Ht _] & [Hx _] & Ha) Hg _ _ _ _]. by apply geometry_okb.
Qed.

Lemma sim_ioctl_ok sw cmd arg r u d' :
  drv_okb (sw_drv sw) = true -> adv_proc_ioctl (sw_drv sw) cmd (uarg arg) = Some (r, u, d') ->
  sim_ioctl sw cmd arg = (r, u_val u, sw_set_drv d' sw).
Proof. intros Hd Hi. unfold sim_ioctl. by rewrite Hd, Hi. Qed.

(** A request whose answer is known. *)
Lemma wlp_set_exact cmd arg s w r u d' (Q : Z -> St live_world -> Prop) :
  w = (if second_half cmd then world s else tick (world s)) ->
  drv_okb (sw_drv (lw w)) = true -> adv_proc_ioctl (sw_drv (lw w)) cmd (uarg arg) = Some (r, u, d') ->
  Q r (mk_st (at_ s) (on_sim (sw_set_drv d') w) (pre_excp_t s) (rbuf s)) ->
  wlp (ioctl_set cmd arg) s Q.
Proof.
  intros -> Hd Hp HQ. unfold ioctl_set. apply wlp_bind, wlp_sys. intros [r' v] w Hi.
  apply live_ioctl_inv in Hi as (sw & Hi & ->).
  rewrite (sim_ioctl_ok _ _ _ _ _ _ Hd Hp) in Hi. injection Hi as <- <- <-. exact HQ.
Qed.

Lemma wlp_internal_req cmd arg s (Q : Z * Z -> St live_world -> Prop) :
  internal_req cmd arg -> HH s ->
  (forall x s', HH s' -> at_ s' = at_ s -> Q x s') ->
  wlp (sys (fun w => drv_ioctl w cmd arg)) s Q.
Proof.
  intros [Hc Hr] Hs HQ. apply wlp_sys. intros [r v] w Hi. apply live_ioctl_inv in Hi.
  rewrite Hc in Hi. destruct Hi as (sw & Hi & ->).
  pose proof (HW_tick _ _ _ _ _ _ _ Hs) as Ht. destruct (HW_okb _ _ Ht) as [Hd Hokb].
  destruct (Hr _ Hd) as (r' & u & d' & Hp & Hd' & Hfix & Hstep).
  rewrite (sim_ioctl_ok _ _ _ _ _ _ Hokb Hp) in Hi. injection Hi as <- <- <-.
  apply HQ; [|done]. unfold H. simpl. eapply HW_internal; [exact Ht|done|done..].
Qed.

Lemma keeps_ioctl_set cmd arg : internal_req cmd arg -> keeps HH (ioctl_set cmd arg).
Proof.
  intros Hc s Hs. unfold ioctl_set. apply wlp_bind. eapply wlp_internal_req; [done|done|].
  intros x s' Hs' _. by apply wlp_ret.
Qed.

(** The answer is the value after the application has acted; [a] is what the
    daemon is about to cache. *)
Lemma wlp_ioctl_get cmd get a s (Q : Z * Z -> St live_world -> Prop) :
  read_req cmd get -> HW a (world s) ->
  (forall w', HW a w' ->
     Q (0, get (sw_drv (lw w'))) (mk_st (at_ s) w' (pre_excp_t s) (rbuf s))) ->
  wlp (ioctl_get cmd) s Q.
Proof.
  intros [Hc Hr] Hs HQ. unfold ioctl_get. apply wlp_sys. intros [r v] w Hi. apply live_ioctl_inv in Hi.
  rewrite Hc in Hi. destruct Hi as (sw & Hi & ->).
  pose proof (HW_tick _ _ _ _ _ _ _ Hs) as Ht. destruct (HW_okb _ _ Ht) as [Hd Hokb].
  rewrite (sim_ioctl_ok _ _ _ _ _ _ Hokb (Hr _)) in Hi. injection Hi as <- <- <-.
  specialize (HQ _ Ht). by destruct (tick (world s)) as [[] ? ? ?].
Qed.

(** ** Refreshing the indices *)

Definition now_rx (d : adv_vcom eager_tty) (a : vc_attr) : vc_attr :=
  set_urx (set_user_idx (K.head (rx d)) (K.tail (rx d)) (urx a)) a.
Definition now_tx (d : adv_vcom eager_tty) (a : vc_attr) : vc_attr :=
  set_utx (set_user_idx (K.head (tx d)) (K.tail (tx d)) (utx a)) a.

Lemma now_length d a : geometry d -> bufs_ok a ->
  get_rb_length (urx (now_rx d a)) = get_rb_length (rx d) /\
  get_rb_room (utx (now_tx d a)) = get_rb_room (tx d).
Proof.
  intros (Hs1 & Hs2 & _) ((_ & Hu1 & _) & (_ & Hu2 & _) & _). unfold get_rb_room, get_rb_length. simpl.
  by rewrite Hs1, Hs2, Hu1, Hu2.
Qed.

Lemma now_bufs d a : drv_ok d -> geometry d -> bufs_ok a -> bufs_ok (now_rx d a) /\ bufs_ok (now_tx d a).
Proof.
  intros ([[(_ & ? & ?) _] _] & [[(_ & ? & ?) _] _] & _) (Hs1 & Hs2 & _)
    ((? & ? & ? & ?) & (? & ? & ? & ?) & ? & ?). simpl in *.
  rewrite Hs1, Hs2 in *. split; split_and!; try done; simpl; lia.
Qed.

Lemma HW_now_rx a w : HW a w -> HW (now_rx (sw_drv (lw w)) a) w.
Proof.
  intros (f & Ht & [Hd Hg Hb Hh Hl Hf] & Hp & Hfr). exists f. split_and!; try done.
  constructor; try done; [by apply now_bufs|]. by rewrite (proj1 (now_length _ _ Hg Hb)).
Qed.

Lemma HW_now_tx a w : HW a w -> LiveInv.HW L0 w0 ph true q (now_tx (sw_drv (lw w)) a) w.
Proof.
  intros (f & Ht & [Hd Hg Hb Hh Hl Hf] & Hp & _). exists f. split_and!; try done.
  - constructor; try done. by apply now_bufs.
  - split; [|apply prefix_nil]. intros _. split; [done|]. by rewrite (proj2 (now_length _ _ Hg Hb)).
Qed.

Lemma HW_head a w : HW a w -> U.head (urx a) = K.head (rx (sw_drv (lw w))).
Proof. intros (f & _ & [] & _). done. Qed.

Lemma HW_fresh (b : bool) a w : LiveInv.HW L0 w0 ph true q a w -> LiveInv.HW L0 w0 ph b q a w.
Proof. intros (f & ? & ? & ? & Hf & _). exists f. split_and!; try done. split; [auto|apply prefix_nil]. Qed.

(** The daemon's copy of the indices from the application may be out of date
    before. *)
Lemma wlp_update_rx s :
  HW (now_rx (sw_drv (lw (world s))) (at_ s)) (world s) ->
  wlp (vc_buf_update VC_BUF_RX) s (fun _ => HH).
Proof.
  intros Hs. unfold vc_buf_update. cbn -[wlp ioctl_get mbind mret].
  eapply wlp_bind, wlp_ioctl_get; [split; reflexivity|exact Hs|]. intros w1 H1. cbn [fst snd].
  apply wlp_if; intros E; [done|clear E].
  eapply wlp_bind, wlp_ioctl_get; [split; reflexivity|exact H1|]. intros w2 H2. cbn [fst snd].
  apply wlp_if; intros E; [done|clear E]. apply wlp_bind, wlp_modify, wlp_ret.
  pose proof (HW_now_rx _ _ H2) as H3. unfold H. simpl. simpl in H3.
  replace (K.head (rx (sw_drv (lw w1)))) with (K.head (rx (sw_drv (lw w2)))); [exact H3|].
  by rewrite <- (HW_head _ _ H1), <- (HW_head _ _ H2).
Qed.
End requests.

Section updates.
Context (L0 : link) (w0 : live_world) (ph : Z -> list byte -> Prop) (q : list byte).
Implicit Types s : St live_world.

Lemma wlp_update_tx fr s :
  H L0 w0 ph fr q s -> wlp (vc_buf_update VC_BUF_TX) s (fun _ => H L0 w0 ph true q).
Proof.
  intros Hs. unfold vc_buf_update. cbn -[wlp ioctl_get mbind mret].
  eapply wlp_bind, wlp_ioctl_get; [split; reflexivity|exact Hs|]. intros w1 H1. cbn [fst snd].
  apply wlp_if; intros E; [done|clear E]. apply HW_now_tx in H1.
  eapply wlp_bind, wlp_ioctl_get; [split; reflexivity|exact H1|]. intros w2 H2. cbn [fst snd].
  apply wlp_if; intros E; [done|clear E]. apply wlp_bind, wlp_modify, wlp_ret.
  destruct H2 as (f & Ht & Hi & Hp & Hf). destruct (proj1 Hf eq_refl) as [Htl _]. simpl in Htl.
  change (get_rb_tail (tx (sw_drv (lw w2)))) with (K.tail (tx (sw_drv (lw w2)))).
  unfold H. simpl. rewrite <- Htl. by exists f.
Qed.

Lemma keeps_buf_update (fr : bool) id : keeps (H L0 w0 ph fr q) (vc_buf_update id).
Proof.
  intros s Hs. destruct (decide (id = VC_BUF_RX)) as [->|Hrx].
  { apply wlp_update_rx. by apply HW_now_rx. }
  destruct (decide (id = VC_BUF_TX)) as [->|Htx].
  { eapply wlp_mono; [by eapply wlp_update_tx|]. cbv beta. intros r s1. apply HW_fresh. }
  unfold vc_buf_update. rewrite (proj2 (Z.eqb_neq _ _) Hrx), (proj2 (Z.eqb_neq _ _) Htx).
  apply wlp_if; intros _; [|by apply wlp_ret]. apply wlp_bind, wlp_gets, wlp_bind.
  assert (Hp : 0 <= attr_ptr (at_ s) < 2) by (destruct Hs as (f & _ & [_ _ (_ & _ & _ & ?)] & _); done).
  assert (Hv : wlp (sys (fun w => drv_ioctl w ADVVCOM_IOCGATTRPTR (attr_ptr (at_ s)))) s
    (fun x _ => 0 <= snd x < 2)).
  { apply wlp_sys. intros [r v] w Hi. exact (get_attrptr _ _ _ _ _ Hi Hp). }
  assert (Hk : wlp (sys (fun w => drv_ioctl w ADVVCOM_IOCGATTRPTR (attr_ptr (at_ s)))) s
    (fun _ s' => H L0 w0 ph fr q s' /\ at_ s' = at_ s)).
  { apply (wlp_internal_req L0 w0 ph fr q); [apply attrptr_internal|exact Hs|]. intros x s' H1 H2. exact (conj H1 H2). }
  eapply wlp_mono; [exact (wlp_and _ _ _ _ Hv Hk)|]. clear Hv Hk.
  cbv beta. intros [r v] s' [Hv [Hs' Ha]]. apply wlp_bind, wlp_modify, wlp_ret.
  destruct Hs' as (f & Ht & [? ? (? & ? & ? & ?) ? ? ?] & Hph & Hf). exists f.
  split_and!; try done.
Qed.
End updates.
#[export] Hint Resolve keeps_buf_update inter_internal mctrl_internal keeps_ioctl_set : keeps.

(** ** Sending *)

Lemma wire_cons bs out : wire (bs :: out) = wire out ++ option_list (write_payload bs).
Proof. unfold wire. simpl. rewrite omap_app. simpl. by destruct (write_payload bs). Qed.

Definition put_out (bs : list byte) : live_world -> live_world :=
  on_sim (fun s => sw_set_out (bs :: sw_out s) s).

Section sending.
Context (L0 : link) (w0 : live_world) (ph ph' : Z -> list byte -> Prop) (fr fr' : mode) (q : list byte).
Context (bs : list byte).
Implicit Types s : St live_world.
Local Abbreviation P := (H L0 w0 ph fr q).
Local Abbreviation P' := (H L0 w0 ph' fr' q).
Hypothesis put : forall a w, HW L0 w0 ph fr q a w -> HW L0 w0 ph' fr' q a (put_out bs w).

Definition sent_or_not (r : Z) s : Prop := if 0 <? r then r = zlen bs /\ P' s else P s.

(** One attempt, on the socket or through TLS. *)
Lemma wlp_call_send x s :
  0 < zlen bs -> P s -> wlp (sys (fun w => call (fun u => sim_send u x bs) w)) s sent_or_not.
Proof.
  intros Hl Hs. apply wlp_sys. intros r w Hc. apply call_inv in Hc as (u & Hc & ->).
  pose proof (HW_tick _ _ _ _ _ _ _ Hs) as Ht. unfold sim_send, sent_or_not in *. revert Hc.
  destruct (sw_send_ok _); intros [= <- <-].
  - rewrite (proj2 (Z.ltb_lt _ _)) by done. split; [done|]. apply (put _ _ Ht).
  - simpl. eapply HW_core; [|exact Ht]. done.
Qed.

Lemma wlp_send_direct s :
  0 < zlen bs -> P s -> wlp (ssl_send_direct bs) s (fun r => sent_or_not (fst r)).
Proof.
  intros Hl Hs. unfold ssl_send_direct, ssl_direct. wlp_run keeps_upd_ssl. intros _ s1 H1. apply wlp_bind.
  unfold ssl_call. wlp_run keeps_get_ssl. intros i s2 H2.
  apply wlp_if; intros _; [|done].
  eapply (wlp_mono _ _ (fun r => sent_or_not (fst r))).
  { pose proof (wlp_call_send 0 s2 Hl H2) as Hw. unfold wlp, sys in *. simpl in *.
    destruct (call _ _) as [r w]. exact Hw. }
  intros [r b] s3 H3. cbn [fst] in *. apply wlp_if; intros Hr; [by apply wlp_ret|].
  unfold sent_or_not, positive in *. simpl in Hr. rewrite Hr in H3. apply wlp_bind, wlp_get_world, wlp_bind.
  unfold _do_ssl_update_wait_event. simpl SSL_get_error.
  apply wlp_if; intros E; [done|]. apply wlp_if; intros E'; [done|]. by apply wlp_ret, wlp_ret.
Qed.

Lemma wlp_simple_send n tv s :
  0 < zlen bs -> P s -> wlp (ssl_simple_tv n (ssl_send_direct bs) positive tv) s (fun r => sent_or_not (fst r)).
Proof.
  intros Hl. revert tv s. induction n as [|n IH]; intros tv s Hs; cbn [ssl_simple_tv]; [done|].
  wlp_run wlp_send_direct. intros r s1 H1.
  apply wlp_if; intros Hp; [by apply wlp_ret|]. apply wlp_if; intros _; [by apply wlp_ret|].
  assert (H2 : P s1) by (unfold sent_or_not, positive in *; by rewrite Hp in H1).
  wlp_run keeps_get_ssl. intros i s2 H3.
  destruct (ssl_set_fds i 0 [] []) as [[mx rs] ws]. apply wlp_bind.
  eapply wlp_mono; [apply (keeps_sys L0 w0 ph fr q (fun w => sys_select w rs ws [] tv)); [done|exact H3]|].
  cbv beta. intros [[k sets] tv'] s3 H4. apply wlp_if; intros _; [by apply IH|].
  apply wlp_ret. unfold sent_or_not, positive in *. by rewrite Hp.
Qed.

(** The packet went out exactly when the result is zero. *)
Lemma wlp_check_send packet plen s :
  0 < plen -> load 0 plen packet = Some bs -> P s ->
  wlp (vc_check_send packet plen) s (fun r s' => if r =? 0 then P' s' else P s').
Proof.
  intros Hpl Hld Hs. pose proof (load_zlen _ _ _ _ Hld) as Hz. unfold vc_check_send.
  apply wlp_bind, wlp_lift. intros bs' E. rewrite Hld in E. injection E as <-.
  apply wlp_bind, wlp_gets. destruct (ssl (at_ s)) as [i|].
  - apply wlp_bind. unfold ssl_send_simple, ssl_simple. apply wlp_bind, wlp_bind, wlp_get_world.
    eapply wlp_mono; [apply wlp_simple_send; [lia|done]|]. cbv beta. intros [r b] s1 H1.
    cbn [fst] in *. apply wlp_ret, wlp_if; intros Hr; bool_simpl.
    + apply wlp_bind. eapply wlp_mono; [apply (keeps_log L0 w0 ph fr q)|].
      * unfold sent_or_not in H1. destruct (0 <? r); [lia|done].
      * cbv beta. intros _ s2 H2. by apply wlp_ret.
    + apply wlp_ret. unfold sent_or_not in H1. rewrite (proj2 (Z.ltb_lt _ _)) in H1 by lia.
      apply H1.
  - apply wlp_bind, wlp_gets, wlp_bind. eapply wlp_mono; [by apply keeps_fdcheck|]. cbv beta. intros c s1 H1.
    apply wlp_if; intros _; [by apply wlp_ret|]. apply wlp_bind.
    eapply wlp_mono; [apply wlp_call_send; [lia|exact H1]|]. cbv beta. intros r s2 H2.
    unfold sent_or_not in H2. apply wlp_if; intros Hr; bool_simpl; apply wlp_ret; simpl.
    + destruct (0 <? r); [lia|done].
    + rewrite (proj2 (Z.ltb_lt _ _)) in H2 by lia. apply H2.
Qed.
End sending.
