(* ===== verification/LiveClient.v ===== *)
(** * The operations of the state machine keep step

    Partial correctness of every operation of [Client] with respect to the
    invariant of [LiveInv]: most leave the history alone, the others extend it
    by their event. *)

From stdpp Require Import gmap.
From S2P Require Import Prelude RingBuf Tty Uart DrvMain Proto Os SslSelect SimWorld Vcom Connect.
From S2P Require Import Client ClientProofs SimLaws ClientInv System Link LiveWorld LiveInv LiveOps.

(** ** Packets that are no write packets *)

Definition no_write (m : list byte) (n : Z) : Prop :=
  forall bs, load 0 n m = Some bs -> write_payload bs = None.

Lemma load_front (a b : list byte) : load 0 (zlen a) (a ++ b) = Some a.
Proof.
  pose proof (zlen_nonneg a). pose proof (zlen_nonneg b).
  rewrite load_Some; [|lia|lia|rewrite zlen_app; lia]. by rewrite zdrop_0, ztake_app_l, ztake_all by lia.
Qed.

Lemma packed_no_write pbuf f n m :
  packed pbuf f = Some (n, m) -> u16 (f_cmd f) <> VCOM_CMD_WRITE -> no_write m n.
Proof.
  unfold packed. intros Hp Hc bs Hl.
  assert (E : n = zlen (frame_bytes f) /\ exists r, m = frame_bytes f ++ r).
  { rewrite zlen_frame_bytes. generalize (frame_bytes f) Hp. intros b Hb. injection Hb as <- <-. eauto. }
  destruct E as (-> & r & ->). rewrite load_front in Hl. injection Hl as <-.
  unfold write_payload, get16. rewrite <- (app_nil_r (frame_bytes f)), load_cmd. simpl.
  rewrite be_val_be16. by rewrite (proj2 (Z.eqb_neq _ _)).
Qed.

(** A packer for a buffer of the given size that packs no write packet. *)
Definition quiet_pack (pack : list byte -> Z -> Z -> option (Z * list byte)) (size : Z) : Prop :=
  forall pbuf tid n m, zlen pbuf = size -> pack pbuf tid size = Some (n, m) -> no_write m n.

Ltac quiet_pack spec :=
  intros pbuf tid n m Hz Hp; rewrite spec in Hp by lia; eapply packed_no_write; [exact Hp|done].

Lemma quiet_param sub size : 20 <= size -> quiet_pack (fun p t n => _pack_ioctl_param p t sub n) size.
Proof. intros Hs. quiet_pack pack_ioctl_param_spec. Qed.
Lemma quiet_qfsize x size : 20 <= size -> quiet_pack (fun p t n => vc_pack_qfsize p t x n) size.
Proof. intros Hs. quiet_pack vc_pack_qfsize_spec. Qed.
Lemma quiet_getwmask size : 20 <= size -> quiet_pack vc_pack_getwmask size.
Proof. intros Hs. quiet_pack vc_pack_getwmask_spec. Qed.
Lemma quiet_setwmask x size : 24 <= size -> quiet_pack (fun p t n => vc_pack_setwmask p t x n) size.
Proof. intros Hs. quiet_pack vc_pack_setwmask_spec. Qed.
Lemma quiet_purge x size : 24 <= size -> quiet_pack (fun p t n => vc_pack_purge p t x n) size.
Proof. intros Hs. quiet_pack vc_pack_purge_spec. Qed.
Lemma quiet_close size : 20 <= size -> quiet_pack vc_pack_close size.
Proof. intros Hs. quiet_pack vc_pack_close_spec. Qed.
Lemma quiet_open dev p size : 20 <= size -> quiet_pack (fun b t n => vc_pack_open b t dev p n) size.
Proof. intros Hs. quiet_pack vc_pack_open_spec. Qed.
Lemma quiet_sbaud x size : 24 <= size -> quiet_pack (fun p t n => vc_pack_sbaud p t x n) size.
Proof. intros Hs. quiet_pack vc_pack_sbaud_spec. Qed.
Lemma quiet_setlctl x y z size : 23 <= size -> quiet_pack (fun p t n => vc_pack_setlctl p t x y z n) size.
Proof. intros Hs. quiet_pack vc_pack_setlctl_spec. Qed.
Lemma quiet_hflow x y size : 36 <= size -> quiet_pack (fun p t n => vc_pack_hflow p t x y n) size.
Proof. intros Hs. quiet_pack vc_pack_hflow_spec. Qed.

Section quiet.
Context (L0 : link) (w0 : live_world) (ph : Z -> list byte -> Prop) (fr : mode) (q : list byte).
Local Abbreviation HH := (H L0 w0 ph fr q).
Implicit Types s : St live_world.

Lemma HW_put_quiet bs a w :
  write_payload bs = None -> HW L0 w0 ph fr q a w -> HW L0 w0 ph fr q a (put_out bs w).
Proof.
  intros Hb (f & (es & Hr & Hw & Ho & Hg) & Hi & Hp & Hf). exists f. split_and!; try done.
  exists es. split_and!; try done. cbn [put_out on_sim lw sw_out sw_set_out].
  rewrite wire_cons, Hb. simpl. by rewrite app_nil_r.
Qed.

Lemma keeps_check_send packet plen : 0 < plen -> no_write packet plen -> keeps HH (vc_check_send packet plen).
Proof.
  intros Hpl Hn s Hs. destruct (load 0 plen packet) as [bs|] eqn:Hl.
  2:{ unfold wlp, vc_check_send. rewrite Hl. done. }
  eapply wlp_mono; [eapply (wlp_check_send L0 w0 ph ph fr fr); [|done|exact Hl|exact Hs]|].
  - intros a w. apply HW_put_quiet. by apply Hn.
  - cbv beta. intros r s'. by destruct (r =? 0).
Qed.

(** The buffer a packet is made in has its size. *)
Lemma wlp_pbuf n s (Q : list byte -> St live_world -> Prop) :
  0 <= n -> (forall p, zlen p = n -> Q p s) -> wlp (pbuf_of n) s Q.
Proof. intros Hn HQ. apply wlp_wp. by apply wp_pbuf_of. Qed.

Lemma keeps_send_packet pack size : 0 <= size -> quiet_pack pack size -> keeps HH (send_packet pack size).
Proof.
  intros Hsz Hq s Hs. unfold send_packet. apply wlp_bind, wlp_pbuf; [done|]. intros pbuf Hz.
  apply wlp_bind, wlp_gets, wlp_bind, wlp_lift. intros [n m] Hp. apply wlp_if; intros Hn; bool_simpl; [by apply wlp_ret|].
  apply wlp_bind. eapply wlp_mono; [apply keeps_check_send; [done|by eapply Hq|exact Hs]|].
  cbv beta. intros e s1 H1. revert s1 H1. change (keeps HH (if negb (e =? 0) then mret (-1) else tid_incr;; mret 0)).
  keeps_tac.
Qed.
End quiet.
Lemma quiet_lines size : 20 <= size ->
  quiet_pack vc_pack_setrts size /\ quiet_pack vc_pack_clrrts size /\
  quiet_pack vc_pack_setdtr size /\ quiet_pack vc_pack_clrdtr size /\
  quiet_pack vc_pack_getmodem size /\ quiet_pack vc_pack_womask size.
Proof. intros Hs. split_and!; by apply quiet_param. Qed.

Ltac quiet_tac :=
  lazymatch goal with
  | |- quiet_pack (fun p t n => vc_pack_qfsize _ _ _ _) _ => by apply quiet_qfsize
  | |- quiet_pack (fun p t n => vc_pack_setwmask _ _ _ _) _ => by apply quiet_setwmask
  | |- quiet_pack vc_pack_getwmask _ => by apply quiet_getwmask
  | |- quiet_pack (if _ then _ else _) _ => case_if; quiet_tac
  | |- quiet_pack ?pack ?size =>
      let H := fresh in assert (20 <= size) as H by done; apply quiet_lines in H;
      destruct H as (? & ? & ? & ? & ? & ?);
      match goal with H : quiet_pack pack _ |- _ => exact H end
  end.
#[export] Hint Extern 1 (keeps _ (send_packet _ _)) =>
  apply keeps_send_packet; [done|quiet_tac] : keeps.

(** ** Operations that leave the history alone *)

Lemma cmd_no_write m n : get16 off_cmd m <> Some VCOM_CMD_WRITE -> no_write m n.
Proof.
  intros Hc bs Hl. unfold write_payload. destruct (get16 off_cmd bs) as [c|] eqn:E; [|done]. simpl.
  destruct (Z.eqb_spec c VCOM_CMD_WRITE) as [->|]; [|done]. exfalso. apply Hc. rewrite <- E.
  pose proof (load_zlen _ _ _ _ Hl) as Hz. unfold get16 in *.
  destruct (load off_cmd 2 bs) as [x|] eqn:Hx; [|done].
  assert (Hm : load off_cmd 2 m = Some x); [|by rewrite Hm].
  assert (Hr : off_cmd + 2 <= n).
  { unfold load in Hx. case_if in Hx; [|done]. unfold off_cmd in *. bool_simpl. destruct_and?. lia. }
  assert (Hn : 0 + n <= zlen m).
  { unfold load in Hl. case_if in Hl; [|done]. bool_simpl. destruct_and?. lia. }
  unfold off_cmd in *. rewrite load_Some in Hl by lia. injection Hl as <-. rewrite <- Hx.
  rewrite !load_Some by lia. f_equal. rewrite !zdrop_0. rewrite (zdrop_ztake _ _ m) by lia.
  by rewrite ztake_ztake by lia.
Qed.

Lemma load_ztake_app o k n (m x : list byte) :
  0 <= o -> 0 <= k -> o + k <= n -> n <= zlen m -> load o k m = load o k (ztake n m ++ x).
Proof.
  intros Ho Hk Hn Hm. pose proof (zlen_nonneg x).
  rewrite !load_Some by (rewrite ?zlen_app, ?zlen_ztake by lia; lia). f_equal.
  rewrite zdrop_app_l, ztake_app_l; rewrite ?zlen_zdrop; rewrite ?zlen_ztake; try lia.
  rewrite zdrop_ztake by lia. by rewrite ztake_ztake by lia.
Qed.

Section neutral.
Context (L0 : link) (w0 : live_world) (ph : Z -> list byte -> Prop) (fr : mode) (q : list byte).
Local Abbreviation HH := (H L0 w0 ph fr q).
Implicit Types s : St live_world.
Context (callp : vc_op -> Prog live_world state_id).
Hypothesis call_init : keeps HH (callp OpInit).
#[local] Hint Resolve call_init : keeps.

Lemma keeps_excp_init : keeps HH (excp_init callp).
Proof. unfold excp_init. keeps_tac. Qed.
#[local] Hint Resolve keeps_excp_init : keeps.

(** Packing a packet and sending it. *)
Lemma keeps_packet {A} size r (k : Z -> list byte -> Prog live_world A) :
  0 <= size ->
  (forall pbuf n m, zlen pbuf = size -> r pbuf = Some (n, m) -> keeps HH (k n m)) ->
  keeps HH (pbuf ← pbuf_of size; x ← lift (r pbuf); let '(n, m) := x in k n m).
Proof.
  intros Hz Hk s Hs. apply wlp_bind, wlp_pbuf; [done|]. intros pbuf Hp.
  apply wlp_bind, wlp_lift. intros [n m] Hr. by eapply Hk.
Qed.

(** The same with the transaction number in between. *)
Lemma keeps_packet_tid {A} size (r : list byte -> Z -> Z -> option (Z * list byte))
    (k : Z -> list byte -> Prog live_world A) :
  0 <= size -> quiet_pack r size ->
  (forall n m, no_write m n -> keeps HH (k n m)) ->
  keeps HH (pbuf ← pbuf_of size; tid ← gets tid; x ← lift (r pbuf tid size); let '(n, m) := x in k n m).
Proof.
  intros Hz Hq Hk s Hs. apply wlp_bind, wlp_pbuf; [done|]. intros pbuf Hp. apply wlp_bind, wlp_gets.
  apply wlp_bind, wlp_lift. intros [n m] Hr. apply Hk; [|done]. by eapply Hq.
Qed.

(** A test for zero suffices: packets are not shorter than nothing. *)
Lemma keeps_check_send0 packet plen : plen <> 0 -> no_write packet plen -> keeps HH (vc_check_send packet plen).
Proof.
  intros Hn Hw. destruct (Z.lt_ge_cases 0 plen); [by apply keeps_check_send|].
  intros s Hs. unfold wlp, vc_check_send. unfold load at 1. rewrite (proj2 (Z.leb_gt 0 plen)) by lia.
  rewrite andb_false_r. done.
Qed.

Ltac send_next Hn :=
  first [apply keeps_check_send0; [by bool_simpl|exact Hn] | apply keeps_check_send; [by bool_simpl|exact Hn]].

Lemma keeps_common_open : keeps HH (vc_common_open callp).
Proof.
  unfold vc_common_open. do 2 (apply keeps_bind; [keeps_tac|intros ?]).
  apply keeps_packet; [lia|]. intros pbuf n m Hz Hr.
  pose proof (quiet_open _ _ 1024 ltac:(lia) pbuf 1 n m Hz Hr) as Hn.
  destruct (n =? 0) eqn:E; [keeps_tac|]. apply keeps_bind; [send_next Hn|intros e; keeps_tac].
Qed.

Lemma keeps_common_purge x : keeps HH (vc_common_purge x).
Proof.
  unfold vc_common_purge. apply (keeps_packet_tid 1024 (fun p t n => vc_pack_purge p t x n)); [lia|by apply quiet_purge|].
  intros n m Hn. destruct (n =? 0) eqn:E; [keeps_tac|]. apply keeps_bind; [send_next Hn|intros e; keeps_tac].
Qed.

Lemma keeps_common_close : keeps HH (vc_common_close callp).
Proof.
  unfold vc_common_close. do 4 (apply keeps_bind; [keeps_tac|intros _]).
  apply (keeps_packet_tid 1024 vc_pack_close); [lia|by apply quiet_close|].
  intros n m Hn. destruct (n =? 0) eqn:E; [keeps_tac|]. apply keeps_bind; [send_next Hn|intros e; keeps_tac].
Qed.
End neutral.

(** ** Line settings *)

Section settings.
Context (L0 : link) (w0 : live_world) (ph : Z -> list byte -> Prop) (fr : mode) (q : list byte).
Local Abbreviation HH := (H L0 w0 ph fr q).
Implicit Types s : St live_world.

(** What was packed so far is no write packet. *)
Definition lines_packed (r : Z * list byte) : Prop :=
  zlen (snd r) = 1024 /\
  (fst r = 0 \/ 20 <= fst r /\ get16 off_cmd (snd r) <> Some VCOM_CMD_WRITE).

Lemma wlp_set_ms_step line e u subset subclr plen pbuf s :
  HH s -> lines_packed (plen, pbuf) -> plen <= 20 ->
  wlp (set_ms_step line e u (fun b t n => _pack_ioctl_param b t subset n)
        (fun b t n => _pack_ioctl_param b t subclr n) plen pbuf 1024) s
    (fun r s' => HH s' /\ lines_packed r /\ fst r <= plen + 20).
Proof.
  intros Hs [Hz Hp] Hle. simpl in *. unfold set_ms_step.
  apply wlp_if; intros _; [apply wlp_ret; split; [done|split; [by split|simpl; lia]]|].
  apply wlp_bind, wlp_gets, wlp_bind, wlp_lift. intros [n m] Hm.
  assert (Hzd : zlen (zdrop plen pbuf) = 1024 - plen) by (rewrite zlen_zdrop; lia).
  set (sub := if u &? line then subset else subclr).
  assert (E : n = 20 /\ m = frame_bytes (mk_frame (tid (at_ s)) VCOM_CMD_IOCTL sub 0 []) ++ zdrop 20 (zdrop plen pbuf)).
  { assert (Hs' : _pack_ioctl_param (zdrop plen pbuf) (tid (at_ s)) sub (1024 - plen) = Some (n, m))
      by (unfold sub; by destruct (u &? line)).
    rewrite pack_ioctl_param_spec in Hs' by lia. unfold packed in Hs'. cbn [f_ext] in Hs'.
    generalize (frame_bytes (mk_frame (tid (at_ s)) VCOM_CMD_IOCTL sub 0 [])) Hs'.
    intros b Hb. by injection Hb as <- <-. }
  destruct E as [-> ->]. apply wlp_if; intros Hneg; bool_simpl; [lia|].
  wlp_run keeps_tid_incr. intros _ s1 H1. apply wlp_ret.
  split; [done|]. split; [|simpl; lia]. split.
  - cbn [snd]. rewrite !zlen_app, zlen_ztake, zlen_frame_bytes, zlen_zdrop; cbn [f_ext]; rewrite ?zlen_nil, ?Hzd; lia.
  - right. cbn [fst snd]. split; [lia|]. destruct Hp as [->|[Hp Hc]].
    + rewrite ztake_0, app_nil_l. unfold get16. rewrite load_cmd. simpl. by rewrite be_val_be16.
    + replace plen with 20 in * by lia. intros Hw. apply Hc. rewrite <- Hw. unfold get16. f_equal.
      apply load_ztake_app; unfold off_cmd; lia.
Qed.

Lemma wlp_ioctl_packet pbuf s :
  HH s -> zlen pbuf = 1024 ->
  wlp (ioctl_packet pbuf) s (fun r s' => HH s' /\ zlen (snd r) = 1024 /\ (0 < fst r -> no_write (snd r) (fst r))).
Proof.
  intros Hs Hz. unfold ioctl_packet. wlp_run keeps_attr_p. intros a s1 H1. apply wlp_bind, wlp_gets, wlp_bind, wlp_gets.
  set (t := tid (at_ s1)).
  assert (Hone : forall pack s2, packs pack 1024 -> quiet_pack pack 1024 -> HH s2 ->
    wlp (lift (pack pbuf t 1024)) s2 (fun r s' => HH s' /\ zlen (snd r) = 1024 /\ (0 < fst r -> no_write (snd r) (fst r)))).
  { intros pack s2 Hp Hq H2. apply wlp_lift. intros [n m] Hr. split; [done|].
    destruct (Hp pbuf t Hz) as (n' & m' & Hr' & _ & Hm'). rewrite Hr in Hr'. injection Hr' as -> ->.
    split; [done|]. intros _. exact (Hq pbuf t _ _ Hz Hr). }
  assert (Heki : forall f s2, HH s2 -> wlp (update_eki_attr f) s2 (fun _ => HH)) by (intros; by apply keeps_update_eki).
  apply wlp_if; intros _.
  { wlp_run Heki. intros _ s2 H2.
    apply (Hone (fun p t n => vc_pack_sbaud p t (u32 (i_baud a)) n)); [by apply packs_sbaud|by apply quiet_sbaud|done]. }
  apply wlp_if; intros _.
  { wlp_run Heki. intros _ s2 H2.
    wlp_run Heki. intros _ s3 H3.
    wlp_run Heki. intros _ s4 H4.
    apply (Hone (fun p t n => vc_pack_setlctl p t _ _ _ n)); [by apply packs_setlctl|by apply quiet_setlctl|done]. }
  apply wlp_if; intros _.
  { destruct (hflow_args (i_flowctl a)) as [ch fl]. apply wlp_bind.
    eapply wlp_mono; [apply (Hone (fun p t n => vc_pack_hflow p t ch fl n)); [by apply packs_hflow|by apply quiet_hflow|done]|].
    cbv beta. intros r s2 (H2 & Hr). wlp_run Heki. intros _ s3 H3. by apply wlp_ret. }
  apply wlp_if; intros _; [|by apply wlp_ret].
  unfold _set_ms. apply wlp_bind, wlp_bind, wlp_gets, wlp_bind.
  eapply wlp_mono; [apply (wlp_set_ms_step _ _ _ VCOM_IOCTL_SET_RTS VCOM_IOCTL_CLR_RTS); [done|split; [done|by left]|lia]|].
  cbv beta. intros [p1 b1] s2 (H2 & Hp1 & Hle).
  eapply wlp_mono; [apply (wlp_set_ms_step _ _ _ VCOM_IOCTL_SET_DTR VCOM_IOCTL_CLR_DTR); [done|done|simpl in *; lia]|].
  cbv beta. intros [p2 b2] s3 (H3 & [Hz2 Hp2] & _). simpl in *.
  wlp_run Heki. intros _ s4 H4. apply wlp_ret. simpl.
  split_and!; try done. intros Hpos. apply cmd_no_write. destruct Hp2 as [->|[_ Hc]]; [lia|done].
Qed.

Lemma keeps_ioctl_loop callp k pbuf :
  keeps HH (callp OpInit) -> zlen pbuf = 1024 -> keeps HH (ioctl_loop callp k pbuf).
Proof.
  intros Hc. revert pbuf. induction k as [|k IH]; intros pbuf Hz s Hs; cbn [ioctl_loop].
  { by apply keeps_curnt. }
  wlp_run wlp_ioctl_packet. intros [n m] s1 (H1 & Hm & Hn).
  simpl in *. apply wlp_if; intros Hpos; bool_simpl; [by apply keeps_curnt|].
  apply wlp_bind. eapply wlp_mono; [apply keeps_check_send; [lia|by apply Hn|exact H1]|]. cbv beta. intros e s2 H2.
  apply wlp_if; intros _; [by apply keeps_excp_init|].
  wlp_run keeps_tid_incr. intros _ s3 H3. by apply IH.
Qed.

Lemma keeps_common_ioctl callp : keeps HH (callp OpInit) -> keeps HH (vc_common_ioctl callp).
Proof.
  intros Hc s Hs. unfold vc_common_ioctl. apply wlp_bind, wlp_pbuf; [lia|]. intros p Hp. by apply keeps_ioctl_loop.
Qed.
End settings.

(** ** The [init] operations, and what calls them *)

Section inits.
Context (L0 : link) (w0 : live_world) (ph : Z -> list byte -> Prop) (fr : bool) (q : list byte).
Local Abbreviation HH := (H L0 w0 ph fr q).
Implicit Types s : St live_world.
Hypothesis reset : keeps HH (modify (set_xmit_pending 0)).
#[local] Hint Resolve reset : keeps.

Lemma keeps_sync_sends u :
  keeps HH (_sync_ms u) /\ keeps HH _sync_event /\ keeps HH _reg_sync_event /\ keeps HH _sync_queue.
Proof.
  unfold _sync_ms, _sync_event, _reg_sync_event, _sync_queue. split_and!; keeps_tac.
Qed.

Lemma keeps_init n : keeps HH (dispatch n OpInit).
Proof.
  induction n as [|n IH]; cbn [dispatch]; [keeps_tac|].
  pose proof (fun u => proj1 (keeps_sync_sends u)) as Hms. destruct (keeps_sync_sends 0) as (_ & He & _ & Hqu).
  pose proof (keeps_excp_init _ _ _ _ _ _ IH) as Hx.
  apply keeps_bind; [keeps_tac|]. intros []; cbn [handler].
  - unfold vc_netdown_init. keeps_tac.
  - unfold vc_netup_init. keeps_tac.
  - unfold vc_pause_init. keeps_tac.
  - unfold vc_idle_init. keeps_tac.
  - unfold vc_sync_init. keeps_tac.
Qed.
#[local] Hint Resolve keeps_init : keeps.

Lemma keeps_excp_down n : keeps HH (excp_init (dispatch n)).
Proof. apply keeps_excp_init, keeps_init. Qed.
#[local] Hint Resolve keeps_excp_down : keeps.

Lemma keeps_poll n : keeps HH (vc_netup_poll (dispatch n)) /\ keeps HH (vc_pause_poll (dispatch n)).
Proof. unfold vc_netup_poll, vc_pause_poll. split; keeps_tac. Qed.

Lemma keeps_pause n : keeps HH (vc_netup_pause (dispatch n)).
Proof. unfold vc_netup_pause, _pause_queue. keeps_tac. Qed.

Lemma keeps_resume n : keeps HH (vc_pause_resume (dispatch n)).
Proof. unfold vc_pause_resume, _resume_queue. keeps_tac. Qed.

Lemma keeps_sync_recv n buf len : keeps HH (vc_sync_recv (dispatch n) buf len).
Proof.
  destruct (keeps_sync_sends 0) as (_ & He & Hr & _). unfold vc_sync_recv. keeps_tac.
Qed.

(** Opening, from Net Up or Pause. *)
Lemma wlp_open_base `{TlsMode} n b o s :
  base b -> G [S_netdown; b] true o s -> HH s -> wlp (dispatch (S n) OpOpen) s (fun _ => HH).
Proof.
  intros Hb Hg Hs. cbn [dispatch]. apply wlp_bind, wlp_wp. eapply (wp_curnt [S_netdown] b); [exact Hg|].
  destruct Hb as [-> | ->]; cbn [handler]; by apply keeps_common_open; [apply keeps_init|].
Qed.

Lemma wlp_check_ioctl_ret `{TlsMode} n b buf len o s :
  base b -> G [S_netdown; b] true o s -> HH s ->
  wlp (check_ioctl_ret (dispatch (S n)) buf len) s (fun _ => HH).
Proof.
  intros Hb Hg Hs. unfold check_ioctl_ret. apply wlp_bind, wlp_lift. intros st _.
  apply wlp_bind, wlp_lift. intros sub _. apply wlp_if; intros _; [by apply wlp_ret|].
  apply wlp_if; intros _; [|by apply wlp_ret]. apply wlp_bind.
  eapply wlp_mono; [apply wlp_and; [by apply (keeps_push L0 w0 ph fr q S_sync)|]|].
  { apply wlp_wp. eapply (wp_push _ S_sync _ _ _ (fun _ => G [S_netdown; b; S_sync] true o)); [exact Hg|simpl; lia|done]. }
  cbv beta. intros _ s1 [H1 Hg1]. apply wlp_bind. cbn [dispatch]. apply wlp_bind, wlp_wp.
  eapply (wp_curnt [S_netdown; b] S_sync); [exact Hg1|]. cbn [handler].
  eapply wlp_mono; [by apply keeps_sync_recv|]. cbv beta. intros _ s2 H2. by apply wlp_ret.
Qed.
End inits.

Lemma reset_exact L0 w0 fr q : keeps (H L0 w0 exact fr q) (modify (set_xmit_pending 0)).
Proof.
  intros s (f & Ht & [] & Hp & Hf). apply wlp_modify. exists []. split_and!; try done.
  - eapply (trace_stay _ _ _ _ _ E_drop); [exact Ht|done..|]. apply (LS_drop (link_with _ _)).
  - constructor; try done. apply prefix_nil.
Qed.

Lemma reset_closing L0 w0 fr q : keeps (H L0 w0 closing fr q) (modify (set_xmit_pending 0)).
Proof.
  intros s (f & Ht & [] & -> & Hf). apply wlp_modify. exists []. by split_and!.
Qed.
