(* ===== verification/LiveEvents.v ===== *)
(** * The operations with an effect on the link

    Clearing, transmitting, and receiving: acknowledgements and data.  Each is
    shown to be its event of the link. *)

From stdpp Require Import gmap.
From S2P Require Import Prelude RingBuf Tty Uart DrvMain Proto Os SslSelect SimWorld Vcom Connect.
From S2P Require Import Client ClientProofs SimLaws ClientInv System Link LiveWorld LiveInv LiveOps LiveClient.

Section events.
Context (L0 : link) (w0 : live_world).
Implicit Types s : St live_world.
Local Abbreviation HW := (HW L0 w0).
Local Abbreviation H := (H L0 w0).

Lemma HW_stale ph fr q a w : HW ph fr q a w -> HW ph false q a w.
Proof. intros (f & ? & ? & ? & _). exists f. split_and!; try done. apply mode_stale. Qed.

(** Bytes that were received and mean nothing to the streams. *)
Lemma HW_flush ph fr q a w : HW ph fr q a w -> HW ph fr [] a w.
Proof.
  intros (f & Ht & Hi & Hp & Hf). exists f. split_and!; try done.
  eapply (trace_stay _ _ _ _ _ (E_other q)); [exact Ht|by rewrite app_nil_r|done|done|]. apply LS_other.
Qed.

(** ** Clearing *)

Lemma clear_geometry (d : adv_vcom eager_tty) flags n :
  geometry d -> geometry (set_rx (move_rb_head (rx (adv_main_clear d flags)) n) (adv_main_clear d flags)) /\
  geometry (adv_main_clear d flags).
Proof.
  intros (Hs1 & Hs2 & Hb1 & Hb2 & Ha).
  assert (Hg : geometry (adv_main_clear d flags)).
  { unfold adv_main_clear. repeat case_if; unfold geometry; simpl; try (by split_and!).
    all: destruct (move_rb_head_frame (ring_mark_clean (tx d)) 0) as (_ & -> & ->); by split_and!. }
  split; [|done]. destruct Hg as (? & ? & ? & ? & ?). unfold geometry. simpl.
  destruct (move_rb_head_frame (rx (adv_main_clear d flags)) n) as (_ & -> & ->). by split_and!.
Qed.

Lemma clear_step p p' f c :
  pipe_step (L_clear true c) p p' ->
  link_step (E_clear true c) (mk_link (stream_up p) (stream_down p) f)
    (mk_link (stream_up p') (stream_down p') []).
Proof.
  intros Hs. inversion Hs; subst. unfold stream_up, stream_down. simpl.
  apply (LS_clear true c (mk_link _ _ f)); simpl; try done.
  - by eexists.
  - apply prefix_app. destruct c; [apply prefix_nil|done].
  - by intros ->.
Qed.

(** Both requests of a clear, and the ring from the application afterwards. *)
Lemma HW_clear ph fr q a w flags :
  HW ph fr q a w -> flags &? ADV_CLR_RX = true ->
  let d := sw_drv (lw w) in
  let d2 := adv_main_clear d flags in
  let d3 := set_rx (move_rb_head (rx d2) 0) d2 in
  drv_okb d2 = true /\ HW closing false q (now_rx d3 a) (on_sim (sw_set_drv d3) w).
Proof.
  intros (f & Ht & [Hd Hg Hb Hh Hl Hf] & _) Hrx. cbv zeta.
  destruct (clear_geometry _ flags 0 Hg) as [Hg3 Hg2].
  destruct (clear_runs _ flags Hd) as (d3 & Hdo & Hd3 & Hstep). rewrite Hrx in Hstep.
  assert (E : d3 = set_rx (move_rb_head (rx (adv_main_clear (sw_drv (lw w)) flags)) 0)
                (adv_main_clear (sw_drv (lw w)) flags)).
  { revert Hdo. unfold port_do, ioctl_on.
    change (adv_proc_ioctl (sw_drv (lw w)) ADVVCOM_IOCSCLR (uarg flags)) with
      (Some (0, uarg flags, adv_main_clear (sw_drv (lw w)) flags)).
    cbn [mbind option_bind snd]. rewrite Hrx. by intros [= <-]. }
  rewrite <- E in *. split.
  { destruct Hd as (Htx & Hrx2 & Ha). apply geometry_okb; [| | |done].
    - unfold adv_main_clear. repeat case_if; simpl; try apply Htx; apply (clear_ring _ Htx).
    - unfold adv_main_clear. repeat case_if; simpl; apply Hrx2.
    - unfold adv_main_clear. by repeat case_if. }
  exists []. split_and!; try done.
  - eapply (trace_step _ _ _ _ _ _ (E_clear true (flags &? ADV_CLR_TX)));
      [exact Ht|by apply clear_step|by rewrite app_nil_r|by rewrite app_nil_r|done].
  - constructor; try done; [by apply now_bufs| |apply prefix_nil].
    by rewrite (proj1 (now_length _ _ Hg3 Hb)).
  - apply mode_stale.
Qed.

Lemma wlp_buf_clear ph fr q flags s :
  H ph fr q s -> flags &? ADV_CLR_RX = true ->
  wlp (vc_buf_clear flags) s (fun _ => H closing false q).
Proof.
  intros Hs Hrx. pose proof (HW_tick _ _ _ _ _ _ _ Hs) as Ht.
  destruct (HW_okb _ _ _ _ _ _ _ Ht) as [_ Hokb].
  destruct (HW_clear _ _ _ _ _ flags Ht Hrx) as [Hok2 H3].
  set (d := sw_drv (lw (tick (world s)))) in *. unfold vc_buf_clear.
  apply wlp_bind. eapply (wlp_set_exact _ _ _ (tick (world s))); [done|exact Hokb|reflexivity|].
  apply wlp_if; intros E; [done|clear E]. rewrite Hrx. cbn [when]. apply wlp_bind, wlp_bind.
  eapply wlp_set_exact; [reflexivity|exact Hok2|reflexivity|]. apply wlp_bind.
  eapply wlp_mono; [apply (wlp_update_rx L0 w0 closing false q); exact H3|]. cbv beta. intros _ s1 H1.
  apply wlp_ret. revert s1 H1.
  change (keeps (H closing false q) (when (flags &? ADV_CLR_TX) (_ ← vc_buf_update VC_BUF_TX; mret tt))).
  keeps_tac.
Qed.

(** Clearing with nothing in flight. *)
Lemma wlp_buf_clear_idle fr q flags s :
  H exact fr q s -> xmit_pending (at_ s) = 0 -> flags &? ADV_CLR_RX = true ->
  wlp (vc_buf_clear flags) s (fun _ s' => H exact false q s' /\ xmit_pending (at_ s') = 0).
Proof.
  intros Hs Hp Hrx. eapply wlp_mono; [apply wlp_and; [by eapply wlp_buf_clear|]|].
  - apply wlp_wp, buf_clear_rest.
  - cbv beta. intros _ s' [(f & Ht & Hi & -> & Hf) E]. injection E as _ E _. rewrite Hp in E.
    split; [|done]. exists []. by rewrite E.
Qed.

(** The end of a connection. *)
Lemma closing_exact fr q a w : HW closing fr q a w -> xmit_pending a = 0 -> HW exact fr q a w.
Proof. intros (f & ? & ? & -> & ?) Hp. exists []. by rewrite Hp. Qed.

(** ** Transmitting *)

(** The ring the cached indices describe: the front of the real one. *)
Definition cached_ring (u : U.ring_buf) (k : K.ring_buf) : K.ring_buf :=
  K.mk (U.head u) (U.tail u) (K.begin k) (U.size u) (K.status k) (K.data k).

Lemma cached_ring_ok f a d :
  in_step f a d ->
  let k := cached_ring (urx a) (rx d) in
  ring_ok k /\ synced (urx a) k /\ contents k `prefix_of` contents (rx d) /\
  zlen (contents k) = get_rb_length (urx a).
Proof.
  intros [(_ & [Hok _] & _) (_ & Hs & _) (_ & Hu & _) Hh Hl _]. cbv zeta.
  pose proof (user_geom _ _ Hu) as Hg. destruct Hu as (_ & Hsz & _).
  set (k := cached_ring (urx a) (rx d)).
  assert (Hk : ring_ok k).
  { split; [exact Hg|]. simpl. rewrite Hsz, <- Hs. apply Hok. }
  split; [done|]. split; [done|].
  assert (Hlen : get_rb_length k = get_rb_length (urx a)) by done.
  split; [|by rewrite contents_length].
  pose proof (ring_ok_geom _ Hok) as Hgr. destruct Hgr as (_ & Hhd & _). simpl in Hhd.
  pose proof (rb_length_range _ (ring_ok_geom _ Hk)) as Hr. pose proof (rb_length_range _ (ring_ok_geom _ Hok)) as Hr2.
  simpl in Hr2. unfold contents. simpl K.head. simpl K.data. rewrite Hh, Hlen.
  destruct Hok as [_ Hd]. rewrite <- (ring_read_take _ _ (get_rb_length (rx d))) by lia.
  exists (zdrop (get_rb_length (urx a)) (ring_read (K.data (rx d)) (K.head (rx d)) (get_rb_length (rx d)))).
  by rewrite ztake_zdrop.
Qed.

Lemma write_payload_frame t n p : write_payload (frame_bytes (mk_frame t VCOM_CMD_WRITE n 0 p)) = Some p.
Proof.
  unfold write_payload, get16. rewrite <- (app_nil_r (frame_bytes _)), load_cmd. cbn [f_cmd mbind option_bind].
  rewrite be_val_be16. cbn [Z.eqb]. by rewrite app_nil_r.
Qed.

(** A write packet goes out while nothing is in flight. *)
Lemma HW_put_write b q p bs a w :
  write_payload bs = Some p -> 0 < zlen p <= XMIT_LEN -> 
  HW (fun n f => n = 0 /\ f = []) (mk_mode b p) q a w -> HW (gone p) b q a (put_out bs w).
Proof.
  intros Hb Hl (f & Ht & Hi & [_ ->] & Hf & Hp). simpl in Hp. exists p. split_and!; try done.
  - eapply (trace_step _ _ _ _ _ _ (E_send p)); [exact Ht| |by rewrite app_nil_r| |done].
    + apply (LS_send p (link_with _ [])); [done| |done]. unfold link_with, stream_up. simpl.
      by apply prefix_app_r.
    + cbn [put_out on_sim lw sw_out sw_set_out]. by rewrite wire_cons, Hb.
  - destruct Hi. by constructor.
  - split; [done|apply prefix_nil].
Qed.

Definition nothing (n : Z) (f : list byte) : Prop := n = 0 /\ f = [].

(** The end of [vc_common_xmit]: bytes known to be at the front are sent. *)
Lemma wlp_xmit_send (b : bool) q n data m s :
  H nothing (mk_mode b data) q s -> 0 < zlen data <= XMIT_LEN ->
  wlp (e ← vc_check_send (frame_bytes (mk_frame (tid (at_ s)) VCOM_CMD_WRITE (zlen data) 0 data) ++ m)
             (20 + zlen data);
       if negb (e =? 0) then excp_init (dispatch n) else
       modify (set_xmit_pending (zlen data));; tid_incr;; stk_curnt) s (fun _ => H exact false q).
Proof.
  intros Hs Hl. set (fb := frame_bytes _).
  assert (Hfb : zlen fb = 20 + zlen data) by (unfold fb; by rewrite zlen_frame_bytes).
  apply wlp_bind. eapply wlp_mono.
  { eapply (wlp_check_send L0 w0 nothing (gone data) (mk_mode b data) b q fb).
    - intros a w. by apply HW_put_write; [apply write_payload_frame|].
    - lia.
    - rewrite <- Hfb. apply load_front.
    - exact Hs. }
  cbv beta. intros e s1 H1. destruct (e =? 0); cbn [negb].
  - apply wlp_bind, wlp_modify.
    apply (keeps_bind (H exact false q) tid_incr (fun _ => stk_curnt)); [keeps_tac|intros _; keeps_tac|].
    apply HW_stale in H1. destruct H1 as (f & Ht1 & Hi1 & -> & Hm1). exists data.
    split_and!; try done. destruct Hi1. by constructor.
  - apply (keeps_excp_down L0 w0 exact false q (reset_exact _ _ _ _)).
    apply HW_stale in H1. destruct H1 as (f & ? & ? & [Hn ->] & ?). exists []. unfold exact. by rewrite Hn.
Qed.

Lemma wlp_common_xmit (b : bool) q n s :
  H exact b q s -> xmit_pending (at_ s) = 0 -> is_rb_empty (urx (at_ s)) = false ->
  wlp (vc_common_xmit (dispatch n)) s (fun _ => H exact false q).
Proof.
  intros Hs Hpend Hne. pose proof Hs as (f & Ht & Hi & He & Hm). unfold exact in He. rewrite Hpend in He.
  assert (f = []) as -> by (apply zlen_0_nil; lia). destruct (HW_okb _ _ _ _ _ _ _ Hs) as [_ Hokb].
  destruct (cached_ring_ok _ _ _ Hi) as (Hk & Hsync & Hpre & Hlen).
  destruct (is_bufs _ _ _ Hi) as (_ & Hu & _). pose proof Hu as (Hmb & _).
  destruct (xmit_data (lw (world s)) (urx (at_ s)) (cached_ring (urx (at_ s)) (rx (sw_drv (lw (world s)))))
    Hokb eq_refl Hk Hsync Hmb) as (Hl & Hll & Hl1 & Hl2).
  set (c := contents (cached_ring _ _)) in *. unfold vc_common_xmit. apply wlp_bind, wlp_gets. cbv zeta.
  change (XMIT_LEN + sizeof_vc_proto_hdr + sizeof_vc_attach_param) with 1044.
  apply wlp_bind, wlp_pbuf; [lia|]. intros pbuf Hp. apply wlp_bind, wlp_gets, wlp_bind, wlp_get_world.
  assert (Hpos : 0 < zlen c).
  { pose proof (rb_empty_length _ (user_geom _ _ Hu)) as Hemp. rewrite Hne in Hemp.
    assert (get_rb_length (urx (at_ s)) <> 0) by (intros E; by apply Hemp in E). pose proof (zlen_nonneg c). lia. }
  set (llen := if XMIT_LEN <? get_rb_llength (urx (at_ s)) then _ else _) in *.
  set (len := if XMIT_LEN <? get_rb_length (urx (at_ s)) then _ else _) in *.
  clearbody llen len. unfold XMIT_LEN in Hl. apply wlp_bind.
  eapply wlp_mono; [apply wlp_wp, (wp_xmit_packet _ (world s) c); [exact Hl1|exact Hl2|done|lia|unfold XMIT_LEN; lia|done]|].
  cbv beta. intros r s' (-> & m & ->). apply wlp_if; intros Hz; bool_simpl; [lia|]. clear Hz.
  assert (Hzd : zlen (ztake len c) = len) by (apply zlen_ztake; lia).
  assert (Hpd : ztake len c `prefix_of` c) by (exists (zdrop len c); by rewrite ztake_zdrop).
  clear Hl1 Hl2. generalize dependent (ztake len c). intros data Hzd Hpd. destruct Hzd.
  apply (wlp_xmit_send b q n data m s); [|unfold XMIT_LEN; lia].
  exists []. split_and!; try done. split; [apply Hm|]. by etrans.
Qed.

(** ** Acknowledgements *)

Lemma HW_ack fr q a w n :
  HW exact fr q a w -> n = xmit_pending a -> pkt_cmd q = Some VCOM_CMD_WRITE ->
  let d' := set_rx (move_rb_head (rx (sw_drv (lw w))) n) (sw_drv (lw w)) in
  HW exact false [] (now_rx d' (set_xmit_pending 0 a)) (on_sim (sw_set_drv d') w).
Proof.
  intros (f & Ht & [Hd Hg Hb Hh Hl [c Hf]] & He & _) -> Hc d'. unfold exact in He.
  pose proof Hd as (_ & [Hok _] & _).
  assert (Hn : 0 <= xmit_pending a <= get_rb_length (rx (sw_drv (lw w)))).
  { rewrite He, <- contents_length, Hf, zlen_app by done.
    pose proof (zlen_nonneg f). pose proof (zlen_nonneg c). lia. }
  destruct (consume_runs _ _ Hd Hn) as (d2 & Hdo & Hd' & Hstep).
  assert (d2 = d') as -> by (by injection Hdo as <-).
  assert (Hg' : geometry d').
  { destruct Hg as (? & ? & ? & ? & ?). unfold geometry, d'. simpl.
    destruct (move_rb_head_frame (rx (sw_drv (lw w))) (xmit_pending a)) as (_ & -> & ->). by split_and!. }
  assert (Hb' : bufs_ok (set_xmit_pending 0 a)) by done.
  exists []. split_and!; try done; [| |apply mode_stale].
  - eapply (trace_step _ _ _ _ _ _ (E_ack q)); [exact Ht| |by rewrite app_nil_r..|by rewrite app_nil_r].
    destruct (pipe_step_streams (O_consume (xmit_pending a)) _ _ Hstep eq_refl) as (Hdn & Hup & _).
    simpl in Hdn, Hup. rewrite app_nil_r in Hdn. rewrite Z.add_0_r in Hup.
    unfold link_with. cbn [on_sim lw sw_drv sw_set_drv]. rewrite Hdn.
    apply (LS_ack q (mk_link _ _ f)); [done|]. simpl. rewrite Hup, He.
    unfold stream_up. simpl. rewrite Hf, <- app_assoc. f_equal.
    by rewrite zdrop_app_r, Z.sub_diag, zdrop_0 by lia.
  - constructor; try done; [by apply now_bufs| |apply prefix_nil].
    by rewrite (proj1 (now_length _ _ Hg' Hb')).
Qed.

(** An answer to a write: an acknowledgement, or the packet is given up, to be
    sent again or with the connection. *)
Lemma wlp_recv_write fr q n buf len s :
  H exact fr q s -> pkt_cmd q = Some VCOM_CMD_WRITE ->
  wlp (recv_write (dispatch n) buf len) s (fun _ => H exact false []).
Proof.
  intros Hs Hc. destruct (HW_okb _ _ _ _ _ _ _ Hs) as [_ Hokb].
  unfold recv_write. apply wlp_bind, wlp_gets, wlp_bind, wlp_modify.
  apply wlp_bind, wlp_lift. intros r _. apply wlp_if; intros _.
  { apply wlp_bind. eapply wlp_set_exact; [reflexivity|exact Hokb|reflexivity|].
    apply wlp_bind. eapply wlp_mono; [apply (wlp_update_rx L0 w0 exact false [])|].
    - by apply (HW_ack fr q).
    - cbv beta. intros _ s1 H1. by apply keeps_curnt. }
  assert (H1 : H exact false [] (mk_st (set_xmit_pending 0 (at_ s)) (world s) (pre_excp_t s) (rbuf s))).
  { apply (reset_exact L0 w0 false [] s). by eapply HW_flush, HW_stale. }
  apply wlp_bind, wlp_lift. intros r2 _. apply wlp_if; intros _; [by apply keeps_curnt|].
  by apply keeps_excp_down; [apply reset_exact|].
Qed.

(** ** Data *)

(** The copies with the cached indices are those with the real ones. *)
Lemma cached_lroom a d n :
  bufs_ok a -> geometry d -> ring_ok (tx d) -> tx_fresh a d -> 0 <= n <= get_rb_room (utx a) ->
  (n <=? get_rb_lroom (utx a)) = (n <=? get_rb_lroom (tx d)) /\
  (get_rb_lroom (utx a) < n -> get_rb_lroom (utx a) = get_rb_lroom (tx d)).
Proof.
  intros ((_ & Hsz & _) & _) (Hs & _) _ [Htl Hroom] Hn. unfold get_rb_lroom. simpl. rewrite Hsz, Hs, Htl.
  split; [apply eq_true_iff_eq; rewrite !Z.leb_le|]; repeat case_if; lia.
Qed.

Lemma live_map_store w off bs w' :
  map_store w off bs = Some w' -> drv_okb (sw_drv (lw w)) = true -> off < PAGE_SIZE ->
  exists m, store off bs (K.data (tx (sw_drv (lw w)))) = Some m /\
    w' = on_sim (sw_set_drv (set_tx (K.set_data m (tx (sw_drv (lw w)))) (sw_drv (lw w)))) w.
Proof.
  intros Hm Hd Ho. simpl in Hm. unfold sim_map_store in Hm. rewrite Hd, (proj2 (Z.ltb_lt _ _)) in Hm by done.
  cbn [negb] in Hm. destruct (store _ _ _) as [m|]; [|done]. simpl in Hm. injection Hm as <-. eauto.
Qed.

Lemma wlp_copy_payload fr q buf p s :
  H exact fr q s -> m_fresh fr = true -> load off_data (zlen p) buf = Some p ->
  zlen p <= get_rb_room (utx (at_ s)) ->
  wlp (copy_payload (utx (at_ s)) buf (zlen p)) s (fun _ s' => exists m,
    let d := sw_drv (lw (world s)) in
    ring_copy (tx d) p = Some (K.set_data m (tx d)) /\ zlen m = zlen (K.data (tx d)) /\
    s' = mk_st (at_ s) (on_sim (sw_set_drv (set_tx (K.set_data m (tx d)) d)) (world s)) (pre_excp_t s) (rbuf s)).
Proof.
  intros Hs Hfr Hp Hroom. destruct (HW_okb _ _ _ _ _ _ _ Hs) as [Hd Hokb].
  destruct Hs as (f & _ & Hi & _ & Hm & _). specialize (Hm Hfr). pose proof (zlen_nonneg p).
  destruct (is_bufs _ _ _ Hi) as (Hu & _). pose proof Hd as ([Hok _] & _).
  destruct (cached_lroom _ _ (zlen p) (is_bufs _ _ _ Hi) (is_geom _ _ _ Hi) Hok Hm) as [Hle Heq]; [lia|].
  destruct (rb_lroom_range _ (user_geom _ _ Hu)) as [Hl0 _].
  destruct Hm as [Htl _]. pose proof Hu as (Hmb & _ & _ & Htr).
  set (d := sw_drv (lw (world s))) in *. unfold copy_payload. rewrite Hmb. cbv zeta.
  change (get_rb_tail (utx (at_ s))) with (U.tail (utx (at_ s))). rewrite Htl in *. rewrite Z.add_0_l.
  apply wlp_bind, wlp_get_world, wlp_if; intros Hfit; pose proof Hfit as Hfit'; rewrite Hle in Hfit; bool_simpl.
  - apply wlp_bind, wlp_lift. intros x Hx. rewrite Hp in Hx. injection Hx as <-.
    apply wlp_bind, wlp_lift. intros w Hw. apply live_map_store in Hw as (m & Hst & ->); [|done|lia].
    exists m. cbv zeta. fold d in Hst. unfold ring_copy. rewrite (proj2 (Z.leb_le _ _)), Hst by lia.
    split_and!; try done. by apply store_zlen in Hst.
  - rewrite (Heq Hfit') in *. set (lr := get_rb_lroom (tx d)) in *.
    destruct (load_split off_data (zlen p) buf p lr) as [Hp1 Hp2]; [done|lia|].
    apply wlp_bind, wlp_lift. intros x Hx. rewrite Hp1 in Hx. injection Hx as <-.
    apply wlp_bind, wlp_lift. intros w Hw. apply live_map_store in Hw as (m & Hst & ->); [|done|lia].
    fold d in Hst. pose proof (store_zlen _ _ _ _ Hst) as Hz1.
    apply wlp_bind, wlp_lift. intros y Hy. rewrite Hp2 in Hy. injection Hy as <-.
    apply wlp_bind, wlp_lift. intros w Hw. apply live_map_store in Hw as (m2 & Hst2 & ->);
      [|by apply okb_set_tx|unfold PAGE_SIZE; lia]. simpl in Hst2.
    exists m2. cbv zeta. unfold ring_copy. fold lr. rewrite (proj2 (Z.leb_gt _ _)) by lia.
    rewrite Hst. simpl. rewrite Hst2. apply store_zlen in Hst2. split_and!; [done|congruence|done].
Qed.

Lemma produce_up bs p p' : pipe_step (L_produce bs) p p' -> p_up p' = p_up p.
Proof. by inversion 1. Qed.

Lemma HW_produce fr q a w p m :
  let d := sw_drv (lw w) in
  HW exact fr q a w -> ring_copy (tx d) p = Some (K.set_data m (tx d)) -> zlen p <= get_rb_room (tx d) ->
  pkt_cmd q = Some VCOM_CMD_DATAREADY -> pkt_payload q = p ->
  exists d', adv_proc_ioctl (set_tx (K.set_data m (tx d)) d) ADVVCOM_IOCSTXTAIL (uarg (zlen p)) =
      Some (0, uarg (zlen p), d') /\ HW exact false [] a (on_sim (sw_set_drv d') w).
Proof.
  intros d (f & Ht & [Hd Hg Hb Hh Hl Hf] & He & _) Hcopy Hroom Hc Hpay. fold d in Hd, Hg, Hh, Hl, Hf.
  destruct (produce_runs d p Hd Hroom) as (d' & Hdo & Hd' & Hstep).
  unfold port_do in Hdo. rewrite Hcopy in Hdo. cbn [mbind option_bind] in Hdo. unfold ioctl_on in Hdo.
  change (adv_proc_ioctl (set_tx (K.set_data m (tx d)) d) ADVVCOM_IOCSTXTAIL (uarg (zlen p))) with
    (d' ← adv_uart_recv_chars (set_tx (move_rb_tail (K.set_data m (tx d)) (zlen p)) d);
     Some (0, uarg (zlen p), d')) in *.
  destruct (adv_uart_recv_chars _) as [d2|] eqn:Hr; [|done]. injection Hdo as ->.
  exists d'. split; [done|].
  pose proof (recv_chars_fixed _ _ Hr) as ((Hhd & Hbx & Hsx) & (_ & Hbt & Hst) & Ha). simpl in *.
  assert (Hup : contents (rx d') = contents (rx d)).
  { exact (produce_up _ _ _ Hstep). }
  assert (Hok' : ring_ok (rx d')) by apply Hd'. assert (Hok : ring_ok (rx d)) by apply Hd.
  destruct Hg as (? & ? & ? & ? & ?).
  exists f. split_and!; try done; [| |apply mode_stale].
  - eapply (trace_step _ _ _ _ _ _ (E_data q)); [exact Ht| |by rewrite app_nil_r..|by rewrite app_nil_r].
    destruct (pipe_step_streams (O_produce p) _ _ Hstep eq_refl) as (Hdn & Hu & _).
    simpl in Hdn, Hu. rewrite app_nil_r in Hdn. rewrite zdrop_0 in Hu.
    unfold link_with. cbn [on_sim lw sw_drv sw_set_drv]. rewrite Hdn, Hu, <- Hpay.
    by apply (LS_data q (mk_link _ _ _)).
  - constructor; try done; simpl.
    + unfold geometry. split_and!; congruence.
    + congruence.
    + by rewrite <- (contents_length (rx d')), Hup, contents_length by done.
    + by rewrite Hup.
Qed.

(** The packet in the buffer is what was received. *)
Definition received (buf q : list byte) : Prop :=
  exists x, get16 off_len buf = Some x /\ load 0 (off_data + x) buf = Some q.

Lemma received_cmd buf q : received buf q -> pkt_cmd q = get16 off_cmd buf.
Proof.
  intros (x & Hx & Hq). assert (0 <= x).
  { unfold get16 in Hx. destruct (load off_len 2 buf); [|done]. injection Hx as <-. apply be_val_nonneg. }
  assert (Hlen : off_data + x <= zlen buf).
  { unfold load in Hq. case_if in Hq; [|done]. destruct_and?. bool_simpl. lia. }
  unfold off_data in *. rewrite load_Some in Hq by lia. injection Hq as <-. rewrite zdrop_0.
  unfold pkt_cmd, get16. rewrite (load_ztake_app off_cmd 2 (20 + x) buf []) by (unfold off_cmd; lia).
  by rewrite app_nil_r.
Qed.

Lemma received_payload buf q x :
  received buf q -> get16 off_len buf = Some x -> load off_data x buf = Some (pkt_payload q) /\ zlen (pkt_payload q) = x.
Proof.
  intros (x' & Hx' & Hq) Hx. rewrite Hx in Hx'. injection Hx' as <-.
  assert (Hp : 0 <= x).
  { unfold get16 in Hx. destruct (load off_len 2 buf); [|done]. injection Hx as <-. apply be_val_nonneg. }
  destruct (load_split 0 (off_data + x) buf q off_data Hq) as [_ Hl]; [unfold off_data; lia|].
  rewrite Z.add_0_l in Hl. replace (off_data + x - off_data) with x in Hl by lia.
  split; [exact Hl|by apply load_zlen in Hl].
Qed.

Lemma wlp_recv_dataready fr q n buf len s :
  H exact fr q s -> m_fresh fr = true -> received buf q -> pkt_cmd q = Some VCOM_CMD_DATAREADY ->
  zlen buf = 4096 ->
  wlp (recv_dataready (dispatch n) buf len) s (fun _ => H exact false []).
Proof.
  intros Hs Hfr Hrec Hc Hz. unfold recv_dataready. apply wlp_bind, wlp_gets. cbv zeta.
  apply wlp_bind, wlp_lift. intros [c od] Hck.
  assert (Hbad : wlp (excp_init (dispatch n)) s (fun _ => H exact false [])).
  { apply keeps_excp_down; [apply reset_exact|]. by eapply HW_flush, HW_stale. }
  destruct c; [|exact Hbad..]. destruct od as [x|]; [|exact Hbad].
  destruct (check_recv_total buf len Hz) as (r & Hr & Hd). rewrite Hck in Hr. injection Hr as <-.
  destruct (Hd x eq_refl) as [Hx _]. destruct (received_payload _ _ _ Hrec Hx) as [Hp Hzp].
  apply wlp_if; intros Hroom; bool_simpl; [exact Hbad|].
  set (p := pkt_payload q) in *. destruct Hzp. apply wlp_bind.
  eapply wlp_mono; [by apply (wlp_copy_payload fr q)|]. cbv beta zeta. intros _ s1 (m & Hcopy & Hm & ->).
  destruct (HW_okb _ _ _ _ _ _ _ Hs) as [_ Hokb].
  assert (Hr : zlen p <= get_rb_room (tx (sw_drv (lw (world s))))).
  { destruct Hs as (f & _ & _ & _ & Hm' & _). destruct (Hm' Hfr) as [_ ?]. lia. }
  destruct (HW_produce fr q _ _ p m Hs Hcopy Hr Hc eq_refl) as (d' & Hi & H').
  apply wlp_bind. eapply wlp_set_exact; [reflexivity| |exact Hi|].
  { by apply okb_set_tx. }
  by apply (keeps_curnt L0 w0 exact false []).
Qed.

(** ** A packet *)

Lemma wlp_common_recv `{TlsMode} (b : bool) q n st buf len o s :
  base st -> G [S_netdown; st] true o s -> H exact b q s -> received buf q -> zlen buf = 4096 ->
  (pkt_cmd q = Some VCOM_CMD_DATAREADY -> b = true) ->
  wlp (vc_common_recv (dispatch (S n)) buf len) s (fun _ => H exact false []).
Proof.
  intros Hb Hg Hs Hrec Hz Hfr. pose proof (received_cmd _ _ Hrec) as Hcmd.
  assert (Hq : H exact false [] s) by (by eapply HW_flush, HW_stale).
  pose proof (keeps_excp_down L0 w0 exact false [] (reset_exact _ _ _ _) (S n) s Hq) as Hbad.
  pose proof (keeps_curnt L0 w0 exact false [] s Hq) as Hcur.
  unfold vc_common_recv. apply wlp_if; intros _; [exact Hbad|].
  apply wlp_bind, wlp_lift. intros cmd Hc. rewrite Hc in Hcmd. apply wlp_if; intros E0; bool_simpl.
  { apply wlp_bind, wlp_gets, wlp_bind, wlp_gets, wlp_bind, wlp_lift. intros c _.
    by apply wlp_if; intros _. }
  apply wlp_if; intros E1; bool_simpl.
  { unfold vc_check_ioctl. apply wlp_bind, wlp_if; intros _.
    { by apply wlp_ret, wlp_if; intros _. }
    eapply wlp_mono; [eapply (wlp_check_ioctl_ret L0 w0 exact false [] (reset_exact _ _ _ _) n st); [done|exact Hg|exact Hq]|].
    cbv beta. intros c s1 H1. apply wlp_if; intros _; [by apply keeps_excp_down; [apply reset_exact|]|by apply keeps_curnt]. }
  apply wlp_if; intros E2; bool_simpl; [subst; by apply (wlp_recv_dataready b q); [|apply Hfr|..]|].
  apply wlp_if; intros E3; bool_simpl; [subst; by apply (wlp_recv_write b q)|exact Hcur].
Qed.
End events.
