(* ===== verification/LiveRecv.v ===== *)
(** * Operations and receiving, in step

    Every operation the main loop calls, in whatever state is on top, and
    receiving a packet, over TCP or TLS, keep daemon and driver in step. *)

From stdpp Require Import gmap.
From S2P Require Import Prelude RingBuf Tty Uart DrvMain Proto Os SslSelect SimWorld Vcom Connect.
From S2P Require Import Client ClientProofs SimLaws ClientInv MainLoop MainProofs System.
From S2P Require Import Link LiveWorld LiveInv LiveOps LiveClient LiveEvents.

Section ops.
Context (L0 : link) (w0 : live_world) `{TlsMode}.
Implicit Types s : St live_world.
Local Abbreviation H := (H L0 w0).
Local Abbreviation P0 := (H exact false []).

Lemma keeps_init0 n : keeps P0 (dispatch n OpInit).
Proof. apply keeps_init, reset_exact. Qed.
Lemma keeps_excp0 n : keeps P0 (excp_init (dispatch n)).
Proof. apply keeps_excp_down, reset_exact. Qed.

(** Closing ends in Net Down, where nothing is in flight. *)
Lemma wlp_purge_close n l o s :
  G (S_netdown :: l) true o s -> P0 s -> wlp (purge_close (dispatch (S n))) s (fun _ => P0).
Proof.
  intros Hg Hs. eapply wlp_mono; [apply wlp_and|].
  - apply wlp_wp, (wp_purge_close n l o s (fun _ => Down)); [exact Hg|done].
  - instantiate (1 := fun _ => H closing false []). unfold purge_close. apply wlp_bind.
    eapply wlp_mono; [by eapply wlp_buf_clear|]. cbv beta. intros _ s1 H1.
    wlp_run keeps_common_purge. intros _ s2 H2.
    by apply keeps_common_close; [apply keeps_init, reset_closing|].
  - cbv beta. intros _ s' [(_ & _ & Hp & _) H']. by apply closing_exact.
Qed.

Lemma wlp_idle_poll n l o s :
  G (S_netdown :: l) true o s -> P0 s -> wlp (vc_idle_poll (dispatch (S n))) s (fun _ => P0).
Proof.
  intros Hg Hs. unfold vc_idle_poll. apply wlp_bind.
  eapply wlp_mono; [apply wlp_and; [by eapply wlp_buf_clear|]|].
  { apply wlp_wp, (wp_buf_clear _ (S_netdown :: l) true o _ (fun _ => G (S_netdown :: l) true o)); done. }
  cbv beta. intros _ s1 [H1 Hg1]. eapply wlp_mono; [apply wlp_and|].
  - apply wlp_wp, (wp_excp_init n l true o s1 (fun _ => Down)); done.
  - apply (keeps_excp_down L0 w0 closing false [] (reset_closing _ _ _ _)). exact H1.
  - cbv beta. intros _ s' [(_ & _ & Hp & _) H']. by apply closing_exact.
Qed.

Lemma wlp_netdown_close s : Down s -> P0 s -> wlp vc_netdown_close s (fun _ => P0).
Proof.
  intros (_ & _ & Hp & _) Hs. unfold vc_netdown_close. apply wlp_bind.
  eapply wlp_mono; [by eapply wlp_buf_clear_idle|]. cbv beta. intros _ s1 [H1 _].
  wlp_run keeps_drop_socket. intros _ s2 H2. by apply wlp_ret.
Qed.

(** The TLS handshake of [vc_netdown_open]. *)
Lemma keeps_tls_start x :
  keeps P0 (upd_ssl (set_ssl_conn x true);;
      sys_ SSL_new;;
      r ← ssl_call (fun w => SSL_set_fd w x);
      if r =? 0 then mret false else
      _ ← __set_nonblock x;
      r ← ssl_connect_simple 1000;
      if negb (r =? 1) then _stk_log;; mret false else mret true).
Proof. keeps_tac. Qed.

Lemma wlp_netdown_open n s :
  Down s -> P0 s -> wlp (vc_netdown_open (dispatch (S n))) s (fun _ => P0).
Proof.
  intros Hd Hs. pose proof Hd as (Hg & _ & Hp & _). unfold vc_netdown_open. apply wlp_bind.
  eapply wlp_mono; [apply wlp_and; [by apply (keeps_vc_connect L0 w0 exact false [])|]|].
  { apply wlp_wp, (wp_vc_connect (open_fds (world s)) False ltac:(done) s (fun _ => same_port s));
      [done|by eapply G_loggable|done|done]. }
  cbv beta. intros x s1 [H1 Hsp]. pose proof (Down_same_port _ _ Hsp Hd) as (Hg1 & _ & Hp1 & _).
  apply wlp_if; intros Hx; bool_simpl.
  { apply wlp_bind. eapply wlp_mono; [by eapply wlp_buf_clear_idle|]. cbv beta. intros _ s2 [H2 _].
    apply wlp_bind, wlp_modify, wlp_ret. by apply (HW_cached _ _ _ _ _ (at_ s2)). }
  apply wlp_bind, wlp_modify, wlp_bind, wlp_gets. cbn [at_ ssl set_sk].
  assert (H2 : P0 (mk_st (set_sk x (at_ s1)) (world s1) (pre_excp_t s1) (rbuf s1)))
    by (by apply (HW_cached _ _ _ _ _ (at_ s1))).
  assert (Hpush : forall (ok : bool) s2, G [S_netdown] true 0 s2 /\ P0 s2 ->
    wlp (if negb ok then dispatch (S n) OpInit else
         tx ← gets utx;
         _ ← stk_push (if is_rb_empty tx then S_netup else S_pause);
         dispatch (S n) OpOpen) s2 (fun _ => P0)).
  { intros ok s2 [Hg2 H3]. apply wlp_if; intros _; [by apply keeps_init0|].
    apply wlp_bind, wlp_gets. set (b := if is_rb_empty _ then _ else _).
    assert (Hb : base b) by (unfold b, base; destruct (is_rb_empty _); auto). apply wlp_bind.
    eapply wlp_mono; [apply wlp_and; [by apply (keeps_push L0 w0 exact false [] b)|]|].
    - apply wlp_wp, (wp_push [S_netdown] b true 0 s2 (fun _ => G [S_netdown; b] true 0)); [exact Hg2|simpl; lia|done].
    - cbv beta. intros _ s3 [H4 Hg4]. eapply wlp_open_base; [apply reset_exact|exact Hb|exact Hg4|exact H4]. }
  apply wlp_bind. destruct (ssl (at_ s1)) as [i|] eqn:Hi.
  - eapply wlp_mono; [apply wlp_and; [|by apply (keeps_tls_start x)]|cbv beta; apply Hpush].
    apply wlp_wp, (wp_tls_start x s1 i (fun _ => G [S_netdown] true 0)); done.
  - apply wlp_ret, Hpush. split; [|done]. destruct Hg1 as [? ? ? [? ?] ? ? ? ?]. constructor; try done.
    split; [done|]. simpl. by rewrite Hi.
Qed.

(** ** The operations of the main loop *)

(** What the loop makes sure of before it calls an operation. *)
Definition op_ready (o : vc_op) s : Prop :=
  match o with
  | OpRecv buf _ => zlen buf = 4096 /\ exists (b : bool) q, H exact b q s /\ received buf q /\
      (pkt_cmd q = Some VCOM_CMD_DATAREADY -> b = true)
  | OpXmit => P0 s /\ xmit_pending (at_ s) = 0 /\ is_rb_empty (urx (at_ s)) = false
  | OpInit => False
  | _ => P0 s
  end.

Lemma wlp_base_op n st o s m :
  base st -> G [S_netdown; st] true 1 s -> op_ready o s ->
  handler (dispatch (S n)) st o = Some m -> wlp m s (fun _ => P0).
Proof.
  intros Hb Hg Ho Hh. destruct o; cbn [op_ready] in Ho.
  - assert (E : handler (dispatch (S n)) st OpOpen = Some (vc_common_open (dispatch (S n))))
      by (by destruct Hb as [-> | ->]). rewrite E in Hh. apply (inj Some) in Hh as <-.
    by apply keeps_common_open; [apply keeps_init0|].
  - assert (E : handler (dispatch (S n)) st OpClose = Some (purge_close (dispatch (S n))))
      by (by destruct Hb as [-> | ->]). rewrite E in Hh. apply (inj Some) in Hh as <-.
    by eapply wlp_purge_close.
  - assert (E : handler (dispatch (S n)) st OpIoctl = Some (vc_common_ioctl (dispatch (S n))))
      by (by destruct Hb as [-> | ->]). rewrite E in Hh. apply (inj Some) in Hh as <-.
    by apply keeps_common_ioctl; [apply keeps_init0|].
  - assert (E : handler (dispatch (S n)) st OpXmit = Some (vc_common_xmit (dispatch (S n))))
      by (by destruct Hb as [-> | ->]). rewrite E in Hh. apply (inj Some) in Hh as <-.
    destruct Ho as (Hs & Hp & He). by apply (wlp_common_xmit L0 w0 false).
  - assert (E : handler (dispatch (S n)) st (OpRecv buf len) = Some (vc_common_recv (dispatch (S n)) buf len))
      by (by destruct Hb as [-> | ->]). rewrite E in Hh. apply (inj Some) in Hh as <-.
    destruct Ho as (Hz & b & q & Hs & Hr & Hd). by eapply wlp_common_recv.
  - destruct (keeps_poll L0 w0 exact false [] (reset_exact _ _ _ _) (S n)) as [H1 H2].
    destruct Hb as [-> | ->]; apply (inj Some) in Hh as <-; [by apply H1|by apply H2].
  - done.
  - destruct Hb as [-> | ->]; [|done]. apply (inj Some) in Hh as <-. by apply keeps_pause; [apply reset_exact|].
  - destruct Hb as [-> | ->]; [done|]. apply (inj Some) in Hh as <-. by apply keeps_resume; [apply reset_exact|].
Qed.

Lemma op_ready_stack o s s' :
  cached (at_ s') = cached (at_ s) -> world s' = world s -> op_ready o s -> op_ready o s'.
Proof.
  intros Ec Ew. assert (Hk : forall ph m q, H ph m q s -> H ph m q s').
  { intros ph m q Hs. unfold LiveInv.H. rewrite Ew. by eapply HW_cached. }
  destruct o; simpl; try apply Hk; [|intros (Hz & b & q & Hs & Hr); eauto 6|done].
  injection Ec as _ E1 _ _ E2. rewrite E1, E2. intros (Hs & ?). auto.
Qed.

Lemma wlp_pop_idle st s : G [S_netdown; st; S_idle] true 1 s ->
  wlp stk_pop s (fun _ s' => G [S_netdown; st] true 1 s' /\ cached (at_ s') = cached (at_ s) /\ world s' = world s).
Proof.
  intros Hg. eapply wlp_mono; [apply wlp_and|].
  - apply wlp_wp, (wp_pop [S_netdown; st] S_idle true 1 s (fun _ => G [S_netdown; st] true 1)); done.
  - instantiate (1 := fun _ s' => cached (at_ s') = cached (at_ s) /\ world s' = world s).
    unfold stk_pop. apply wlp_bind, wlp_gets, wlp_if; intros _; [by apply wlp_ret|].
    by apply wlp_bind, wlp_modify, wlp_ret.
  - cbv beta. tauto.
Qed.

Lemma wlp_idle_op n st o s m :
  base st -> G [S_netdown; st; S_idle] true 1 s -> op_ready o s ->
  handler (dispatch (S (S n))) S_idle o = Some m -> wlp m s (fun _ => P0).
Proof.
  intros Hb Hg Ho Hh. destruct o; try done.
  - apply (inj Some) in Hh as <-. unfold vc_idle_open. apply wlp_bind.
    eapply wlp_mono; [by apply (wlp_pop_idle st)|]. cbv beta. intros _ s1 (Hg1 & Ec & Ew).
    eapply wlp_open_base; [apply reset_exact|exact Hb|exact Hg1|].
    exact (op_ready_stack OpOpen s s1 Ec Ew Ho).
  - apply (inj Some) in Hh as <-. by eapply wlp_purge_close.
  - apply (inj Some) in Hh as <-. unfold vc_idle_recv. apply wlp_bind.
    eapply wlp_mono; [by apply (wlp_pop_idle st)|]. cbv beta. intros _ s1 (Hg1 & Ec & Ew).
    rewrite dispatch_S. apply wlp_bind, wlp_wp. eapply (wp_curnt [S_netdown] st); [exact Hg1|].
    destruct (handler (dispatch (S n)) st (OpRecv buf len)) as [m|] eqn:Hm; [|done].
    eapply (wlp_base_op n st (OpRecv buf len)); [exact Hb|exact Hg1| |exact Hm].
    by apply (op_ready_stack _ s).
  - apply (inj Some) in Hh as <-. by eapply wlp_idle_poll.
Qed.

Lemma wlp_down_op n o s m :
  Down s -> op_ready o s -> handler (dispatch (S n)) S_netdown o = Some m -> wlp m s (fun _ => P0).
Proof.
  intros Hd Ho Hh. destruct o; try done.
  - apply (inj Some) in Hh as <-. by apply wlp_netdown_open.
  - apply (inj Some) in Hh as <-. by apply wlp_netdown_close.
Qed.

(** The operation of whatever state is on top, or [X] when it has none. *)
Lemma wlp_on_top n o X s :
  Inv s -> op_ready o s -> (forall st, wlp (X st) s (fun _ => P0)) ->
  wlp (st ← stk_curnt; match handler (dispatch (S (S n))) st o with Some m => m | None => X st end) s
    (fun _ => P0).
Proof.
  intros Hi Ho HX. apply wlp_bind, wlp_wp. destruct Hi as [Hd|(b & Hb & [Hg|Hg])].
  - eapply (wp_curnt [] S_netdown); [apply Hd|].
    destruct (handler _ S_netdown o) eqn:Hh; [|apply HX]. by eapply wlp_down_op.
  - eapply (wp_curnt [S_netdown] b); [exact Hg|].
    destruct (handler _ b o) eqn:Hh; [|apply HX]. by eapply wlp_base_op.
  - eapply (wp_curnt [S_netdown; b] S_idle); [exact Hg|].
    destruct (handler _ S_idle o) eqn:Hh; [|apply HX]. by eapply wlp_idle_op.
Qed.

Lemma op_ready_flush o s : op_ready o s -> P0 s.
Proof.
  destruct o; simpl; try done; [tauto|]. intros (_ & b & q & Hs & _). by eapply HW_flush, HW_stale.
Qed.

Lemma wlp_try_op o s : Inv s -> op_ready o s -> wlp (try_op o) s (fun _ => P0).
Proof.
  intros Hi Ho. apply (wlp_on_top 6 o); [done|done|]. intros st. apply wlp_ret. by eapply op_ready_flush.
Qed.

Lemma wlp_call_op o s : Inv s -> op_ready o s -> wlp (call_op o) s (fun _ => P0).
Proof. intros Hi Ho. apply (wlp_on_top 5 o (fun _ => fault)); done. Qed.
End ops.

(** ** Receiving *)

Section recv.
Context (L0 : link) (w0 : live_world) `{TlsMode}.
Implicit Types s : St live_world.
Local Abbreviation H := (H L0 w0).
Local Abbreviation P0 := (H exact false []).

(** The bytes a read delivers, if any, wait to be acted upon. *)
Definition got (b : mode) (q : list byte) (r : Z * list byte) s : Prop :=
  if 0 <? fst r then zlen (snd r) = fst r /\ H exact b (q ++ snd r) s else H exact b q s.

Lemma wlp_live_recv (f : sim_world -> Z * list byte * sim_world) b q s :
  (forall u, sw_drv (snd (f u)) = sw_drv u /\ sw_out (snd (f u)) = sw_out u) ->
  (forall u r bs u', f u = (r, bs, u') -> 0 < r -> zlen bs = r) ->
  H exact b q s -> wlp (sys (live_recv f)) s (fun r s' => rbuf s' = rbuf s /\ got b q r s').
Proof.
  intros Hf Hl Hs. apply wlp_sys. intros [r bs] w Hr. apply live_recv_inv in Hr as (u & Hu & ->).
  split; [done|]. unfold got. cbn [fst snd]. specialize (Hf (lw (tick (world s)))). rewrite Hu in Hf.
  destruct Hf as [Hd Ho]. pose proof (HW_tick _ _ _ _ _ _ _ Hs) as Ht.
  assert (Ht' : HW L0 w0 exact b q (at_ s) (on_sim (fun _ => u) (tick (world s)))).
  { eapply HW_core; [|exact Ht]. unfold core. simpl in *. by rewrite Hd, Ho. }
  destruct (0 <? r) eqn:Hpos; bool_simpl.
  - split; [by eapply Hl|]. by apply HW_got.
  - eapply HW_core; [|exact Ht']. unfold core, got_bytes. simpl. by rewrite (proj2 (Z.ltb_ge _ _)).
Qed.

Lemma sim_recv_keeps u x n : sw_drv (snd (sim_recv u x n)) = sw_drv u /\ sw_out (snd (sim_recv u x n)) = sw_out u.
Proof. unfold sim_recv. destruct (sw_in u); [done|]. by case_if. Qed.

Lemma sim_recv_len u x n r bs u' : sim_recv u x n = (r, bs, u') -> 0 < r -> zlen bs = r.
Proof. intros Hr Hp. exact (proj2 (recv_length u x n r bs u' Hr Hp)). Qed.

(** A piece stored in the buffer. *)
Definition stored (b : mode) (q : list byte) (off : Z) s (r : Z) s' : Prop :=
  if 0 <? r then exists bs, zlen bs = r /\ store off bs (rbuf s) = Some (rbuf s') /\ H exact b (q ++ bs) s'
  else rbuf s' = rbuf s /\ H exact b q s'.

Lemma wlp_store b q off r bs s s1 :
  rbuf s1 = rbuf s -> got b q (r, bs) s1 ->
  wlp (when (0 <? r) (rbuf_store off bs);; mret r) s1 (stored b q off s).
Proof.
  intros E Hg. unfold got, stored in *. cbn [fst snd] in Hg. apply wlp_bind.
  destruct (0 <? r) eqn:Hr; cbn [when]; [|apply wlp_ret, wlp_ret; by rewrite Hr].
  unfold wlp, rbuf_store. rewrite E. destruct (store off bs (rbuf s)) as [m|] eqn:Hst; [|done].
  simpl. rewrite Hr. destruct Hg as [Hz Hg]. eauto.
Qed.

Lemma wlp_recv_into b q x off n s :
  H exact b q s -> wlp (recv_into x off n) s (stored b q off s).
Proof.
  intros Hs. unfold recv_into. apply wlp_bind. eapply wlp_mono.
  { apply (wlp_live_recv (fun u => sim_recv u x n)); [intros u; apply sim_recv_keeps| |exact Hs].
    intros u r bs u'. apply sim_recv_len. }
  cbv beta. intros [r bs] s1 [E Hg]. by apply wlp_store.
Qed.

Lemma wlp_recv_direct b q n s :
  H exact b q s -> wlp (ssl_recv_direct n) s (got b q).
Proof.
  intros Hs. unfold ssl_recv_direct, ssl_direct. wlp_run keeps_upd_ssl. intros _ s1 H1. apply wlp_bind.
  unfold ssl_call. wlp_run keeps_get_ssl. intros i s2 H2. apply wlp_if; intros _; [|done].
  eapply wlp_mono.
  { apply (wlp_live_recv (fun u => sim_recv u 0 n)); [intros u; apply sim_recv_keeps| |exact H2].
    intros u r bs u'. apply sim_recv_len. }
  cbv beta. intros [r bs] s3 [_ Hg]. apply wlp_if; intros Hr; [by apply wlp_ret|].
  unfold got, positive in *. cbn [fst snd] in *. rewrite Hr in Hg. apply wlp_bind, wlp_get_world, wlp_bind.
  unfold _do_ssl_update_wait_event. simpl SSL_get_error.
  apply wlp_if; intros E; [done|]. apply wlp_if; intros E'; [done|]. by apply wlp_ret, wlp_ret.
Qed.

Lemma wlp_recv_simple b q n to s :
  H exact b q s -> wlp (ssl_recv_simple n to) s (got b q).
Proof.
  unfold ssl_recv_simple, ssl_simple. intros Hs. apply wlp_bind, wlp_get_world.
  generalize (S (ssl_work (world s))) as k. intros k. generalize (ms_tv to) as tv. revert s Hs.
  induction k as [|k IH]; intros s Hs tv; cbn [ssl_simple_tv]; [done|].
  wlp_run wlp_recv_direct. intros r s1 H1.
  apply wlp_if; intros Hp; [by apply wlp_ret|]. apply wlp_if; intros _; [by apply wlp_ret|].
  unfold got, positive in *. rewrite Hp in H1.
  apply wlp_bind. eapply wlp_mono; [by apply (keeps_get_ssl L0 w0 exact b q)|]. cbv beta. intros i s2 H2.
  destruct (ssl_set_fds i 0 [] []) as [[mx rs] ws]. apply wlp_bind.
  eapply wlp_mono; [apply (keeps_sys L0 w0 exact b q (fun w => sys_select w rs ws [] tv)); [done|exact H2]|].
  cbv beta. intros [[c sets] tv'] s3 H3. apply wlp_if; intros _; [by apply IH|].
  apply wlp_ret. by rewrite Hp.
Qed.

(** The TLS reads leave the buffer alone. *)
Lemma wlp_ssl_into b q off n m l o s :
  reads_len m n -> (forall s, H exact b q s -> wlp m s (got b q)) ->
  G l true o s -> tls_on = true -> H exact b q s -> wlp (ssl_into off m) s (stored b q off s).
Proof.
  intros Hr Hm Hg Ht Hs. unfold ssl_into. apply wlp_bind.
  destruct (ssl (at_ s)) as [i|] eqn:Hi; [|pose proof (G_tls _ _ _ _ Hg) as E; rewrite Hi in E; congruence].
  eapply wlp_mono; [apply wlp_and; [apply wlp_wp, Hr; by eapply G_ssl_ready|by apply Hm]|]. cbv beta.
  intros [r bs] s1 [[Hf _] H1]. apply wlp_store; [|done]. by destruct Hf as (? & ? & ? & ? & ? & ? & ? & ?).
Qed.

(** What a whole read has brought: all of it, or the connection is lost. *)
Definition brought (b : mode) (q : list byte) (off n : Z) (r : Z) s' : Prop :=
  if r <=? 0 then exists q', H exact b q' s'
  else exists bs, load off n (rbuf s') = Some bs /\ H exact b (q ++ bs) s'.

Lemma stored_some b q off s r s' : stored b q off s r s' -> exists q', H exact b q' s'.
Proof. unfold stored. destruct (0 <? r); [intros (bs & _ & _ & ?)|intros [_ ?]]; eauto. Qed.

Lemma stored_brought b q off s n s' : stored b q off s n s' -> 0 < n -> brought b q off n n s'.
Proof.
  unfold stored, brought. intros Hs Hn. rewrite (proj2 (Z.ltb_lt _ _)) in Hs by done.
  rewrite (proj2 (Z.leb_gt _ _)) by done. destruct Hs as (bs & <- & Hst & H1).
  exists bs. split; [by eapply load_store_eq|done].
Qed.

(** A first piece that is too short, and a second one. *)
Lemma wlp_second b q off n r m s s1 :
  stored b q off s r s1 -> 0 < r < n ->
  (forall q', H exact b q' s1 -> wlp m s1 (stored b q' (off + r) s1)) ->
  wlp m s1 (fun more s2 => (exists q', H exact b q' s2) /\ (r + more = n -> brought b q off n n s2)).
Proof.
  intros Hst Hr Hm. unfold stored in Hst at 1. rewrite (proj2 (Z.ltb_lt _ _)) in Hst by lia.
  destruct Hst as (bs & Hz & Hs1 & H1). eapply wlp_mono; [by apply Hm|]. cbv beta. intros more s2 H2.
  split; [by eapply stored_some|]. intros Hn. unfold stored, brought in *.
  rewrite (proj2 (Z.ltb_lt _ _)) in H2 by lia. rewrite (proj2 (Z.leb_gt _ _)) by lia.
  destruct H2 as (bs2 & Hz2 & Hs2 & H2). exists (bs ++ bs2). rewrite <- app_assoc in H2. split; [|done].
  subst r more. rewrite <- Hn. by eapply load_store_two.
Qed.

Lemma wlp_frame_recv_tcp b q off n s :
  H exact b q s -> wlp (vc_frame_recv_tcp off n) s (brought b q off n).
Proof.
  intros Hs. unfold vc_frame_recv_tcp. apply wlp_bind, wlp_gets. wlp_run wlp_recv_into. intros r s1 H1.
  assert (Hbad : forall c s', c <= 0 -> (exists q', H exact b q' s') -> brought b q off n c s').
  { intros c s' Hc Hq. unfold brought. by rewrite (proj2 (Z.leb_le _ _)). }
  pose proof (stored_some _ _ _ _ _ _ H1) as Hq1.
  apply wlp_if; intros E1; bool_simpl; [apply wlp_ret, Hbad; [lia|done]|].
  apply wlp_if; intros E2; bool_simpl; [subst; apply wlp_ret; by eapply stored_brought|].
  apply wlp_if; intros E3; bool_simpl; [|apply wlp_ret, Hbad; [lia|done]].
  apply wlp_bind. eapply wlp_mono; [apply (wlp_second b q off n r _ s s1 H1); [lia|]|].
  - intros q' H2. unfold recv_second_chance. apply wlp_bind.
    eapply wlp_mono; [apply wlp_and|].
    + apply (keeps_sys L0 w0 exact b q' (fun w => sys_select w [sk (at_ s)] [] [] 10000)); [done|exact H2].
    + instantiate (1 := fun _ s' => rbuf s' = rbuf s1). by apply wlp_sys.
    + cbv beta. intros [[c sets] tv] s2 [H3 E]. unfold stored. rewrite <- E.
      apply wlp_if; intros _; [by apply wlp_ret|by apply wlp_recv_into].
  - cbv beta zeta. intros more s2 [Hq2 H2]. apply wlp_if; intros E; bool_simpl; apply wlp_ret.
    + rewrite E. by apply H2.
    + by apply Hbad.
Qed.

Lemma wlp_frame_recv_ssl b q off n l o s :
  G l true o s -> tls_on = true -> 0 <= off -> off + n <= 4096 -> H exact b q s ->
  wlp (vc_frame_recv_ssl off n) s (brought b q off n).
Proof.
  intros Hg Ht Hoff Hend Hs. unfold vc_frame_recv_ssl. cbv zeta. apply wlp_bind.
  eapply wlp_mono; [apply wlp_and|].
  { apply wlp_wp, (wp_ssl_into _ off n l o s (fun _ => G l true o)); [apply recv_direct_reads|done..]. }
  { eapply (wlp_ssl_into b q off n); [apply recv_direct_reads| |exact Hg|done|exact Hs]. intros. by apply wlp_recv_direct. }
  cbv beta. intros r s1 [Hg1 H1]. pose proof (stored_some _ _ _ _ _ _ H1) as Hq1.
  assert (Hfail : forall s', (exists q', H exact b q' s') ->
    wlp (_stk_log;; mret SSL_OPS_FAIL) s' (brought b q off n)).
  { intros s' [q' Hq]. apply wlp_bind. eapply wlp_mono; [by apply (keeps_log L0 w0 exact b q')|].
    cbv beta. intros _ s2 H2. apply wlp_ret. by exists q'. }
  apply wlp_if; intros E0; bool_simpl; [apply wlp_ret; rewrite E0; exact Hq1|].
  apply wlp_if; intros E1; bool_simpl; [by apply Hfail|].
  apply wlp_if; intros E2; bool_simpl; [subst; apply wlp_ret; by eapply stored_brought|].
  apply wlp_if; intros E3; bool_simpl; [|by apply Hfail].
  apply wlp_bind. eapply wlp_mono; [apply (wlp_second b q off n r _ s s1 H1); [lia|]|].
  - intros q' H2. eapply (wlp_ssl_into b q' _ (n - r)); [apply recv_simple_reads| |exact Hg1|done|exact H2].
    intros. by apply wlp_recv_simple.
  - cbv beta zeta. intros more s2 [Hq2 H2]. apply wlp_if; intros E; bool_simpl; [|by apply Hfail].
    apply wlp_ret. rewrite E. by apply H2.
Qed.

(** The payload, when the header announces one. *)
Lemma wlp_recv_body (tls : option ssl_info) n b q l s :
  G (S_netdown :: l) true 1 s -> (tls <> None <-> tls_on = true) -> 0 <= n -> H exact b q s ->
  wlp (recv_body tls n) s (fun ok s' =>
    if (ok : bool) then exists bs, load hdr_len n (rbuf s') = Some bs /\ H exact b (q ++ bs) s'
    else exists q', H exact b q' s').
Proof.
  intros Hg Htls Hn Hs. unfold recv_body. apply wlp_if; intros Hpos; bool_simpl.
  2:{ apply wlp_ret. exists []. rewrite app_nil_r. split; [|done].
      pose proof (G_rbuf _ _ _ _ Hg). replace n with 0 by lia. change hdr_len with 20. by rewrite load_Some by lia. }
  apply wlp_if; intros Hbig; bool_simpl; [apply wlp_ret; eauto|].
  change (RBUF_SIZE - hdr_len) with 4076 in Hbig. destruct tls as [i|]; apply wlp_bind.
  - eapply wlp_mono; [eapply wlp_frame_recv_ssl; [exact Hg|by apply Htls|by vm_compute|change hdr_len with 20; lia|exact Hs]|].
    cbv beta. intros r s1 H1. apply wlp_ret. unfold brought in H1. by destruct (r <=? 0).
  - eapply wlp_mono; [apply wlp_and; [|by apply (wlp_frame_recv_tcp b q hdr_len n)]|].
    + apply wlp_wp, (wp_frame_recv_tcp hdr_len n (S_netdown :: l) true 1 s (fun r _ => r < 0 \/ r = n)); [exact Hg|by vm_compute|change hdr_len with 20; lia|done].
    + cbv beta. intros r s1 [Hr H1]. apply wlp_ret. unfold brought in H1.
      destruct Hr as [Hr| ->].
      * rewrite (proj2 (Z.leb_le _ _)) in H1 by lia. by rewrite (proj2 (Z.ltb_lt _ _)).
      * rewrite (proj2 (Z.leb_gt _ _)) in H1 by lia. by rewrite (proj2 (Z.ltb_ge _ _)) by lia.
Qed.

Lemma wlp_lost b q s : H exact b q s -> wlp lost s (fun _ => P0).
Proof. intros Hs. apply keeps_excp0. by eapply HW_flush, HW_stale. Qed.

Lemma wlp_recv_payload (tls : option ssl_info) n (b : bool) q l s :
  up_stack l -> G (S_netdown :: l) true 1 s -> (tls <> None <-> tls_on = true) ->
  load 0 hdr_len (rbuf s) = Some q -> get16 off_len (rbuf s) = Some n -> H exact b q s ->
  (get16 off_cmd (rbuf s) = Some VCOM_CMD_DATAREADY -> b = true) ->
  wlp (recv_payload tls n) s (fun _ => P0).
Proof.
  intros Hup Hg Htls Hq Hn Hs Hb. unfold recv_payload.
  apply wlp_if; intros Hneg; bool_simpl; [by eapply wlp_lost|]. apply wlp_bind.
  eapply wlp_mono; [apply wlp_and|].
  { apply wlp_wp, (wp_recv_body tls n l s (fun _ s' => G (S_netdown :: l) true 1 s' /\ below 20 s s')); auto. }
  { eapply wlp_recv_body; [exact Hg|exact Htls|lia|exact Hs]. }
  cbv beta. intros ok s1 [[Hg1 Hbel] H1]. destruct ok; cbn [negb]; [|destruct H1 as [q' ?]; by eapply wlp_lost].
  destruct H1 as (bs & Hbs & H1). apply wlp_bind. change (wlp (try_op (OpRecv (rbuf s1) (hdr_len + n))) s1 (fun _ => P0)).
  assert (Hget : forall o, 0 <= o -> o + 2 <= 20 -> get16 o (rbuf s1) = get16 o (rbuf s)).
  { intros o Ho Hle. unfold get16. by rewrite (Hbel o 2) by lia. }
  assert (Hr : received (rbuf s1) (q ++ bs)).
  { exists n. rewrite Hget by (by vm_compute). split; [done|]. change off_data with hdr_len.
    apply load_join; [|done]. by rewrite (Hbel 0 hdr_len) by (by vm_compute). }
  apply (wlp_try_op L0 w0); [by eapply up_Inv|]. split; [apply Hg1|].
  exists b, (q ++ bs). split_and!; [done|done|]. intros Hc. apply Hb.
  rewrite <- Hget by (by vm_compute). by rewrite <- (received_cmd _ _ Hr).
Qed.

Lemma wlp_recv_packet (tls : option ssl_info) q l s :
  up_stack l -> G (S_netdown :: l) true 1 s -> (tls <> None <-> tls_on = true) ->
  load 0 hdr_len (rbuf s) = Some q -> H exact false q s ->
  wlp (recv_packet tls) s (fun _ => P0).
Proof.
  intros Hup Hg Htls Hq Hs. unfold recv_packet. apply wlp_bind.
  change (wlp (packet_len ← lift (get16 off_len (rbuf s));
    cmd ← lift (get16 off_cmd (rbuf s));
    when (cmd =? VCOM_CMD_DATAREADY) (_ ← vc_buf_update VC_BUF_TX; mret tt);;
    recv_payload tls packet_len) s (fun _ => P0)).
  apply wlp_bind, wlp_lift. intros n Hn. apply wlp_bind, wlp_lift. intros cmd Hcmd. apply wlp_bind.
  destruct (Z.eqb_spec cmd VCOM_CMD_DATAREADY) as [->|Hne]; cbn [when].
  - apply wlp_bind. eapply wlp_mono; [apply wlp_and; [|by eapply wlp_update_tx]|].
    + apply wlp_wp, (below_update s s VC_BUF_TX (fun _ s' => G (S_netdown :: l) true 1 s' /\ rbuf s' = rbuf s) l); auto.
    + cbv beta. intros _ s1 [[Hg1 E] H1]. apply wlp_ret.
      eapply (wlp_recv_payload tls n true q l); rewrite ?E; done.
  - apply wlp_ret. eapply (wlp_recv_payload tls n false q l); try done. rewrite Hcmd. congruence.
Qed.

Lemma wlp_recv_desp s : Inv s -> 0 <= sk (at_ s) -> P0 s -> wlp vc_recv_desp s (fun _ => P0).
Proof.
  intros Hi Hsk Hs. destruct (Inv_up s Hi Hsk) as (l & Hup & Hg).
  pose proof (G_tls _ _ _ _ Hg) as Ht. unfold vc_recv_desp.
  assert (Hlost : forall s', (exists q', H exact false q' s') -> wlp lost s' (fun _ => P0))
    by (intros s' [q' ?]; by eapply wlp_lost).
  apply wlp_bind, wlp_gets. destruct (ssl (at_ s)) as [i|] eqn:Hssl; apply wlp_bind.
  - eapply wlp_mono; [apply wlp_and|].
    { apply wlp_wp, (wp_frame_recv_ssl 0 hdr_len (S_netdown :: l) 1 s (fun _ => G (S_netdown :: l) true 1)); [exact Hg|done|lia|by vm_compute|done]. }
    { eapply (wlp_frame_recv_ssl false [] 0 hdr_len); [exact Hg|done|lia|by vm_compute|exact Hs]. }
    cbv beta. intros r s1 [Hg1 H1]. unfold brought in H1. apply wlp_if; intros E; bool_simpl.
    { subst r. destruct H1 as [q' H1]. apply keeps_curnt. by eapply HW_flush. }
    destruct (r <=? 0) eqn:Hr; [by apply Hlost|]. destruct H1 as (q & Hq & H1). by eapply wlp_recv_packet.
  - eapply wlp_mono; [apply wlp_and|].
    { apply wlp_wp, (wp_frame_recv_tcp 0 hdr_len (S_netdown :: l) true 1 s (fun r s' => G (S_netdown :: l) true 1 s' /\ (r < 0 \/ r = hdr_len)));
        [exact Hg|lia|by vm_compute|done]. }
    { by apply (wlp_frame_recv_tcp false [] 0 hdr_len). }
    cbv beta. intros r s1 [[Hg1 Hr] H1]. unfold brought in H1. destruct Hr as [Hr| ->].
    + rewrite (proj2 (Z.leb_le _ _)) in H1 by lia. rewrite (proj2 (Z.ltb_lt _ _)) by lia. by apply Hlost.
    + change (hdr_len <=? 0) with false in H1. change (hdr_len <? 0) with false. cbv iota in *.
      destruct H1 as (q & Hq & H1). eapply wlp_recv_packet; [done|exact Hg1| |exact Hq|exact H1]. by rewrite <- Ht.
Qed.
End recv.
