(* ===== verification/LiveMain.v ===== *)
(** * The main loop refines the link

    The loop keeps daemon and driver in step, so a run of the daemon, with the
    application acting in between, is a run of the link of [Link]; what that
    says of the two streams; and a run. *)

From stdpp Require Import gmap.
From S2P Require Import Prelude RingBuf Tty Uart DrvMain Proto Os SslSelect SimWorld Vcom Connect.
From S2P Require Import Client ClientProofs SimLaws ClientInv MainLoop MainProofs System.
From S2P Require Import Link LiveWorld LiveInv LiveOps LiveClient LiveEvents LiveRecv.

(** ** The loop *)

Section loop.
Context (L0 : link) (w0 : live_world) `{TlsMode}.
Context (fd_set_undef : list Z -> list Z).
Implicit Types s : St live_world.
Local Abbreviation P0 := (H L0 w0 exact false []).

Definition J s : Prop := Inv s /\ P0 s.

Lemma wlp_J {A} (m : Prog live_world A) s :
  wp m s (fun _ => Inv) -> wlp m s (fun _ => P0) -> wlp m s (fun _ => J).
Proof. intros Hw Hl. apply wlp_and; [by apply wlp_wp|done]. Qed.

Lemma wlp_run_op m s (Q : unit -> St live_world -> Prop) :
  wp m s (fun _ => Inv) -> wlp m s (fun _ => P0) -> (forall s', J s' -> Q tt s') -> wlp (run m) s Q.
Proof.
  intros Hw Hl HQ. unfold run. apply wlp_bind. eapply wlp_mono; [by apply wlp_J|]. cbv beta.
  intros _ s' Hs'. by apply wlp_ret, HQ.
Qed.

Lemma wlp_run_try o s (Q : unit -> St live_world -> Prop) :
  J s -> loop_op o -> op_ready L0 w0 o s -> (forall s', J s' -> Q tt s') -> wlp (run (try_op o)) s Q.
Proof. intros [Hi _] Ho Hr. apply wlp_run_op; [by apply wp_try_op|by apply (wlp_try_op L0 w0)]. Qed.

Lemma wlp_attr_J s (Q : adv_port_info -> St live_world -> Prop) :
  J s -> (forall i, Q i s) -> wlp attr_p s Q.
Proof. intros [Hi _] HQ. apply wlp_wp. by apply wp_attr_Inv. Qed.

Lemma wlp_loop_head s : J s -> wlp loop_head s (fun _ => J).
Proof.
  intros Hj. unfold loop_head, follow_open, follow_line, follow_rx, follow_tx.
  apply wlp_bind. eapply (wlp_mono _ _ (fun _ => J)).
  { apply wlp_bind, wlp_attr_J; [done|]. intros a. apply wlp_bind, wlp_gets.
    destruct (negb _); cbn [when]; [|done]. destruct Hj as [Hi Hp].
    apply wlp_run_op; [case_if; apply wp_call_op; auto| |done]. case_if; by apply (wlp_call_op L0 w0). }
  intros _ s1 Hj1. apply wlp_bind. eapply (wlp_mono _ _ (fun _ => J)).
  { apply wlp_bind, wlp_attr_J; [done|]. intros a. apply wlp_bind, wlp_gets.
    destruct (attrs_differ _ _); cbn [when]; [|done]. apply wlp_run_try; try done. apply Hj1. }
  intros _ s2 Hj2. apply wlp_bind. eapply (wlp_mono _ _ (fun _ => J)).
  { apply wlp_bind, wlp_gets, wlp_bind, wlp_gets. destruct (_ && _) eqn:E; cbn [when]; [|done].
    apply andb_true_iff in E as [E1 E2]. apply negb_true_iff in E2. bool_simpl.
    apply wlp_run_try; try done. split; [apply Hj2|done]. }
  intros _ s3 Hj3. apply wlp_bind, wlp_gets. destruct (negb _); cbn [when]; [|done].
  apply wlp_run_try; try done. apply Hj3.
Qed.

Lemma wlp_update_J id s : J s -> wlp (vc_buf_update id) s (fun _ => J).
Proof. intros [Hi Hp]. apply wlp_J; [by eapply wp_update_Inv|by apply keeps_buf_update]. Qed.

Lemma wlp_serve_socket zero tv lrecv rfds wfds s :
  J s -> wlp (serve_socket zero tv lrecv rfds wfds) s (fun _ => J).
Proof.
  intros [Hi Hp]. apply wlp_J; [by apply wp_serve_socket|]. unfold serve_socket.
  apply wlp_bind, wlp_gets, wlp_if; intros Hsk; bool_simpl; [by apply wlp_ret|].
  destruct (Inv_up s Hi Hsk) as (l & _ & Hg).
  assert (Hrecv : forall s', Inv s' -> P0 s' -> 0 <= sk (at_ s') -> wlp (run vc_recv_desp;; mret 0) s' (fun _ => P0)).
  { intros s' Hi' Hp' Hk. apply wlp_bind, wlp_run_op; [by apply wp_recv_desp|by apply (wlp_recv_desp L0 w0)|].
    intros s2 [_ H2]. by apply wlp_ret. }
  assert (Hsil : forall n s', P0 s' -> wlp (check_silence n) s' (fun _ => P0)).
  { intros n s' Hp'. unfold check_silence. apply wlp_if; intros _; [|by apply wlp_ret]. apply wlp_bind.
    unfold run. apply wlp_bind. eapply wlp_mono; [by eapply (wlp_lost L0 w0)|]. cbv beta. intros _ s2 H2. by apply wlp_ret, wlp_ret. }
  apply wlp_bind, wlp_gets. destruct (ssl (at_ s)) as [i|].
  - apply wlp_bind. unfold ssl_call, get_ssl. apply wlp_bind, wlp_bind, wlp_gets, wlp_lift. intros i' _.
    apply wlp_if; intros _; [|done]. apply wlp_sys. intros pend w [= <- <-]. cbv zeta.
    apply wlp_if; intros _; [by destruct s; apply Hrecv|by destruct s; apply Hsil].
  - apply wlp_if; intros _; [by apply Hrecv|by apply Hsil].
Qed.

Lemma wlp_loop_wait fd maxfd zero rfds wfds lrecv s :
  J s -> wlp (loop_wait fd maxfd zero rfds wfds lrecv) s (fun _ => J).
Proof.
  intros Hj. unfold loop_wait. cbv zeta. apply wlp_bind.
  eapply (wlp_mono _ _ (fun _ => J)).
  { destruct Hj as [Hi Hp]. apply wlp_J; [apply wp_sys; intros x w _; by apply Inv_world|].
    by apply keeps_sys. }
  intros [[ret [[rs ws] es]] tv] s1 Hj1. cbv beta iota. apply wlp_if; intros _.
  { apply wlp_bind, wlp_run_try; [done|done|apply Hj1|]. intros s' Hs'. by apply wlp_ret. }
  assert (Hupd : forall (b : bool) id s', J s' ->
    wlp (when b (_ ← vc_buf_update id; mret tt)) s' (fun _ => J)).
  { intros b id s' Hs'. destruct b; cbn [when]; [|done]. wlp_run wlp_update_J. intros _ s2 H2. by apply wlp_ret. }
  wlp_run Hupd. intros _ s2 Hj2. wlp_run wlp_serve_socket. intros lr s3 Hj3.
  wlp_run Hupd. intros _ s4 Hj4. apply wlp_bind.
  destruct (FD_ISSET fd ws); cbn [when]; [|by apply wlp_ret].
  wlp_run wlp_update_J. intros _ s5 Hj5. apply wlp_run_try; [done|done|apply Hj5|]. intros s' Hs'. by apply wlp_ret.
Qed.

Lemma wlp_tls_step rfds wfds s :
  J s -> 0 <= sk (at_ s) -> tls_on = true -> wlp (tls_step rfds wfds) s (fun _ => J).
Proof.
  intros [Hi Hp] Hsk Ht. apply wlp_and.
  - pose proof (wpf_tls_step rfds wfds s Hi Hsk Ht) as Hw. unfold wpf, wlp in *. by destruct (tls_step _ _ s).
  - unfold tls_step. apply wlp_bind. eapply wlp_mono; [by apply (wlp_recv_desp L0 w0)|]. cbv beta.
    intros _ s1 H1. revert s1 H1. change (keeps P0 (tls_ask rfds wfds)). unfold tls_ask. keeps_tac.
Qed.

Lemma wlp_loop_body lrecv s : J s -> wlp (loop_body fd_set_undef lrecv) s (fun _ => J).
Proof.
  intros Hj. unfold loop_body. wlp_run wlp_loop_head. intros _ s1 Hj1.
  apply wlp_bind, wlp_gets, wlp_bind, wlp_gets, wlp_bind.
  eapply wlp_mono; [apply wlp_wp, wp_try_event; apply Hj1|]. cbv beta. intros [rfds wfds] s2 ->. cbv beta iota.
  apply wlp_bind. eapply (wlp_mono _ _ (fun _ s' => J s' /\ at_ s' = at_ s1)).
  { apply wlp_and.
    - destruct Hj1 as [Hi Hp]. apply wlp_J; [|by apply keeps_ioctl_set; [apply inter_internal|]].
      unfold ioctl_set. apply wp_bind, wp_sys. intros x w _. apply wp_ret. by apply Inv_world.
    - unfold ioctl_set. apply wlp_bind, wlp_sys. by intros x w _. }
  intros r s3 [Hj3 E]. apply wlp_if; intros _; [by apply wlp_ret|]. cbv zeta. apply wlp_bind, wlp_gets, wlp_bind.
  assert (Hend : forall t s4, J s4 -> wlp
    (let '(zero, rfds, wfds) := t in
     lrecv ← loop_wait (fd (at_ s1)) (if 0 <=? sk (at_ s1) then Z.max (sk (at_ s1)) (fd (at_ s1)) else fd (at_ s1))
       zero rfds wfds lrecv; mret (Some lrecv)) s4 (fun _ => J)).
  { intros [[zero rs] ws] s4 Hj4. wlp_run wlp_loop_wait. intros lr s5 Hj5. by apply wlp_ret. }
  apply wlp_if; intros Ht; [|apply wlp_ret; by apply (Hend (false, rfds, wfds))].
  apply andb_true_iff in Ht as [Hssl Hsk]. apply bool_decide_eq_true in Hssl. bool_simpl.
  eapply wlp_mono; [apply wlp_tls_step; [done|by rewrite E|]|cbv beta; exact Hend].
  destruct (Inv_G _ (proj1 Hj3)) as (l & c & o & Hg). rewrite <- (G_tls _ _ _ _ Hg). by destruct (ssl (at_ s3)).
Qed.

Lemma wlp_main_loop rounds lrecv s : J s -> wlp (main_loop fd_set_undef rounds lrecv) s (fun _ => J).
Proof.
  revert lrecv s. induction rounds as [|rounds IH]; intros lrecv s Hj; cbn [main_loop]; [done|].
  wlp_run wlp_loop_body. intros [lr|] s1 Hj1; [by apply IH|done].
Qed.
End loop.

(** ** Whole runs *)

(** The write in flight: the bytes at the front of the ring that the daemon has
    sent and waits for. *)
Definition flight (s : St live_world) : list byte :=
  ztake (xmit_pending (at_ s)) (contents (rx (sw_drv (lw (world s))))).
Definition link_of (s : St live_world) : link := link_with (sw_drv (lw (world s))) (flight s).

(** The daemon's view of the rings agrees with the driver. *)
Definition attached (s : St live_world) : Prop :=
  in_step (flight s) (at_ s) (sw_drv (lw (world s))) /\ zlen (flight s) = xmit_pending (at_ s).

(** The run from [s] to [s'] as a run of the link: its events are what the
    application wrote, the write packets that were sent, and the bytes that
    were received. *)
Definition runs_link (s : St live_world) (es : list event) (s' : St live_world) : Prop :=
  link_run (link_of s) es (link_of s') /\
  lw_wrote (world s') = lw_wrote (world s) ++ wrote es /\
  wire (sw_out (lw (world s'))) = wire (sw_out (lw (world s))) ++ sent es /\
  lw_got (world s') = lw_got (world s) ++ input es.

Lemma exact_flight f (s : St live_world) :
  in_step f (at_ s) (sw_drv (lw (world s))) -> exact (xmit_pending (at_ s)) f -> flight s = f.
Proof.
  intros Hi He. destruct (is_flight _ _ _ Hi) as [c Hc]. unfold flight. rewrite Hc, He, ztake_app_l by lia.
  by apply ztake_all.
Qed.

Lemma attached_H s : attached s -> H (link_of s) (world s) exact false [] s.
Proof.
  intros [Hi He]. exists (flight s). split_and!; [|done|done|apply mode_stale].
  exists []. unfold wrote, sent, input. simpl. rewrite !app_nil_r. split; [constructor|done].
Qed.

Lemma H_attached s0 s :
  H (link_of s0) (world s0) exact false [] s -> attached s /\ exists es, runs_link s0 es s.
Proof.
  intros (f & (es & Hr & Hw & Ho & Hg) & Hi & He & _). pose proof (exact_flight f s Hi He) as Hf.
  unfold attached, runs_link, link_of at 2. rewrite Hf. split; [done|].
  exists es. by rewrite app_nil_r in Hg.
Qed.

Lemma main_loop_runs (tls : bool) undef rounds lrecv s :
  @Inv live_world tls s -> attached s ->
  match main_loop undef rounds lrecv s with
  | Ok _ s' => @Inv live_world tls s' /\ attached s' /\ exists es, runs_link s es s'
  | Fault => tls = true
  | _ => False
  end.
Proof.
  intros Hi Ha.
  pose proof (@wpf_main_loop live_world _ _ _ _ tls undef rounds lrecv s Hi) as Hw.
  pose proof (@wlp_main_loop (link_of s) (world s) tls undef rounds lrecv s
    (conj Hi (attached_H s Ha))) as Hl.
  unfold wpf, wlp in *. destruct (main_loop undef rounds lrecv s) as [r s'| | |]; try done.
  split; [done|]. by apply H_attached, Hl.
Qed.

(** C2: the daemon and the driver together are a stop-and-wait link.  Whatever
    the application does between the daemon's calls and whatever the peer sends,
    every number of rounds of the main loop returns (with TLS, or reaches the
    freed session), and there is a sequence of events of [link_step] that leads
    from the link at the start to the link at the end and accounts for every
    byte the application wrote, every write packet sent and every byte received,
    in order: a packet goes out only when none is in flight and carries the
    oldest bytes that are left, an acknowledgement takes exactly those bytes off
    the stream, and the application is given only payloads of data packets. *)
Theorem main_loop_refines_link (tls : bool) (undef : list Z -> list Z) (rounds : nat) (lrecv : Z)
    (s : St live_world) :
  @Inv live_world tls s -> attached s ->
  (main_loop undef rounds lrecv s = Fault /\ tls = true) \/
  exists r s' es, main_loop undef rounds lrecv s = Ok r s' /\
    @Inv live_world tls s' /\ attached s' /\ runs_link s es s'.
Proof.
  intros Hi Ha. pose proof (main_loop_runs tls undef rounds lrecv s Hi Ha) as Hr.
  destruct (main_loop undef rounds lrecv s) as [r s'| | |]; [|done|by left|done].
  right. destruct Hr as (Hi' & Ha' & es & He). by exists r, s', es.
Qed.


(** *** A run *)

(** The connected port with an application that acts by a schedule and a device
    that sends [incoming]. *)
Definition go_live (app : list (list app_op)) (incoming : list (list byte)) (s : St sim_world) : St live_world :=
  mk_st (at_ s) (mk_live (sw_set_in incoming (world s)) app [] []) (pre_excp_t s) (rbuf s).

Lemma go_live_Inv (tls : bool) app incoming s :
  @Inv sim_world tls s -> @Inv live_world tls (go_live app incoming s).
Proof.
  assert (HG : forall l c o, @G sim_world tls l c o s -> @G live_world tls l c o (go_live app incoming s))
    by (intros l c o []; by constructor).
  intros [[Hg Hr]|(b & Hb & [Hg|Hg])]; [left; split; auto|right; exists b; auto..].
Qed.

Lemma go_live_bufs app incoming s : bufs_ok (at_ s) -> bufs_ok (at_ (go_live app incoming s)).
Proof. done. Qed.

(** Six bytes wait in the ring and the application writes two more; the device
    sends three bytes and acknowledges the first packet. *)
Definition busy : list (list app_op) := [[A_write (be 2 78)]; []; [A_tty T_start_tx]].
Definition answers : list (list byte) :=
  [frame_bytes (data_frame 9 (be 3 5)); frame_bytes (ack_of 9 6)].
Definition live_st : St live_world := go_live busy answers ready_st.

Lemma live_st_Inv : @Inv live_world false live_st.
Proof. apply go_live_Inv. right. exists S_netup. split; [by left|left; exact ready_G]. Qed.

Lemma live_st_attached : attached live_st.
Proof.
  split; [constructor|vm_compute; reflexivity].
  - concrete_drv_ok.
  - unfold geometry. vm_compute. intuition congruence.
  - apply (go_live_bufs busy answers ready_st), (G_bufs _ _ _ _ ready_G).
  - vm_compute. reflexivity.
  - vm_compute. discriminate.
  - eexists. vm_compute. reflexivity.
Qed.

Definition live_end : option (St live_world) :=
  match main_loop (fun l => l) 3 0 live_st with Ok _ s => Some s | _ => None end.

Lemma main_loop_refines_link_witness :
  exists es s', live_end = Some s' /\ attached s' /\ runs_link live_st es s' /\
    wrote es = be 2 78 /\ sent es = [be 6 77; be 2 78] /\
    input es = frame_bytes (data_frame 9 (be 3 5)) ++ frame_bytes (ack_of 9 6) /\
    link_of s' = mk_link (be 2 78) (be 3 5) (be 2 78).
Proof.
  destruct (main_loop_refines_link false (fun l => l) 3 0 live_st live_st_Inv live_st_attached)
    as [[_ Hf]|(r & s' & es & Hr & _ & Ha & Hl)]; [discriminate|].
  assert (He : live_end = Some s') by (unfold live_end; by rewrite Hr).
  exists es, s'. split; [exact He|]. split; [exact Ha|]. split; [exact Hl|].
  destruct Hl as (_ & Hw & Ho & Hg). clear Ha Hr. revert He Hw Ho Hg. vm_compute. intros [= <-]. vm_compute.
  intros <- <- <-. split_and!; reflexivity.
Defined.

(** The same run, event by event. *)
Definition live_events : list event :=
  [E_write (be 2 78); E_data (frame_bytes (data_frame 9 (be 3 5))); E_send (be 6 77);
   E_ack (frame_bytes (ack_of 9 6)); E_send (be 2 78)].

Lemma link_exchange a b pd pa :
  pkt_cmd pd = Some VCOM_CMD_DATAREADY -> pkt_cmd pa = Some VCOM_CMD_WRITE ->
  0 < zlen a <= XMIT_LEN -> 0 < zlen b <= XMIT_LEN ->
  link_run (mk_link a [] []) [E_write b; E_data pd; E_send a; E_ack pa; E_send b]
    (mk_link b (pkt_payload pd) b).
Proof.
  intros Hd Ha Hla Hlb.
  apply (LR_snoc _ [_; _; _; _] (mk_link b (pkt_payload pd) [])); [|by apply (LS_send b (mk_link _ _ _))].
  apply (LR_snoc _ [_; _; _] (mk_link (a ++ b) (pkt_payload pd) a)); [|by apply (LS_ack pa (mk_link _ _ _))].
  apply (LR_snoc _ [_; _] (mk_link (a ++ b) (pkt_payload pd) []));
    [|apply (LS_send a (mk_link _ _ _)); [done|by exists b|done]].
  apply (LR_snoc _ [_] (mk_link (a ++ b) [] [])); [|by apply (LS_data pd (mk_link (a ++ b) [] []))].
  apply (LR_snoc _ [] (mk_link a [] [])); [constructor|apply (LS_write b (mk_link a [] []))].
Qed.

Lemma live_st_events s' : live_end = Some s' -> runs_link live_st live_events s'.
Proof.
  intros He. set (es := live_events).
  assert (Hs : link_of s' = mk_link (be 2 78) (be 3 5) (be 2 78) /\
    lw_wrote (world s') = lw_wrote (world live_st) ++ wrote es /\
    wire (sw_out (lw (world s'))) = wire (sw_out (lw (world live_st))) ++ sent es /\
    lw_got (world s') = lw_got (world live_st) ++ input es).
  { revert He. vm_compute. intros [= <-]. vm_compute. split_and!; reflexivity. }
  destruct Hs as [El Hs]. split; [|exact Hs]. rewrite El.
  replace (link_of live_st) with (mk_link (be 6 77) [] []) by (vm_compute; reflexivity).
  assert (Ed : be 3 5 = pkt_payload (frame_bytes (data_frame 9 (be 3 5)))) by (vm_compute; reflexivity).
  pose proof (link_exchange (be 6 77) (be 2 78) (frame_bytes (data_frame 9 (be 3 5)))
    (frame_bytes (ack_of 9 6))) as Hx. rewrite <- Ed in Hx.
  apply Hx; vm_compute; intuition congruence.
Qed.

