(* ===== verification/Drain.v ===== *)
(** * A device that answers

    [peer_world] is [sim_world] with a device at the other end that acknowledges
    every write packet.  The theorem: whatever the application has written, in the
    ring of the port or still in the fifo of the serial core, has been sent and
    acknowledged after a bounded number of rounds of the daemon's loop. *)

From stdpp Require Import gmap.
From S2P Require Import Prelude RingBuf Tty Uart DrvMain Proto Os SslSelect SimWorld Vcom Connect.
From S2P Require Import Client ClientProofs SimLaws ClientInv MainLoop MainProofs System.
From S2P Require Import Link LiveWorld LiveInv.

(** ** The world *)

Record peer_world := mk_peer { pw : sim_world }.

(** What the device answers to a packet. *)
Definition reply (bs : list byte) : list (list byte) :=
  match unframe bs with
  | Some (f, _) => if f_cmd f =? VCOM_CMD_WRITE then [frame_bytes (ack_of (f_tid f) (f_p1 f))] else []
  | None => []
  end.

Definition peer_call {A} (f : sim_world -> A * sim_world) (w : peer_world) : A * peer_world :=
  let '(x, s) := f (pw w) in (x, mk_peer s).
Definition peer_call_ (f : sim_world -> sim_world) (w : peer_world) : peer_world := mk_peer (f (pw w)).

(** The answer arrives with the packet. *)
Definition peer_send (w : peer_world) (x : Z) (bs : list byte) : Z * peer_world :=
  let '(r, s) := sim_send (pw w) x bs in
  (r, mk_peer (if 0 <? r then sw_set_in (sw_in s ++ reply bs) s else s)).

#[export] Instance peer_os : Os peer_world := {
  drv_ioctl w cmd arg := peer_call (fun s => sim_ioctl s cmd arg) w;
  map_load w := sim_map_load (pw w);
  map_store w off bs := s ← sim_map_store (pw w) off bs; Some (mk_peer s);
  map_info w := sim_map_info (pw w);
  sys_select w rs ws es tv := peer_call (fun s => sim_select s rs ws es tv) w;
  sys_send := peer_send;
  sys_recv w x n := peer_call (fun s => sim_recv s x n) w;
  sys_close w x := peer_call_ (fun s => sys_close s x) w;
  sys_time := peer_call sys_time;
  sys_sleep w n := peer_call_ (fun s => sys_sleep s n) w;
  fcntl_getfl w x := peer_call (fun s => fcntl_getfl s x) w;
  fcntl_setfl w x a := peer_call (fun s => fcntl_setfl s x a) w;
  set_nodelay w x := peer_call_ (fun s => set_nodelay s x) w;
  getifaddrs := peer_call getifaddrs;
  getaddrinfo w a := peer_call (fun s => getaddrinfo s a) w;
  sys_socket w f := peer_call (fun s => sys_socket s f) w;
  sys_bind w x a := peer_call (fun s => sys_bind s x a) w;
  sys_connect w x a := peer_call (fun s => sys_connect s x a) w;
  sys_so_error w x := peer_call (fun s => sys_so_error s x) w;
  SSL_new := peer_call_ SSL_new;
  SSL_free := peer_call_ SSL_free;
  SSL_shutdown := peer_call_ SSL_shutdown;
  SSL_set_fd w x := peer_call (fun s => SSL_set_fd s x) w;
  SSL_connect := peer_call SSL_connect;
  SSL_read w n := peer_call (fun s => SSL_read s n) w;
  SSL_write w bs := peer_send w 0 bs;
  SSL_get_error w r := SSL_get_error (pw w) r;
  SSL_pending w := SSL_pending (pw w);
  ssl_work w := ssl_work (pw w);
  uninit w n := uninit (pw w) n;
}.

(** ** The driver *)

(** What the request the loop makes every round does to the port: an empty ring is
    filled from the fifo, and nothing else of what the daemon sees changes. *)
Lemma interrupt_fills (d : adv_vcom eager_tty) :
  drv_ok d -> geometry d -> i_is_open (_attr (attr d)) = 1 ->
  exists d', adv_main_interrupt d (Z.lor ADV_INT_RX ADV_INT_TX) = Some d' /\ drv_ok d' /\ fixed d d' /\
    attr d' = attr d /\ K.status (rx d') = K.status (rx d) /\
    contents (rx d') ++ xmit_fifo (tty d') = contents (rx d) ++ xmit_fifo (tty d) /\
    (contents (rx d) <> [] -> rx d' = rx d) /\
    (contents (rx d) = [] -> xmit_fifo (tty d) <> [] -> contents (rx d') <> []).
Proof.
  intros Hok Hgeo Hopen. destruct (interrupt_runs d (Z.lor ADV_INT_RX ADV_INT_TX) Hok) as (d' & Hi & [Hok' _]).
  exists d'. pose proof (interrupt_fixed _ _ _ Hi) as Hfix. do 3 (split; [done|]).
  revert Hi. unfold adv_main_interrupt, adv_uart_update_xmit. change (Z.lor ADV_INT_RX ADV_INT_TX &? ADV_INT_RX) with true.
  change (Z.lor ADV_INT_RX ADV_INT_TX &? ADV_INT_TX) with true. rewrite Hopen. change (truthy 1) with true. cbv iota.
  pose proof Hok as (_ & [Hrx _] & _). destruct (contents_empty (up_tx d) Hrx) as [He1 He2].
  assert (Hrecv : forall d1, drv_ok d1 -> adv_uart_recv_chars (set_tty (uart_write_wakeup (tty d1)) d1) = Some d' ->
    rx d' = rx d1 /\ attr d' = attr d1 /\ xmit_fifo (tty d') = xmit_fifo (tty d1)).
  { intros d1 (Ht & _ & _) Hr. destruct (adv_uart_recv_chars_spec (set_tty (uart_write_wakeup (tty d1)) d1) Ht)
      as (d2 & Hr2 & (_ & _ & _ & Hf & _ & _ & Hrx2 & Hat & _)). rewrite Hr2 in Hr. injection Hr as <-.
    cbn [rx attr set_tty tty] in *. by rewrite uart_wakeup_fifo in Hf. }
  destruct (is_rb_empty (up_tx d)) eqn:Ee.
  - destruct (adv_uart_xmit_spec d Hrx) as (d1 & -> & (Hr1 & Hc & Hpre & _ & Hst & Hsz & (r & t & Hd1)) & Hend).
    cbn [mbind option_bind]. intros Hr.
    assert (Hok1 : drv_ok d1).
    { subst d1. destruct Hok as (? & [_ ?] & ?). split_and!; [done|split; [exact Hr1|]|done]. unfold up_tx in Hst. cbn [rx set_up_tx set_rx set_tty] in *. congruence. }
    destruct (Hrecv d1 Hok1 Hr) as (E1 & E2 & E3).
    change (up_tx d1) with (rx d1) in *. change (up_tx d) with (rx d) in *.
    rewrite E1, E2, E3. split_and!; [by subst d1|done|done| |].
    + intros Hne. by rewrite (He1 eq_refl) in Hne.
    + intros Hq Hf Hz. rewrite Hz, Hq in Hc. cbn [app] in Hc. destruct Hend as [He|Hroom]; [congruence|].
      apply (contents_empty _ Hr1) in Hz. rewrite rb_empty_length in Hz by (by apply ring_ok_geom).
      destruct Hgeo as (_ & Hs & _). rewrite Hs in Hsz. unfold get_rb_room in Hroom. rewrite Hz in Hroom.
      simpl in Hroom. rewrite Hsz in Hroom. discriminate Hroom.
  - cbn [mbind option_bind]. intros Hr. destruct (Hrecv d Hok Hr) as (E1 & E2 & E3). rewrite E1, E2, E3.
    split_and!; try done. intros Hq _. by apply He2 in Hq.
Qed.

(** ** The daemon while data flows *)

Definition pdrv (s : St peer_world) : adv_vcom eager_tty := sw_drv (pw (world s)).
Definition with_drv (d : adv_vcom eager_tty) (s : St peer_world) : St peer_world :=
  mk_st (at_ s) (mk_peer (sw_set_drv d (pw (world s)))) (pre_excp_t s) (rbuf s).

(** The port of the driver: open, with the attributes the daemon has reported, its
    ring to the network on. *)
Record port_flows (a : vc_attr) (d : adv_vcom eager_tty) : Prop := {
  P_ok : drv_ok d;
  P_geo : geometry d;
  P_on : K.status (rx d) &? ADV_RING_BUF_ENABLED = true;
  P_ptr : attr_ptr a = usr_ptr (attr d);
  P_slot : att_data (attr d) !! Z.to_nat (usr_ptr (attr d)) = Some (_attr (attr d));
  P_open : i_is_open (_attr (attr d)) = 1;
  P_line : attrs_differ (_attr (attr d)) (eki a) = false;
}.

(** Net Up on a connection without TLS, nothing that waits for the application. *)
Record net_flows (s : St peer_world) : Prop := {
  N_G : @G peer_world false [S_netdown; S_netup] true 1 s;
  N_fd : fd (at_ s) = sim_fd;
  N_sk : sk (at_ s) <> sim_fd;
  N_tid : 0 <= tid (at_ s) < 2 ^ 32;
  N_utx : is_rb_empty (utx (at_ s)) = true;
  N_send : sw_send_ok (pw (world s)) = true;
}.

(** Between two rounds: no packet is outstanding and nothing has arrived. *)
Record flowing (s : St peer_world) : Prop := {
  F_net : net_flows s;
  F_port : port_flows (at_ s) (pdrv s);
  F_idle : xmit_pending (at_ s) = 0;
  F_in : sw_in (pw (world s)) = [];
  F_sync : synced (urx (at_ s)) (rx (pdrv s));
}.

Lemma port_okb a d : port_flows a d -> drv_okb d = true.
Proof. intros [([Ht _] & [Hr _] & Ha) Hg _ _ _ _ _]. by apply geometry_okb. Qed.

Lemma net_ssl s : net_flows s -> ssl (at_ s) = None.
Proof. intros [Hg _ _ _ _ _]. pose proof (G_tls _ _ _ _ Hg) as Ht. by destruct (ssl (at_ s)). Qed.

Lemma net_up s : net_flows s -> 0 <= sk (at_ s).
Proof. intros [Hg _ _ _ _ _]. apply (G_conn _ _ _ _ Hg). Qed.

Lemma wp_peer_curnt s (Q : state_id -> St peer_world -> Prop) : net_flows s -> Q S_netup s -> wp stk_curnt s Q.
Proof. intros Hn HQ. eapply (@wp_curnt peer_world false [S_netdown] S_netup); [apply Hn|done]. Qed.

Lemma wp_peer_attr s (Q : adv_port_info -> St peer_world -> Prop) :
  net_flows s -> port_flows (at_ s) (pdrv s) -> Q (_attr (attr (pdrv s))) s -> wp attr_p s Q.
Proof.
  intros Hn Hp HQ. unfold attr_p. apply wp_bind, wp_gets, wp_bind, wp_gets, wp_bind, wp_get_world, wp_lift.
  eexists. split; [|exact HQ]. destruct (G_bufs _ _ _ _ (N_G _ Hn)) as (_ & _ & Ho & Hr). rewrite Ho.
  cbn [map_info peer_os]. unfold sim_map_info. fold (pdrv s). rewrite (port_okb _ _ Hp). cbn [negb].
  unfold sizeof_adv_port_info.
  replace (2 * PAGE_SIZE + attr_ptr (at_ s) * 28 - 2 * PAGE_SIZE) with (attr_ptr (at_ s) * 28) by lia.
  rewrite Z_mod_mult, Z.div_mul by lia. rewrite (proj2 (Z.leb_le 0 _)) by lia. cbn [andb Z.eqb].
  rewrite (P_ptr _ _ Hp). apply (P_slot _ _ Hp).
Qed.

(** A request the device carries out. *)
Lemma wp_peer_set cmd arg r u d' s (Q : Z -> St peer_world -> Prop) :
  drv_okb (pdrv s) = true -> adv_proc_ioctl (pdrv s) cmd (uarg arg) = Some (r, u, d') ->
  Q r (with_drv d' s) -> wp (ioctl_set cmd arg) s Q.
Proof.
  intros Hd Hi HQ. unfold ioctl_set. apply wp_bind, wp_sys. intros x w Hs.
  cbn [drv_ioctl peer_os] in Hs. unfold peer_call, sim_ioctl in Hs. fold (pdrv s) in Hs. rewrite Hd, Hi in Hs.
  injection Hs as <- <-. by apply wp_ret.
Qed.

Lemma wp_peer_get cmd v s (Q : Z * Z -> St peer_world -> Prop) :
  drv_okb (pdrv s) = true -> adv_proc_ioctl (pdrv s) cmd (uarg 0) = Some (0, uarg v, pdrv s) ->
  Q (0, v) s -> wp (ioctl_get cmd) s Q.
Proof.
  intros Hd Hi HQ. unfold ioctl_get. apply wp_sys. intros x w Hs. cbn [drv_ioctl peer_os] in Hs.
  unfold peer_call, sim_ioctl in Hs. fold (pdrv s) in Hs. rewrite Hd, Hi in Hs. cbn [negb] in Hs.
  unfold pdrv in Hs. rewrite sw_set_drv_id in Hs. injection Hs as <- <-. destruct s as [? []]. exact HQ.
Qed.

(** Fetching the indices of the ring to the network. *)
Definition fetched (s : St peer_world) : St peer_world :=
  mk_st (set_urx (set_user_idx (K.head (rx (pdrv s))) (K.tail (rx (pdrv s))) (urx (at_ s))) (at_ s))
    (world s) (pre_excp_t s) (rbuf s).

Lemma wp_peer_update_rx s (Q : Z -> St peer_world -> Prop) :
  drv_okb (pdrv s) = true -> Q 0 (fetched s) -> wp (vc_buf_update VC_BUF_RX) s Q.
Proof.
  intros Hd HQ. unfold vc_buf_update. cbn -[wp ioctl_get mbind mret].
  do 2 (eapply wp_bind, wp_peer_get; [done|reflexivity|]; apply wp_if; intros ?; [done|]).
  by apply wp_bind, wp_modify, wp_ret.
Qed.

Lemma fetched_flows s : net_flows s -> port_flows (at_ s) (pdrv s) ->
  net_flows (fetched s) /\ port_flows (at_ (fetched s)) (pdrv (fetched s)) /\
  synced (urx (at_ (fetched s))) (rx (pdrv (fetched s))).
Proof.
  intros [Hg ? ? ? ? ?] Hp. pose proof (port_okb _ _ Hp) as Hd. pose proof (drv_okb_spec _ Hd) as (_ & Hx & _).
  pose proof (ring_okb_spec _ Hx) as (? & ? & Hsz & _).
  pose proof (G_set_ring true (K.head (rx (pdrv s))) (K.tail (rx (pdrv s))) _ _ _ _ Hg) as Hg'.
  split_and!; [constructor; try done; by apply Hg'|destruct Hp; by constructor|].
  destruct (G_bufs _ _ _ _ Hg) as (_ & (_ & Hs & _) & _). split_and!; [done|done|]. simpl. unfold pdrv in *. simpl. congruence.
Qed.

(** ** Sending *)

Definition write_of (s : St peer_world) (data : list byte) : frame :=
  mk_frame (tid (at_ s)) VCOM_CMD_WRITE (zlen data) 0 data.

(** The packet is out and its acknowledgement is there. *)
Definition sent_with (data : list byte) (s : St peer_world) : St peer_world :=
  mk_st (set_tid (u32 (tid (at_ s) + 1)) (set_xmit_pending (zlen data) (at_ s)))
    (mk_peer (sw_set_in [frame_bytes (ack_of (tid (at_ s)) (zlen data))]
       (sw_set_out (frame_bytes (write_of s data) :: sw_out (pw (world s))) (pw (world s)))))
    (pre_excp_t s) (rbuf s).

(** At most [XMIT_LEN] bytes go into a packet. *)
Definition chunk (s : St peer_world) : list byte := ztake XMIT_LEN (contents (rx (pdrv s))).

Lemma write_ok (s : St peer_world) (data : list byte) : 0 <= tid (at_ s) < 2 ^ 32 -> zlen data <= XMIT_LEN -> frame_ok (write_of s data).
Proof.
  intros Ht Hl. pose proof (zlen_nonneg data). unfold XMIT_LEN in Hl. unfold frame_ok, write_of. cbn [f_tid f_cmd f_p1 f_p2 f_ext].
  split_and!; try done; lia.
Qed.

Lemma ack_ok (s : St peer_world) (data : list byte) : 0 <= tid (at_ s) < 2 ^ 32 -> zlen data <= XMIT_LEN -> frame_ok (ack_of (tid (at_ s)) (zlen data)).
Proof.
  intros Ht Hl. pose proof (zlen_nonneg data). unfold XMIT_LEN in Hl. unfold frame_ok, ack_of. cbn [f_tid f_cmd f_p1 f_p2 f_ext].
  split_and!; try done; lia.
Qed.

Lemma reply_write f : frame_ok f -> f_cmd f = VCOM_CMD_WRITE ->
  reply (frame_bytes f) = [frame_bytes (ack_of (f_tid f) (f_p1 f))].
Proof.
  intros Hf Hc. unfold reply. rewrite <- (app_nil_r (frame_bytes f)), unframe_frame by done. by rewrite Hc.
Qed.

Lemma wp_peer_send s data m (Q : Z -> St peer_world -> Prop) :
  net_flows s -> sw_in (pw (world s)) = [] -> zlen data <= XMIT_LEN ->
  Q 0 (mk_st (at_ s) (world (sent_with data s)) (pre_excp_t s) (rbuf s)) ->
  wp (vc_check_send (frame_bytes (write_of s data) ++ m) (zlen (frame_bytes (write_of s data)))) s Q.
Proof.
  intros Hn Hin Hlen HQ. set (bs := frame_bytes (write_of s data)) in *. pose proof (zlen_nonneg m).
  assert (Hpos : 0 < zlen bs) by (unfold bs; rewrite zlen_frame_bytes; pose proof (zlen_nonneg (f_ext (write_of s data))); lia).
  unfold vc_check_send. apply wp_bind, wp_lift. exists bs. split.
  { rewrite load_Some by (rewrite ?zlen_app; lia). by rewrite zdrop_0, ztake_app_l, ztake_all by lia. }
  apply wp_bind, wp_gets. rewrite (net_ssl _ Hn). apply wp_bind, wp_gets, wp_bind. unfold fdcheck.
  apply wp_bind, wp_sys. intros x w Hs. cbn [sys_select peer_os] in Hs. unfold peer_call, sim_select in Hs.
  change (FD_WR_RDY &? FD_RD_RDY) with false in Hs. change (FD_WR_RDY &? FD_WR_RDY) with true in Hs.
  cbv iota in Hs. cbn [List.filter] in Hs. rewrite (proj2 (Z.eqb_neq _ _) (N_sk _ Hn)) in Hs. injection Hs as <- <-. cbv beta iota.
  cbn -[wp]. apply wp_ret. rewrite bool_decide_true by (by apply list_elem_of_singleton).
  apply wp_if; intros Hz'; [vm_compute in Hz'; discriminate Hz'|]. apply wp_bind, wp_sys. intros r w Hs.
  cbn [sys_send peer_os] in Hs. unfold peer_send, sim_send in Hs. cbn [world pw] in Hs.
  rewrite (N_send _ Hn) in Hs. rewrite (proj2 (Z.ltb_lt _ _) Hpos) in Hs. injection Hs as <- <-.
  rewrite Z.eqb_refl. cbn [negb]. apply wp_ret. cbn [sw_in sw_set_out]. rewrite Hin. cbn [app].
  assert (Hok : frame_ok (write_of s data)) by (apply write_ok; [apply Hn|done]).
  unfold bs. rewrite (reply_write _ Hok eq_refl). cbn [write_of f_tid f_p1]. exact HQ.
Qed.

Lemma sent_net s data : net_flows s -> zlen data <= XMIT_LEN -> net_flows (sent_with data s).
Proof.
  intros [Hg ? ? ? ? ?] Hl. pose proof (zlen_nonneg data). constructor; try done; [|apply u32_range].
  destruct Hg. constructor; try done.
Qed.

Lemma wp_peer_xmit call s (Q : state_id -> St peer_world -> Prop) :
  flowing s -> Q S_netup (sent_with (chunk s) s) -> wp (vc_common_xmit call) s Q.
Proof.
  intros [Hn Hp Hidle Hin Hsync] HQ. pose proof (port_okb _ _ Hp) as Hd. pose proof (P_ok _ _ Hp) as (_ & [Hok _] & _).
  destruct (G_bufs _ _ _ _ (N_G _ Hn)) as (_ & (Hmb & _) & _).
  destruct (xmit_data (pw (world s)) (urx (at_ s)) _ Hd eq_refl Hok Hsync Hmb) as (Hlen & Hll & Hl1 & Hl2).
  unfold chunk in HQ. fold (pdrv s) in *. set (q := contents _) in *. unfold vc_common_xmit. apply wp_bind, wp_gets. cbv zeta.
  change (XMIT_LEN + sizeof_vc_proto_hdr + sizeof_vc_attach_param) with 1044.
  apply wp_bind, wp_pbuf_of; [lia|]. intros pbuf Hpb. apply wp_bind, wp_gets, wp_bind, wp_get_world.
  set (llen := if XMIT_LEN <? get_rb_llength (urx (at_ s)) then _ else _) in *.
  set (len := if XMIT_LEN <? get_rb_length (urx (at_ s)) then _ else _) in *.
  clearbody llen len. pose proof (zlen_nonneg q).
  assert (Hdata : ztake XMIT_LEN q = ztake len q).
  { destruct (Z.le_gt_cases XMIT_LEN (zlen q)); [f_equal; lia|]. rewrite !ztake_all by lia. done. }
  assert (Hzl : zlen (ztake len q) = len) by (apply zlen_ztake; lia).
  rewrite Hdata in HQ. apply wp_bind.
  eapply wp_mono; [apply (wp_xmit_packet _ _ q); [exact Hl1|exact Hl2|done|lia|lia|done]|].
  cbv beta. intros r s' (-> & m & ->). cbv beta iota. apply wp_if; intros Hz; bool_simpl; [lia|].
  assert (Hsz : 20 + len = zlen (frame_bytes (write_of s (ztake len q)))).
  { rewrite zlen_frame_bytes. cbn [write_of f_ext]. lia. }
  assert (Hmk : mk_frame (tid (at_ s)) VCOM_CMD_WRITE len 0 (ztake len q) = write_of s (ztake len q))
    by (unfold write_of; by rewrite Hzl).
  rewrite Hmk, Hsz. apply wp_bind, wp_peer_send; [done|done|lia|]. apply wp_if; intros Hz'; [discriminate Hz'|].
  apply wp_bind, wp_modify, wp_bind, wp_modify. cbn [at_ world pre_excp_t rbuf].
  assert (Hset : set_xmit_pending len (at_ s) = set_xmit_pending (zlen (ztake len q)) (at_ s)) by congruence. rewrite Hset.
  apply wp_peer_curnt; [|exact HQ]. apply (sent_net s (ztake len q)); [done|lia].
Qed.

(** ** The head of a round *)

Lemma wp_peer_head s (Q : unit -> St peer_world -> Prop) :
  net_flows s -> port_flows (at_ s) (pdrv s) ->
  wp (follow_rx;; follow_tx) s Q -> wp loop_head s Q.
Proof.
  intros Hn Hp HQ. unfold loop_head, follow_open, follow_line.
  apply wp_bind, wp_bind, wp_peer_attr; [done|done|]. apply wp_bind, wp_gets.
  rewrite (P_open _ _ Hp), (G_open _ _ _ _ (N_G _ Hn)). cbn [when negb Z.eqb Pos.eqb].
  apply wp_ret, wp_bind, wp_bind, wp_peer_attr; [done|done|]. apply wp_bind, wp_gets.
  rewrite (P_line _ _ Hp). cbn [when]. apply wp_ret. exact HQ.
Qed.

Lemma wp_follow_tx s (Q : unit -> St peer_world -> Prop) : net_flows s -> Q tt s -> wp follow_tx s Q.
Proof. intros Hn HQ. unfold follow_tx. apply wp_bind, wp_gets. rewrite (N_utx _ Hn). by apply wp_ret. Qed.

(** The cached ring is as empty as the driver's. *)
Lemma flowing_empty s : flowing s -> is_rb_empty (urx (at_ s)) = is_rb_empty (rx (pdrv s)).
Proof. intros [_ _ _ _ (Hh & Ht & _)]. unfold is_rb_empty. simpl. by rewrite Hh, Ht. Qed.

Lemma wp_head_quiet s (Q : unit -> St peer_world -> Prop) :
  flowing s -> contents (rx (pdrv s)) = [] -> Q tt s -> wp loop_head s Q.
Proof.
  intros Hf Hq HQ. pose proof (flowing_empty _ Hf) as He. destruct Hf as [Hn Hp Hi _ _].
  pose proof (P_ok _ _ Hp) as (_ & [Hok _] & _). apply (contents_empty _ Hok) in Hq.
  apply wp_peer_head; [done|done|]. unfold follow_rx. apply wp_bind, wp_bind, wp_gets, wp_bind, wp_gets.
  rewrite Hi, He, Hq. cbn [when andb negb Z.eqb]. by apply wp_ret, wp_follow_tx.
Qed.

Lemma wp_head_send s (Q : unit -> St peer_world -> Prop) :
  flowing s -> contents (rx (pdrv s)) <> [] -> Q tt (sent_with (chunk s) s) -> wp loop_head s Q.
Proof.
  intros Hf Hq HQ. pose proof (flowing_empty _ Hf) as He. pose proof Hf as [Hn Hp Hi _ _].
  pose proof (P_ok _ _ Hp) as (_ & [Hok _] & _). rewrite <- (contents_empty _ Hok), not_true_iff_false in Hq.
  apply wp_peer_head; [done|done|]. unfold follow_rx. apply wp_bind, wp_bind, wp_gets, wp_bind, wp_gets.
  rewrite Hi, He, Hq. cbn [when andb negb Z.eqb]. unfold run, try_op.
  apply wp_bind, wp_bind, wp_peer_curnt; [done|]. cbn [handler vc_netup_ops]. unfold vc_netup_xmit.
  apply wp_peer_xmit; [done|]. apply wp_ret, wp_follow_tx; [|done].
  apply sent_net; [done|]. unfold chunk. pose proof (zlen_nonneg (contents (rx (pdrv s)))). unfold XMIT_LEN.
  destruct (Z.le_gt_cases 1024 (zlen (contents (rx (pdrv s))))); [by rewrite zlen_ztake by lia|rewrite ztake_all by lia; lia].
Qed.

(** ** The acknowledgement *)

(** The first [n] bytes are off the ring. *)
Definition popped (n : Z) (d : adv_vcom eager_tty) : adv_vcom eager_tty :=
  set_rx (move_rb_head (rx d) n) d.

Lemma popped_flows a n d :
  port_flows a d -> 0 <= n <= get_rb_length (rx d) -> port_flows a (popped n d).
Proof.
  intros [Hok Hg ? ? ? ? ?] Hn. pose proof Hok as (? & Hrx & ?).
  destruct (move_rb_head_idle _ _ Hrx Hn) as (Hi & _ & _ & Hst).
  destruct (move_rb_head_frame (rx d) n) as (_ & Hb & Hs). destruct Hg as (? & ? & ? & ? & ?).
  constructor; cbn [popped rx tx attr set_rx]; try done; [|by rewrite Hst].
  unfold geometry. cbn [popped rx tx attr set_rx]. split_and!; congruence.
Qed.

(** A packet without payload in the buffer. *)
Definition buffered (f : frame) (s : St peer_world) : St peer_world :=
  mk_st (at_ s) (mk_peer (sw_set_in [] (pw (world s)))) (pre_excp_t s) (frame_bytes f ++ zdrop 20 (rbuf s)).

Lemma buffered_net f s : net_flows s -> f_ext f = [] -> net_flows (buffered f s).
Proof.
  intros [Hg ? ? ? ? ?] He. constructor; try done. destruct Hg. constructor; try done.
  cbn [buffered rbuf]. rewrite zlen_app, zlen_frame_bytes, He, zlen_zdrop by lia. unfold zlen in *. simpl. lia.
Qed.

Lemma wp_peer_header f s (Q : Z -> St peer_world -> Prop) :
  net_flows s -> f_ext f = [] -> sw_in (pw (world s)) = [frame_bytes f] ->
  Q 20 (buffered f s) -> wp (vc_frame_recv_tcp 0 hdr_len) s Q.
Proof.
  intros Hn He Hin HQ. pose proof (G_rbuf _ _ _ _ (N_G _ Hn)) as Hr.
  assert (Hl : zlen (frame_bytes f) = 20) by (by rewrite zlen_frame_bytes, He).
  unfold vc_frame_recv_tcp. apply wp_bind, wp_gets, wp_bind. unfold recv_into. apply wp_bind, wp_sys.
  intros x w Hs. cbn [sys_recv peer_os] in Hs. unfold peer_call, sim_recv in Hs. rewrite Hin, Hl in Hs.
  change (20 <=? hdr_len) with true in Hs. injection Hs as <- <-. cbn [when Z.ltb Z.compare Z.leb].
  apply wp_bind. unfold wp at 1, rbuf_store. cbn [rbuf]. rewrite store_Some by lia. rewrite Hl.
  change (0 + 20) with 20. rewrite (ztake_0 (rbuf s)). cbn [app at_ world pre_excp_t].
  by apply wp_ret, wp_ret.
Qed.

Lemma wp_peer_ack call t n rest s (Q : state_id -> St peer_world -> Prop) :
  net_flows s -> port_flows (at_ s) (pdrv s) -> sw_in (pw (world s)) = [] ->
  xmit_pending (at_ s) = n -> n <= get_rb_length (rx (pdrv s)) -> frame_ok (ack_of t n) ->
  (forall s', flowing s' -> pdrv s' = popped n (pdrv s) ->
     sw_out (pw (world s')) = sw_out (pw (world s)) -> Q S_netup s') ->
  wp (recv_write call (frame_bytes (ack_of t n) ++ rest) 20) s Q.
Proof.
  intros Hn Hp Hin Hpend Hlen Hf HQ. pose proof (G_pending _ _ _ _ (N_G _ Hn)) as Hx. rewrite Hpend in Hx.
  unfold recv_write. apply wp_bind, wp_gets, wp_bind, wp_modify. rewrite Hpend.
  apply wp_bind, wp_lift. exists 0. split.
  { rewrite vc_check_xmit_spec by done. cbn [ack_of f_cmd f_ext f_p1 f_p2].
    rewrite (u32_small n) by (unfold XMIT_LEN in *; lia). by rewrite (Z.eqb_refl n). }
  apply wp_if; intros Hz; [|discriminate Hz]. pose proof (popped_flows _ n _ Hp ltac:(lia)) as Hp'.
  eapply wp_bind, wp_peer_set; [by eapply port_okb|reflexivity|].
  set (s1 := with_drv _ _).
  assert (Hn1 : net_flows s1).
  { destruct Hn as [Hg ? ? ? ? ?]. constructor; try done. destruct Hg. by constructor. }
  assert (Hp1 : port_flows (at_ s1) (pdrv s1)) by (destruct Hp'; by constructor).
  destruct (fetched_flows s1 Hn1 Hp1) as (Hn2 & Hp2 & Hs2).
  apply wp_bind, wp_peer_update_rx; [by eapply port_okb|]. apply wp_peer_curnt; [done|].
  apply HQ; [by constructor|done|done].
Qed.

Lemma wp_peer_recv t n s (Q : state_id -> St peer_world -> Prop) :
  net_flows s -> port_flows (at_ s) (pdrv s) -> sw_in (pw (world s)) = [frame_bytes (ack_of t n)] ->
  xmit_pending (at_ s) = n -> n <= get_rb_length (rx (pdrv s)) -> frame_ok (ack_of t n) ->
  (forall s', flowing s' -> pdrv s' = popped n (pdrv s) ->
     sw_out (pw (world s')) = sw_out (pw (world s)) -> Q S_netup s') ->
  wp vc_recv_desp s Q.
Proof.
  intros Hn Hp Hin Hpend Hlen Hf HQ. unfold vc_recv_desp. apply wp_bind, wp_gets. rewrite (net_ssl _ Hn).
  apply wp_bind, (wp_peer_header (ack_of t n)); [done|reflexivity|exact Hin|]. apply wp_if; intros Hz; [discriminate Hz|].
  pose proof (buffered_net (ack_of t n) s Hn eq_refl) as Hn1.
  unfold recv_packet. apply wp_bind, wp_get_rbuf.
  change (rbuf (buffered (ack_of t n) s)) with (frame_bytes (ack_of t n) ++ zdrop 20 (rbuf s)). unfold get16. rewrite load_len, load_cmd.
  apply wp_bind, wp_lift. eexists. split; [reflexivity|]. apply wp_bind, wp_lift. eexists. split; [reflexivity|].
  change (be_val (be16 (f_cmd (ack_of t n)))) with VCOM_CMD_WRITE.
  change (be_val (be16 (zlen (f_ext (ack_of t n))))) with 0. cbn [when Z.eqb]. apply wp_bind, wp_ret.
  unfold recv_payload, recv_body. cbn [Z.ltb Z.compare]. apply wp_bind, wp_ret. cbn [negb].
  apply wp_bind, wp_get_rbuf.
  change (rbuf (buffered (ack_of t n) s)) with (frame_bytes (ack_of t n) ++ zdrop 20 (rbuf s)). unfold try_op. apply wp_bind, (wp_peer_curnt _ _ Hn1).
  cbn [handler vc_netup_ops]. unfold vc_netup_recv. change (hdr_len + 0) with 20.
  apply recv_case_write; [unfold get16; by rewrite load_cmd|done|].
  apply (wp_peer_ack _ _ n); try done; by destruct Hp.
Qed.

(** ** Waiting *)

(** What the request of the round does for the daemon. *)
Definition filled (d d' : adv_vcom eager_tty) : Prop :=
  contents (rx d') ++ xmit_fifo (tty d') = contents (rx d) ++ xmit_fifo (tty d) /\
  (contents (rx d) <> [] -> rx d' = rx d) /\
  (contents (rx d) = [] -> xmit_fifo (tty d) <> [] -> contents (rx d') <> []).

Lemma interrupt_flows a d : port_flows a d ->
  exists d', adv_main_interrupt d (Z.lor ADV_INT_RX ADV_INT_TX) = Some d' /\ port_flows a d' /\ filled d d'.
Proof.
  intros [Hok Hg ? ? ? ? ?].
  destruct (interrupt_fills d Hok Hg) as (d' & Hi & Hok' & Hfix & Hat & Hst & Hc & Hr & Hf); [done|].
  exists d'. split; [done|]. split; [|done]. constructor; try (by rewrite Hat); [done| |by rewrite Hst].
  by eapply geometry_fixed.
Qed.

Lemma port_polls a d : port_flows a d ->
  exists m, poll_mask d = Some m /\ m &? POLLIN = negb (is_rb_empty (rx d)) /\ m &? POLLPRI = false.
Proof.
  intros [(_ & _ & Ha) _ Hon _ Hsl _ _]. destruct (poll_mask_total d Ha) as [m Hm]. exists m.
  destruct (poll_mask_bits d m Hm) as (-> & _ & ->). rewrite Hon. split_and!; [done|done|].
  unfold attr_news. rewrite Hsl, bool_decide_false by (intros Hne; by apply Hne). done.
Qed.

(** What the select call of the round reports. *)
Definition ready (s : St peer_world) : list Z -> list Z :=
  List.filter (fun x => if x =? sim_fd then negb (is_rb_empty (rx (pdrv s))) else 0 <? zlen (sw_in (pw (world s)))).

Lemma wp_peer_wait lrecv rfds s (Q : Z -> St peer_world -> Prop) :
  port_flows (at_ s) (pdrv s) -> Forall (fun x => x <= Z.max (sk (at_ s)) sim_fd) rfds -> ready s rfds <> [] ->
  wp (lrecv ← serve_socket false VC_PULL_TIME lrecv (ready s rfds) [];
      when (FD_ISSET sim_fd (ready s rfds)) (_ ← vc_buf_update VC_BUF_RX; mret tt);; mret lrecv) s Q ->
  wp (loop_wait sim_fd (Z.max (sk (at_ s)) sim_fd) false rfds [] lrecv) s Q.
Proof.
  intros Hp Hall Hne HQ. destruct (port_polls _ _ Hp) as (m & Hm & Hin & Hpri).
  unfold loop_wait. cbv zeta. apply wp_bind, wp_sys. intros x w Hs. cbn [sys_select peer_os] in Hs.
  unfold peer_call, sim_select in Hs. fold (pdrv s) in Hs. rewrite Hm in Hs. cbn [default from_option] in Hs. unfold id in Hs.
  assert (Hup : List.filter (fun x => x <=? Z.max (sk (at_ s)) sim_fd) rfds = rfds).
  { clear -Hall. induction Hall as [|x l Hx _ IH]; [done|]. cbn [List.filter]. by rewrite (proj2 (Z.leb_le _ _) Hx), IH. }
  rewrite Hup in Hs. unfold FD_SET in Hs. cbn [List.filter] in Hs.
  rewrite (proj2 (Z.leb_le _ _) (Z.le_max_r _ _)) in Hs. cbn [List.filter] in Hs.
  rewrite Hin, Hpri, Z.eqb_refl in Hs. cbn [andb] in Hs. fold (ready s) in Hs. fold (ready s rfds) in Hs.
  injection Hs as <- <-. cbv beta iota. change (zlen (@nil Z)) with 0.
  assert (Hz : (zlen (ready s rfds) + 0 + 0 =? 0) = false).
  { apply Z.eqb_neq. intros E. apply Hne, zlen_0_nil. lia. }
  rewrite Hz. cbn [andb]. change (FD_ISSET sim_fd []) with false. cbn [when]. apply wp_bind, wp_ret.
  replace (mk_st (at_ s) (mk_peer (pw (world s))) (pre_excp_t s) (rbuf s)) with s by (by destruct s as [? []]).
  exact HQ.
Qed.

(** ** Rounds *)

Lemma with_drv_net d s : net_flows s -> net_flows (with_drv d s).
Proof. intros [Hg ? ? ? ? ?]. constructor; try done. destruct Hg. by constructor. Qed.

(** From the head of the round to the select call. *)
Lemma wp_peer_body undef lrecv s s1 (Q : option Z -> St peer_world -> Prop) :
  (forall P : unit -> St peer_world -> Prop, P tt s1 -> wp loop_head s P) ->
  net_flows s1 -> port_flows (at_ s1) (pdrv s1) ->
  (forall d', port_flows (at_ s1) d' -> filled (pdrv s1) d' ->
     wp (loop_wait sim_fd (Z.max (sk (at_ s1)) sim_fd) false
           (if xmit_pending (at_ s1) =? 0 then [sim_fd; sk (at_ s1)] else [sk (at_ s1)]) [] lrecv)
       (with_drv d' s1) (fun lrecv => Q (Some lrecv))) ->
  wp (loop_body undef lrecv) s Q.
Proof.
  intros Hhead Hn Hp HQ. unfold loop_body. apply wp_bind, Hhead, wp_bind, wp_gets, wp_bind, wp_gets.
  rewrite (N_fd _ Hn). unfold set_sock, FD_SET. rewrite (proj2 (Z.leb_le _ _) (net_up _ Hn)).
  apply wp_bind. unfold try_event. apply wp_bind, wp_peer_curnt; [done|]. unfold vc_netup_event.
  apply wp_bind, wp_gets, wp_bind, wp_gets, wp_ret. rewrite (N_fd _ Hn).
  destruct (interrupt_flows _ _ Hp) as (d' & Hi & Hp' & Hfill).
  eapply wp_bind, wp_peer_set; [by eapply port_okb| |].
  { change (adv_proc_ioctl (pdrv s1) ADVVCOM_IOCSINTER (uarg (Z.lor ADV_INT_RX ADV_INT_TX))) with
      (d ← adv_main_interrupt (pdrv s1) (Z.lor ADV_INT_RX ADV_INT_TX); Some (0, uarg (Z.lor ADV_INT_RX ADV_INT_TX), d)).
    rewrite Hi. reflexivity. }
  cbn [Z.ltb Z.compare]. cbv zeta. apply wp_bind, wp_gets. cbn [at_ with_drv]. rewrite (net_ssl _ Hn).
  rewrite bool_decide_false by (intros E; by apply E). cbn [andb]. apply wp_bind, wp_ret. cbv beta iota. apply wp_bind.
  eapply wp_mono; [by apply HQ|]. cbv beta. intros lr s2 H2. by apply wp_ret.
Qed.

Lemma chunk_range s : ring_ok (rx (pdrv s)) -> contents (rx (pdrv s)) <> [] ->
  0 < zlen (chunk s) <= XMIT_LEN /\ zlen (chunk s) <= get_rb_length (rx (pdrv s)) /\
  chunk s = ztake (zlen (chunk s)) (contents (rx (pdrv s))).
Proof.
  intros Hok Hne. rewrite <- (contents_length _ Hok). unfold chunk, XMIT_LEN. set (q := contents _) in *.
  assert (0 < zlen q) by (pose proof (zlen_nonneg q); destruct (Z.eq_dec (zlen q) 0) as [E|]; [by apply zlen_0_nil in E|lia]).
  destruct (Z.le_gt_cases 1024 (zlen q)).
  - rewrite zlen_ztake by lia. split_and!; try lia. done.
  - rewrite (ztake_all 1024) by lia. split_and!; try lia. by rewrite ztake_all by lia.
Qed.

(** Bytes in the ring: a packet is sent, acknowledged, and its bytes are gone. *)
Lemma wp_round_send undef lrecv s (Q : option Z -> St peer_world -> Prop) :
  flowing s -> contents (rx (pdrv s)) <> [] ->
  (forall s', flowing s' -> stream_up (view (pdrv s)) = chunk s ++ stream_up (view (pdrv s')) ->
     sw_out (pw (world s')) = frame_bytes (write_of s (chunk s)) :: sw_out (pw (world s)) -> Q (Some 0) s') ->
  wp (loop_body undef lrecv) s Q.
Proof.
  intros Hf Hne HQ. pose proof Hf as [Hn Hp Hi Hin Hs]. pose proof (P_ok _ _ Hp) as (_ & [Hok _] & _).
  destruct (chunk_range _ Hok Hne) as ([Hc0 Hc1] & Hc2 & Hc3).
  assert (Hn1 : net_flows (sent_with (chunk s) s)) by (by apply sent_net).
  eapply (wp_peer_body undef lrecv s (sent_with (chunk s) s)); [intros P HP; by apply wp_head_send|done|by destruct Hp|].
  intros d' Hp' (Hst & Hrx & _). cbn [sent_with at_ xmit_pending set_tid set_xmit_pending].
  rewrite (proj2 (Z.eqb_neq _ _)) by lia. set (s2 := with_drv d' (sent_with (chunk s) s)).
  assert (Hn2 : net_flows s2) by (by apply with_drv_net). specialize (Hrx Hne).
  assert (Hr : ready s2 [sk (at_ s)] = [sk (at_ s)]).
  { unfold ready. cbn [List.filter]. by rewrite (proj2 (Z.eqb_neq _ _) (N_sk _ Hn)). }
  apply (wp_peer_wait lrecv [sk (at_ s)] s2); [done|constructor; [apply Z.le_max_l|done]|by rewrite Hr|].
  rewrite Hr. apply wp_bind. unfold serve_socket. apply wp_bind, wp_gets.
  apply wp_if; intros Hneg; bool_simpl; [pose proof (net_up _ Hn2); lia|]. apply wp_bind, wp_gets. rewrite (net_ssl _ Hn2).
  unfold FD_ISSET. rewrite (bool_decide_true (sk (at_ s2) ∈ _)) by (by apply list_elem_of_singleton).
  rewrite (bool_decide_false (sim_fd ∈ _)) by (intros E%list_elem_of_singleton; by apply (N_sk _ Hn)).
  unfold run. apply wp_bind, wp_bind, (wp_peer_recv (tid (at_ s)) (zlen (chunk s))); try done.
  { change (rx (pdrv s2)) with (rx d'). by rewrite Hrx. }
  { apply ack_ok; [apply Hn|done]. }
  intros s3 Hf3 Hd3 Ho3. apply wp_ret, wp_ret. cbn [when]. apply wp_bind, wp_ret, wp_ret.
  apply HQ; [done| |by rewrite Ho3]. rewrite Hd3. unfold stream_up, view, popped. cbn [p_up p_fifo rx tty set_rx].
  change (pdrv s2) with d'. pose proof (P_ok _ _ Hp') as (_ & Hid & _).
  destruct (move_rb_head_idle (rx d') (zlen (chunk s)) Hid) as (_ & -> & _); [rewrite Hrx; change (pdrv (sent_with (chunk s) s)) with (pdrv s); lia|].
  change (pdrv (sent_with (chunk s) s)) with (pdrv s) in *. rewrite <- Hst, Hrx, app_assoc. f_equal.
  rewrite Hc3 at 1. symmetry. apply ztake_zdrop.
Qed.

(** The ring is empty: it is filled from the fifo and the daemon is told. *)
Lemma wp_round_fill undef lrecv s (Q : option Z -> St peer_world -> Prop) :
  flowing s -> contents (rx (pdrv s)) = [] -> xmit_fifo (tty (pdrv s)) <> [] -> 0 <= lrecv < VC_PULL_TIME ->
  (forall s', flowing s' -> contents (rx (pdrv s')) <> [] -> stream_up (view (pdrv s')) = stream_up (view (pdrv s)) ->
     sw_out (pw (world s')) = sw_out (pw (world s)) -> Q (Some (lrecv + 1)) s') ->
  wp (loop_body undef lrecv) s Q.
Proof.
  intros Hf He Hne Hlr HQ. pose proof Hf as [Hn Hp Hi Hin Hs].
  eapply (wp_peer_body undef lrecv s s); [intros P HP; by apply wp_head_quiet|done|done|].
  intros d' Hp' (Hst & _ & Hfill). specialize (Hfill He Hne). rewrite Hi. cbn [Z.eqb].
  set (s2 := with_drv d' s). assert (Hn2 : net_flows s2) by (by apply with_drv_net).
  pose proof (P_ok _ _ Hp') as (_ & [Hok _] & _).
  assert (Hr : ready s2 [sim_fd; sk (at_ s)] = [sim_fd]).
  { unfold ready. cbn [List.filter]. rewrite Z.eqb_refl, (proj2 (Z.eqb_neq _ _) (N_sk _ Hn)).
    cbn [s2 with_drv world pw sw_set_drv sw_in]. rewrite Hin. change (0 <? zlen []) with false.
    destruct (is_rb_empty (rx (pdrv s2))) eqn:E; [|done]. by apply (contents_empty _ Hok) in E. }
  apply (wp_peer_wait lrecv [sim_fd; sk (at_ s)] s2); [done| |by rewrite Hr|].
  { repeat constructor; [apply Z.le_max_r|apply Z.le_max_l]. }
  rewrite Hr. apply wp_bind. unfold serve_socket. apply wp_bind, wp_gets.
  apply wp_if; intros Hneg; bool_simpl; [pose proof (net_up _ Hn2); lia|]. apply wp_bind, wp_gets. rewrite (net_ssl _ Hn2).
  unfold FD_ISSET. rewrite (bool_decide_false (sk (at_ s2) ∈ _)) by (intros E%list_elem_of_singleton; by apply (N_sk _ Hn)).
  assert (Hused : add_used VC_PULL_TIME lrecv = lrecv + 1).
  { unfold add_used. rewrite Z.sub_diag. change (u32 0) with 0. cbn [Z.ltb Z.compare].
    apply u32_small. unfold VC_PULL_TIME in Hlr. lia. }
  rewrite Hused. unfold check_silence. apply wp_if; intros Hz; bool_simpl; [lia|]. apply wp_ret, wp_bind.
  rewrite bool_decide_true by (by apply list_elem_of_singleton). cbn [when].
  apply wp_bind, wp_peer_update_rx; [by eapply port_okb|]. apply wp_ret, wp_ret.
  destruct (fetched_flows s2 Hn2 Hp') as (Hn3 & Hp3 & Hs3). by apply HQ; [constructor|..].
Qed.

(** ** Draining *)

Lemma round_then undef lrecv s (R : Z -> St peer_world -> Prop) :
  wp (loop_body undef lrecv) s (fun r s' => exists lr, r = Some lr /\ R lr s') ->
  exists lr s1, R lr s1 /\ forall n, main_loop undef (S n) lrecv s = main_loop undef n lr s1.
Proof.
  unfold wp. destruct (loop_body undef lrecv s) as [r s1| | |] eqn:E; try done. intros (lr & -> & HR).
  exists lr, s1. split; [done|]. intros n. cbn [main_loop]. unfold mbind, prog_bind. by rewrite E.
Qed.

(** A round to fill the ring and a round for each packet. *)
Definition rounds_left (s : St peer_world) : nat :=
  2 * length (stream_up (view (pdrv s))) - match contents (rx (pdrv s)) with [] => 0 | _ => 1 end.

(** The packets by which [bs] is sent. *)
Definition carries (fs : list frame) (bs : list byte) : Prop :=
  Forall (fun f => frame_ok f /\ f_cmd f = VCOM_CMD_WRITE /\ 0 < zlen (f_ext f) <= XMIT_LEN) fs /\
  concat (f_ext <$> fs) = bs.

(** What a run of [n] rounds achieves. *)
Definition drains (undef : list Z -> list Z) (n : nat) (lrecv : Z) (s : St peer_world) : Prop :=
  exists lrecv' s' fs, main_loop undef n lrecv s = Ok (Some lrecv') s' /\ flowing s' /\
    stream_up (view (pdrv s')) = [] /\ carries fs (stream_up (view (pdrv s))) /\
    sw_out (pw (world s')) = rev (frame_bytes <$> fs) ++ sw_out (pw (world s)).

Lemma drained undef lrecv s : flowing s -> stream_up (view (pdrv s)) = [] -> drains undef 0 lrecv s.
Proof. intros Hf He. exists lrecv, s, []. rewrite He. by split_and!. Qed.

Lemma drains_fill undef lrecv s :
  flowing s -> contents (rx (pdrv s)) = [] -> xmit_fifo (tty (pdrv s)) <> [] -> 0 <= lrecv < VC_PULL_TIME ->
  exists s1, flowing s1 /\ contents (rx (pdrv s1)) <> [] /\ (rounds_left s1 < rounds_left s)%nat /\
    forall n, drains undef n (lrecv + 1) s1 -> drains undef (S n) lrecv s.
Proof.
  intros Hf He Hne Hl.
  destruct (round_then undef lrecv s (fun lr s1 => lr = lrecv + 1 /\ flowing s1 /\ contents (rx (pdrv s1)) <> [] /\
    stream_up (view (pdrv s1)) = stream_up (view (pdrv s)) /\ sw_out (pw (world s1)) = sw_out (pw (world s))))
    as (lr & s1 & (-> & Hf1 & Hc1 & Hu & Ho) & Hm).
  { apply wp_round_fill; try done. intros s1 H1 H2 H3 H4. eexists. by split. }
  exists s1. split; [done|]. split; [done|]. split.
  - unfold rounds_left. rewrite Hu, He. unfold stream_up at 1 2, view. cbn [p_up p_fifo]. rewrite He. cbn [app].
    destruct (contents (rx (pdrv s1))); [done|]. destruct (xmit_fifo (tty (pdrv s))); [done|]. simpl. lia.
  - intros n (lr' & s' & fs & Hr & Hd). exists lr', s', fs. rewrite Hm, <- Hu, <- Ho. by split.
Qed.

Lemma drains_send undef lrecv s :
  flowing s -> contents (rx (pdrv s)) <> [] ->
  exists s1, flowing s1 /\ (rounds_left s1 < rounds_left s)%nat /\
    forall n, drains undef n 0 s1 -> drains undef (S n) lrecv s.
Proof.
  intros Hf Hne. pose proof (P_ok _ _ (F_port _ Hf)) as (_ & [Hok _] & _).
  destruct (chunk_range _ Hok Hne) as (Hc & _).
  destruct (round_then undef lrecv s (fun lr s1 => lr = 0 /\ flowing s1 /\
    stream_up (view (pdrv s)) = chunk s ++ stream_up (view (pdrv s1)) /\
    sw_out (pw (world s1)) = frame_bytes (write_of s (chunk s)) :: sw_out (pw (world s))))
    as (lr & s1 & (-> & Hf1 & Hu & Ho) & Hm).
  { apply wp_round_send; try done. intros s1 H1 H2 H3. eexists. by split. }
  exists s1. split; [done|]. split.
  - unfold rounds_left. rewrite Hu, length_app. unfold zlen in Hc. destruct (contents (rx (pdrv s))); [done|].
    destruct (contents (rx (pdrv s1))); lia.
  - intros n (lr' & s' & fs & Hr & Hf' & He & [Hfs Hcat] & Ho'). exists lr', s', (write_of s (chunk s) :: fs).
    rewrite Hm, Hu, Ho', Ho. cbn [fmap list_fmap rev]. rewrite <- app_assoc. split_and!; try done. split.
    + constructor; [|done]. split_and!; [apply write_ok; [apply Hf|lia]|done|apply Hc..].
    + cbn [fmap list_fmap concat]. by rewrite <- Hcat.
Qed.

Lemma drain_runs undef k lrecv s :
  (rounds_left s <= k)%nat -> flowing s -> 0 <= lrecv -> (contents (rx (pdrv s)) = [] -> lrecv < VC_PULL_TIME) ->
  exists n, (n <= rounds_left s)%nat /\ drains undef n lrecv s.
Proof.
  revert lrecv s. induction k as [|k IH]; intros lrecv s Hk Hf Hl0 Hl1.
  - exists O. split; [lia|]. apply drained; [done|]. apply length_zero_iff_nil.
    unfold rounds_left in Hk. destruct (contents (rx (pdrv s))); lia.
  - destruct (decide (contents (rx (pdrv s)) = [])) as [He|Hne].
    + destruct (decide (xmit_fifo (tty (pdrv s)) = [])) as [Hx|Hx].
      { exists O. split; [lia|]. apply drained; [done|]. unfold stream_up, view. cbn [p_up p_fifo]. by rewrite He, Hx. }
      destruct (drains_fill undef lrecv s Hf He Hx) as (s1 & Hf1 & Hc1 & Hm & Hd); [by split; [|apply Hl1]|].
      destruct (IH (lrecv + 1) s1) as (n & Hn & Hr); [lia|done|lia|done|]. exists (S n). split; [lia|by apply Hd].
    + destruct (drains_send undef lrecv s Hf Hne) as (s1 & Hf1 & Hm & Hd).
      destruct (IH 0 s1) as (n & Hn & Hr); [lia|done|lia|done|]. exists (S n). split; [lia|by apply Hd].
Qed.

(** C15: what the application has written leaves the port.  With a device that
    acknowledges every write packet, on a port that is open with its attributes
    reported, at most two rounds of the loop for each byte bring the daemon to a
    state where nothing the application wrote is left, in the ring or in the fifo
    of the serial core; the packets sent meanwhile are write packets of at most
    [XMIT_LEN] bytes whose payloads, in the order they were sent, are the bytes
    the application had written; and the daemon is ready for more. *)
Theorem stream_drained (undef : list Z -> list Z) (lrecv : Z) (s : St peer_world) :
  flowing s -> 0 <= lrecv < VC_PULL_TIME ->
  exists n, (n <= 2 * length (stream_up (view (pdrv s))))%nat /\
  exists lrecv' s' fs, main_loop undef n lrecv s = Ok (Some lrecv') s' /\ flowing s' /\
    stream_up (view (pdrv s')) = [] /\
    Forall (fun f => frame_ok f /\ f_cmd f = VCOM_CMD_WRITE /\ 0 < zlen (f_ext f) <= XMIT_LEN) fs /\
    concat (f_ext <$> fs) = stream_up (view (pdrv s)) /\
    sw_out (pw (world s')) = rev (frame_bytes <$> fs) ++ sw_out (pw (world s)).
Proof.
  intros Hf Hl. destruct (drain_runs undef (rounds_left s) lrecv s) as (n & Hn & Hd); [lia|done|lia|lia|].
  exists n. split; [unfold rounds_left in Hn; lia|].
  destruct Hd as (lr & s' & fs & Hr & Hf' & He & [Hfs Hc] & Ho). exists lr, s', fs. by split_and!.
Qed.

(** *** A run *)

(** The connected port once its attributes were reported: six bytes in the ring
    and two more in the fifo. *)
Definition settled_st : St sim_world := result_state (try_op OpIoctl) ready_st.
Definition with_peer (bs : list byte) (s : St sim_world) : St peer_world :=
  let d := sw_drv (world s) in
  mk_st (at_ s) (mk_peer (sw_set_in [] (sw_set_drv (set_tty (tty_write bs (tty d)) d) (world s)))) (pre_excp_t s) (rbuf s).
Definition full_st : St peer_world := with_peer (be 2 78) settled_st.

Lemma with_peer_G (tls : bool) bs l c o s : @G sim_world tls l c o s -> @G peer_world tls l c o (with_peer bs s).
Proof. intros []. by constructor. Qed.

Lemma settled_G : @G sim_world false [S_netdown; S_netup] true 1 settled_st.
Proof.
  apply Inv_top; [|by left|vm_compute; reflexivity].
  assert (Hd : drv_okb writing_port = true) by (vm_compute; reflexivity).
  pose proof (@wp_try_op sim_world _ _ _ _ false OpIoctl ready_st (connected_Inv false writing_port Hd) I) as Hw.
  destruct (wp_result _ _ _ Hw) as [_ Hi]. exact Hi.
Qed.

Lemma full_st_flows : flowing full_st.
Proof.
  constructor; [| |vm_compute; reflexivity|vm_compute; reflexivity|split_and!; vm_compute; reflexivity].
  - constructor; [|vm_compute; reflexivity|vm_compute; discriminate|vm_compute; intuition congruence|vm_compute; reflexivity..].
    apply with_peer_G, settled_G.
  - constructor; [concrete_drv_ok|unfold geometry; vm_compute; intuition congruence|vm_compute; reflexivity..].
Qed.

Lemma stream_drained_witness :
  exists n lrecv' s' fs, (n <= 16)%nat /\ main_loop (fun l => l) n 5 full_st = Ok (Some lrecv') s' /\
    stream_up (view (pdrv s')) = [] /\ concat (f_ext <$> fs) = be 6 77 ++ be 2 78.
Proof.
  destruct (stream_drained (fun l => l) 5 full_st full_st_flows) as (n & Hn & lr & s' & fs & Hr & _ & He & _ & Hc & _);
    [vm_compute; split; [discriminate|reflexivity]|].
  assert (Hs : stream_up (view (pdrv full_st)) = be 6 77 ++ be 2 78) by (vm_compute; reflexivity).
  rewrite Hs in Hn, Hc. exists n, lr, s', fs. by split_and!.
Defined.
