(* ===== verification/AdvList.v ===== *)
(** * The intrusive list of [shared/container/advlist.h]

    The circular doubly linked list behind the wait list of [vc_connect].  The
    memory is one map per field of [struct list_head]; a node that is in neither
    is not allocated, and touching it faults ([None]).  The specification is the
    list of the nodes: every operation of the header is the operation on it,
    and the deleting loop visits every node once. *)

From stdpp Require Import gmap.
From S2P Require Import Prelude.



(** A pointer; 0 is the null pointer. *)
Definition LIST_POISON1 : Z := 0.
Definition LIST_POISON2 : Z := 0.

Record heap := mk_heap { next : gmap Z Z; prev : gmap Z Z }.

(** [p->next = v] and [p->prev = v] *)
Definition set_next (p v : Z) (h : heap) : option heap :=
  _ ← next h !! p; Some (mk_heap (<[p := v]> (next h)) (prev h)).
Definition set_prev (p v : Z) (h : heap) : option heap :=
  _ ← prev h !! p; Some (mk_heap (next h) (<[p := v]> (prev h))).

Definition INIT_LIST_HEAD (head : Z) (h : heap) : option heap :=
  h ← set_next head head h;
  set_prev head head h.

Definition list_empty (head : Z) (h : heap) : option bool :=
  n ← next h !! head; Some (n =? head).

Definition __list_add (new_lst prv nxt : Z) (h : heap) : option heap :=
  h ← set_prev nxt new_lst h;
  h ← set_next new_lst nxt h;
  h ← set_prev new_lst prv h;
  set_next prv new_lst h.

Definition list_add (new_lst head : Z) (h : heap) : option heap :=
  n ← next h !! head; __list_add new_lst head n h.

Definition list_add_tail (new_lst head : Z) (h : heap) : option heap :=
  p ← prev h !! head; __list_add new_lst p head h.

Definition __list_del (prv nxt : Z) (h : heap) : option heap :=
  h ← set_prev nxt prv h;
  set_next prv nxt h.

Definition list_del (entry : Z) (h : heap) : option heap :=
  p ← prev h !! entry;
  n ← next h !! entry;
  h ← __list_del p n h;
  h ← set_next entry LIST_POISON1 h;
  set_prev entry LIST_POISON2 h.

(** [list_for_each_safe(pos, n, head)] around a body that may change the memory
    and a state of its own; [n] is read before the body runs. *)
Fixpoint for_each_safe {A} (fuel : nat) (body : Z -> A -> heap -> option (A * heap))
    (head pos n : Z) (a : A) (h : heap) : option (A * heap) :=
  match fuel with
  | O => None
  | S fuel =>
      if pos =? head then Some (a, h) else
      r ← body pos a h;
      let '(a, h) := r in
      let pos := n in
      n ← next h !! pos;
      for_each_safe fuel body head pos n a h
  end.

Definition list_for_each_safe {A} (fuel : nat) body (head : Z) (a : A) (h : heap) : option (A * heap) :=
  pos ← next h !! head;
  n ← next h !! pos;
  for_each_safe fuel body head pos n a h.

(** [free] of a node. *)
Definition free_node (p : Z) (h : heap) : option heap :=
  _ ← next h !! p; Some (mk_heap (delete p (next h)) (delete p (prev h))).

(** ** The list in memory *)

(** From [x] along the field [f] through [l] to [y]. *)
Fixpoint seg (f : gmap Z Z) (x : Z) (l : list Z) (y : Z) : Prop :=
  match l with
  | [] => f !! x = Some y
  | z :: l => f !! x = Some z /\ seg f z l y
  end.

(** The nodes [l] hang between [hd] and [hd], in this order along [next] and in
    the other order along [prev]. *)
Definition dll (h : heap) (hd : Z) (l : list Z) : Prop :=
  NoDup (hd :: l) /\ seg (next h) hd l hd /\ seg (prev h) hd (reverse l) hd.

Lemma seg_app f x l1 z l2 y : seg f x (l1 ++ z :: l2) y <-> seg f x l1 z /\ seg f z l2 y.
Proof. revert x. induction l1 as [|w l1 IH]; intros x; simpl; [done|]. rewrite IH. tauto. Qed.

(** A field that agrees on the nodes the segment leaves from. *)
Lemma seg_agree f g x l y :
  seg f x l y -> (forall k, k ∈ x :: l -> g !! k = f !! k) -> seg g x l y.
Proof.
  revert x. induction l as [|z l IH]; intros x; simpl; intros Hs Hg.
  - rewrite Hg; [done|by left].
  - destruct Hs as [Hx Hs]. split; [rewrite Hg; [done|by left]|].
    apply IH; [done|]. intros k Hk. apply Hg. by right.
Qed.

Lemma seg_frame f x l y k v : seg f x l y -> k ∉ x :: l -> seg (<[k := v]> f) x l y.
Proof.
  intros Hs Hk. eapply seg_agree; [done|]. intros j Hj. apply lookup_insert_ne. by intros ->.
Qed.

(** The node a segment ends at is changed by a write to its last node. *)
Lemma seg_retarget f x l y z :
  seg f x l y -> NoDup (x :: l) -> seg (<[default x (last l) := z]> f) x l z.
Proof.
  revert x. induction l as [|w l IH]; intros x Hs Hn.
  - simpl. by rewrite lookup_insert_eq.
  - destruct Hs as [Hx Hs]. apply NoDup_cons in Hn as [Hxl Hn].
    assert (Hl : default x (last (w :: l)) = default w (last l)) by (rewrite last_cons; by destruct (last l)).
    rewrite Hl. split; [|by apply IH]. rewrite lookup_insert_ne; [done|]. intros E. apply Hxl.
    rewrite <- E. destruct (last l) as [u|] eqn:Eu; simpl; [|by left].
    right. apply last_Some in Eu as [l' ->]. apply elem_of_app. right. by left.
Qed.

Lemma seg_alloc f x l y k : seg f x l y -> k ∈ x :: l -> is_Some (f !! k).
Proof.
  revert x. induction l as [|z l IH]; intros x Hs Hk; simpl in Hs.
  - apply list_elem_of_singleton in Hk as ->. by eexists.
  - destruct Hs as [Hx Hs]. apply elem_of_cons in Hk as [->|Hk]; [by eexists|by eapply IH].
Qed.

(** The node behind a part [l] of the ring. *)
Abbreviation succ hd l := (default hd (head l)).
Abbreviation pred hd l := (default hd (last l)).

Lemma ring_node (l : list Z) hd : default hd (last l) ∈ hd :: l.
Proof.
  destruct (last l) as [x|] eqn:E; [|by left]. apply last_Some in E as [l' ->].
  right. apply elem_of_app. right. by left.
Qed.

Lemma ring_insert f hd l1 l2 new :
  seg f hd (l1 ++ l2) hd -> NoDup (hd :: l1 ++ l2) -> new ∉ hd :: l1 ++ l2 ->
  seg (<[pred hd l1 := new]> (<[new := succ hd l2]> f)) hd (l1 ++ new :: l2) hd.
Proof.
  intros Hs Hn Hnew. pose proof (ring_node l1 hd) as Hp.
  assert (Hn1 : NoDup (hd :: l1)) by (apply (NoDup_app (hd :: l1) l2) in Hn; apply Hn).
  assert (Hnew1 : new ∉ hd :: l1) by (intros Hin; apply Hnew; apply (elem_of_app (hd :: l1)); by left).
  assert (Hpn : pred hd l1 <> new) by (by intros <-). apply seg_app. destruct l2 as [|b l2].
  - rewrite app_nil_r in *. split.
    + apply (seg_retarget _ _ _ hd); [|done]. by apply seg_frame.
    + simpl. by rewrite lookup_insert_ne, lookup_insert_eq.
  - apply seg_app in Hs as [Hs1 Hs2]. split; [|split].
    + apply (seg_retarget _ _ _ b); [|done]. by apply seg_frame.
    + simpl. by rewrite lookup_insert_ne, lookup_insert_eq.
    + apply (NoDup_app (hd :: l1) (b :: l2)) in Hn as (_ & Hdis & _). apply seg_frame.
      * apply seg_frame; [done|]. intros Hin. apply Hnew. apply (elem_of_app (hd :: l1)). by right.
      * by apply Hdis.
Qed.

Lemma ring_remove f hd l1 e l2 :
  seg f hd (l1 ++ e :: l2) hd -> NoDup (hd :: l1 ++ e :: l2) ->
  seg (<[pred hd l1 := succ hd l2]> f) hd (l1 ++ l2) hd.
Proof.
  intros Hs Hn. pose proof (ring_node l1 hd) as Hp. apply seg_app in Hs as [Hs1 Hs2].
  apply (NoDup_app (hd :: l1) (e :: l2)) in Hn as (Hn1 & Hdis & _). destruct l2 as [|b l2].
  - rewrite app_nil_r. by apply (seg_retarget _ _ _ e).
  - destruct Hs2 as [_ Hs2]. apply seg_app. split; [by apply (seg_retarget _ _ _ e)|].
    apply seg_frame; [done|]. intros Hin. apply (Hdis _ Hp). by right.
Qed.

(** ** The operations refine the list *)

Lemma dll_alloc h hd l k : dll h hd l -> k ∈ hd :: l -> is_Some (next h !! k) /\ is_Some (prev h !! k).
Proof.
  intros (_ & Hf & Hb) Hk. split; [by eapply seg_alloc|].
  eapply seg_alloc; [exact Hb|]. rewrite elem_of_cons, elem_of_reverse. by apply elem_of_cons in Hk.
Qed.

(** A field write to an allocated node succeeds. *)
Lemma set_next_ok p v h : is_Some (next h !! p) ->
  set_next p v h = Some (mk_heap (<[p := v]> (next h)) (prev h)).
Proof. intros [x Hx]. unfold set_next. by rewrite Hx. Qed.

Lemma set_prev_ok p v h : is_Some (prev h !! p) ->
  set_prev p v h = Some (mk_heap (next h) (<[p := v]> (prev h))).
Proof. intros [x Hx]. unfold set_prev. by rewrite Hx. Qed.

Lemma alloc_insert (f : gmap Z Z) k v p : is_Some (f !! p) -> is_Some (<[k := v]> f !! p).
Proof. rewrite lookup_insert_is_Some. destruct (decide (k = p)); auto. Qed.

(** A node that is allocated and not linked yet. *)
Definition fresh (h : heap) (hd : Z) (l : list Z) (new : Z) : Prop :=
  (new ∉ hd :: l) /\ is_Some (next h !! new) /\ is_Some (prev h !! new).

Lemma head_reverse_app (l : list Z) hd : succ hd (reverse l) = pred hd l.
Proof. by rewrite head_reverse. Qed.

Lemma last_reverse_app (l : list Z) hd : pred hd (reverse l) = succ hd l.
Proof. by rewrite last_reverse. Qed.

Lemma succ_node (l : list Z) hd : succ hd l ∈ hd :: l.
Proof. rewrite <- last_reverse_app. pose proof (ring_node (reverse l) hd) as Hr.
  rewrite elem_of_cons, elem_of_reverse in Hr. by apply elem_of_cons. Qed.

Lemma node_first (l1 l2 : list Z) hd e : hd :: l1 ++ e :: l2 ≡ₚ e :: hd :: l1 ++ l2.
Proof. rewrite <- Permutation_middle. apply perm_swap. Qed.

Lemma __list_add_spec h hd l1 l2 new :
  dll h hd (l1 ++ l2) -> fresh h hd (l1 ++ l2) new ->
  exists h', __list_add new (pred hd l1) (succ hd l2) h = Some h' /\ dll h' hd (l1 ++ new :: l2).
Proof.
  intros Hd (Hnew & Hnx & Hpx). pose proof Hd as (Hn & Hf & Hb).
  assert (Hp : pred hd l1 ∈ hd :: l1 ++ l2).
  { pose proof (ring_node l1 hd) as Hr. apply (elem_of_app (hd :: l1)). by left. }
  assert (Hs : succ hd l2 ∈ hd :: l1 ++ l2).
  { pose proof (succ_node l2 hd) as Hr. apply elem_of_cons in Hr as [->|Hr]; [by left|].
    right. apply elem_of_app. by right. }
  destruct (dll_alloc _ _ _ _ Hd Hp) as [Hpn Hpp]. destruct (dll_alloc _ _ _ _ Hd Hs) as [Hsn Hsp].
  unfold __list_add. rewrite set_prev_ok by done. cbn [mbind option_bind].
  rewrite set_next_ok by done. cbn [mbind option_bind].
  rewrite set_prev_ok by (simpl; by apply alloc_insert). cbn [mbind option_bind].
  rewrite set_next_ok by (simpl; by apply alloc_insert). eexists. split; [reflexivity|].
  assert (Hsne : succ hd l2 <> new) by (intros E; by rewrite E in Hs).
  split; [|split]; cbn [next prev].
  - rewrite node_first. by apply NoDup_cons.
  - by apply ring_insert.
  - rewrite reverse_app, reverse_cons, <- app_assoc. cbn [app].
    rewrite insert_insert_ne by done.
    rewrite <- (last_reverse_app l2), <- (head_reverse_app l1).
    rewrite reverse_app in Hb. apply ring_insert; [done| |].
    + by rewrite <- reverse_app, reverse_Permutation.
    + intros Hin. apply Hnew. rewrite <- reverse_app, elem_of_cons, elem_of_reverse in Hin.
      by apply elem_of_cons.
Qed.

Lemma list_add_spec h hd l new :
  dll h hd l -> fresh h hd l new -> exists h', list_add new hd h = Some h' /\ dll h' hd (new :: l).
Proof.
  intros Hd Hn. unfold list_add. pose proof Hd as (_ & Hf & _).
  assert (Hx : next h !! hd = Some (succ hd l)) by (destruct l; simpl in *; [done|apply Hf]).
  rewrite Hx. exact (__list_add_spec h hd [] l new Hd Hn).
Qed.

Lemma list_add_tail_spec h hd l new :
  dll h hd l -> fresh h hd l new -> exists h', list_add_tail new hd h = Some h' /\ dll h' hd (l ++ [new]).
Proof.
  intros Hd Hn. unfold list_add_tail. pose proof Hd as (_ & _ & Hb).
  assert (Hx : prev h !! hd = Some (pred hd l)).
  { rewrite <- head_reverse_app. destruct (reverse l); simpl in *; [done|apply Hb]. }
  rewrite Hx. apply (__list_add_spec h hd l [] new); by rewrite app_nil_r.
Qed.

Lemma list_empty_spec h hd l : dll h hd l -> list_empty hd h = Some (bool_decide (l = [])).
Proof.
  intros (Hn & Hf & _). unfold list_empty. destruct l as [|x l]; cbn [seg] in Hf.
  - rewrite Hf. cbn. by rewrite Z.eqb_refl.
  - destruct Hf as [-> _]. rewrite bool_decide_eq_false_2 by done. cbn. f_equal.
    apply Z.eqb_neq. intros ->. apply NoDup_cons in Hn as [Hn _]. apply Hn. by left.
Qed.

Lemma init_spec h hd : is_Some (next h !! hd) -> is_Some (prev h !! hd) ->
  exists h', INIT_LIST_HEAD hd h = Some h' /\ dll h' hd [].
Proof.
  intros Hn Hp. unfold INIT_LIST_HEAD. rewrite set_next_ok by done. cbn [mbind option_bind].
  rewrite set_prev_ok by done. eexists. split; [reflexivity|]. split; [apply NoDup_singleton|].
  split; simpl; apply lookup_insert_eq.
Qed.

(** What follows and precedes a linked node. *)
Lemma dll_fields h hd l1 e l2 : dll h hd (l1 ++ e :: l2) ->
  next h !! e = Some (succ hd l2) /\ prev h !! e = Some (pred hd l1).
Proof.
  intros (_ & Hf & Hb). split.
  - apply seg_app in Hf as [_ Hf]. destruct l2; simpl in *; [done|apply Hf].
  - rewrite reverse_app, reverse_cons, <- app_assoc in Hb. cbn [app] in Hb.
    apply seg_app in Hb as [_ Hb]. rewrite <- head_reverse_app.
    destruct (reverse l1); simpl in *; [done|apply Hb].
Qed.

Lemma list_del_spec h hd l1 e l2 :
  dll h hd (l1 ++ e :: l2) ->
  exists h', list_del e h = Some h' /\ dll h' hd (l1 ++ l2) /\
    next h' !! e = Some LIST_POISON1 /\ prev h' !! e = Some LIST_POISON2.
Proof.
  intros Hd. pose proof Hd as (Hn & Hf & Hb). destruct (dll_fields _ _ _ _ _ Hd) as [Hne Hpe].
  assert (He : e ∈ hd :: l1 ++ e :: l2) by (right; apply elem_of_app; right; by left).
  assert (Hp : pred hd l1 ∈ hd :: l1 ++ e :: l2).
  { pose proof (ring_node l1 hd) as Hr. apply (elem_of_app (hd :: l1)). by left. }
  assert (Hs : succ hd l2 ∈ hd :: l1 ++ e :: l2).
  { pose proof (succ_node l2 hd) as Hr. apply elem_of_cons in Hr as [->|Hr]; [by left|].
    right. apply elem_of_app. right. by right. }
  destruct (dll_alloc _ _ _ _ Hd Hp) as [Hpn _]. destruct (dll_alloc _ _ _ _ Hd Hs) as [_ Hsp].
  destruct (dll_alloc _ _ _ _ Hd He) as [Hen Hep].
  unfold list_del, __list_del. rewrite Hpe. cbn [mbind option_bind]. rewrite Hne. cbn [mbind option_bind].
  rewrite set_prev_ok by done. cbn [mbind option_bind].
  rewrite set_next_ok by done. cbn [mbind option_bind].
  rewrite set_next_ok by (simpl; by apply alloc_insert). cbn [mbind option_bind].
  rewrite set_prev_ok by (simpl; by apply alloc_insert). eexists. split; [reflexivity|].
  pose proof Hn as Hn'. rewrite node_first in Hn'. apply NoDup_cons in Hn' as [Hout Hn'].
  split; [|simpl; split; apply lookup_insert_eq]. split; [|split]; cbn [next prev].
  - done.
  - apply seg_frame; [|done]. by eapply ring_remove.
  - apply seg_frame; [|by rewrite elem_of_cons, elem_of_reverse; rewrite elem_of_cons in Hout].
    rewrite reverse_app. rewrite <- (last_reverse_app l2), <- (head_reverse_app l1).
    rewrite reverse_app, reverse_cons, <- app_assoc in Hb. cbn [app] in Hb.
    eapply ring_remove; [exact Hb|].
    assert (Hperm : hd :: reverse l2 ++ e :: reverse l1 ≡ₚ hd :: l1 ++ e :: l2).
    { rewrite <- !Permutation_middle, <- reverse_app, reverse_Permutation. done. }
    by rewrite Hperm.
Qed.

(** A freed node was not part of the list. *)
Lemma free_spec h hd l x : dll h hd l -> x ∉ hd :: l -> is_Some (next h !! x) ->
  exists h', free_node x h = Some h' /\ dll h' hd l /\ next h' !! x = None.
Proof.
  intros (Hn & Hf & Hb) Hx [v Hv]. unfold free_node. rewrite Hv. eexists. split; [reflexivity|].
  cbn [next prev]. split; [|apply lookup_delete_eq]. split; [done|]. split.
  - eapply seg_agree; [exact Hf|]. intros k Hk. apply lookup_delete_ne. by intros ->.
  - eapply seg_agree; [exact Hb|]. intros k Hk. apply lookup_delete_ne. intros ->.
    apply Hx. rewrite elem_of_cons, elem_of_reverse in Hk. by apply elem_of_cons.
Qed.

(** ** The deleting loop

    The loops of [vc_connect] look at each entry and either leave it or take it
    out and free it; what they decide may depend on what they saw before. *)

Section walk.
Context {A : Type} (choose : A -> Z -> bool * A).

Definition visit (pos : Z) (a : A) (h : heap) : option (A * heap) :=
  let '(drop, a) := choose a pos in
  if drop then h ← list_del pos h; h ← free_node pos h; Some (a, h) else Some (a, h).

(** The same on the list of entries: the final state and the entries left. *)
Fixpoint walk (a : A) (l : list Z) : A * list Z :=
  match l with
  | [] => (a, [])
  | x :: l =>
      let '(drop, a) := choose a x in
      let '(a, l) := walk a l in
      (a, if drop then l else x :: l)
  end.

Lemma visit_spec h hd k x r a :
  dll h hd (k ++ x :: r) ->
  exists h', visit x a h = Some (snd (choose a x), h') /\
    dll h' hd ((if fst (choose a x) then k else k ++ [x]) ++ r).
Proof.
  intros Hd. unfold visit. destruct (choose a x) as [[] a']; simpl.
  - destruct (list_del_spec _ _ _ _ _ Hd) as (h1 & -> & Hd1 & Hn1 & _). cbn [mbind option_bind].
    destruct Hd as (Hn & _). rewrite node_first in Hn. apply NoDup_cons in Hn as [Hx _].
    destruct (free_spec _ _ _ _ Hd1 Hx) as (h2 & -> & Hd2 & _); [by eexists|].
    eexists. split; [reflexivity|]. exact Hd2.
  - eexists. split; [reflexivity|]. by rewrite <- app_assoc.
Qed.

Lemma for_each_walk fuel : forall h hd k r a n,
  dll h hd (k ++ r) -> (length r < fuel)%nat -> (r <> [] -> n = succ hd (tail r)) ->
  exists h', for_each_safe fuel visit hd (succ hd r) n a h = Some (fst (walk a r), h') /\
    dll h' hd (k ++ snd (walk a r)).
Proof.
  induction fuel as [|fuel IH]; intros h hd k r a n Hd Hl Hn; [simpl in Hl; lia|]. cbn [for_each_safe].
  destruct r as [|x r].
  - simpl. rewrite Z.eqb_refl. eexists. by split.
  - specialize (Hn ltac:(done)). simpl in Hn. subst n. change (succ hd (x :: r)) with x.
    assert (Hne : x <> hd).
    { destruct Hd as (Hnd & _). apply NoDup_cons in Hnd as [Hnd _]. intros ->. apply Hnd.
      apply elem_of_app. right. by left. }
    rewrite (proj2 (Z.eqb_neq x hd) Hne).
    destruct (visit_spec h hd k x r a Hd) as (h1 & -> & Hd1). cbn [mbind option_bind].
    assert (Hnext : exists n', next h1 !! succ hd r = Some n' /\ (r <> [] -> n' = succ hd (tail r))).
    { destruct r as [|y r].
      - destruct (dll_alloc _ _ _ hd Hd1) as [[v Hv] _]; [by left|]. exists v. by split.
      - eexists. split; [|by intros _]. by apply (dll_fields _ _ _ _ _ Hd1). }
    destruct Hnext as (n' & -> & Hn'). cbn [mbind option_bind].
    destruct (IH h1 hd _ r (snd (choose a x)) n' Hd1) as (h2 & Hrun & Hd2); [simpl in Hl; lia|done|].
    rewrite Hrun. cbn [walk]. destruct (choose a x) as [drop a'] eqn:Ec. cbn [fst snd] in *.
    destruct (walk a' r) as [a'' r'] eqn:Ew. cbn [fst snd] in *. eexists. split; [reflexivity|].
    destruct drop; [done|]. by rewrite <- app_assoc in Hd2.
Qed.
End walk.

(** ** Sequences of operations *)

Inductive list_op := L_add (x : Z) | L_add_tail (x : Z) | L_del (x : Z).

Definition list_do (hd : Z) (h : heap) (o : list_op) : option heap :=
  match o with
  | L_add x => list_add x hd h
  | L_add_tail x => list_add_tail x hd h
  | L_del x => list_del x h
  end.

(** The specification: an entry is added once and deleted when it is there;
    [pool] are the entries that exist. *)
Definition list_spec (pool : gset Z) (hd : Z) (l : list Z) (o : list_op) : option (list Z) :=
  match o with
  | L_add x => if bool_decide (x ∈ pool /\ x ∉ hd :: l) then Some (x :: l) else None
  | L_add_tail x => if bool_decide (x ∈ pool /\ x ∉ hd :: l) then Some (l ++ [x]) else None
  | L_del x => if bool_decide (x ∈ l) then Some (filter (.≠ x) l) else None
  end.

Fixpoint list_run (hd : Z) (h : heap) (os : list list_op) : option heap :=
  match os with [] => Some h | o :: os => h ← list_do hd h o; list_run hd h os end.

Fixpoint list_spec_run (pool : gset Z) (hd : Z) (l : list Z) (os : list list_op) : option (list Z) :=
  match os with
  | [] => Some l
  | o :: os => l ← list_spec pool hd l o; list_spec_run pool hd l os
  end.

Definition allocated (h : heap) (pool : gset Z) : Prop :=
  forall k, k ∈ pool -> is_Some (next h !! k) /\ is_Some (prev h !! k).

Lemma set_allocated h h' p v pool :
  set_next p v h = Some h' \/ set_prev p v h = Some h' -> allocated h pool -> allocated h' pool.
Proof.
  unfold set_next, set_prev. intros [Hs|Hs] Ha k Hk; specialize (Ha k Hk) as [Hn Hp].
  - destruct (next h !! p); [|done]. injection Hs as <-. simpl. split; [by apply alloc_insert|done].
  - destruct (prev h !! p); [|done]. injection Hs as <-. simpl. split; [done|by apply alloc_insert].
Qed.

(** The operations allocate and free nothing. *)
Ltac allocated_go :=
  repeat match goal with
  | E : set_next _ _ ?g = Some ?g', Ha : allocated ?g _ |- _ =>
      eapply set_allocated in Ha; [|left; exact E]; clear E
  | E : set_prev _ _ ?g = Some ?g', Ha : allocated ?g _ |- _ =>
      eapply set_allocated in Ha; [|right; exact E]; clear E
  | E : _ ≫= _ = Some _ |- _ => apply bind_Some in E as (? & ? & E)
  end; done.

Lemma list_do_allocated hd h o h' pool :
  list_do hd h o = Some h' -> allocated h pool -> allocated h' pool.
Proof.
  intros Hd Ha. destruct o; simpl in Hd;
    unfold list_add, list_add_tail, list_del, __list_add, __list_del in Hd; allocated_go.
Qed.

Lemma filter_out l1 e (l2 : list Z) : NoDup (l1 ++ e :: l2) -> filter (.≠ e) (l1 ++ e :: l2) = l1 ++ l2.
Proof.
  intros Hn. apply NoDup_app in Hn as (Hn1 & Hd & Hn2). apply NoDup_cons in Hn2 as [He Hn2].
  assert (Hid : forall l : list Z, e ∉ l -> filter (.≠ e) l = l).
  { induction l as [|x l IH]; intros Hx; [done|]. apply not_elem_of_cons in Hx as [Hx Hl].
    rewrite filter_cons_True by done. by rewrite IH. }
  rewrite filter_app, filter_cons_False by (by intros []). rewrite !Hid; [done|done|].
  intros Hin. apply (Hd e Hin). by left.
Qed.

Lemma list_do_refines pool hd h l o l' :
  dll h hd l -> allocated h pool -> list_spec pool hd l o = Some l' ->
  exists h', list_do hd h o = Some h' /\ dll h' hd l' /\ allocated h' pool.
Proof.
  intros Hd Ha Hs. assert (Hgo : exists h', list_do hd h o = Some h' /\ dll h' hd l').
  { destruct o; simpl in Hs; case_bool_decide as Hx; try done; injection Hs as <-.
    - destruct Hx as [Hp Hx]. apply list_add_spec; [done|]. by split; [|apply Ha].
    - destruct Hx as [Hp Hx]. apply list_add_tail_spec; [done|]. by split; [|apply Ha].
    - apply list_elem_of_split in Hx as (l1 & l2 & ->).
      destruct (list_del_spec _ _ _ _ _ Hd) as (h' & Hdel & Hd' & _). exists h'. split; [done|].
      rewrite filter_out; [done|]. destruct Hd as (Hn & _). by apply NoDup_cons in Hn as [_ ?]. }
  destruct Hgo as (h' & Hdo & Hd'). exists h'. split_and!; [done|done|]. by eapply list_do_allocated.
Qed.

Lemma list_run_refines pool hd os : forall h l0 l,
  dll h hd l0 -> allocated h pool -> list_spec_run pool hd l0 os = Some l ->
  exists h', list_run hd h os = Some h' /\ dll h' hd l.
Proof.
  induction os as [|o os IH]; intros h l0 l Hd Ha Hs; simpl in Hs.
  - injection Hs as <-. by exists h.
  - apply bind_Some in Hs as (l1 & Ho & Hs).
    destruct (list_do_refines pool hd h l0 o l1 Hd Ha Ho) as (h1 & Hdo & Hd1 & Ha1).
    cbn [list_run]. rewrite Hdo. cbn [mbind option_bind]. by apply (IH h1 l1).
Qed.

(** C21: the intrusive list is a list.  From an initialised head, every sequence
    of [list_add], [list_add_tail] and [list_del] that the list of entries
    accepts touches allocated memory only and leaves the pointers of exactly
    that list, in both directions; [list_empty] tells whether it is empty. *)
Theorem advlist_refines pool hd h os l :
  allocated h ({[hd]} ∪ pool) -> list_spec_run pool hd [] os = Some l ->
  exists h0 h', INIT_LIST_HEAD hd h = Some h0 /\ list_run hd h0 os = Some h' /\ dll h' hd l /\
    list_empty hd h' = Some (bool_decide (l = [])).
Proof.
  intros Ha Hs. destruct (init_spec h hd) as (h0 & Hinit & Hd0); [apply Ha, elem_of_union_l, elem_of_singleton_2; done..|].
  assert (Ha0 : allocated h0 pool).
  { intros k Hk. unfold INIT_LIST_HEAD in Hinit. apply bind_Some in Hinit as (h1 & H1 & H2).
    eapply set_allocated; [right; exact H2| |exact Hk]. eapply set_allocated; [left; exact H1|].
    intros j Hj. by apply Ha, elem_of_union_r. }
  destruct (list_run_refines pool hd os h0 [] l Hd0 Ha0 Hs) as (h' & Hr & Hd').
  exists h0, h'. split_and!; [done..|by apply list_empty_spec].
Qed.

(** The deleting loop is safe.  A pass of [list_for_each_safe] that takes out
    and frees any of the entries, deciding on each one by what it saw before,
    visits every entry exactly once in order, never touches freed memory, ends,
    and leaves the list of the entries it kept. *)
Theorem for_each_safe_walks {A} (choose : A -> Z -> bool * A) h hd l a :
  dll h hd l ->
  exists h', list_for_each_safe (S (length l)) (visit choose) hd a h = Some (fst (walk choose a l), h') /\
    dll h' hd (snd (walk choose a l)).
Proof.
  intros Hd. unfold list_for_each_safe.
  assert (Hf : next h !! hd = Some (succ hd l)).
  { destruct Hd as (_ & Hf & _). destruct l; simpl in *; [done|apply Hf]. }
  rewrite Hf. cbn [mbind option_bind].
  assert (Hn : exists n, next h !! succ hd l = Some n /\ (l <> [] -> n = succ hd (tail l))).
  { destruct l as [|x l].
    - exists hd. by split.
    - eexists. split; [|by intros _]. by apply (dll_fields _ _ [] _ _ Hd). }
  destruct Hn as (n & -> & Hn). cbn [mbind option_bind].
  apply (for_each_walk choose (S (length l)) h hd [] l a n); [done|lia|done].
Qed.

(** Three entries, 10, 20 and 30, and a head at 1. *)
Definition sample_heap : heap :=
  let f := <[1 := 0]> (<[10 := 0]> (<[20 := 0]> (<[30 := 0]> (∅ : gmap Z Z)))) in mk_heap f f.
Definition sample_ops : list list_op := [L_add_tail 10; L_add_tail 20; L_add 30; L_del 10].

Lemma advlist_refines_witness :
  exists h0 h', INIT_LIST_HEAD 1 sample_heap = Some h0 /\ list_run 1 h0 sample_ops = Some h' /\
    dll h' 1 [30; 20] /\ list_empty 1 h' = Some (bool_decide ([30; 20] = [])).
Proof.
  apply (advlist_refines {[10; 20; 30]} 1 sample_heap sample_ops [30; 20]); [|by vm_compute].
  intros k Hk. rewrite !elem_of_union, !elem_of_singleton in Hk.
  by destruct Hk as [->|[[->| ->]| ->]].
Defined.

(** 10 and 20 linked behind the head. *)
Definition linked_heap : heap :=
  mk_heap (<[1 := 10]> (<[10 := 20]> (<[20 := 1]> ∅))) (<[1 := 20]> (<[20 := 10]> (<[10 := 1]> ∅))).

Lemma for_each_safe_walks_witness :
  dll linked_heap 1 [10; 20] /\ exists h',
    list_for_each_safe 3 (visit (fun a x => (x =? 10, a ++ [x]))) 1 [] linked_heap = Some ([10; 20], h') /\
    dll h' 1 [20].
Proof.
  assert (Hd : dll linked_heap 1 [10; 20]).
  { split; [|split; [by split|by split]]. apply (bool_decide_unpack (NoDup [1; 10; 20])). exact I. }
  split; [exact Hd|].
  exact (for_each_safe_walks (fun a x => (x =? 10, a ++ [x])) linked_heap 1 [10; 20] [] Hd).
Defined.

