(* ===== verification/ConnList.v ===== *)
(** * The wait list of [vc_connect] in memory

    [Connect] takes the wait list of [vc_connect] for a list of descriptors.  Here
    it is what the program has: entries that are allocated, linked into the circular
    list of [shared/container/advlist.h], walked by its macros, taken out and freed.
    An access to an entry that is not allocated is a fault.

    [rel p q] says that a program [p] does what the program [q] does, call for
    call; the theorem is that [vc_connect] in memory does what [vc_connect] of
    [Connect] does and leaves the memory as it was. *)

From stdpp Require Import gmap.
From S2P Require Import Prelude RingBuf Tty Uart DrvMain Os SimWorld Vcom Connect AdvList.

(** ** The memory *)

(** The fields of [struct list_head], and [sk] of [_client_info] by the address of
    the structure. *)
Record cmem := mk_cmem { c_list : heap; c_sk : gmap Z Z }.

(** The list is the second field, behind an [int] and its padding. *)
Definition list_offset : Z := 8.
Definition container_of (ptr : Z) : Z := ptr - list_offset.

Definition on_list (f : heap -> option heap) (m : cmem) : option cmem :=
  h ← f (c_list m); Some (mk_cmem h (c_sk m)).

(** [p->sk = v] *)
Definition set_client_sk (p v : Z) (m : cmem) : option cmem :=
  _ ← c_sk m !! p; Some (mk_cmem (c_list m) (<[p := v]> (c_sk m))).

(** What [malloc] returned becomes an entry with any contents. *)
Definition new_client (p junk : Z) (m : cmem) : cmem :=
  let x := p + list_offset in
  mk_cmem (mk_heap (<[x := junk]> (next (c_list m))) (<[x := junk]> (prev (c_list m)))) (<[p := junk]> (c_sk m)).

(** [free] of an entry. *)
Definition free_client (p : Z) (m : cmem) : option cmem :=
  _ ← c_sk m !! p;
  h ← free_node (p + list_offset) (c_list m);
  Some (mk_cmem h (delete p (c_sk m))).

(** An entry is made and appended. *)
Definition add_client (hd p junk sk : Z) (m : cmem) : option cmem :=
  m ← set_client_sk p sk (new_client p junk m);
  on_list (list_add_tail (p + list_offset) hd) m.

(** An entry is taken out and freed. *)
Definition drop_client (p : Z) (m : cmem) : option cmem :=
  m ← on_list (list_del (p + list_offset)) m;
  free_client p m.

(** ** [vc_connect] *)

(** The allocator: where the next entry goes. *)
Class Malloc := {
  malloc : cmem -> Z;
  junk : cmem -> Z;
  malloc_fresh m : c_sk m !! malloc m = None /\
    next (c_list m) !! (malloc m + list_offset) = None /\ prev (c_list m) !! (malloc m + list_offset) = None;
}.

Section connect.
Context {W : Type} `{Os W} `{Malloc}.
(** The address of [clients]. *)
Context (hd : Z).

Fixpoint sklist_mem (family : Z) (ifa : ifaddr) (result : list addrinfo) (sk : Z) (m : cmem) : Prog W (Z * cmem) :=
  match result with
  | [] => mret (sk, m)
  | ptr :: result =>
      if negb (ai_family ptr =? family) then sklist_mem family ifa result sk m else
      sk ← sys (fun w => sys_socket w (ai_family ptr));
      if sk <? 0 then sklist_mem family ifa result sk m else
      b ← sys (fun w => sys_bind w sk (ifa_addr ifa));
      if b <? 0 then
        sys_ (fun w => sys_close w sk);;
        sklist_mem family ifa result sk m
      else
      _ ← vc_config_sock sk VC_SKOPT_NONBLOCK;
      r ← sys (fun w => sys_connect w sk (ai_addr ptr));
      let '(ret, errno) := r in
      if (ret <? 0) && negb (errno =? EINPROGRESS) then
        sys_ (fun w => sys_close w sk);;
        sklist_mem family ifa result (-1) m
      else if ret =? 0 then mret (sk, m)
      else
        m ← lift (add_client hd (malloc m) (junk m) sk m);
        sklist_mem family ifa result (-1) m
  end.

Definition create_mem (addr : Z) (ifa : ifaddr) (m : cmem) : Prog W (Z * cmem) :=
  let family := default AF_UNSPEC (ifa_family ifa) in
  r ← sys (fun w => getaddrinfo w addr);
  match r with
  | None => mret (-1, m)
  | Some result => sklist_mem family ifa result (-1) m
  end.

Fixpoint ifa_mem (ip_red : option Z) (ifaddr : list ifaddr) (addr sk : Z) (m : cmem) : Prog W (Z * cmem) :=
  match ifaddr with
  | [] => mret (sk, m)
  | ifa :: ifaddr =>
      r ← create_mem addr ifa m;
      let '(sk, m) := r in
      r ← match ip_red with
          | Some red =>
              if sk <? 0 then r ← create_mem red ifa m; mret (red, fst r, snd r)
              else mret (addr, sk, m)
          | None => mret (addr, sk, m)
          end;
      let '(addr, sk, m) := r in
      if 0 <=? sk then mret (sk, m)
      else ifa_mem ip_red ifaddr addr sk m
  end.

(** [list_for_each]: the set of the descriptors and the largest one. *)
Fixpoint fds_loop (fuel : nat) (m : cmem) (list_ptr : Z) (rfds : list Z) (skmax : Z) : option (list Z * Z) :=
  match fuel with
  | O => None
  | S fuel =>
      if list_ptr =? hd then Some (rfds, skmax) else
      sk ← c_sk m !! container_of list_ptr;
      n ← next (c_list m) !! list_ptr;
      fds_loop fuel m n (rfds ++ [sk]) (if skmax <? sk then sk else skmax)
  end.

(** The first [list_for_each_safe]. *)
Fixpoint pick_mem (fuel : nat) (ready : list Z) (list_ptr nxt : Z) (sk : Z) (m : cmem) : Prog W (Z * cmem) :=
  match fuel with
  | O => nofuel
  | S fuel =>
      if list_ptr =? hd then mret (sk, m) else
      let continue m :=
        n ← lift (next (c_list m) !! nxt);
        pick_mem fuel ready nxt n sk m in
      c ← lift (c_sk m !! container_of list_ptr);
      if negb (bool_decide (c ∈ ready)) then continue m else
      e ← _sock_err c;
      if truthy e then
        sys_ (fun w => sys_close w c);;
        m ← lift (drop_client (container_of list_ptr) m);
        _stk_log;;
        continue m
      else
        m ← lift (drop_client (container_of list_ptr) m);
        mret (c, m)
  end.

(** The number of entries in memory bounds the walks along the list. *)
Definition room (m : cmem) : nat := S (size (next (c_list m))).

Fixpoint wait_mem (fuel : nat) (tv : Z) (sk : Z) (m : cmem) : Prog W (Z * cmem) :=
  match fuel with
  | O => nofuel
  | S fuel =>
      if 0 <=? sk then mret (sk, m) else
      pos ← lift (next (c_list m) !! hd);
      r ← lift (fds_loop (room m) m pos [] (-1));
      let '(rfds, skmax) := r in
      sel ← sys (fun w => sys_select w [] (List.filter (fun x => x <=? skmax) rfds) [] tv);
      let '(ret, (_, ready, _), tv) := sel in
      if ret <=? 0 then _stk_log;; mret (sk, m)
      else
      pos ← lift (next (c_list m) !! hd);
      n ← lift (next (c_list m) !! pos);
      r ← pick_mem (room m) ready pos n sk m;
      wait_mem fuel tv (fst r) (snd r)
  end.

(** The second [list_for_each_safe]. *)
Fixpoint close_mem (fuel : nat) (list_ptr nxt : Z) (m : cmem) : Prog W cmem :=
  match fuel with
  | O => nofuel
  | S fuel =>
      if list_ptr =? hd then mret m else
      c ← lift (c_sk m !! container_of list_ptr);
      sys_ (fun w => sys_close w c);;
      m ← lift (drop_client (container_of list_ptr) m);
      n ← lift (next (c_list m) !! nxt);
      close_mem fuel nxt n m
  end.

(** [LIST_HEAD(clients)] initialises the head. *)
Definition vc_connect_mem (m : cmem) : Prog W (Z * cmem) :=
  addr ← gets ip_ptr;
  red ← gets ip_red;
  sk ← uninit_int;
  m ← lift (on_list (INIT_LIST_HEAD hd) m);
  ifs ← sys getifaddrs;
  match ifs with
  | None => _stk_log;; mret (-1, m)
  | Some ifaddr =>
      r ← ifa_mem red ifaddr addr sk m;
      let '(sk, m) := r in
      e ← lift (list_empty hd (c_list m));
      if (e : bool) then _stk_log;; mret (sk, m)
      else
      r ← wait_mem (room m) (CONN_TO * 1000000) sk m;
      let '(sk, m) := r in
      pos ← lift (next (c_list m) !! hd);
      n ← lift (next (c_list m) !! pos);
      m ← close_mem (room m) pos n m;
      when (0 <=? sk)
        (_ ← vc_config_sock sk VC_SKOPT_BLOCK;
         sys_ (fun w => set_nodelay w sk));;
      mret (sk, m)
  end.
End connect.

(** ** Programs that do the same *)

Section rel.
Context {W : Type}.

(** From every state the calls have the same effect and the results are related; a
    [q] that runs out of fuel says nothing. *)
Definition rel {A B} (R : A -> B -> Prop) (p : Prog W A) (q : Prog W B) : Prop := forall s,
  match p s, q s with
  | Ok a s1, Ok b s2 => s1 = s2 /\ R a b
  | Exited s1, Exited s2 => s1 = s2
  | Fault, Fault => True
  | _, NoFuel => True
  | _, _ => False
  end.

Lemma rel_ret {A B} (R : A -> B -> Prop) a b : R a b -> rel R (mret a) (mret b).
Proof. intros HR s. by split. Qed.

Lemma rel_refl {A} (p : Prog W A) : rel eq p p.
Proof. intros s. by destruct (p s). Qed.

Lemma rel_bind {A B C D} (R : A -> B -> Prop) (R' : C -> D -> Prop) p q (k : A -> Prog W C) (k' : B -> Prog W D) :
  rel R p q -> (forall a b, R a b -> rel R' (k a) (k' b)) -> rel R' (p ≫= k) (q ≫= k').
Proof.
  intros Hp Hk s. specialize (Hp s). unfold mbind, prog_bind.
  destruct (p s) as [a s1|s1| |], (q s) as [b s2|s2| |]; try done.
  - destruct Hp as [-> HR]. apply (Hk a b HR s2).
  - by destruct (k a s1).
Qed.

Lemma rel_same {A C D} (R' : C -> D -> Prop) (p : Prog W A) k (k' : A -> Prog W D) :
  (forall a, rel R' (k a) (k' a)) -> rel R' (p ≫= k) (p ≫= k').
Proof. intros Hk. apply (rel_bind eq); [apply rel_refl|]. by intros a ? <-. Qed.

Lemma rel_lift {A C D} (R' : C -> D -> Prop) (x : option A) a k (q : Prog W D) :
  x = Some a -> rel R' (k a) q -> rel R' (lift x ≫= k) q.
Proof. by intros ->. Qed.

Lemma rel_after {A B D} (R : A -> B -> Prop) (R' : A -> D -> Prop) p q (f : B -> D) :
  rel R p q -> (forall a b, R a b -> R' a (f b)) -> rel R' p (q ≫= fun b => mret (f b)).
Proof.
  intros Hp Hf s. specialize (Hp s). unfold mbind, prog_bind, mret, prog_ret.
  destruct (p s), (q s); try done. destruct Hp. eauto.
Qed.

Lemma rel_if {A B} (R : A -> B -> Prop) (b : bool) p1 p2 q1 q2 :
  (b = true -> rel R p1 q1) -> (b = false -> rel R p2 q2) -> rel R (if b then p1 else p2) (if b then q1 else q2).
Proof. destruct b; auto. Qed.

Lemma rel_mono {A B} (R R' : A -> B -> Prop) p q : rel R p q -> (forall a b, R a b -> R' a b) -> rel R' p q.
Proof. intros Hp Hi s. specialize (Hp s). destruct (p s), (q s); try done. destruct Hp. eauto. Qed.
End rel.

(** ** What the list operations leave alone *)

Definition touches (ks : list Z) (h h' : heap) : Prop :=
  forall k, k ∉ ks -> next h' !! k = next h !! k /\ prev h' !! k = prev h !! k.

Lemma touches_weaken ks ks' h h' : touches ks h h' -> (forall k, k ∈ ks -> k ∈ ks') -> touches ks' h h'.
Proof. intros Ht Hs k Hk. apply Ht. auto. Qed.

Lemma touches_trans ks h1 h2 h3 : touches ks h1 h2 -> touches ks h2 h3 -> touches ks h1 h3.
Proof. intros H1 H2 k Hk. destruct (H1 k Hk), (H2 k Hk). split; congruence. Qed.

Lemma set_next_touches p v ks h h' : p ∈ ks -> set_next p v h = Some h' -> touches ks h h'.
Proof.
  intros Hp Hs k Hk. apply bind_Some in Hs as (? & _ & [= <-]). cbn [next prev].
  split; [|done]. apply lookup_insert_ne. by intros ->.
Qed.

Lemma set_prev_touches p v ks h h' : p ∈ ks -> set_prev p v h = Some h' -> touches ks h h'.
Proof.
  intros Hp Hs k Hk. apply bind_Some in Hs as (? & _ & [= <-]). cbn [next prev].
  split; [done|]. apply lookup_insert_ne. by intros ->.
Qed.

Lemma list_add_touches new prv nxt h h' : __list_add new prv nxt h = Some h' -> touches [new; prv; nxt] h h'.
Proof.
  intros (h1 & H1 & (h2 & H2 & (h3 & H3 & H4)%bind_Some)%bind_Some)%bind_Some.
  eapply touches_trans; [eapply set_prev_touches; [|exact H1]; set_solver|].
  eapply touches_trans; [eapply set_next_touches; [|exact H2]; set_solver|].
  eapply touches_trans; [eapply set_prev_touches; [|exact H3]; set_solver|].
  eapply set_next_touches; [|exact H4]; set_solver.
Qed.

Lemma list_add_tail_touches h hd l new h' : dll h hd l ->
  list_add_tail new hd h = Some h' -> touches (new :: hd :: l) h h'.
Proof.
  intros Hd (p & Hp & Ha)%bind_Some. apply list_add_touches in Ha. eapply touches_weaken; [exact Ha|].
  assert (Hin : p ∈ hd :: l); [|set_solver]. pose proof Hd as (_ & _ & Hb).
  assert (Hx : prev h !! hd = Some (default hd (last l))).
  { rewrite <- head_reverse. destruct (reverse l); simpl in *; [done|apply Hb]. }
  rewrite Hx in Hp. injection Hp as <-. apply ring_node.
Qed.

Lemma list_del_touches h hd l1 e l2 h' : dll h hd (l1 ++ e :: l2) ->
  list_del e h = Some h' -> touches (hd :: l1 ++ e :: l2) h h'.
Proof.
  intros Hd. destruct (dll_fields _ _ _ _ _ Hd) as [Hn Hp]. unfold list_del, __list_del.
  rewrite Hp, Hn. cbn [mbind option_bind].
  intros (h2 & (h1 & H1 & H2)%bind_Some & (h3 & H3 & H4)%bind_Some)%bind_Some.
  pose proof (ring_node l1 hd). pose proof (succ_node l2 hd).
  eapply touches_trans; [eapply set_prev_touches; [|exact H1]; set_solver|].
  eapply touches_trans; [eapply set_next_touches; [|exact H2]; set_solver|].
  eapply touches_trans; [eapply set_next_touches; [|exact H3]; set_solver|].
  eapply set_prev_touches; [|exact H4]; set_solver.
Qed.

(** ** The wait list in memory *)

(** The entries at [l] hold the descriptors [cl]; everything else is as in [m0],
    where the entries were not allocated. *)
Record waits (m0 : cmem) (hd : Z) (l cl : list Z) (m : cmem) : Prop := {
  W_list : dll (c_list m) hd l;
  W_sk : Forall2 (fun x c => c_sk m !! container_of x = Some c) l cl;
  W_touch : touches (hd :: l) (c_list m0) (c_list m);
  W_others : forall k, (forall x, x ∈ l -> container_of x <> k) -> c_sk m !! k = c_sk m0 !! k;
  W_new : forall x, x ∈ l -> c_sk m0 !! container_of x = None /\
    next (c_list m0) !! x = None /\ prev (c_list m0) !! x = None;
}.

(** The head as [LIST_HEAD] leaves it. *)
Definition list_ready (hd : Z) (m : cmem) : Prop :=
  next (c_list m) !! hd = Some hd /\ prev (c_list m) !! hd = Some hd.

Lemma waits_none m0 hd : list_ready hd m0 -> waits m0 hd [] [] m0.
Proof.
  intros [Hn Hp]. constructor; try done; [|set_solver]. split; [apply NoDup_singleton|done].
Qed.

(** Nothing waits any more: the memory is what it was. *)
Lemma waits_done m0 hd m : list_ready hd m0 -> waits m0 hd [] [] m -> m = m0.
Proof.
  intros [Hn Hp] [(_ & Hf & Hb) _ Ht Ho _]. destruct m as [[n p] s], m0 as [[n0 p0] s0]. cbn [c_list c_sk next prev seg reverse] in *.
  assert (Hk : forall k, k <> hd -> n !! k = n0 !! k /\ p !! k = p0 !! k).
  { intros k Hk. apply (Ht k). set_solver. }
  f_equal; [f_equal|]; apply map_eq; intros k.
  - destruct (decide (k = hd)) as [->|E]; [congruence|by apply Hk].
  - destruct (decide (k = hd)) as [->|E]; [|by apply Hk]. by rewrite Hp, Hb.
  - apply Ho. set_solver.
Qed.

Lemma container_inj x y : container_of x = container_of y -> x = y.
Proof. unfold container_of. lia. Qed.

Lemma container_entry p : container_of (p + list_offset) = p.
Proof. unfold container_of. lia. Qed.

Lemma entry_container x : container_of x + list_offset = x.
Proof. unfold container_of. lia. Qed.

(** An address that is not allocated is none of the entries. *)
Lemma waits_fresh m0 hd l cl m x : waits m0 hd l cl m -> next (c_list m) !! x = None -> x ∉ hd :: l.
Proof.
  intros Hw Hx Hin. destruct (dll_alloc _ _ _ _ (W_list _ _ _ _ _ Hw) Hin) as [[y Hy] _]. congruence.
Qed.

Lemma add_waits m0 hd l cl m p j sk : waits m0 hd l cl m ->
  c_sk m !! p = None -> next (c_list m) !! (p + list_offset) = None -> prev (c_list m) !! (p + list_offset) = None ->
  exists m', add_client hd p j sk m = Some m' /\ waits m0 hd (l ++ [p + list_offset]) (cl ++ [sk]) m'.
Proof.
  intros Hw Hsk Hn Hp. pose proof (waits_fresh _ _ _ _ _ _ Hw Hn) as Hf. destruct Hw as [Hd Hs Ht Ho Hnew].
  set (x := p + list_offset) in *. unfold add_client, set_client_sk, new_client, on_list. fold x. cbn [c_sk c_list].
  rewrite lookup_insert_eq. cbn [mbind option_bind c_list c_sk]. rewrite insert_insert_eq.
  set (h1 := mk_heap _ _).
  assert (Ht1 : touches [x] (c_list m) h1).
  { intros k Hk. cbn [next prev h1]. rewrite !lookup_insert_ne by set_solver. done. }
  assert (Hd1 : dll h1 hd l).
  { destruct Hd as (Hnd & Hseg & Hsegb). split; [done|]. cbn [next prev h1].
    split; (apply seg_frame; [done|]); [done|]. rewrite elem_of_cons, elem_of_reverse. by rewrite elem_of_cons in Hf. }
  destruct (list_add_tail_spec h1 hd l x) as (h2 & Hadd & Hd2); [done| |].
  { split; [done|]. cbn [next prev h1]. rewrite !lookup_insert_eq. by split; eexists. }
  rewrite Hadd. cbn [mbind option_bind]. eexists. split; [done|].
  pose proof (list_add_tail_touches _ _ _ _ _ Hd1 Hadd) as Ht2.
  assert (Hold : forall y, y ∈ l -> container_of y <> p).
  { intros y Hy E. apply Hf. right. unfold container_of in E. subst p. unfold x. by replace (y - list_offset + list_offset) with y by lia. }
  constructor; cbn [c_list c_sk].
  - done.
  - apply Forall2_app; [|constructor; [unfold x; rewrite container_entry; apply lookup_insert_eq|constructor]].
    apply Forall2_same_length_lookup_2; [by eapply Forall2_length|]. intros i y c Hy Hc.
    rewrite lookup_insert_ne; [exact (Forall2_lookup_lr _ _ _ _ _ _ Hs Hy Hc)|]. intros E. eapply Hold; [by eapply list_elem_of_lookup_2|done].
  - intros k Hk. destruct (Ht2 k) as [-> ->]; [set_solver|]. destruct (Ht1 k) as [-> ->]; [set_solver|]. apply Ht. set_solver.
  - intros k Hk. rewrite lookup_insert_ne; [apply Ho; set_solver|]. intros <-. apply (Hk x); [set_solver|]. apply container_entry.
  - intros y [Hy|Hy%list_elem_of_singleton]%elem_of_app; [by apply Hnew|]. subst y. unfold x at 1. rewrite container_entry.
    split; [rewrite <- Ho; [done|exact Hold]|]. destruct (Ht x Hf) as [<- <-]. done.
Qed.

Lemma drop_waits m0 hd k x r ck c cr m : length k = length ck ->
  waits m0 hd (k ++ x :: r) (ck ++ c :: cr) m ->
  exists m', drop_client (container_of x) m = Some m' /\ waits m0 hd (k ++ r) (ck ++ cr) m'.
Proof.
  intros Hlen [Hd Hs Ht Ho Hnew].
  apply Forall2_app_inv in Hs as [Hsk (Hc & Hsr)%Forall2_cons]; [|done].
  destruct (list_del_spec _ _ _ _ _ Hd) as (h1 & Hdel & Hd1 & Hn1 & _).
  pose proof (list_del_touches _ _ _ _ _ _ Hd Hdel) as Ht1.
  pose proof Hd as (Hnd & _). rewrite node_first in Hnd. apply NoDup_cons in Hnd as [Hx Hnd].
  destruct (free_spec _ _ _ _ Hd1 Hx) as (h2 & Hfree & Hd2 & Hx2); [by eexists|].
  unfold drop_client, on_list, free_client. rewrite entry_container, Hdel. cbn [mbind option_bind c_list c_sk].
  rewrite Hc. cbn [mbind option_bind c_list c_sk]. rewrite Hfree. cbn [mbind option_bind]. eexists. split; [done|].
  assert (Hh2 : h2 = mk_heap (delete x (next h1)) (delete x (prev h1))).
  { unfold free_node in Hfree. apply bind_Some in Hfree as (? & _ & [= <-]). done. }
  assert (Hne : forall y, y ∈ k ++ r -> container_of y <> container_of x).
  { intros y Hy E%container_inj. subst y. apply Hx. by right. }
  assert (Hkeep : forall l' cl', (forall y, y ∈ l' -> y ∈ k ++ r) ->
    Forall2 (fun x c => c_sk m !! container_of x = Some c) l' cl' ->
    Forall2 (fun y c => delete (container_of x) (c_sk m) !! container_of y = Some c) l' cl').
  { intros l' cl' Hin Hf. apply Forall2_same_length_lookup_2; [by eapply Forall2_length|]. intros i y d Hy Hd'.
    rewrite lookup_delete_ne; [exact (Forall2_lookup_lr _ _ _ _ _ _ Hf Hy Hd')|].
    intros E. eapply Hne; [apply Hin; by eapply list_elem_of_lookup_2|done]. }
  constructor; cbn [c_list c_sk]; [done|..].
  - apply Forall2_app; apply Hkeep; try done; set_solver.
  - intros j Hj. subst h2. cbn [next prev]. destruct (decide (j = x)) as [->|E].
    + rewrite !lookup_delete_eq. destruct (Hnew x) as (_ & -> & ->); [set_solver|done].
    + rewrite !lookup_delete_ne by done. destruct (Ht1 j) as [-> ->]; [set_solver|]. apply Ht. set_solver.
  - intros j Hj. destruct (decide (container_of x = j)) as [<-|E].
    + rewrite lookup_delete_eq. destruct (Hnew x) as (-> & _); [set_solver|done].
    + rewrite lookup_delete_ne by done. apply Ho. set_solver.
  - intros y Hy. apply Hnew. set_solver.
Qed.

(** ** The loops *)

Section loops.
Context {W : Type} `{Os W} `{Malloc} (m0 : cmem) (hd : Z).

(** A result of the program in memory and of the one on lists. *)
Definition same_list (a : Z * cmem) (b : Z * list Z) : Prop :=
  fst a = fst b /\ exists l, waits m0 hd l (snd b) (snd a).

(** The first and the following entry of what is left of a walk. *)
Lemma waits_next l cl m k r : waits m0 hd l cl m -> l = k ++ r ->
  exists n, next (c_list m) !! default hd (head r) = Some n /\ (r <> [] -> n = default hd (head (tail r))).
Proof.
  intros Hw ->. pose proof (W_list _ _ _ _ _ Hw) as Hd. destruct r as [|y r].
  - destruct (dll_alloc _ _ _ hd Hd) as [[v Hv] _]; [by left|]. exists v. by split.
  - eexists. split; [|by intros _]. by apply (dll_fields _ _ _ _ _ Hd).
Qed.

Lemma waits_first l cl m : waits m0 hd l cl m -> next (c_list m) !! hd = Some (default hd (head l)).
Proof.
  intros Hw. destruct (W_list _ _ _ _ _ Hw) as (_ & Hf & _). destruct l; simpl in *; [done|apply Hf].
Qed.

(** The walk is not at its end yet. *)
Lemma waits_inside k x r cl m : waits m0 hd (k ++ x :: r) cl m -> (x =? hd) = false.
Proof.
  intros Hw. destruct (W_list _ _ _ _ _ Hw) as (Hn & _). apply Z.eqb_neq. intros ->.
  apply NoDup_cons in Hn as [Hn _]. apply Hn. set_solver.
Qed.

Lemma waits_entry k x r ck c cr m : length k = length ck -> waits m0 hd (k ++ x :: r) (ck ++ c :: cr) m ->
  c_sk m !! container_of x = Some c.
Proof. intros Hl [_ Hs _ _ _]. by apply Forall2_app_inv in Hs as [_ (Hc & _)%Forall2_cons]. Qed.

Lemma waits_split k r ck cl m : waits m0 hd (k ++ r) (ck ++ cl) m -> length k = length ck ->
  Forall2 (fun x c => c_sk m !! container_of x = Some c) r cl.
Proof. intros [_ Hs _ _ _] Hl. by apply Forall2_app_inv in Hs as [_ ?]. Qed.

(** The memory holds the head and the entries. *)
Lemma waits_room l cl m : waits m0 hd l cl m -> (S (length l) < room m)%nat.
Proof.
  intros Hw. unfold room. apply Nat.lt_succ_r. destruct (W_list _ _ _ _ _ Hw) as (Hn & _).
  rewrite <- size_dom. change (S (length l)) with (length (hd :: l)).
  rewrite <- (size_list_to_set (C := gset Z) (hd :: l) Hn). apply subseteq_size. intros x Hx.
  apply elem_of_list_to_set in Hx. apply elem_of_dom. by apply (dll_alloc _ _ _ _ (W_list _ _ _ _ _ Hw)).
Qed.

Lemma waits_same_length l cl m : waits m0 hd l cl m -> length l = length cl.
Proof. intros [_ Hs _ _ _]. by eapply Forall2_length. Qed.

Lemma sklist_rel family ifa : forall result sk m l cl, waits m0 hd l cl m ->
  rel same_list (sklist_mem hd family ifa result sk m) (sklist_loop family ifa result sk cl).
Proof.
  induction result as [|ptr result IH]; intros sk m l cl Hw; cbn [sklist_mem sklist_loop].
  - apply rel_ret. split; [done|]. by exists l.
  - apply rel_if; intros _; [by eapply IH|]. apply rel_same. intros x. apply rel_if; intros _; [by eapply IH|].
    apply rel_same. intros b. apply rel_if; intros _; [apply rel_same; intros []; by eapply IH|].
    apply rel_same. intros _. apply rel_same. intros [ret errno].
    apply rel_if; intros _; [apply rel_same; intros []; by eapply IH|].
    apply rel_if; intros _; [apply rel_ret; split; [done|by exists l]|].
    destruct (malloc_fresh m) as (H1 & H2 & H3). destruct (add_waits _ _ _ _ _ _ (junk m) x Hw H1 H2 H3) as (m' & E & Hw').
    eapply rel_lift; [exact E|]. by eapply IH.
Qed.

Lemma create_rel addr ifa m l cl : waits m0 hd l cl m ->
  rel same_list (create_mem hd addr ifa m) (_create_sklist cl addr ifa).
Proof.
  intros Hw. unfold create_mem, _create_sklist. apply rel_same. intros [result|]; [by eapply sklist_rel|].
  apply rel_ret. split; [done|]. by exists l.
Qed.

Lemma ifa_rel red : forall ifs addr sk m l cl, waits m0 hd l cl m ->
  rel same_list (ifa_mem hd red ifs addr sk m) (ifa_loop red ifs addr sk cl).
Proof.
  induction ifs as [|ifa ifs IH]; intros addr sk m l cl Hw; cbn [ifa_mem ifa_loop].
  - apply rel_ret. split; [done|]. by exists l.
  - eapply rel_bind; [by eapply create_rel|]. intros [x m1] [y cl1] [E (l1 & Hw1)]. cbn [fst snd] in *. subst y.
    apply (rel_bind (fun a b => a.1.1 = b.1.1 /\ same_list (a.1.2, a.2) (b.1.2, b.2))).
    + assert (Hsame : same_list (x, m1) (x, cl1)) by (split; [done|by exists l1]).
      destruct red as [r|]; [|by apply rel_ret]. apply rel_if; intros _; [|by apply rel_ret].
      eapply rel_bind; [by eapply create_rel|]. intros [x2 m2] [y2 cl2] H2. by apply rel_ret.
    + intros [[a x2] m2] [[b y2] cl2] [E [E2 (l2 & Hw2)]]. cbn [fst snd] in *. subst b y2.
      apply rel_if; intros _; [apply rel_ret; split; [done|by exists l2]|by eapply IH].
Qed.

(** The set holds the descriptors that wait, and none is larger than [skmax]. *)
Lemma fds_loop_all : forall fuel m k r ck cr rf mx, waits m0 hd (k ++ r) (ck ++ cr) m -> length k = length ck ->
  (length r < fuel)%nat -> Forall (fun x => x <= mx) rf ->
  exists mx', fds_loop hd fuel m (default hd (head r)) rf mx = Some (rf ++ cr, mx') /\ Forall (fun x => x <= mx') (rf ++ cr).
Proof.
  induction fuel as [|fuel IH]; intros m k r ck cr rf mx Hw Hl Hf Hmx; [lia|]. cbn [fds_loop].
  pose proof (waits_split _ _ _ _ _ Hw Hl) as Hr. destruct r as [|x r].
  - apply Forall2_nil_inv_l in Hr as ->. simpl. rewrite Z.eqb_refl. exists mx. by rewrite app_nil_r.
  - apply Forall2_cons_inv_l in Hr as (c & cr' & Hc & Hr & ->). change (default hd (head (x :: r))) with x.
    rewrite (waits_inside _ _ _ _ _ Hw), Hc. cbn [mbind option_bind].
    destruct (dll_fields _ _ _ _ _ (W_list _ _ _ _ _ Hw)) as [-> _]. cbn [mbind option_bind].
    destruct (IH m (k ++ [x]) r (ck ++ [c]) cr' (rf ++ [c]) (if mx <? c then c else mx)) as (mx' & E & Hmx').
    + by rewrite <- !app_assoc.
    + rewrite !length_app. simpl. lia.
    + simpl in Hf. lia.
    + apply Forall_app. split; [|constructor; [case_if; lia|constructor]].
      eapply Forall_impl; [exact Hmx|]. intros y Hy. cbv beta in *. destruct (Z.ltb_spec mx c); lia.
    + exists mx'. rewrite <- !app_assoc in *. by split.
Qed.

Lemma filter_upto mx l : Forall (fun x => x <= mx) l -> List.filter (fun x => x <=? mx) l = l.
Proof. induction 1 as [|x l Hx _ IH]; [done|]. cbn [List.filter]. rewrite (proj2 (Z.leb_le _ _) Hx). by f_equal. Qed.

Lemma pick_rel ready sk : forall fuel m k r ck cr n, waits m0 hd (k ++ r) (ck ++ cr) m -> length k = length ck ->
  (length r < fuel)%nat -> (r <> [] -> n = default hd (head (tail r))) ->
  rel (fun a b => same_list a (fst b, ck ++ snd b)) (pick_mem hd fuel ready (default hd (head r)) n sk m) (pick_ready ready cr sk).
Proof.
  induction fuel as [|fuel IH]; intros m k r ck cr n Hw Hl Hf Hn; [lia|]. cbn [pick_mem].
  pose proof (waits_split _ _ _ _ _ Hw Hl) as Hr. destruct r as [|x r].
  - apply Forall2_nil_inv_l in Hr as ->. simpl. rewrite Z.eqb_refl. apply rel_ret. split; [done|]. by eexists.
  - apply Forall2_cons_inv_l in Hr as (c & cr' & Hc & Hr & ->). change (default hd (head (x :: r))) with x.
    rewrite (waits_inside _ _ _ _ _ Hw). rewrite (Hn ltac:(done)). cbn [tail pick_ready]. eapply rel_lift; [exact Hc|].
    assert (Hdrop : exists m', drop_client (container_of x) m = Some m' /\ waits m0 hd (k ++ r) (ck ++ cr') m')
      by (by apply (drop_waits _ _ _ _ _ _ c)). destruct Hdrop as (m' & Ed & Hw').
    apply rel_if; intros _.
    + destruct (waits_next _ _ _ (k ++ [x]) r Hw) as (n' & En & Hn'); [by rewrite <- app_assoc|].
      eapply rel_lift; [exact En|]. apply (rel_after (fun a b => same_list a (fst b, (ck ++ [c]) ++ snd b))).
      * apply (IH m (k ++ [x]) r (ck ++ [c]) cr'); [by rewrite <- !app_assoc|rewrite !length_app; simpl; lia|simpl in Hf; lia|done].
      * intros a b. by rewrite <- app_assoc.
    + apply rel_same. intros e. apply rel_if; intros _.
      * apply rel_same. intros []. eapply rel_lift; [exact Ed|]. apply rel_same. intros [].
        destruct (waits_next _ _ _ k r Hw' eq_refl) as (n' & En & Hn').
        eapply rel_lift; [exact En|]. apply (IH m' k r ck cr'); [done|done|simpl in Hf; lia|done].
      * eapply rel_lift; [exact Ed|]. apply rel_ret. split; [done|]. by eexists.
Qed.

Lemma wait_rel : forall fuel fuel' tv sk m l cl, waits m0 hd l cl m -> (fuel' <= fuel)%nat ->
  rel same_list (wait_mem hd fuel tv sk m) (wait_loop fuel' tv sk cl).
Proof.
  induction fuel as [|fuel IH]; intros [|fuel'] tv sk m l cl Hw Hf; try lia.
  - intros s. done.
  - intros s. cbn [wait_loop]. unfold nofuel. by destruct (wait_mem _ _ _ _ _ s).
  - cbn [wait_mem wait_loop]. apply rel_if; intros _; [apply rel_ret; split; [done|by exists l]|].
    eapply rel_lift; [by eapply waits_first|]. pose proof (waits_room _ _ _ Hw) as Hroom.
    destruct (fds_loop_all (room m) m [] l [] cl [] (-1) Hw eq_refl ltac:(lia) (Forall_nil_2 _)) as (mx & E & Hmx).
    cbn [app] in E, Hmx. eapply rel_lift; [exact E|]. cbv beta iota. rewrite (filter_upto _ _ Hmx).
    apply rel_same. intros [[ret [[r1 ready] r3]] tv']. apply rel_if; intros _.
    + apply rel_same. intros []. apply rel_ret. split; [done|by exists l].
    + eapply rel_lift; [by eapply waits_first|]. destruct (waits_next _ _ _ [] l Hw eq_refl) as (n & En & Hn).
      eapply rel_lift; [exact En|]. eapply rel_bind; [apply (pick_rel ready sk (room m) m [] l [] cl n Hw); [done|lia|done]|].
      intros [x m1] [y cl1] [E1 (l1 & Hw1)]. cbn [fst snd app] in *. subst y. apply (IH _ _ _ _ l1); [done|lia].
Qed.

Lemma close_rel : forall fuel m l cl n, waits m0 hd l cl m -> (length l < fuel)%nat ->
  (l <> [] -> n = default hd (head (tail l))) ->
  rel (fun m' (_ : unit) => waits m0 hd [] [] m') (close_mem hd fuel (default hd (head l)) n m) (close_all cl).
Proof.
  induction fuel as [|fuel IH]; intros m l cl n Hw Hf Hn; [lia|]. cbn [close_mem].
  pose proof (waits_split [] l [] cl m Hw eq_refl) as Hr. destruct l as [|x l].
  - apply Forall2_nil_inv_l in Hr as ->. simpl. rewrite Z.eqb_refl. by apply rel_ret.
  - apply Forall2_cons_inv_l in Hr as (c & cl' & Hc & Hr & ->). change (default hd (head (x :: l))) with x.
    rewrite (waits_inside [] x l _ _ Hw), (Hn ltac:(done)). cbn [tail close_all]. eapply rel_lift; [exact Hc|].
    apply rel_same. intros []. destruct (drop_waits m0 hd [] x l [] c cl' m eq_refl Hw) as (m' & Ed & Hw').
    eapply rel_lift; [exact Ed|]. destruct (waits_next _ _ _ [] l Hw' eq_refl) as (n' & En & Hn').
    eapply rel_lift; [exact En|]. apply IH; [done|simpl in Hf; lia|done].
Qed.
End loops.

(** The head of a fresh frame, as [LIST_HEAD] initialises it. *)
Lemma list_head_ready hd m : is_Some (next (c_list m) !! hd) -> is_Some (prev (c_list m) !! hd) ->
  exists m', on_list (INIT_LIST_HEAD hd) m = Some m' /\ list_ready hd m' /\
    m' = mk_cmem (mk_heap (<[hd := hd]> (next (c_list m))) (<[hd := hd]> (prev (c_list m)))) (c_sk m).
Proof.
  intros Hn Hp. unfold on_list, INIT_LIST_HEAD. rewrite set_next_ok by done. cbn [mbind option_bind].
  rewrite set_prev_ok by done. cbn [mbind option_bind]. eexists. split; [done|]. split; [|done].
  split; cbn [c_list next prev]; apply lookup_insert_eq.
Qed.

Lemma connect_rel {W} `{Os W} `{Malloc} hd m : is_Some (next (c_list m) !! hd) -> is_Some (prev (c_list m) !! hd) ->
  rel (fun a b => fst a = b /\ on_list (INIT_LIST_HEAD hd) m = Some (snd a)) (vc_connect_mem hd m) (vc_connect (W := W)).
Proof.
  intros Hn Hp. destruct (list_head_ready hd m Hn Hp) as (m0 & E0 & Hready & _).
  unfold vc_connect_mem, vc_connect. apply rel_same. intros addr. apply rel_same. intros red. apply rel_same. intros sk.
  eapply rel_lift; [exact E0|]. apply rel_same. intros [ifs|]; [|apply rel_same; intros []; by apply rel_ret].
  eapply rel_bind; [by apply (ifa_rel m0 hd _ _ _ _ _ [] []), waits_none|].
  intros [x m1] [y cl1] [E (l1 & Hw1)]. cbn [fst snd] in *. subst y.
  eapply rel_lift; [by apply (list_empty_spec _ _ l1), Hw1|].
  pose proof (waits_same_length _ _ _ _ _ Hw1) as Hlen.
  assert (Hb : bool_decide (l1 = []) = bool_decide (cl1 = [])).
  { apply bool_decide_ext. by rewrite <- !length_zero_iff_nil, Hlen. }
  rewrite Hb. apply rel_if; intros Hc; bool_simpl.
  { apply rel_same. intros []. apply rel_ret. split; [done|]. apply bool_decide_eq_true in Hc as ->.
    destruct l1; [|done]. rewrite E0. f_equal. symmetry. by eapply waits_done. }
  pose proof (waits_room _ _ _ _ _ Hw1) as Hroom.
  eapply rel_bind; [apply (wait_rel m0 hd _ _ _ _ _ l1 cl1 Hw1); lia|].
  intros [x2 m2] [y2 cl2] [E2 (l2 & Hw2)]. cbn [fst snd] in *. subst y2.
  eapply rel_lift; [by eapply waits_first|]. destruct (waits_next _ _ _ _ _ [] l2 Hw2 eq_refl) as (n & En & Hn').
  eapply rel_lift; [exact En|]. pose proof (waits_room _ _ _ _ _ Hw2) as Hroom2.
  eapply rel_bind; [apply (close_rel m0 hd _ _ l2 cl2 n Hw2); [lia|done]|].
  intros m3 [] Hw3. apply rel_same. intros []. apply rel_ret. split; [done|]. rewrite E0. f_equal. symmetry. by eapply waits_done.
Qed.

(** C22: [vc_connect] on the linked list.  With an allocator that gives out memory
    that is not in use, [vc_connect] with its allocated entries and the pointers of
    [advlist.h] returns what [vc_connect] with a plain list of descriptors returns
    and makes the same calls in the same order; it touches no entry that is not
    allocated or was freed, every walk along the list ends, and at the end every
    entry was freed: the memory is the one at the start, with the list head empty. *)
Theorem connect_list_refines {W} `{SockLaws W} `{Malloc} (hd : Z) (m : cmem) (s : St W) :
  loggable s -> is_Some (next (c_list m) !! hd) -> is_Some (prev (c_list m) !! hd) ->
  exists sk s', vc_connect s = Ok sk s' /\
    vc_connect_mem hd m s =
      Ok (sk, mk_cmem (mk_heap (<[hd := hd]> (next (c_list m))) (<[hd := hd]> (prev (c_list m)))) (c_sk m)) s'.
Proof.
  intros Hlog Hn Hp. pose proof (connect_rel hd m Hn Hp s) as Hr.
  assert (Hw : wp vc_connect s (fun _ _ => True)).
  { by apply (wp_vc_connect (open_fds (world s)) False); try done; intros []. }
  unfold wp in Hw. destruct (vc_connect s) as [sk s'| | |]; try done. exists sk, s'. split; [done|].
  destruct (vc_connect_mem hd m s) as [[x m'] s1|s1| |]; try done. destruct Hr as [-> [<- Hm]]. cbn [snd fst] in *.
  destruct (list_head_ready hd m Hn Hp) as (m0 & E0 & _ & ->). by simplify_eq.
Qed.

(** The first unused address of a row. *)
Definition used (m : cmem) : gset Z :=
  dom (c_sk m) ∪ set_map container_of (dom (next (c_list m)) ∪ dom (prev (c_list m))).

#[local] Instance bump_malloc : Malloc.
Proof.
  refine {| malloc m := base.fresh (used m); junk _ := 0 |}. intros m.
  pose proof (is_fresh (used m)) as Hf. unfold used in Hf at 2. rewrite !elem_of_union, elem_of_map in Hf.
  split_and!; apply not_elem_of_dom; intros Hin; apply Hf; [by left|right|right];
    eexists; (split; [symmetry; apply container_entry|]); set_solver.
Defined.

(** Net Down with two addresses to try, and a frame with the list head at 1. *)
Lemma connect_list_refines_witness :
  let w := sim_start (fresh_port []) [] in
  let s := down_st (mk_world (sw_drv w) (sw_open w) 4 [] [] (sw_ifs w) [sim_server; sim_server] true true 100) in
  let m := mk_cmem (mk_heap {[1 := 77]} {[1 := 78]}) ∅ in
  exists sk s', vc_connect s = Ok sk s' /\
    vc_connect_mem 1 m s = Ok (sk, mk_cmem (mk_heap {[1 := 1]} {[1 := 1]}) ∅) s'.
Proof.
  intros w s m. destruct (connect_list_refines 1 m s) as (sk & s' & E & Em).
  - split; [vm_compute; congruence|by eexists].
  - by eexists.
  - by eexists.
  - exists sk, s'. split; [exact E|]. exact Em.
Defined.

(** ** A connection that is made at once

    It is returned as soon as the wait list is found empty: the last call is [connect],
    and the socket stays in the non-blocking mode it was put in before. *)
Lemma direct_connect_nonblocking {W} `{Os W} (s : St W) ifa ai x fl w1 w2 w3 w4 w5 w6 w7 :
  loggable s ->
  getifaddrs (world s) = (Some [ifa], w1) -> getaddrinfo w1 (ip_ptr (at_ s)) = (Some [ai], w2) ->
  ai_family ai = default AF_UNSPEC (ifa_family ifa) ->
  sys_socket w2 (ai_family ai) = (x, w3) -> 0 <= x -> sys_bind w3 x (ifa_addr ifa) = (0, w4) ->
  fcntl_getfl w4 x = (fl, w5) -> 0 <= fl -> fcntl_setfl w5 x (Z.lor fl O_NONBLOCK) = (0, w6) ->
  sys_connect w6 x (ai_addr ai) = (0, 0, w7) ->
  vc_connect s = Ok x (mk_st (at_ s) w7 (pre_excp_t s) (rbuf s)).
Proof.
  intros Hlog H1 H2 Hf H3 Hx H4 H5 Hfl H6 H7.
  assert (Hw : wp vc_connect s (fun r s' => r = x /\ s' = mk_st (at_ s) w7 (pre_excp_t s) (rbuf s))).
  { unfold vc_connect, uninit_int, pbuf_of. wp_go. apply wp_sys. rewrite H1. intros ? ? [= <- <-]. cbn [ifa_loop].
    apply wp_bind, wp_bind. unfold _create_sklist. apply wp_bind, wp_sys. cbn [world]. rewrite H2. intros ? ? [= <- <-].
    cbn [sklist_loop]. rewrite Hf, Z.eqb_refl. cbn [negb]. apply wp_bind, wp_sys. cbn [world]. rewrite <- Hf, H3. intros ? ? [= <- <-].
    rewrite (proj2 (Z.ltb_ge _ _)) by lia. apply wp_bind, wp_sys. cbn [world]. rewrite H4. intros ? ? [= <- <-].
    change (0 <? 0) with false. cbv iota. unfold vc_config_sock, __vc_sock_enblock.
    change (VC_SKOPT_NONBLOCK =? VC_SKOPT_BLOCK) with false. change (VC_SKOPT_NONBLOCK =? VC_SKOPT_NONBLOCK) with true.
    cbn [orb Z.eqb]. apply wp_bind, wp_bind, wp_sys. cbn [world]. rewrite H5. intros ? ? [= <- <-].
    rewrite (proj2 (Z.ltb_ge _ _)) by lia. apply wp_bind, wp_sys. cbn [world]. rewrite H6. intros ? ? [= <- <-].
    apply wp_ret, wp_bind, wp_sys. cbn [world]. rewrite H7. intros ? ? [= <- <-].
    apply wp_ret. cbv beta iota. rewrite (proj2 (Z.ltb_ge x 0)) by lia.
    destruct (ip_red _); apply wp_bind, wp_ret; cbv beta iota; rewrite (proj2 (Z.leb_le 0 x)) by lia; apply wp_ret; cbv beta iota;
      rewrite bool_decide_true by done; apply wp_bind, (wp_stk_log); done. }
  unfold wp in Hw. destruct (vc_connect s) as [r s'| | |]; try done. by destruct Hw as [-> ->].
Qed.
