(* ===== verification/Text.v ===== *)
(** * C strings

    The text the programs around the daemon work on: characters as their codes,
    reading a character of a buffer, the bytes of a literal, the string a buffer
    holds up to its null byte, and [snprintf] of a finished text into a buffer of
    a given size. *)

From Stdlib Require String.
From S2P Require Import Prelude.
Export String.StringSyntax.

Definition chr (b : byte) : Z := byte.unsigned b.

(** [m[p]]; outside of the buffer it is a fault. *)
Definition rd (m : list byte) (p : Z) : option Z :=
  if (0 <=? p) && (p <? zlen m) then chr <$> m !! Z.to_nat p else None.

(** The bytes of a literal. *)
Definition lit (s : String.string) : list byte := String.list_byte_of_string s.

(** The string that starts a buffer. *)
Fixpoint cstr (m : list byte) : list byte :=
  match m with
  | [] => []
  | b :: m => if chr b =? 0 then [] else b :: cstr m
  end.

#[global] Arguments lit _%_string_scope.

Definition no_nul (s : list byte) : Prop := Forall (fun b => chr b <> 0) s.

(** [snprintf(&m[off], size, "%s", s)]: at most [size - 1] bytes and a null byte;
    the result is the length of [s].  [size] is a [size_t]. *)
Definition snprintf (off size : Z) (s m : list byte) : option (Z * list byte) :=
  let size := size mod 2 ^ 64 in
  if size =? 0 then Some (zlen s, m) else
  m ← store off (ztake (size - 1) s ++ [Byte.x00]) m; Some (zlen s, m).

Lemma chr_range b : 0 <= chr b < 256.
Proof. apply byte.unsigned_range. Qed.

Lemma chr_inj a b : chr a = chr b -> a = b.
Proof. unfold chr. intros H. rewrite <- (byte.of_Z_unsigned a), H. apply byte.of_Z_unsigned. Qed.

Lemma rd_in m p : 0 <= p < zlen m -> exists c, rd m p = Some c /\ 0 <= c < 256.
Proof.
  intros Hp. unfold rd. rewrite (proj2 (andb_true_iff _ _)) by (rewrite Z.leb_le, Z.ltb_lt; lia).
  destruct (m !! Z.to_nat p) as [b|] eqn:E.
  - exists (chr b). split; [done|apply chr_range].
  - apply lookup_ge_None in E. unfold zlen in Hp. lia.
Qed.

(** The character behind a prefix. *)
Lemma rd_app m b r : rd (m ++ b :: r) (zlen m) = Some (chr b).
Proof.
  unfold rd. pose proof (zlen_nonneg m). pose proof (zlen_nonneg r).
  rewrite (proj2 (andb_true_iff _ _)) by (rewrite Z.leb_le, Z.ltb_lt, zlen_app, zlen_cons; lia).
  unfold zlen. rewrite Nat2Z.id. by rewrite list_lookup_middle.
Qed.

Lemma cstr_no_nul s r : no_nul s -> cstr (s ++ Byte.x00 :: r) = s.
Proof.
  induction 1 as [|b s Hb Hs IH]; [done|]. cbn [app cstr]. rewrite (proj2 (Z.eqb_neq _ _) Hb).
  by rewrite IH.
Qed.

Lemma cstr_all s : no_nul s -> cstr s = s.
Proof. induction 1 as [|b s Hb Hs IH]; [done|]. cbn [cstr]. rewrite (proj2 (Z.eqb_neq _ _) Hb). by rewrite IH. Qed.

(** ** Numbers *)

Definition digit (n : Z) : byte := byte.of_Z (48 + n).

(** [%d] of a number that is not negative, with as many digits as it has. *)
Fixpoint dec_loop (fuel : nat) (n : Z) (acc : list byte) : list byte :=
  match fuel with
  | O => acc
  | S fuel => if n <? 10 then digit n :: acc else dec_loop fuel (n / 10) (digit (n mod 10) :: acc)
  end.
Definition dec (n : Z) : list byte :=
  if n <? 0 then lit "-" ++ dec_loop (S (Z.to_nat (Z.log2 (- n)))) (- n) []
  else dec_loop (S (Z.to_nat (Z.log2 n))) n [].

(** What [isspace] and [isdigit] say, and the number that starts a text. *)
Definition is_space (b : byte) : bool := (chr b =? 32) || ((9 <=? chr b) && (chr b <=? 13)).
Definition is_digit (b : byte) : bool := (48 <=? chr b) && (chr b <=? 57).

Fixpoint skip_blank (s : list byte) : list byte :=
  match s with
  | b :: s' => if is_space b then skip_blank s' else s
  | [] => []
  end.
Fixpoint digits (s : list byte) (acc : Z) : Z :=
  match s with
  | b :: s => if is_digit b then digits s (acc * 10 + (chr b - 48)) else acc
  | [] => acc
  end.

(** [atoi], as the library does it: [strtol], which saturates, then a cast. *)
Definition atoi (s : list byte) : Z :=
  let s := skip_blank s in
  let v := match s with
           | b :: s' => if chr b =? 45 then - digits s' 0 else if chr b =? 43 then digits s' 0 else digits s 0
           | [] => 0
           end in
  s32 (Z.max (- 2 ^ 63) (Z.min (2 ^ 63 - 1) v)).

(** ** Searching and comparing *)

Fixpoint is_prefix (p s : list byte) : bool :=
  match p, s with
  | [], _ => true
  | a :: p, b :: s => bool_decide (a = b) && is_prefix p s
  | _, [] => false
  end.

(** [strstr]: the offset of the first occurrence. *)
Fixpoint strstr (s p : list byte) : option Z :=
  if is_prefix p s then Some 0 else
  match s with
  | [] => None
  | _ :: s => Z.succ <$> strstr s p
  end.

(** [strncmp(a, b, n) == 0] of two strings without a null byte. *)
Definition strncmp_eq (a b : list byte) (n : Z) : bool :=
  bool_decide (ztake n (a ++ [Byte.x00]) = ztake n (b ++ [Byte.x00])).

(** The string at a position of a buffer; it must end in the buffer. *)
Definition str_at (m : list byte) (p : Z) : option (list byte) :=
  if (0 <=? p) && (p <? zlen m) && existsb (fun b => chr b =? 0) (zdrop p m) then Some (cstr (zdrop p m)) else None.

(** The first words of a text, of at most so many bytes each ([%31s] and the like). *)
Fixpoint span_word (n : nat) (s : list byte) : list byte * list byte :=
  match n, s with
  | S n, b :: s' => if is_space b then ([], s) else let '(a, r) := span_word n s' in (b :: a, r)
  | _, _ => ([], s)
  end.
Fixpoint scan_words (ws : list nat) (s : list byte) : list (list byte) :=
  match ws with
  | [] => []
  | w :: ws =>
      match skip_blank s with
      | [] => []
      | s => let '(a, r) := span_word w s in a :: scan_words ws r
      end
  end.

(** [fgets]: a line with its newline, at most [n] bytes of it. *)
Fixpoint fgets (n : nat) (f : list byte) : list byte * list byte :=
  match n, f with
  | S n, b :: f => if chr b =? 10 then ([b], f) else let '(a, r) := fgets n f in (b :: a, r)
  | _, _ => ([], f)
  end.
