(* ===== verification/Jsmn.v ===== *)
(** * The tokenizer [shared/json/jsmn.c]

    Compiled without [JSMN_STRICT] and [JSMN_PARENT_LINKS], as the makefile does,
    and called with an array of tokens.  The array is the list of the tokens
    allocated so far and a capacity; nothing behind them is read.  The functions
    are partial: a read outside of the text or of the tokens is [None]. *)

From S2P Require Import Prelude Text.

Inductive jsmntype := JSMN_UNDEFINED | JSMN_OBJECT | JSMN_ARRAY | JSMN_STRING | JSMN_PRIMITIVE.
#[export] Instance jsmntype_eq_dec : EqDecision jsmntype.
Proof. solve_decision. Defined.

Definition JSMN_ERROR_NOMEM : Z := -1.
Definition JSMN_ERROR_INVAL : Z := -2.
Definition JSMN_ERROR_PART : Z := -3.

Record jsmntok := mk_tok { type : jsmntype; start : Z; end_ : Z; size : Z }.

(** [toknext] is the number of tokens in the list. *)
Record jsmn_parser := mk_parser { pos : Z; toksuper : Z; toks : list jsmntok }.
Definition toknext (p : jsmn_parser) : Z := zlen (toks p).

Definition set_pos x p := mk_parser x (toksuper p) (toks p).
Definition set_super x p := mk_parser (pos p) x (toks p).
Definition set_toks x p := mk_parser (pos p) (toksuper p) x.

Definition jsmn_init : jsmn_parser := mk_parser 0 (-1) [].

(** [tokens[i]], and an update of it. *)
Definition tok_at (i : Z) (l : list jsmntok) : option jsmntok :=
  if 0 <=? i then l !! Z.to_nat i else None.
Definition tok_upd (i : Z) (f : jsmntok -> jsmntok) (l : list jsmntok) : option (list jsmntok) :=
  t ← tok_at i l; Some (<[Z.to_nat i := f t]> l).

(** The characters the parser looks for. *)
Definition c_quote := 34.
Definition c_comma := 44.
Definition c_colon := 58.
Definition c_lbracket := 91.
Definition c_backslash := 92.
Definition c_rbracket := 93.
Definition c_lbrace := 123.
Definition c_rbrace := 125.
(** tab, carriage return, line feed, space *)
Definition is_blank (c : Z) : bool := bool_decide (c ∈ [9; 13; 10; 32]).

Section parser.
Context (num_tokens : Z) (js : list byte).
Abbreviation len := (zlen js).

(** The type is whatever the memory held; every caller sets it at once. *)
Definition jsmn_alloc_token (p : jsmn_parser) : option jsmn_parser :=
  if num_tokens <=? toknext p then None
  else Some (set_toks (toks p ++ [mk_tok JSMN_UNDEFINED (-1) (-1) 0]) p).

Definition jsmn_fill_token (ty : jsmntype) (s e : Z) (_ : jsmntok) : jsmntok := mk_tok ty s e 0.

(** [goto found] or the end of the text: the position; [inl]: an error. *)
Fixpoint prim_loop (fuel : nat) (p : Z) : option (Z + Z) :=
  match fuel with
  | O => None
  | S fuel =>
      if p <? len then
        c ← rd js p;
        if c =? 0 then Some (inr p) else
        if (c =? c_colon) || is_blank c || (c =? c_comma) || (c =? c_rbracket) || (c =? c_rbrace)
        then Some (inr p) else
        if (c <? 32) || (127 <=? c) then Some (inl JSMN_ERROR_INVAL)
        else prim_loop fuel (p + 1)
      else Some (inr p)
  end.

(** On an error [pos] is back at [start], where it was. *)
Definition jsmn_parse_primitive (p : jsmn_parser) : option (Z * jsmn_parser) :=
  let st := pos p in
  r ← prim_loop (S (length js)) st;
  match r with
  | inl e => Some (e, p)
  | inr found =>
      match jsmn_alloc_token p with
      | None => Some (JSMN_ERROR_NOMEM, p)
      | Some p =>
          l ← tok_upd (toknext p - 1) (jsmn_fill_token JSMN_PRIMITIVE st found) (toks p);
          Some (0, set_pos (found - 1) (set_toks l p))
      end
  end.

Definition is_hex (c : Z) : bool :=
  ((48 <=? c) && (c <=? 57)) || ((65 <=? c) && (c <=? 70)) || ((97 <=? c) && (c <=? 102)).

(** The four digits of an escaped character: the position behind them, as far
    as the text goes. *)
Fixpoint hex_loop (i : nat) (p : Z) : option (Z + Z) :=
  match i with
  | O => Some (inr p)
  | S i =>
      if p <? len then
        c ← rd js p;
        if c =? 0 then Some (inr p) else
        if is_hex c then hex_loop i (p + 1) else Some (inl JSMN_ERROR_INVAL)
      else Some (inr p)
  end.

(** Quote, slash, backslash and the letters b, f, r, n, t. *)
Definition is_escape (c : Z) : bool := bool_decide (c ∈ [34; 47; 92; 98; 102; 114; 110; 116]).

(** The position of the closing quote. *)
Fixpoint str_loop (fuel : nat) (p : Z) : option (Z + Z) :=
  match fuel with
  | O => None
  | S fuel =>
      if p <? len then
        c ← rd js p;
        if c =? 0 then Some (inl JSMN_ERROR_PART) else
        if c =? c_quote then Some (inr p) else
        if (c =? c_backslash) && (p + 1 <? len) then
          let p := p + 1 in
          e ← rd js p;
          if is_escape e then str_loop fuel (p + 1) else
          if e =? 117 then
            r ← hex_loop 4 (p + 1);
            match r with
            | inl err => Some (inl err)
            | inr p => str_loop fuel (p - 1 + 1)
            end
          else Some (inl JSMN_ERROR_INVAL)
        else str_loop fuel (p + 1)
      else Some (inl JSMN_ERROR_PART)
  end.

Definition jsmn_parse_string (p : jsmn_parser) : option (Z * jsmn_parser) :=
  let st := pos p in
  r ← str_loop (S (length js)) (st + 1);
  match r with
  | inl e => Some (e, p)
  | inr quote =>
      match jsmn_alloc_token p with
      | None => Some (JSMN_ERROR_NOMEM, p)
      | Some p =>
          l ← tok_upd (toknext p - 1) (jsmn_fill_token JSMN_STRING (st + 1) quote) (toks p);
          Some (0, set_pos quote (set_toks l p))
      end
  end.

Definition is_open (t : jsmntok) : bool := negb (start t =? -1) && (end_ t =? -1).
Definition is_container (t : jsmntok) : bool :=
  bool_decide (type t = JSMN_ARRAY) || bool_decide (type t = JSMN_OBJECT).

(** [for (i = n - 1; i >= 0; i--)]: the first token from behind that satisfies
    the test, or -1. *)
Fixpoint find_back (test : jsmntok -> bool) (l : list jsmntok) (n : nat) : option Z :=
  match n with
  | O => Some (-1)
  | S n => t ← l !! n; if test t then Some (Z.of_nat n) else find_back test l n
  end.

(** [tokens[parser->toksuper].size++] *)
Definition grow_super (p : jsmn_parser) : option jsmn_parser :=
  if toksuper p =? -1 then Some p else
  l ← tok_upd (toksuper p) (fun t => mk_tok (type t) (start t) (end_ t) (size t + 1)) (toks p);
  Some (set_toks l p).

(** A round of the loop goes on, with [pos] before its increment, or returns. *)
Inductive outcome := Go (count : Z) (p : jsmn_parser) | Ret (code : Z) (p : jsmn_parser).

Definition open_bracket (c : Z) (count : Z) (p : jsmn_parser) : option outcome :=
  let count := count + 1 in
  match jsmn_alloc_token p with
  | None => Some (Ret JSMN_ERROR_NOMEM p)
  | Some p =>
      p ← grow_super p;
      l ← tok_upd (toknext p - 1) (fun t =>
            mk_tok (if c =? c_lbrace then JSMN_OBJECT else JSMN_ARRAY) (pos p) (end_ t) (size t)) (toks p);
      Some (Go count (set_super (toknext p - 1) (set_toks l p)))
  end.

Definition close_bracket (c : Z) (count : Z) (p : jsmn_parser) : option outcome :=
  let ty := if c =? c_rbrace then JSMN_OBJECT else JSMN_ARRAY in
  i ← find_back is_open (toks p) (length (toks p));
  if i =? -1 then Some (Ret JSMN_ERROR_INVAL p) else
  t ← tok_at i (toks p);
  if negb (bool_decide (type t = ty)) then Some (Ret JSMN_ERROR_INVAL p) else
  l ← tok_upd i (fun t => mk_tok (type t) (start t) (pos p + 1) (size t)) (toks p);
  j ← find_back is_open l (Z.to_nat (i + 1));
  Some (Go count (set_super j (set_toks l p))).

Definition scalar (parse : jsmn_parser -> option (Z * jsmn_parser)) (count : Z) (p : jsmn_parser)
  : option outcome :=
  r ← parse p;
  let '(r, p) := r in
  if r <? 0 then Some (Ret r p) else
  p ← grow_super p;
  Some (Go (count + 1) p).

Definition comma (count : Z) (p : jsmn_parser) : option outcome :=
  if toksuper p =? -1 then Some (Go count p) else
  t ← tok_at (toksuper p) (toks p);
  if is_container t then Some (Go count p) else
  i ← find_back (fun t => is_container t && is_open t) (toks p) (length (toks p));
  Some (Go count (if i =? -1 then p else set_super i p)).

Definition jsmn_char (c : Z) (count : Z) (p : jsmn_parser) : option outcome :=
  if (c =? c_lbrace) || (c =? c_lbracket) then open_bracket c count p
  else if (c =? c_rbrace) || (c =? c_rbracket) then close_bracket c count p
  else if c =? c_quote then scalar jsmn_parse_string count p
  else if is_blank c then Some (Go count p)
  else if c =? c_colon then Some (Go count (set_super (toknext p - 1) p))
  else if c =? c_comma then comma count p
  else scalar jsmn_parse_primitive count p.

(** After the text: every bracket is closed, or the text is incomplete. *)
Definition jsmn_finish (count : Z) (p : jsmn_parser) : option (Z * jsmn_parser) :=
  i ← find_back is_open (toks p) (length (toks p));
  Some (if i =? -1 then count else JSMN_ERROR_PART, p).

Fixpoint jsmn_loop (fuel : nat) (count : Z) (p : jsmn_parser) : option (Z * jsmn_parser) :=
  match fuel with
  | O => None
  | S fuel =>
      if pos p <? len then
        c ← rd js (pos p);
        if c =? 0 then jsmn_finish count p else
        o ← jsmn_char c count p;
        match o with
        | Go count p => jsmn_loop fuel count (set_pos (pos p + 1) p)
        | Ret code p => Some (code, p)
        end
      else jsmn_finish count p
  end.

Definition jsmn_parse (p : jsmn_parser) : option (Z * jsmn_parser) :=
  jsmn_loop (S (length js)) (toknext p) p.
End parser.
