(* ===== verification/JsTree.v ===== *)
(** * The tree [shared/json/jstree.c] and the TLS configuration

    The tree the tokens are turned into, the search in it ([jstree_read.h]), the
    strings with escapes, the printer, and [loadconfig] of
    [daemon/vcom_load_sslcfg.h], which reads the configuration of the TLS
    connection.  A node that is never set, a null pointer that is followed and an
    access outside of a buffer are faults, [None].  [malloc] succeeds. *)

From S2P Require Import Prelude Text Jsmn.

(** The nodes are not shared: a pointer is the tree below it.  [l] is the next
    sibling, [r] the first child; the child of a key is its value. *)
Inductive tree := Null | Node (ty : jsmntype) (data : option (list byte)) (l r : tree).

(** ** From tokens to the tree *)

Definition _alloc_tree_node_type (ty : jsmntype) : tree := Node ty None Null Null.

Definition _alloc_tree_node_len (ty : jsmntype) (js : list byte) (off datalen : Z) : option tree :=
  if 0 <=? datalen then d ← load off datalen js; Some (Node ty (Some d) Null Null)
  else Some (Node ty None Null Null).

Section loops.
Context (rec : list jsmntok -> Z -> option (Z * tree)).

(** [*node_pp = key; ( *node_pp)->r = value; node_pp = &( *node_pp)->l]; [t] are
    the tokens from [t + 1 + j] on. *)
Fixpoint object_loop (i : nat) (t : list jsmntok) (count j : Z) : option (Z * tree) :=
  match i with
  | O => Some (j, Null)
  | S i =>
      k ← rec t (count - j);
      let t := zdrop (fst k) t in let j := j + fst k in
      v ← rec t (count - j);
      let t := zdrop (fst v) t in let j := j + fst v in
      match snd k with
      | Null => None
      | Node ty d _ _ => n ← object_loop i t count j; Some (fst n, Node ty d (snd n) (snd v))
      end
  end.

Fixpoint array_loop (i : nat) (t : list jsmntok) (count j : Z) : option (Z * tree) :=
  match i with
  | O => Some (j, Null)
  | S i =>
      e ← rec t (count - j);
      let t := zdrop (fst e) t in let j := j + fst e in
      match snd e with
      | Null => None
      | Node ty d _ r => n ← array_loop i t count j; Some (fst n, Node ty d (snd n) r)
      end
  end.
End loops.

(** [None] where [ret.node] is not set. *)
Fixpoint js2tree (fuel : nat) (js : list byte) (t : list jsmntok) (count : Z) : option (Z * tree) :=
  match fuel with
  | O => None
  | S fuel =>
      if count =? 0 then None else
      tk ← head t;
      match type tk with
      | JSMN_PRIMITIVE | JSMN_STRING =>
          n ← _alloc_tree_node_len (type tk) js (start tk) (end_ tk - start tk); Some (1, n)
      | JSMN_OBJECT =>
          n ← object_loop (js2tree fuel js) (Z.to_nat (size tk)) (zdrop 1 t) count 0;
          Some (fst n + 1, Node JSMN_OBJECT None Null (snd n))
      | JSMN_ARRAY =>
          n ← array_loop (js2tree fuel js) (Z.to_nat (size tk)) (zdrop 1 t) count 0;
          Some (fst n + 1, Node JSMN_ARRAY None Null (snd n))
      | JSMN_UNDEFINED => None
      end
  end.

(** ** Searching *)

Definition is_text (ty : jsmntype) : bool :=
  bool_decide (ty = JSMN_PRIMITIVE) || bool_decide (ty = JSMN_STRING).

Definition is_key (ty : jsmntype) (data : option (list byte)) (key : list byte) : bool :=
  match data with
  | Some d => is_text ty && bool_decide (cstr d = key)
  | None => false
  end.

Fixpoint find_node (t : tree) (key : list byte) : option tree :=
  match t with
  | Null => None
  | Node ty d l r =>
      if is_key ty d key then Some t else
      match l with Null => Some Null | _ => find_node l key end
  end.

Fixpoint next_node (t : tree) (step : nat) : option tree :=
  match step with
  | O => Some t
  | S step =>
      match t with
      | Null => None
      | Node _ _ Null _ => Some Null
      | Node _ _ l _ => next_node l step
      end
  end.

Definition node_type (t : tree) : option jsmntype :=
  match t with Null => None | Node ty _ _ _ => Some ty end.
Definition node_r (t : tree) : option tree :=
  match t with Null => None | Node _ _ _ r => Some r end.
Definition node_data (t : tree) : option (option (list byte)) :=
  match t with Null => None | Node _ d _ _ => Some d end.

(** [sscanf(argv, "[%d]", &iter)]: [Some None] when nothing matches; a text that
    ends before the number leaves [iter] unset, a fault. *)
Definition scan_index (s : list byte) : option (option Z) :=
  match s with
  | [] => None
  | b :: s =>
      if chr b =? c_lbracket then
        match skip_blank s with
        | [] => None
        | b :: s =>
            if is_digit b then Some (Some (digits (b :: s) 0)) else
            if (chr b =? 45) || (chr b =? 43) then
              match s with
              | d :: _ => if is_digit d then
                            Some (Some (if chr b =? 45 then - digits s 0 else digits s 0))
                          else Some None
              | [] => Some None
              end
            else Some None
        end
      else Some None
  end.

(** The children of a container, for the next step. *)
Definition enter (t : tree) : option tree :=
  match t with
  | Node JSMN_ARRAY _ _ r | Node JSMN_OBJECT _ _ r => Some r
  | _ => None
  end.

(** The loop of [_do_jstree_read]: the steps done and the node reached. *)
Fixpoint read_loop (argv : list (list byte)) (i : Z) (rnode : tree) : option (Z * tree) :=
  match argv with
  | [] => Some (i, rnode)
  | arg :: argv =>
      if bool_decide (node_type rnode = None) then Some (i, rnode) else
      iter ← scan_index arg;
      match iter with
      | Some iter =>
          rnode ← next_node rnode (Z.to_nat iter);
          match rnode with
          | Null => Some (i, Null)
          | Node JSMN_STRING _ _ r =>
              match argv with
              | [] => Some (i + 1, rnode)
              | _ => match r with
                     | Null => Some (i, Null)
                     | _ => read_loop argv (i + 1) (default r (enter r))
                     end
              end
          | Node JSMN_PRIMITIVE _ _ _ => read_loop argv (i + 1) rnode
          | Node JSMN_OBJECT _ _ r | Node JSMN_ARRAY _ _ r => read_loop argv (i + 1) r
          | Node JSMN_UNDEFINED _ _ _ => Some (i, rnode)
          end
      | None =>
          rnode ← find_node rnode arg;
          match rnode with
          | Null => Some (i, Null)
          | Node _ _ _ Null => Some (i, rnode)
          | Node _ _ _ (Node ty d l r as v) =>
              if is_text ty then Some (i + 1, v) else
              match enter v with
              | Some r => read_loop argv (i + 1) r
              | None => Some (i, rnode)
              end
          end
      end
  end.

Definition _do_jstree_read (input : tree) (argv : list (list byte)) : option (Z * tree) :=
  read_loop argv 0 input.

(** ** Strings with escapes *)

(** A byte at [ptr]; there is no buffer in the first pass, which only counts. *)
Definition put_out (out : option (list byte)) (ptr : Z) (c : Z) : option (option (list byte)) :=
  match out with
  | None => Some None
  | Some m => m ← store ptr [byte.of_Z c] m; Some (Some m)
  end.

(** [out && outlen], and for the checked writes [ptr + n < outlen]. *)
Definition writes (out : option (list byte)) (outlen : Z) : bool :=
  match out with Some _ => truthy outlen | None => false end.

(** The escape character, then the byte; [inl]: the function returns -1. *)
Definition encode_byte (outlen ptr : Z) (out : option (list byte)) (b : byte)
  : option ((Z * option (list byte)) + (Z * option (list byte))) :=
  let full ptr := writes out outlen && (outlen <=? ptr) in
  let w := writes out outlen in
  s ← (if (chr b =? c_backslash) || (chr b =? c_quote) then
         out ← (if w then put_out out ptr c_backslash else Some out);
         Some (ptr + 1, out, full (ptr + 1))
       else Some (ptr, out, false));
  let '(ptr, out, stop) := s in
  if (stop : bool) then Some (inl (-1, out)) else
  out ← (if w then put_out out ptr (chr b) else Some out);
  if full (ptr + 1) then Some (inl (-1, out)) else Some (inr (ptr + 1, out)).

Fixpoint encode_loop (data : list byte) (outlen ptr : Z) (out : option (list byte))
  : option (Z * option (list byte)) :=
  match data with
  | [] => Some (ptr - 1, out)
  | b :: data =>
      s ← encode_byte outlen ptr out b;
      match s with
      | inl r => Some r
      | inr (ptr, out) => encode_loop data outlen ptr out
      end
  end.

(** The loop runs over the string and its null byte. *)
Definition jstree_string_encode (out : option (list byte)) (outlen : Z) (data : list byte) :=
  encode_loop (cstr data ++ [Byte.x00]) outlen 0 out.

Definition _c_hex (c : Z) : Z :=
  if (48 <=? c) && (c <=? 57) then c - 48
  else if (97 <=? c) && (c <=? 102) then 10 + c - 97
  else if (65 <=? c) && (c <=? 70) then 10 + c - 65
  else 0.

(** A checked write of one, two or three bytes. *)
Fixpoint put_all (out : option (list byte)) (ptr : Z) (cs : list Z) : option (option (list byte)) :=
  match cs with
  | [] => Some out
  | c :: cs => out ← put_out out ptr c; put_all out (ptr + 1) cs
  end.
Definition put_checked (out : option (list byte)) (outlen ptr : Z) (cs : list Z)
  : option (option (list byte)) :=
  if writes out outlen && (ptr + zlen cs - 1 <? outlen) then put_all out ptr cs else Some out.

(** The code of an escape of one letter. *)
Definition escape_code (e : Z) : option Z :=
  if e =? 92 then Some 92 else if e =? 34 then Some 34 else if e =? 116 then Some 9
  else if e =? 114 then Some 13 else if e =? 110 then Some 10 else if e =? 98 then Some 8
  else if e =? 102 then Some 12 else None.

(** The UTF-8 bytes of a 16-bit code. *)
Definition utf8 (tmp : Z) : list Z :=
  if tmp <? 0x80 then [tmp]
  else if tmp <? 0x800 then
    [Z.lor 0xc0 (Z.shiftr (Z.land tmp 0x7c0) 6); Z.lor 0x80 (Z.land tmp 0x3f)]
  else [Z.lor 0xe0 (Z.shiftr (Z.land tmp 0xf000) 12); Z.lor 0x80 (Z.shiftr (Z.land tmp 0xfc0) 6);
        Z.lor 0x80 (Z.land tmp 0x3f)].

Fixpoint decode_loop (fuel : nat) (data : list byte) (outlen ptr : Z) (out : option (list byte))
  : option (Z * option (list byte)) :=
  match fuel with
  | O => None
  | S fuel =>
      match data with
      | [] => Some (ptr - 1, out)
      | b :: rest =>
          if negb (chr b =? c_backslash) then
            out ← (if writes out outlen then put_out out ptr (chr b) else Some out);
            decode_loop fuel rest outlen (ptr + 1) out
          else
          match rest with
          | [] => Some (-1, out)
          | e :: rest =>
              match escape_code (chr e) with
              | Some c =>
                  out ← put_checked out outlen ptr [c];
                  decode_loop fuel rest outlen (ptr + 1) out
              | None =>
                  if chr e =? 117 then
                    match rest with
                    | h1 :: h2 :: h3 :: h4 :: rest =>
                        let tmp := u16 (Z.shiftl (_c_hex (chr h1)) 12 + Z.shiftl (_c_hex (chr h2)) 8 +
                                        Z.shiftl (_c_hex (chr h3)) 4 + _c_hex (chr h4)) in
                        out ← put_checked out outlen ptr (utf8 tmp);
                        decode_loop fuel rest outlen (ptr + zlen (utf8 tmp)) out
                    | _ => Some (-1, out)
                    end
                  else Some (-1, out)
              end
          end
      end
  end.

Definition jstree_string_decode (out : option (list byte)) (outlen : Z) (data : list byte) :=
  decode_loop (S (S (length data))) (cstr data ++ [Byte.x00]) outlen 0 out.

(** ** Printing

    [out] is the place in the buffer [buf] to print to, or a null pointer; then
    nothing is written and only the length is computed. *)

Definition quoted (s : list byte) : list byte := [Byte.x22] ++ s ++ [Byte.x22].

Section print.
(** [snprintf] to [out + retlen] with what is left of the size. *)
Definition _tree2js_insert_string (out : option Z) (outlen retlen : Z) (s buf : list byte)
  : option (Z * list byte) :=
  match out with
  | None => Some (retlen + zlen s, buf)
  | Some off => r ← snprintf (off + retlen) (outlen - retlen) s buf; Some (retlen + fst r, snd r)
  end.

Context (tree2js : tree -> option Z -> Z -> Z -> list byte -> option (Z * list byte)).

Definition _tree2js_insert_tree (t : tree) (out : option Z) (outlen retlen indent : Z) (buf : list byte)
  : option (Z * list byte) :=
  match t with
  | Null => Some (retlen, buf)
  | _ => r ← tree2js t (Z.add retlen <$> out) (outlen - retlen) indent buf;
         Some (if fst r <=? 0 then retlen else retlen + fst r, snd r)
  end.

Context (out : option Z) (outlen indent : Z).

Definition put_string (s : list byte) (st : Z * list byte) : option (Z * list byte) :=
  _tree2js_insert_string out outlen (fst st) s (snd st).
Definition put_tree (t : tree) (st : Z * list byte) : option (Z * list byte) :=
  _tree2js_insert_tree t out outlen (fst st) indent (snd st).
Fixpoint put_tabs (n : nat) (st : Z * list byte) : option (Z * list byte) :=
  match n with O => Some st | S n => st ← put_string [Byte.x09] st; put_tabs n st end.

(** The [do] loop over the siblings: [put_node] prints one of them. *)
Fixpoint walk_siblings (put_node : tree -> Z * list byte -> option (Z * list byte)) (node : tree)
    (st : Z * list byte) : option (Z * list byte) :=
  match node with
  | Null => Some st
  | Node _ _ l _ =>
      st ← put_tabs (Z.to_nat indent) st;
      st ← put_node node st;
      st ← (match l with Null => Some st | _ => put_string (lit ",") st end);
      st ← put_string [Byte.x0a] st;
      match l with Null => Some st | _ => walk_siblings put_node l st end
  end.

Definition _tree2js_walk_object (js_obj : tree) (buf : list byte) : option (Z * list byte) :=
  st ← put_string (lit "{" ++ [Byte.x0a]) (0, buf);
  st ← walk_siblings (fun node st =>
         st ← put_tree node st;
         st ← put_string (lit ":") st;
         v ← node_r node;
         put_tree v st) js_obj st;
  st ← put_tabs (Z.to_nat (indent - 1)) st;
  put_string (lit "}") st.

Definition _tree2js_walk_array (js_array : tree) (buf : list byte) : option (Z * list byte) :=
  st ← put_string (lit "[" ++ [Byte.x0a]) (0, buf);
  st ← walk_siblings put_tree js_array st;
  st ← put_tabs (Z.to_nat (indent - 1)) st;
  put_string (lit "]") st.
End print.

Fixpoint tree2js (fuel : nat) (t : tree) (out : option Z) (outlen indent : Z) (buf : list byte)
  : option (Z * list byte) :=
  match fuel with
  | O => None
  | S fuel =>
      let outlen := match out with None => 0 | Some _ => outlen end in
      match t with
      | Null => None
      | Node JSMN_STRING d _ _ => d ← d; _tree2js_insert_string out outlen 0 (quoted (cstr d)) buf
      | Node JSMN_PRIMITIVE d _ _ => d ← d; _tree2js_insert_string out outlen 0 (cstr d) buf
      | Node JSMN_OBJECT _ _ r => _tree2js_walk_object (tree2js fuel) out outlen (indent + 1) r buf
      | Node JSMN_ARRAY _ _ r => _tree2js_walk_array (tree2js fuel) out outlen (indent + 1) r buf
      | Node JSMN_UNDEFINED _ _ _ => Some (0, buf)
      end
  end.

Fixpoint depth (t : tree) : nat :=
  match t with Null => O | Node _ _ l r => Nat.max (depth l) (S (depth r)) end.

(** The whole buffer, or none to learn the size it needs. *)
Definition tree2json (t : tree) (buf : option (list byte)) (bufsize : Z) : option (Z * list byte) :=
  match buf with
  | Some m => tree2js (S (depth t)) t (Some 0) bufsize 0 m
  | None => r ← tree2js (S (depth t)) t None bufsize 0 []; Some (fst r + 1, [])
  end.

(** ** The TLS configuration *)

Record vc_ssl_cfg := mk_cfg {
  password : list byte;
  rootca : option (list byte);
  keyfile : option (list byte);
  accept_expired_key : Z;
}.

(** The array is doubled and the parser goes on where it stopped. *)
Fixpoint parse_growing (fuel : nat) (js : list byte) (tokcount : Z) (p : jsmn_parser)
  : option (Z * jsmn_parser) :=
  match fuel with
  | O => None
  | S fuel =>
      r ← jsmn_parse tokcount js p;
      if fst r =? JSMN_ERROR_NOMEM then parse_growing fuel js (tokcount * 2) (snd r) else Some r
  end.

(** A failing parse is reported and then ignored. *)
Definition parse_tree (js : list byte) : option tree :=
  r ← parse_growing (S (length js)) js 2 jsmn_init;
  t ← js2tree (S (length (toks (snd r)))) js (toks (snd r)) (toknext (snd r));
  Some (snd t).

Definition read_ssl (root : tree) (key : list byte) : option (Z * tree) :=
  _do_jstree_read root [lit "ssl"; key].

Definition nopass : list byte := [Byte.x00].

(** Printing a string reads up to its null byte. *)
Definition terminated (m : list byte) : bool := existsb (fun b => chr b =? 0) m.

(** [filedata] is what was read, [None] when the file cannot be opened.  The
    result is -1 or 0, with the configuration as far as it was filled in. *)
Definition loadconfig (filedata : option (list byte)) (cfg : vc_ssl_cfg) : option (Z * vc_ssl_cfg) :=
  match filedata with
  | None => Some (-1, cfg)
  | Some js =>
      t ← parse_tree js;
      root ← node_r t;
      k ← read_ssl root (lit "keyfile");
      if negb (fst k =? 2) then Some (-1, cfg) else
      d ← node_data (snd k);
      let cfg := mk_cfg (password cfg) (rootca cfg) d (accept_expired_key cfg) in
      c ← read_ssl root (lit "rootca");
      if negb (fst c =? 2) then Some (-1, cfg) else
      d ← node_data (snd c);
      let cfg := mk_cfg (password cfg) d (keyfile cfg) (accept_expired_key cfg) in
      w ← read_ssl root (lit "password");
      pw ← (if negb (fst w =? 2) then Some nopass else
            d ← node_data (snd w);
            d ← d;
            n ← jstree_string_decode None 0 d;
            let len := fst n in
            r ← jstree_string_decode (Some (replicate (Z.to_nat (len + 1)) Byte.x00)) (len + 1) d;
            snd r);
      (* printf("found password = %s", cfg->password) *)
      if negb (terminated pw) then None else
      let cfg := mk_cfg pw (rootca cfg) (keyfile cfg) (accept_expired_key cfg) in
      e ← read_ssl root (lit "accept_expired_key");
      a ← (if negb (fst e =? 2) then Some false else
           d ← node_data (snd e);
           d ← d;
           Some (bool_decide (cstr d = lit "enable")));
      Some (0, mk_cfg (password cfg) (rootca cfg) (keyfile cfg) (if (a : bool) then 1 else 0))
  end.
