(* ===== verification/JsmnProofs.v ===== *)
(** * Correctness of the tokenizer

    On any text the tokenizer ends without an access outside of the text or the
    tokens; what it leaves is within the text.  Running out of tokens and going
    on with a larger array is the same as having had the larger array. *)

From S2P Require Import Prelude Text Jsmn JsTree.

Section safe.
Context (num : Z) (js : list byte).
Abbreviation len := (zlen js).

(** ** The scanning loops *)

Lemma prim_loop_total fuel : forall p, 0 <= p <= len -> len - p < Z.of_nat fuel ->
  exists r, prim_loop js fuel p = Some r /\
    match r with inl e => e = JSMN_ERROR_INVAL | inr q => p <= q <= len end.
Proof.
  induction fuel as [|fuel IH]; intros p Hp Hf; [lia|]. cbn [prim_loop].
  destruct (Z.ltb_spec p len) as [Hlt|Hge]; [|eexists; split; [done|]; simpl; lia].
  destruct (rd_in js p) as (c & Hc & _); [lia|]. rewrite Hc. cbn [mbind option_bind].
  case_if; [eexists; split; [done|]; simpl; lia|].
  case_if; [eexists; split; [done|]; simpl; lia|].
  case_if; [by eexists|].
  destruct (IH (p + 1)) as (r & -> & Hr); [lia|lia|]. exists r. split; [done|]. destruct r; [done|lia].
Qed.

Lemma hex_loop_total i : forall p, 0 <= p <= len ->
  exists r, hex_loop js i p = Some r /\
    match r with inl e => e = JSMN_ERROR_INVAL | inr q => p <= q <= len end.
Proof.
  induction i as [|i IH]; intros p Hp; cbn [hex_loop]; [eexists; split; [done|]; simpl; lia|].
  destruct (Z.ltb_spec p len) as [Hlt|Hge]; [|eexists; split; [done|]; simpl; lia].
  destruct (rd_in js p) as (c & Hc & _); [lia|]. rewrite Hc. cbn [mbind option_bind].
  case_if; [eexists; split; [done|]; simpl; lia|].
  case_if; [|by eexists]. destruct (IH (p + 1)) as (r & -> & Hr); [lia|]. exists r. split; [done|].
  destruct r; [done|lia].
Qed.

Lemma str_loop_total fuel : forall p, 0 <= p <= len -> len - p < Z.of_nat fuel ->
  exists r, str_loop js fuel p = Some r /\
    match r with
    | inl e => e = JSMN_ERROR_INVAL \/ e = JSMN_ERROR_PART
    | inr q => p <= q < len
    end.
Proof.
  induction fuel as [|fuel IH]; intros p Hp Hf; [lia|]. cbn [str_loop].
  assert (Hgo : forall q, p < q <= len -> exists r, str_loop js fuel q = Some r /\
    match r with inl e => e = JSMN_ERROR_INVAL \/ e = JSMN_ERROR_PART | inr q => p <= q < len end).
  { intros q Hq. destruct (IH q) as (r & -> & Hr); [lia|lia|]. exists r. split; [done|].
    destruct r; [done|lia]. }
  destruct (Z.ltb_spec p len) as [Hlt|Hge]; [|eexists; split; [done|]; by right].
  destruct (rd_in js p) as (c & Hc & _); [lia|]. rewrite Hc. cbn [mbind option_bind].
  case_if; [eexists; split; [done|]; by right|].
  case_if; [eexists; split; [done|]; simpl; lia|].
  case_if; [|apply Hgo; lia].
  destruct (rd_in js (p + 1)) as (e & He & _); [lia|]. cbv zeta. rewrite He. cbn [mbind option_bind].
  case_if; [apply Hgo; lia|]. case_if; [|eexists; split; [done|]; by left].
  destruct (hex_loop_total 4 (p + 1 + 1)) as (r & -> & Hr); [lia|]. cbn [mbind option_bind].
  destruct r as [err|q]; [eexists; split; [done|]; by left|]. apply Hgo. lia.
Qed.

(** ** The invariant of the parser *)

(** A token of the text before position [b]; an open one has no end yet. *)
Definition tok_ok (b : Z) (t : jsmntok) : Prop :=
  0 <= start t <= b /\ (end_ t = -1 \/ start t <= end_ t <= b) /\ 0 <= size t /\
  type t <> JSMN_UNDEFINED.

Definition parser_ok (p : jsmn_parser) : Prop :=
  0 <= pos p <= len /\ -1 <= toksuper p < toknext p /\ toknext p <= pos p /\ toknext p <= Z.max 0 num /\
  Forall (tok_ok (pos p)) (toks p).

Lemma tok_ok_mono a b t : a <= b -> tok_ok a t -> tok_ok b t.
Proof. intros ? (? & ? & ? & ?). unfold tok_ok. split_and!; (done || lia). Qed.

Lemma toks_ok_mono a b (l : list jsmntok) : a <= b -> Forall (tok_ok a) l -> Forall (tok_ok b) l.
Proof. intros Hab Hl. eapply Forall_impl; [exact Hl|]. intros t. by apply tok_ok_mono. Qed.

Lemma tok_at_in i (l : list jsmntok) : 0 <= i < zlen l -> exists t, tok_at i l = Some t /\ t ∈ l.
Proof.
  intros Hi. unfold tok_at. rewrite (proj2 (Z.leb_le 0 i)) by lia.
  destruct (l !! Z.to_nat i) as [t|] eqn:E.
  - exists t. split; [done|]. by eapply list_elem_of_lookup_2.
  - apply lookup_ge_None in E. unfold zlen in Hi. lia.
Qed.

Lemma tok_upd_in i f (l : list jsmntok) (P : jsmntok -> Prop) :
  0 <= i < zlen l -> Forall P l -> (forall t, P t -> P (f t)) ->
  exists l', tok_upd i f l = Some l' /\ zlen l' = zlen l /\ Forall P l'.
Proof.
  intros Hi Hl Hf. unfold tok_upd. destruct (tok_at_in i l Hi) as (t & -> & Ht). cbn [mbind option_bind].
  eexists. split; [done|]. split; [unfold zlen; by rewrite length_insert|].
  apply Forall_insert; [done|]. apply Hf. by eapply Forall_forall in Hl.
Qed.

Lemma find_back_total test (l : list jsmntok) : forall n, (n <= length l)%nat ->
  exists i, find_back test l n = Some i /\ -1 <= i < Z.of_nat n.
Proof.
  induction n as [|n IH]; intros Hn; cbn [find_back]; [exists (-1); split; [done|lia]|].
  destruct (lookup_lt_is_Some_2 l n) as [t Ht]; [lia|]. rewrite Ht. cbn [mbind option_bind].
  case_if; [eexists; split; [done|]; lia|]. destruct IH as (i & -> & Hi); [lia|].
  eexists; split; [done|]; lia.
Qed.

(** Appending the token and filling it in. *)
Lemma upd_last i f t (l : list jsmntok) :
  i = zlen (l ++ [t]) - 1 -> tok_upd i f (l ++ [t]) = Some (l ++ [f t]).
Proof.
  intros ->. unfold tok_upd, tok_at. pose proof (zlen_nonneg l). rewrite zlen_app, zlen_cons, zlen_nil.
  replace (zlen l + (1 + 0) - 1) with (zlen l) by lia.
  rewrite (proj2 (Z.leb_le 0 _)) by lia. unfold zlen. rewrite Nat2Z.id.
  rewrite lookup_app_r, Nat.sub_diag by done. cbn [mbind option_bind lookup list_lookup].
  by rewrite insert_app_r_alt, Nat.sub_diag by done.
Qed.

Lemma upd_front i f t (l l' : list jsmntok) :
  tok_upd i f l = Some l' -> tok_upd i f (l ++ [t]) = Some (l' ++ [t]).
Proof.
  unfold tok_upd, tok_at. destruct (0 <=? i); [|done]. cbn [mbind option_bind].
  destruct (l !! Z.to_nat i) as [x|] eqn:E; [|done]. intros [= <-].
  pose proof (lookup_lt_Some _ _ _ E). rewrite (lookup_app_l_Some _ _ _ _ E). cbn [mbind option_bind].
  by rewrite insert_app_l.
Qed.

(** What a round leaves: the parser is in order for the next one, or the
    function returns. *)
Abbreviation errors := [JSMN_ERROR_NOMEM; JSMN_ERROR_INVAL; JSMN_ERROR_PART].
Definition step_ok (count : Z) (p : jsmn_parser) (o : outcome) : Prop :=
  match o with
  | Go count' p' => pos p <= pos p' /\ parser_ok (set_pos (pos p' + 1) p') /\
      count' - count = toknext p' - toknext p
  | Ret code p' => p' = p /\ code ∈ errors /\ (code = JSMN_ERROR_NOMEM -> num <= toknext p)
  end.

Lemma step_err count p code : code ∈ errors -> (code = JSMN_ERROR_NOMEM -> num <= toknext p) ->
  exists o, Some (Ret code p) = Some o /\ step_ok count p o.
Proof. intros ??. by eexists. Qed.

Lemma grow_ok b t : tok_ok b t -> tok_ok b (mk_tok (type t) (start t) (end_ t) (size t + 1)).
Proof. intros (? & ? & ? & ?). unfold tok_ok. simpl. split_and!; (done || lia). Qed.

Lemma grow_super_ok b p : -1 <= toksuper p < toknext p -> Forall (tok_ok b) (toks p) ->
  exists l, grow_super p = Some (set_toks l p) /\ zlen l = toknext p /\ Forall (tok_ok b) l /\
    forall t, grow_super (set_toks (toks p ++ [t]) p) = Some (set_toks (l ++ [t]) p).
Proof.
  intros Hs Ht. unfold grow_super. cbn [toksuper set_toks]. destruct (Z.eqb_spec (toksuper p) (-1)).
  - exists (toks p). split; [by destruct p|done].
  - destruct (tok_upd_in (toksuper p) (fun t => mk_tok (type t) (start t) (end_ t) (size t + 1)) (toks p) (tok_ok b))
      as (l & Hu & Hl & Hf); [unfold toknext in Hs; lia|done|apply grow_ok|].
    exists l. rewrite Hu. split_and!; [done..|]. intros t. cbn [toks set_toks].
    by rewrite (upd_front _ _ t _ _ Hu).
Qed.

(** A scalar: the scan of its text, then a token. *)
Lemma scalar_ok (parse : jsmn_parser -> option (Z * jsmn_parser)) count p :
  parser_ok p -> pos p < len ->
  (exists e, parse p = Some (e, p) /\ e ∈ errors /\ (e = JSMN_ERROR_NOMEM -> num <= toknext p)) \/
  (exists t q, parse p = Some (0, set_pos q (set_toks (toks p ++ [t]) p)) /\ tok_ok (q + 1) t /\
     pos p <= q < len /\ toknext p < num) ->
  exists o, scalar parse count p = Some o /\ step_ok count p o.
Proof.
  intros (Hp & Hs & Hn & Hm & Ht) Hlt Hparse. unfold scalar.
  destruct Hparse as [(e & -> & He & Hno)|(t & q & -> & Htok & Hq & Hcap)]; cbn [mbind option_bind].
  - rewrite (proj2 (Z.ltb_lt e 0)); [by apply step_err|].
    rewrite !elem_of_cons in He. unfold JSMN_ERROR_NOMEM, JSMN_ERROR_INVAL, JSMN_ERROR_PART in He.
    destruct He as [->|[->|[->|He]]]; [lia..|by apply elem_of_nil in He].
  - change (0 <? 0) with false. cbv iota.
    destruct (grow_super_ok (q + 1) (set_pos q (set_toks (toks p ++ [t]) p))) as (l & -> & Hl & Hf & _).
    { unfold toknext in *. simpl. zlen_lia. }
    { simpl. apply Forall_app. split; [by apply toks_ok_mono with (pos p); [lia|]|by apply Forall_singleton]. }
    cbn [mbind option_bind]. eexists. split; [done|].
    unfold step_ok, parser_ok, toknext in *. simpl in *. rewrite zlen_app, zlen_cons, zlen_nil in Hl.
    split_and!; (done || lia).
Qed.

Lemma primitive_ok count p c :
  parser_ok p -> pos p < len -> rd js (pos p) = Some c -> c <> 0 ->
  (c =? c_colon) || is_blank c || (c =? c_comma) || (c =? c_rbracket) || (c =? c_rbrace) = false ->
  exists o, scalar (jsmn_parse_primitive num js) count p = Some o /\ step_ok count p o.
Proof.
  intros Hok Hlt Hc Hc0 Hd. apply scalar_ok; [done|done|]. pose proof Hok as (Hp & Hs & Hn & Hm & Ht).
  unfold jsmn_parse_primitive. cbv zeta. cbn [prim_loop]. rewrite (proj2 (Z.ltb_lt _ _)) by lia.
  rewrite Hc. cbn [mbind option_bind]. rewrite (proj2 (Z.eqb_neq c 0)) by done. rewrite Hd.
  case_if; [left; eexists; split; [done|]; split; [|done]; rewrite !elem_of_cons; auto|].
  destruct (prim_loop_total (length js) (pos p + 1)) as (r & -> & Hr); [lia|unfold zlen in *; lia|].
  cbn [mbind option_bind]. destruct r as [e|q].
  - left. eexists. split; [done|]. rewrite Hr. split; [rewrite !elem_of_cons; auto|done].
  - unfold jsmn_alloc_token. case_if.
    + left. eexists. split; [done|]. split; [rewrite !elem_of_cons; auto|done].
    + right. unfold toknext at 1. cbn [toks set_toks]. rewrite upd_last by done. cbn [mbind option_bind].
      eexists _, _. split; [reflexivity|]. unfold tok_ok. split_and!; simpl; try done; lia.
Qed.

Lemma string_ok count p :
  parser_ok p -> pos p < len ->
  exists o, scalar (jsmn_parse_string num js) count p = Some o /\ step_ok count p o.
Proof.
  intros Hok Hlt. apply scalar_ok; [done|done|]. pose proof Hok as (Hp & Hs & Hn & Hm & Ht).
  unfold jsmn_parse_string. cbv zeta.
  destruct (str_loop_total (S (length js)) (pos p + 1)) as (r & -> & Hr); [lia|unfold zlen in *; lia|].
  cbn [mbind option_bind]. destruct r as [e|q].
  - left. eexists. split; [done|]. destruct Hr as [-> | ->]; (split; [rewrite !elem_of_cons; auto|done]).
  - unfold jsmn_alloc_token. case_if.
    + left. eexists. split; [done|]. split; [rewrite !elem_of_cons; auto|done].
    + right. unfold toknext at 1. cbn [toks set_toks]. rewrite upd_last by done. cbn [mbind option_bind].
      eexists _, _. split; [reflexivity|]. unfold tok_ok. split_and!; simpl; try done; lia.
Qed.

Lemma open_ok c count p :
  parser_ok p -> pos p < len ->
  exists o, open_bracket num c count p = Some o /\ step_ok count p o.
Proof.
  intros (Hp & Hs & Hn & Hm & Ht) Hlt. unfold open_bracket, jsmn_alloc_token. cbv zeta. case_if.
  { apply step_err; [rewrite !elem_of_cons; auto|done]. }
  destruct (grow_super_ok (pos p) p) as (l & _ & Hl & Hf & Hg); [done|done|]. rewrite Hg. cbn [mbind option_bind].
  unfold toknext at 1. cbn [toks set_toks]. rewrite upd_last by done. cbn [mbind option_bind].
  eexists. split; [reflexivity|].
  unfold step_ok, parser_ok, toknext in *. cbn [pos toksuper toks set_pos set_super set_toks].
  autorewrite with zlen in *. split_and!; try lia.
  apply Forall_app. split; [by apply toks_ok_mono with (pos p); [lia|]|].
  apply Forall_singleton. unfold tok_ok. simpl. split_and!; try lia. by case_if.
Qed.

Lemma close_ok c count p :
  parser_ok p -> pos p < len ->
  exists o, close_bracket c count p = Some o /\ step_ok count p o.
Proof.
  intros (Hp & Hs & Hn & Hm & Ht) Hlt. unfold close_bracket. cbv zeta.
  generalize (if c =? c_rbrace then JSMN_OBJECT else JSMN_ARRAY). intros ty.
  destruct (find_back_total is_open (toks p) (length (toks p))) as (i & -> & Hi); [lia|]. cbn [mbind option_bind].
  destruct (Z.eqb_spec i (-1)) as [->|Hne]; [apply step_err; [rewrite !elem_of_cons; auto|done]|].
  destruct (tok_at_in i (toks p)) as (t & -> & _); [unfold zlen; lia|]. cbn [mbind option_bind].
  case_if; [apply step_err; [rewrite !elem_of_cons; auto|done]|].
  destruct (tok_upd_in i (fun t => mk_tok (type t) (start t) (pos p + 1) (size t)) (toks p) (tok_ok (pos p + 1)))
    as (l & -> & Hl & Hf); [unfold zlen; lia|by apply toks_ok_mono with (pos p); [lia|]| |].
  { intros u (? & ? & ? & ?). unfold tok_ok. simpl. split_and!; (done || lia). }
  cbn [mbind option_bind].
  destruct (find_back_total is_open l (Z.to_nat (i + 1))) as (j & -> & Hj); [unfold zlen in *; lia|].
  cbn [mbind option_bind]. eexists. split; [done|].
  unfold step_ok, parser_ok, toknext in *. simpl. unfold zlen in *. split_and!; (done || lia).
Qed.

Lemma stay_ok x count p :
  parser_ok p -> pos p < len -> -1 <= x < toknext p -> step_ok count p (Go count (set_super x p)).
Proof.
  intros (Hp & Hs & Hn & Hm & Ht) Hlt Hx. unfold step_ok, parser_ok, toknext in *. simpl.
  split_and!; try lia. by apply toks_ok_mono with (pos p); [lia|].
Qed.

Lemma comma_ok count p :
  parser_ok p -> pos p < len -> exists o, comma count p = Some o /\ step_ok count p o.
Proof.
  intros Hok Hlt. pose proof Hok as (Hp & Hs & Hn & Hm & Ht).
  assert (Hsame : step_ok count p (Go count p)).
  { pose proof (stay_ok (toksuper p) count p Hok Hlt Hs) as H. by destruct p. }
  unfold comma. destruct (Z.eqb_spec (toksuper p) (-1)); [by eexists|].
  destruct (tok_at_in (toksuper p) (toks p)) as (t & -> & _); [unfold toknext in Hs; lia|].
  cbn [mbind option_bind]. case_if; [by eexists|].
  destruct (find_back_total (fun t => is_container t && is_open t) (toks p) (length (toks p)))
    as (i & -> & Hi); [lia|]. cbn [mbind option_bind].
  case_if; [by eexists|]. eexists. split; [done|]. by apply stay_ok.
Qed.

Lemma char_ok c count p :
  parser_ok p -> pos p < len -> rd js (pos p) = Some c -> c <> 0 ->
  exists o, jsmn_char num js c count p = Some o /\ step_ok count p o.
Proof.
  intros Hok Hlt Hc Hc0. pose proof Hok as (Hp & Hs & Hn & Hm & Ht). unfold jsmn_char.
  destruct ((c =? c_lbrace) || (c =? c_lbracket)); [by apply open_ok|].
  destruct ((c =? c_rbrace) || (c =? c_rbracket)) eqn:E1; [by apply close_ok|].
  destruct (c =? c_quote); [by apply string_ok|].
  destruct (is_blank c) eqn:E2.
  { eexists. split; [done|]. pose proof (stay_ok (toksuper p) count p Hok Hlt Hs) as H. by destruct p. }
  destruct (c =? c_colon) eqn:E3.
  { eexists. split; [done|]. apply stay_ok; [done..|]. unfold toknext in *. pose proof (zlen_nonneg (toks p)). lia. }
  destruct (c =? c_comma) eqn:E4; [by apply comma_ok|].
  eapply primitive_ok; [done..|]. apply orb_false_iff in E1 as [E1 E1']. by rewrite E1, E1', E2, E3, E4.
Qed.

(** The end of the loop: all tokens are closed, or it is an error. *)
Definition result_ok (r : Z * jsmn_parser) : Prop :=
  parser_ok (snd r) /\
  (fst r ∈ errors \/ fst r = toknext (snd r) /\ Forall (fun t => start t <= end_ t) (toks (snd r))).

Lemma find_back_none test (l : list jsmntok) : forall n,
  find_back test l n = Some (-1) -> Forall (fun t => test t = false) (take n l).
Proof.
  induction n as [|n IH]; cbn [find_back]; [constructor|]. intros H.
  destruct (l !! n) as [t|] eqn:E; [|done]. cbn [mbind option_bind] in H.
  destruct (test t) eqn:Et; [injection H; lia|].
  rewrite (take_S_r _ _ _ E). apply Forall_app. split; [by apply IH|by apply Forall_singleton].
Qed.

Lemma finish_ok p : parser_ok p -> exists r, jsmn_finish (toknext p) p = Some r /\ result_ok r.
Proof.
  intros Hok. pose proof Hok as (Hp & Hs & Hn & Hm & Ht). unfold jsmn_finish.
  destruct (find_back_total is_open (toks p) (length (toks p))) as (i & Hi & _); [lia|]. rewrite Hi.
  cbn [mbind option_bind]. eexists. split; [done|]. split; [done|]. simpl.
  destruct (Z.eqb_spec i (-1)) as [->|]; [right|left; rewrite !elem_of_cons; auto].
  split; [done|]. apply find_back_none in Hi. rewrite firstn_all in Hi.
  apply Forall_forall. intros t Hin. rewrite Forall_forall in Hi, Ht.
  specialize (Hi t Hin). destruct (Ht t Hin) as (? & He & _). unfold is_open in Hi.
  apply andb_false_iff in Hi as [Hi|Hi]; bool_simpl; lia.
Qed.

Lemma loop_ok fuel : forall p, parser_ok p -> len - pos p < Z.of_nat fuel ->
  exists r, jsmn_loop num js fuel (toknext p) p = Some r /\ result_ok r /\
    (fst r = JSMN_ERROR_NOMEM -> num <= toknext (snd r) < len).
Proof.
  induction fuel as [|fuel IH]; intros p Hok Hf; [destruct Hok; lia|]. cbn [jsmn_loop].
  assert (Hfin : exists r, jsmn_finish (toknext p) p = Some r /\ result_ok r /\
    (fst r = JSMN_ERROR_NOMEM -> num <= toknext (snd r) < len)).
  { destruct (finish_ok p Hok) as (r & Hr & Hok'). exists r. split_and!; [done..|].
    unfold jsmn_finish in Hr. apply bind_Some in Hr as (i & _ & [= <-]). simpl.
    case_if; [|done]. pose proof (zlen_nonneg (toks p)). unfold toknext, JSMN_ERROR_NOMEM. lia. }
  destruct (Z.ltb_spec (pos p) len) as [Hlt|]; [|done].
  destruct (rd_in js (pos p)) as (c & Hc & _); [destruct Hok; lia|]. rewrite Hc. cbn [mbind option_bind].
  destruct (Z.eqb_spec c 0); [done|].
  destruct (char_ok c (toknext p) p) as (o & -> & Ho); [done..|]. cbn [mbind option_bind].
  destruct o as [count' p'|code p'].
  - destruct Ho as (Hle & Hok' & Hcount). replace count' with (toknext (set_pos (pos p' + 1) p')) by (unfold toknext in *; simpl; lia). apply IH; [done|simpl; lia].
  - destruct Ho as (-> & Hcode & Hno). eexists. split; [done|]. split; [by split; [|left]|].
    simpl. intros E. specialize (Hno E). destruct Hok as (_ & _ & ? & _). lia.
Qed.

Lemma init_ok : parser_ok jsmn_init.
Proof.
  unfold parser_ok, toknext. pose proof (zlen_nonneg js). change (zlen (toks jsmn_init)) with 0. simpl. split_and!; try lia. constructor.
Qed.
End safe.

(** C19: On any text and with any number of tokens, the tokenizer ends after at
    most one round per character without reading or writing outside of the text
    and the token array.  The tokens it leaves are within the text; when it
    reports success the result is their number and every one of them is
    closed. *)
Theorem jsmn_parse_safe num js :
  exists code p, jsmn_parse num js jsmn_init = Some (code, p) /\
    toknext p <= Z.max 0 num /\ Forall (tok_ok (zlen js)) (toks p) /\
    (code ∈ [JSMN_ERROR_NOMEM; JSMN_ERROR_INVAL; JSMN_ERROR_PART] \/
     code = toknext p /\ Forall (fun t => start t <= end_ t) (toks p)).
Proof.
  destruct (loop_ok num js (S (length js)) jsmn_init) as ([code p] & Hr & (Hok & Hc) & _);
    [apply init_ok|cbn [pos jsmn_init]; unfold zlen; lia|].
  exists code, p. split; [done|]. destruct Hok as (Hp & _ & _ & Hm & Ht). cbn [fst snd] in *. split_and!; [done| |done].
  by apply toks_ok_mono with (pos p); [lia|].
Qed.

(** ** Going on with a larger array *)

Section growth.
Context (js : list byte).
Abbreviation len := (zlen js).

Lemma loop_fuel num k : forall fuel count p r,
  jsmn_loop num js fuel count p = Some r -> jsmn_loop num js (fuel + k) count p = Some r.
Proof.
  induction fuel as [|fuel IH]; intros count p r; [done|]. cbn [jsmn_loop plus].
  destruct (pos p <? len); [|done]. destruct (rd js (pos p)) as [c|]; [|done]. cbn [mbind option_bind].
  destruct (c =? 0); [done|]. destruct (jsmn_char num js c count p) as [[count' p'|code p']|]; [|done..].
  cbn [mbind option_bind]. apply IH.
Qed.

(** What did not run out of tokens does the same with more of them. *)
Lemma alloc_mono num num' p q :
  num <= num' -> jsmn_alloc_token num p = Some q -> jsmn_alloc_token num' p = Some q.
Proof. intros Hle. unfold jsmn_alloc_token. case_if; [done|]. intros <-. case_if; [lia|done]. Qed.

Lemma primitive_mono num num' p r :
  num <= num' -> jsmn_parse_primitive num js p = Some r -> fst r <> JSMN_ERROR_NOMEM ->
  jsmn_parse_primitive num' js p = Some r.
Proof.
  intros Hle. unfold jsmn_parse_primitive. destruct (prim_loop js _ _) as [[e|q]|]; [done| |done].
  cbn [mbind option_bind]. destruct (jsmn_alloc_token num p) as [p1|] eqn:E.
  - by rewrite (alloc_mono _ _ _ _ Hle E).
  - by intros [= <-].
Qed.

Lemma string_mono num num' p r :
  num <= num' -> jsmn_parse_string num js p = Some r -> fst r <> JSMN_ERROR_NOMEM ->
  jsmn_parse_string num' js p = Some r.
Proof.
  intros Hle. unfold jsmn_parse_string. destruct (str_loop js _ _) as [[e|q]|]; [done| |done].
  cbn [mbind option_bind]. destruct (jsmn_alloc_token num p) as [p1|] eqn:E.
  - by rewrite (alloc_mono _ _ _ _ Hle E).
  - by intros [= <-].
Qed.

Definition no_mem (o : outcome) : Prop :=
  match o with Go _ _ => False | Ret code _ => code = JSMN_ERROR_NOMEM end.

Lemma scalar_mono (f g : jsmn_parser -> option (Z * jsmn_parser)) count p o :
  (forall r, f p = Some r -> fst r <> JSMN_ERROR_NOMEM -> g p = Some r) ->
  scalar f count p = Some o -> ~ no_mem o -> scalar g count p = Some o.
Proof.
  intros Hfg. unfold scalar. destruct (f p) as [[r q]|]; [|done]. cbn [mbind option_bind].
  intros Ho Hn. rewrite (Hfg _ eq_refl); [done|]. simpl. intros ->. by injection Ho as <-.
Qed.

Lemma char_mono num num' c count p o :
  num <= num' -> jsmn_char num js c count p = Some o -> ~ no_mem o ->
  jsmn_char num' js c count p = Some o.
Proof.
  intros Hle. unfold jsmn_char. destruct ((c =? c_lbrace) || (c =? c_lbracket)).
  { unfold open_bracket. destruct (jsmn_alloc_token num p) as [p1|] eqn:E.
    - by rewrite (alloc_mono _ _ _ _ Hle E).
    - intros [= <-]. by intros []. }
  destruct ((c =? c_rbrace) || (c =? c_rbracket)); [done|].
  destruct (c =? c_quote); [apply scalar_mono; by intros; eapply string_mono|].
  destruct (is_blank c); [done|]. destruct (c =? c_colon); [done|]. destruct (c =? c_comma); [done|].
  apply scalar_mono. by intros; eapply primitive_mono.
Qed.

(** A run with few tokens is the beginning of the run with more. *)
Lemma loop_resume num num' fuel : num <= num' -> forall p r, parser_ok num js p ->
  len - pos p < Z.of_nat fuel -> jsmn_loop num js fuel (toknext p) p = Some r ->
  if fst r =? JSMN_ERROR_NOMEM
  then exists fuel', parser_ok num js (snd r) /\ len - pos (snd r) < Z.of_nat fuel' /\ (fuel' <= fuel)%nat /\
    jsmn_loop num' js fuel (toknext p) p = jsmn_loop num' js fuel' (toknext (snd r)) (snd r)
  else jsmn_loop num' js fuel (toknext p) p = Some r.
Proof.
  intros Hle. induction fuel as [|fuel IH]; intros p r Hok Hf; [done|]. cbn [jsmn_loop].
  assert (Hfin : jsmn_finish (toknext p) p = Some r -> (fst r =? JSMN_ERROR_NOMEM) = false).
  { intros Hr. unfold jsmn_finish in Hr. apply bind_Some in Hr as (i & _ & [= <-]). apply Z.eqb_neq. simpl.
    pose proof (zlen_nonneg (toks p)). unfold toknext, JSMN_ERROR_NOMEM. by case_if; [lia|]. }
  destruct (Z.ltb_spec (pos p) len) as [Hlt|]; [|intros Hr; by rewrite (Hfin Hr)].
  destruct (rd js (pos p)) as [c|] eqn:Hc; [|done]. cbn [mbind option_bind].
  destruct (Z.eqb_spec c 0) as [|Hc0]; [intros Hr; by rewrite (Hfin Hr)|].
  destruct (char_ok num js c (toknext p) p) as (o & Ho & Hs); [done..|]. rewrite Ho. cbn [mbind option_bind].
  destruct o as [count' p'|code p'].
  - destruct Hs as (Hge & Hok' & Hcount). intros Hr.
    rewrite (char_mono num num' _ _ _ _ Hle Ho) by (by intros []). cbn [mbind option_bind].
    replace count' with (toknext (set_pos (pos p' + 1) p')) in * by (unfold toknext in *; simpl; lia).
    assert (Hf' : len - pos (set_pos (pos p' + 1) p') < Z.of_nat fuel) by (simpl; lia).
    specialize (IH _ _ Hok' Hf' Hr). case_if; [|done]. destruct IH as (fuel' & ? & ? & ? & ?).
    exists fuel'. split_and!; (done || lia).
  - destruct Hs as (-> & Hcode & _). intros [= <-]. cbn [fst snd]. case_if.
    + exists (S fuel). split_and!; [done..|]. cbn [jsmn_loop]. rewrite (proj2 (Z.ltb_lt _ _)), Hc by lia.
      cbn [mbind option_bind]. by rewrite (proj2 (Z.eqb_neq c 0)).
    + rewrite (char_mono num num' _ _ _ _ Hle Ho) by done. done.
Qed.

Lemma parser_ok_mono num num' p : num <= num' -> parser_ok num js p -> parser_ok num' js p.
Proof. intros ? (? & ? & ? & ? & ?). unfold parser_ok. split_and!; (done || lia). Qed.

(** Two runs that did not run out of tokens agree. *)
Lemma parse_agree num num' p r r' :
  parser_ok num js p -> parser_ok num' js p ->
  jsmn_parse num js p = Some r -> jsmn_parse num' js p = Some r' ->
  fst r <> JSMN_ERROR_NOMEM -> fst r' <> JSMN_ERROR_NOMEM -> r = r'.
Proof.
  unfold jsmn_parse. intros Hok Hok' Hr Hr' Hn Hn'.
  assert (Hf : len - pos p < Z.of_nat (S (length js))) by (destruct Hok; unfold zlen; lia).
  destruct (Z.le_ge_cases num num') as [Hle|Hle].
  - pose proof (loop_resume _ _ _ Hle _ _ Hok Hf Hr) as H. case_if in H; [done|]. congruence.
  - pose proof (loop_resume _ _ _ Hle _ _ Hok' Hf Hr') as H. case_if in H; [done|]. congruence.
Qed.

Lemma parse_resume num num' p r :
  num <= num' -> parser_ok num js p -> jsmn_parse num js p = Some r -> fst r = JSMN_ERROR_NOMEM ->
  parser_ok num js (snd r) /\ jsmn_parse num' js p = jsmn_parse num' js (snd r).
Proof.
  unfold jsmn_parse. intros Hle Hok Hr Hn.
  assert (Hf : len - pos p < Z.of_nat (S (length js))) by (destruct Hok; unfold zlen; lia).
  pose proof (loop_resume _ _ _ Hle _ _ Hok Hf Hr) as H. rewrite Hn in H.
  destruct H as (fuel' & Hok' & Hf' & Hle' & ->). split; [done|].
  destruct (loop_ok num' js fuel' (snd r)) as (r' & Hr' & _); [by eapply parser_ok_mono|done|].
  rewrite Hr'. apply (loop_fuel num' (S (length js) - fuel')) in Hr'.
  by replace (fuel' + (S (length js) - fuel'))%nat with (S (length js)) in Hr' by lia.
Qed.

(** Enough tokens for the text: the doubling loop ends with the result of one
    run, with any array at least as long as the text. *)
Lemma parse_growing_run cap : len <= cap -> forall fuel num p,
  parser_ok num js p -> 0 < num -> (0 < fuel)%nat -> len - num < Z.of_nat fuel ->
  exists r, parse_growing fuel js num p = Some r /\ jsmn_parse cap js p = Some r /\
    fst r <> JSMN_ERROR_NOMEM.
Proof.
  intros Hcap. induction fuel as [|fuel IH]; intros num p Hok Hnum H0 Hf; [lia|]. cbn [parse_growing].
  assert (Hfl : len - pos p < Z.of_nat (S (length js))) by (destruct Hok; unfold zlen; lia).
  assert (Hokc : parser_ok cap js p).
  { destruct Hok as (? & ? & ? & ? & ?). unfold parser_ok. split_and!; (done || lia). }
  destruct (loop_ok num js _ p Hok Hfl) as (r & Hr & Hres & Hno).
  destruct (loop_ok cap js _ p Hokc Hfl) as (r' & Hr' & _ & Hno').
  change (jsmn_parse num js p = Some r) in Hr. change (jsmn_parse cap js p = Some r') in Hr'.
  rewrite Hr. cbn [mbind option_bind]. destruct (Z.eqb_spec (fst r) JSMN_ERROR_NOMEM) as [E|E].
  - specialize (Hno E). destruct (parse_resume num cap p r) as (Hokr & ->); [lia|done..|].
    apply IH; [apply parser_ok_mono with num; [lia|done]|lia..].
  - exists r. split_and!; [done| |done]. rewrite Hr'. f_equal. symmetry.
    eapply parse_agree; [exact Hok|exact Hokc|done..|]. intros E'. specialize (Hno' E'). lia.
Qed.
End growth.

(** C20: Reading the configuration starts with two tokens and doubles the array
    each time the tokenizer runs out, going on where it stopped.  This always
    ends, and gives the code and the tokens of a single run with an array that
    is as long as the text, or longer. *)
Theorem parse_growing_equiv js cap :
  zlen js <= cap ->
  exists r, parse_growing (S (length js)) js 2 jsmn_init = Some r /\
    jsmn_parse cap js jsmn_init = Some r /\ fst r <> JSMN_ERROR_NOMEM.
Proof.
  intros Hcap. apply parse_growing_run; [done|apply init_ok|lia|lia|unfold zlen; lia].
Qed.

Lemma parse_growing_equiv_witness :
  let js := lit "[1,2,3]" in
  zlen js <= 7 /\ exists r, parse_growing (S (length js)) js 2 jsmn_init = Some r /\
    jsmn_parse 7 js jsmn_init = Some r /\ fst r <> JSMN_ERROR_NOMEM.
Proof. split; [vm_compute; discriminate|]. apply parse_growing_equiv. vm_compute. discriminate. Defined.
