(* ===== verification/JsonText.v ===== *)
(** * The text of a tree

    What the printer is for: [render] is the text of a well-formed tree, [tokens]
    the tokens of that text.  [tree2js] prints exactly [render], in one pass over
    a buffer, and [js2tree] builds the tree from [tokens].

    The children of a node are a chain of siblings, read differently in an
    object (the members, each a key with its value below it) and in an array (the
    elements); [mode] tells which reading is meant. *)

From S2P Require Import Prelude Text Jsmn JsTree.

Inductive mode := MVal | MObj | MArr.

(** The blanks in front of an item and of a closing bracket, by depth.  The
    printer uses tabs. *)
Class Layout := {
  ipad : nat -> list byte;
  cpad : nat -> list byte;
  ipad_blank n : Forall (fun b => is_blank (chr b) = true) (ipad n);
  cpad_blank n : Forall (fun b => is_blank (chr b) = true) (cpad n);
}.

Definition tabs (n : nat) : list byte := replicate n Byte.x09.
Lemma tabs_blank n : Forall (fun b => is_blank (chr b) = true) (tabs n).
Proof. by apply Forall_replicate. Qed.
#[export] Instance tab_layout : Layout :=
  {| ipad := tabs; cpad := tabs; ipad_blank := tabs_blank; cpad_blank := tabs_blank |}.
Definition sep (l : tree) : list byte :=
  match l with Null => [Byte.x0a] | _ => [Byte.x2c; Byte.x0a] end.

(** The text of a key or of another value that is not a container. *)
Definition scalar_text (ty : jsmntype) (d : option (list byte)) : list byte :=
  match ty, d with
  | JSMN_STRING, Some d => quoted d
  | JSMN_PRIMITIVE, Some d => d
  | _, _ => []
  end.

Fixpoint render `{Layout} (m : mode) (ind : nat) (t : tree) : list byte :=
  match t with
  | Null => []
  | Node ty d l r =>
      let own :=
        match ty with
        | JSMN_OBJECT => lit "{" ++ [Byte.x0a] ++ render MObj (S ind) r ++ cpad ind ++ lit "}"
        | JSMN_ARRAY => lit "[" ++ [Byte.x0a] ++ render MArr (S ind) r ++ cpad ind ++ lit "]"
        | _ => scalar_text ty d
        end in
      match m with
      | MVal => own
      | MObj => ipad ind ++ scalar_text ty d ++ lit ":" ++ render MVal ind r ++ sep l ++ render MObj ind l
      | MArr => ipad ind ++ own ++ sep l ++ render MArr ind l
      end
  end.

(** ** Well-formed trees *)

(** The inside of a string: nothing ends it early, the escapes are complete. *)
Fixpoint str_body (d : list byte) : bool :=
  match d with
  | [] => true
  | b :: d =>
      if (chr b =? 0) || (chr b =? c_quote) then false
      else if chr b =? c_backslash then
        match d with
        | [] => false
        | e :: d =>
            if is_escape (chr e) then str_body d
            else if chr e =? 117 then
              match d with
              | h1 :: h2 :: h3 :: h4 :: d =>
                  is_hex (chr h1) && is_hex (chr h2) && is_hex (chr h3) && is_hex (chr h4) && str_body d
              | _ => false
              end
            else false
        end
      else str_body d
  end.

Definition prim_char (b : byte) : bool :=
  (33 <=? chr b) && (chr b <? 127) && negb (bool_decide (chr b ∈ [c_colon; c_comma; c_rbracket; c_rbrace])).
Definition prim_body (d : list byte) : bool :=
  match d with
  | [] => false
  | b :: _ => negb (bool_decide (chr b ∈ [c_quote; c_lbracket; c_lbrace])) && forallb prim_char d
  end.

Definition is_null (t : tree) : bool := match t with Null => true | _ => false end.

Definition wf_scalar (ty : jsmntype) (d : option (list byte)) : bool :=
  match ty, d with
  | JSMN_STRING, Some d => str_body d
  | JSMN_PRIMITIVE, Some d => prim_body d
  | _, _ => false
  end.

Fixpoint wf (m : mode) (t : tree) : bool :=
  match t with
  | Null => match m with MVal => false | _ => true end
  | Node ty d l r =>
      let own :=
        match ty with
        | JSMN_OBJECT => bool_decide (d = None) && wf MObj r
        | JSMN_ARRAY => bool_decide (d = None) && wf MArr r
        | _ => wf_scalar ty d && is_null r
        end in
      match m with
      | MVal => own && is_null l
      | MObj => wf_scalar ty d && wf MVal r && wf MObj l
      | MArr => own && wf MArr l
      end
  end.

Abbreviation json := (render MVal 0).

(** ** The tokens of the text, which starts at [off] *)

Fixpoint chain (t : tree) : nat := match t with Null => O | Node _ _ l _ => S (chain l) end.

Definition scalar_tok (ty : jsmntype) (d : option (list byte)) (off size : Z) : jsmntok :=
  let s := if bool_decide (ty = JSMN_STRING) then off + 1 else off in
  mk_tok ty s (s + zlen (default [] d)) size.

Fixpoint tokens `{Layout} (m : mode) (ind : nat) (off : Z) (t : tree) : list jsmntok :=
  match t with
  | Null => []
  | Node ty d l r =>
      let own off :=
        match ty with
        | JSMN_OBJECT =>
            mk_tok JSMN_OBJECT off (off + zlen (render MVal ind (Node ty d Null r))) (Z.of_nat (chain r))
            :: tokens MObj (S ind) (off + 2) r
        | JSMN_ARRAY =>
            mk_tok JSMN_ARRAY off (off + zlen (render MVal ind (Node ty d Null r))) (Z.of_nat (chain r))
            :: tokens MArr (S ind) (off + 2) r
        | _ => [scalar_tok ty d off 0]
        end in
      let off1 := off + zlen (ipad ind) in
      match m with
      | MVal => own off
      | MObj =>
          let off2 := off1 + zlen (scalar_text ty d) + 1 in
          scalar_tok ty d off1 1 :: tokens MVal ind off2 r
          ++ tokens MObj ind (off2 + zlen (render MVal ind r) + zlen (sep l)) l
      | MArr =>
          own off1
          ++ tokens MArr ind (off1 + zlen (render MVal ind (Node ty d Null r)) + zlen (sep l)) l
      end
  end.

(** An element of an array is a value that has siblings. *)
Lemma render_elem `{Layout} ind ty d l r :
  render MArr ind (Node ty d l r) =
  ipad ind ++ render MVal ind (Node ty d Null r) ++ sep l ++ render MArr ind l.
Proof. done. Qed.

Lemma wf_elem ty d l r :
  wf MArr (Node ty d l r) = wf MVal (Node ty d Null r) && wf MArr l.
Proof. cbn [wf is_null]. by rewrite andb_true_r. Qed.

Lemma wf_value ty d l r :
  wf MVal (Node ty d l r) = true -> l = Null /\ wf MVal (Node ty d Null r) = true.
Proof.
  cbn [wf]. intros [H Hl]%andb_true_iff. cbn [is_null] in *. destruct l; [|done]. split; [done|].
  by rewrite andb_true_r.
Qed.

(** ** Printing *)

Section after.
Context (out : option Z) (outlen : Z).

(** The state of the printer after [s]; a null byte ends what is in the buffer. *)
Definition after (s : list byte) (st : Z * list byte) : Z * list byte :=
  (fst st + zlen s,
   match out with
   | None => snd st
   | Some off => ztake (off + fst st) (snd st) ++ s ++ [Byte.x00] ++
                 zdrop (off + fst st + zlen s + 1) (snd st)
   end).

(** There is room for [s] and the null byte. *)
Definition ready (s : list byte) (st : Z * list byte) : Prop :=
  match out with
  | None => True
  | Some off => 0 <= off /\ 0 <= fst st /\ fst st + zlen s < outlen < 2 ^ 64 /\
                off + outlen <= zlen (snd st)
  end.

Lemma put_string_after s st : ready s st -> put_string out outlen s st = Some (after s st).
Proof.
  unfold put_string, _tree2js_insert_string, after, ready. destruct out as [off|]; [|by destruct st].
  intros (? & ? & ? & ?). pose proof (zlen_nonneg s). unfold snprintf. rewrite Z.mod_small by lia.
  rewrite (proj2 (Z.eqb_neq _ _)) by lia. rewrite ztake_all by lia.
  rewrite store_Some by zlen_lia. cbn [mbind option_bind fst snd].
  rewrite <- app_assoc. do 5 f_equal. autorewrite with zlen. f_equal. lia.
Qed.

Lemma after_app s s' st : ready (s ++ s') st -> after s' (after s st) = after (s ++ s') st.
Proof.
  unfold after, ready. cbn [fst snd]. destruct out as [off|]; [|intros _; f_equal; zlen_lia].
  intros (? & ? & Hroom & ?). pose proof (zlen_nonneg s). pose proof (zlen_nonneg s').
  rewrite zlen_app in *. f_equal; [lia|].
  assert (Ht : zlen (ztake (off + fst st) (snd st)) = off + fst st) by (apply zlen_ztake; lia).
  rewrite ztake_app_r by lia. rewrite Ht. replace (off + (fst st + zlen s) - (off + fst st)) with (zlen s) by lia.
  rewrite ztake_app_l, (ztake_all (zlen s)) by lia. rewrite <- !app_assoc. do 4 f_equal.
  rewrite zdrop_app_r by lia. rewrite Ht. rewrite zdrop_app_r by lia. rewrite zdrop_app_r by zlen_lia.
  rewrite zdrop_zdrop by zlen_lia. f_equal. zlen_lia.
Qed.

Lemma ready_app s s' st : ready (s ++ s') st -> ready s st /\ ready s' (after s st).
Proof.
  unfold ready, after. destruct out as [off|]; [|done]. cbn [fst snd].
  pose proof (zlen_nonneg s). pose proof (zlen_nonneg s'). intros (? & ? & ? & ?).
  rewrite zlen_app in *. split; [split_and!; lia|]. split_and!; try zlen_lia.
Qed.

Lemma put_tabs_after n : forall s st, ready (s ++ tabs n) st ->
  put_tabs out outlen n (after s st) = Some (after (s ++ tabs n) st).
Proof.
  induction n as [|n IH]; intros s st Hr; cbn [put_tabs tabs replicate] in *; [by rewrite app_nil_r|].
  change (Byte.x09 :: replicate n Byte.x09) with ([Byte.x09] ++ tabs n) in *. rewrite app_assoc in *.
  pose proof (ready_app _ _ _ Hr) as [Hr1 _]. pose proof (ready_app _ _ _ Hr1) as [_ Hr2].
  rewrite put_string_after by done. cbn [mbind option_bind]. rewrite after_app by done. by apply IH.
Qed.

Lemma put_more s s' st : ready (s ++ s') st ->
  put_string out outlen s' (after s st) = Some (after (s ++ s') st).
Proof.
  intros Hr. rewrite put_string_after by apply (ready_app _ _ _ Hr). by rewrite after_app.
Qed.
End after.

(** Printing a value below is appending its text. *)
Lemma put_tree_after (print : tree -> option Z -> Z -> Z -> list byte -> option (Z * list byte))
    out outlen indent t s text st :
  t <> Null -> ready out outlen (s ++ text) st ->
  (forall out outlen buf, ready out outlen text (0, buf) ->
    print t out outlen indent buf = Some (after out text (0, buf))) ->
  put_tree print out outlen indent t (after out s st) = Some (after out (s ++ text) st).
Proof.
  intros Ht Hr Hp. rewrite <- (after_app _ _ _ _ _ Hr). apply ready_app in Hr as [_ Hr].
  revert Hr. generalize (after out s st). intros [len buf] Hr.
  unfold put_tree, _tree2js_insert_tree. destruct t as [|ty d l r]; [done|]. cbn [fst snd].
  pose proof (zlen_nonneg text). rewrite Hp.
  - cbn [mbind option_bind]. unfold after. cbn [fst snd]. rewrite Z.add_0_l.
    assert (He : (if zlen text <=? 0 then len else len + zlen text) = len + zlen text) by (case_if; lia).
    rewrite He. destruct out as [off|]; [|done]. simpl. do 2 f_equal.
    by replace (len + off + 0) with (off + len) by lia.
  - unfold ready in *. destruct out as [off|]; [|done]. simpl in *. split_and!; lia.
Qed.

(** Induction along [str_body]: plain characters, short and long escapes. *)
Lemma str_body_ind (P : list byte -> Prop) :
  P [] ->
  (forall b d, chr b <> 0 -> chr b <> c_quote -> chr b <> c_backslash -> P d -> P (b :: d)) ->
  (forall e d, is_escape (chr e) = true -> P d -> P (Byte.x5c :: e :: d)) ->
  (forall h1 h2 h3 h4 d, is_hex (chr h1) = true -> is_hex (chr h2) = true -> is_hex (chr h3) = true ->
     is_hex (chr h4) = true -> P d -> P (Byte.x5c :: Byte.x75 :: h1 :: h2 :: h3 :: h4 :: d)) ->
  forall d, str_body d = true -> P d.
Proof.
  intros H0 Hc He Hu d. remember (length d) as n eqn:Hn. revert d Hn.
  induction n as [n IH] using lt_wf_ind. intros d -> Hd.
  assert (IH' : forall d', (length d' < length d)%nat -> str_body d' = true -> P d') by (intros; eapply IH; eauto).
  destruct d as [|b d]; [done|]. cbn [str_body] in Hd. cbn [length] in IH'.
  case_if in Hd; [done|]. case_if in Hd.
  - assert (b = Byte.x5c) as -> by (by apply chr_inj). destruct d as [|e d]; [done|]. cbn [length] in IH'.
    case_if in Hd; [apply He; [done|]; apply IH'; [lia|done]|]. case_if in Hd; [|done].
    assert (e = Byte.x75) as -> by (by apply chr_inj).
    destruct d as [|h1 [|h2 [|h3 [|h4 d]]]]; try done. cbn [length] in IH'.
    rewrite !andb_true_iff in Hd. destruct Hd as [[[[? ?] ?] ?] ?]. apply Hu; try done. apply IH'; [lia|done].
  - apply Hc; try done. apply IH'; [lia|done].
Qed.

Lemma str_body_no_nul d : str_body d = true -> no_nul d.
Proof.
  revert d. apply str_body_ind; [constructor|by constructor|..].
  - intros e d He Hd. constructor; [done|]. constructor; [|done]. by intros E; rewrite E in He.
  - intros h1 h2 h3 h4 d H1 H2 H3 H4 Hd.
    repeat (constructor; [try done; by intros E; rewrite E in *|]). done.
Qed.

Lemma prim_char_no_nul b : prim_char b = true -> chr b <> 0.
Proof. unfold prim_char. intros H. bool_simpl. lia. Qed.

Lemma prim_body_chars d : prim_body d = true -> Forall (fun b => prim_char b = true) d.
Proof.
  destruct d as [|b d]; [done|]. unfold prim_body. intros [_ H]%andb_true_iff.
  apply Forall_forall. intros x Hx. rewrite forallb_forall in H. apply H. by apply list_elem_of_In.
Qed.

Lemma prim_body_no_nul d : prim_body d = true -> no_nul d.
Proof. intros H%prim_body_chars. eapply Forall_impl; [exact H|]. intros b. apply prim_char_no_nul. Qed.

Lemma scalar_after fuel ty d l r out outlen indent buf :
  wf_scalar ty d = true -> ready out outlen (scalar_text ty d) (0, buf) ->
  tree2js (S fuel) (Node ty d l r) out outlen indent buf = Some (after out (scalar_text ty d) (0, buf)).
Proof.
  intros Hw Hr. rewrite <- (put_string_after _ outlen _ _ Hr). cbn [tree2js].
  assert (Hout : _tree2js_insert_string out (match out with None => 0 | Some _ => outlen end) 0 (scalar_text ty d) buf
    = put_string out outlen (scalar_text ty d) (0, buf)) by (by destruct out).
  destruct ty, d as [d|]; try done; cbn [mbind option_bind wf_scalar scalar_text] in *.
  - by rewrite (cstr_all d) by (by apply str_body_no_nul).
  - by rewrite (cstr_all d) by (by apply prim_body_no_nul).
Qed.

(** A round of the loop over the siblings. *)
Lemma walk_round put_node out outlen ind ty d l r s text st :
  ready out outlen (s ++ tabs ind ++ text ++ sep l) st ->
  put_node (Node ty d l r) (after out (s ++ tabs ind) st) = Some (after out ((s ++ tabs ind) ++ text) st) ->
  walk_siblings out outlen (Z.of_nat ind) put_node (Node ty d l r) (after out s st) =
  walk_siblings out outlen (Z.of_nat ind) put_node l (after out (s ++ tabs ind ++ text ++ sep l) st).
Proof.
  intros Hr Hp. cbn [walk_siblings]. rewrite Nat2Z.id. rewrite !app_assoc in *.
  pose proof (ready_app _ _ _ _ _ Hr) as [Hr1 _]. pose proof (ready_app _ _ _ _ _ Hr1) as [Hr2 _].
  rewrite put_tabs_after by done. cbn [mbind option_bind]. rewrite Hp. cbn [mbind option_bind].
  destruct l as [|ty' d' l' r']; cbn [sep mbind option_bind] in *.
  - by rewrite put_more.
  - change [Byte.x2c; Byte.x0a] with (lit "," ++ [Byte.x0a]) in *. rewrite app_assoc in *.
    pose proof (ready_app _ _ _ _ _ Hr) as [Hr3 _]. rewrite put_more by done. cbn [mbind option_bind].
    by rewrite put_more.
Qed.

(** What the two walkers print of one sibling. *)
Abbreviation put_member print out outlen indent := (fun node st =>
  st ← put_tree print out outlen indent node st;
  st ← put_string out outlen (lit ":") st;
  v ← node_r node;
  put_tree print out outlen indent v st).

Definition prints (fuel : nat) (t : tree) : Prop :=
  (wf MVal t = true -> forall ind out outlen buf, ready out outlen (render MVal ind t) (0, buf) ->
     tree2js fuel t out outlen (Z.of_nat ind) buf = Some (after out (render MVal ind t) (0, buf))) /\
  (wf MObj t = true -> forall ind out outlen s st, ready out outlen (s ++ render MObj ind t) st ->
     walk_siblings out outlen (Z.of_nat ind) (put_member (tree2js fuel) out outlen (Z.of_nat ind)) t (after out s st)
     = Some (after out (s ++ render MObj ind t) st)) /\
  (wf MArr t = true -> forall ind out outlen s st, ready out outlen (s ++ render MArr ind t) st ->
     walk_siblings out outlen (Z.of_nat ind) (put_tree (tree2js fuel) out outlen (Z.of_nat ind)) t (after out s st)
     = Some (after out (s ++ render MArr ind t) st)).

(** The brackets around the siblings. *)
Lemma bracket_after walked o c body ind out outlen buf :
  ready out outlen ((o ++ body) ++ tabs ind ++ c) (0, buf) ->
  (ready out outlen (o ++ body) (0, buf) ->
   walked (after out o (0, buf)) = Some (after out (o ++ body) (0, buf))) ->
  (st ← put_string out outlen o (0, buf);
   st ← walked st;
   st ← put_tabs out outlen (Z.to_nat (Z.of_nat ind + 1 - 1)) st;
   put_string out outlen c st) = Some (after out ((o ++ body) ++ tabs ind ++ c) (0, buf)).
Proof.
  intros Hr Hw. replace (Z.to_nat (Z.of_nat ind + 1 - 1)) with ind by lia.
  rewrite app_assoc in *. pose proof (ready_app _ _ _ _ _ Hr) as [Hr1 _].
  pose proof (ready_app _ _ _ _ _ Hr1) as [Hr2 _]. pose proof (ready_app _ _ _ _ _ Hr2) as [Hr3 _].
  rewrite put_string_after by done. cbn [mbind option_bind]. rewrite Hw by done. cbn [mbind option_bind].
  rewrite put_tabs_after by done. cbn [mbind option_bind]. by rewrite put_more.
Qed.

Lemma value_prints fuel ty d r : prints fuel r -> (depth r <= fuel)%nat ->
  wf MVal (Node ty d Null r) = true -> forall l ind out outlen buf,
  ready out outlen (render MVal ind (Node ty d Null r)) (0, buf) ->
  tree2js (S fuel) (Node ty d l r) out outlen (Z.of_nat ind) buf
  = Some (after out (render MVal ind (Node ty d Null r)) (0, buf)).
Proof.
  intros (_ & HO & HA) Hf Hw l ind out outlen buf Hr. cbn [wf is_null] in Hw. rewrite andb_true_r in Hw.
  assert (Hr' : ready out (match out with Some _ => outlen | None => 0 end)
    (render MVal ind (Node ty d Null r)) (0, buf)) by (by destruct out).
  destruct ty; try (apply andb_true_iff in Hw as [Hw ?]; by apply scalar_after).
  all: apply andb_true_iff in Hw as [_ Hw]; cbn [tree2js render] in *; revert Hr';
    generalize (match out with Some _ => outlen | None => 0 end); clear outlen Hr; intros outlen Hr.
  all: rewrite app_assoc in *; rewrite (app_assoc (_ ++ _) (render _ _ _)) in *.
  - unfold _tree2js_walk_object. apply bracket_after; [done|]. intros Hr1.
    replace (Z.of_nat ind + 1) with (Z.of_nat (S ind)) by lia. by apply HO.
  - unfold _tree2js_walk_array. apply bracket_after; [done|]. intros Hr1.
    replace (Z.of_nat ind + 1) with (Z.of_nat (S ind)) by lia. by apply HA.
Qed.

Lemma wf_not_null t : wf MVal t = true -> t <> Null.
Proof. by destruct t. Qed.

Lemma prints_all t : forall fuel, (depth t <= fuel)%nat -> prints fuel t.
Proof.
  induction t as [|ty d l IHl r IHr]; intros fuel Hf.
  { split_and!; [done|..]; intros _ ind out outlen s st Hr; cbn [walk_siblings render]; by rewrite app_nil_r. }
  cbn [depth] in Hf. destruct fuel as [|fuel]; [lia|].
  destruct (IHl (S fuel)) as (_ & HlO & HlA); [lia|]. destruct (IHr (S fuel)) as (HrV & _); [lia|].
  pose proof (IHr fuel ltac:(lia)) as Hr.
  pose proof (value_prints fuel ty d r Hr ltac:(lia)) as HV. split_and!.
  - intros Hw. apply wf_value in Hw as [-> Hw]. intros. by apply HV.
  - cbn [wf]. intros [[Hs Hv]%andb_true_iff Hw]%andb_true_iff ind out outlen s st.
    cbn [render]. set (key := scalar_text ty d). set (val := render MVal ind r). intros Hrd.
    assert (Hrd' : ready out outlen ((s ++ tabs ind ++ (key ++ lit ":" ++ val) ++ sep l) ++ render MObj ind l) st)
      by (by rewrite <- !app_assoc).
    pose proof (ready_app _ _ _ _ _ Hrd') as [Hr1 _].
    erewrite (walk_round _ _ _ _ _ _ _ _ _ (key ++ lit ":" ++ val)); [|done|].
    + rewrite HlO by done. by rewrite <- !app_assoc.
    + rewrite !app_assoc in Hr1. apply ready_app in Hr1 as [Hr1 _]. rewrite !app_assoc.
      pose proof (ready_app _ _ _ _ _ Hr1) as [Hr2 _]. pose proof (ready_app _ _ _ _ _ Hr2) as [Hr3 _].
      rewrite (put_tree_after _ _ _ _ _ _ key); [|done|done|intros; by apply scalar_after].
      cbn [mbind option_bind]. rewrite put_more by done. cbn [mbind option_bind node_r].
      apply put_tree_after; [by apply wf_not_null|done|]. by apply HrV.
  - rewrite wf_elem. intros [Hv Hw]%andb_true_iff ind out outlen s st. rewrite render_elem.
    set (val := render MVal ind (Node ty d Null r)). intros Hrd.
    assert (Hrd' : ready out outlen ((s ++ tabs ind ++ val ++ sep l) ++ render MArr ind l) st)
      by (by rewrite <- !app_assoc).
    pose proof (ready_app _ _ _ _ _ Hrd') as [Hr1 _].
    erewrite (walk_round _ _ _ _ _ _ _ _ _ val); [|done|].
    + rewrite HlA by done. by rewrite <- !app_assoc.
    + apply put_tree_after; [done| |].
      * rewrite !app_assoc in Hr1. by apply ready_app in Hr1 as [Hr1 _].
      * intros. by apply HV.
Qed.

(** The whole buffer: the text and its null byte; without a buffer, the size one
    needs. *)
Lemma tree2json_prints t m :
  wf MVal t = true -> zlen (json t) < zlen m < 2 ^ 64 ->
  tree2json t (Some m) (zlen m) =
    Some (zlen (json t), json t ++ [Byte.x00] ++ zdrop (zlen (json t) + 1) m).
Proof.
  intros Hw Hm. unfold tree2json.
  destruct (prints_all t (S (depth t)) ltac:(lia)) as (HV & _).
  change 0 with (Z.of_nat 0). rewrite HV; [|done|unfold ready; cbn [fst snd]; lia].
  unfold after. cbn [fst snd]. rewrite !Z.add_0_l. done.
Qed.

Lemma tree2json_size t k :
  wf MVal t = true -> tree2json t None k = Some (zlen (json t) + 1, []).
Proof.
  intros Hw. unfold tree2json. destruct (prints_all t (S (depth t)) ltac:(lia)) as (HV & _).
  change 0 with (Z.of_nat 0). rewrite HV by done. unfold after. cbn [fst snd mbind option_bind].
  by rewrite Z.add_0_l.
Qed.

(** ** Building the tree *)

(** What is left of the text at a position. *)
Definition rest (js : list byte) (off : Z) (s : list byte) : Prop :=
  0 <= off <= zlen js /\ zdrop off js = s.

Lemma rest_len js off s : rest js off s -> off + zlen s = zlen js.
Proof. intros [H0 <-]. rewrite zlen_zdrop by lia. lia. Qed.

Lemma rest_app js off a b : rest js off (a ++ b) -> rest js (off + zlen a) b.
Proof.
  intros Hr. pose proof (rest_len _ _ _ Hr) as Hl. destruct Hr as [H0 H]. rewrite zlen_app in Hl.
  pose proof (zlen_nonneg a). pose proof (zlen_nonneg b). split; [lia|].
  rewrite <- zdrop_zdrop, H by lia. by rewrite zdrop_app_r, Z.sub_diag by lia.
Qed.

Lemma rest_cons js off b s : rest js off (b :: s) ->
  rd js off = Some (chr b) /\ off < zlen js /\ rest js (off + 1) s.
Proof.
  intros Hr. pose proof (rest_len _ _ _ Hr) as Hl. rewrite zlen_cons in Hl.
  pose proof (zlen_nonneg s) as Hs. pose proof (rest_app js off [b] s Hr) as Hr1. destruct Hr as [H0 H].
  split_and!; [|lia|done]. unfold rd. rewrite (proj2 (andb_true_iff _ _)) by (rewrite Z.leb_le, Z.ltb_lt; lia).
  unfold zdrop in H. rewrite <- (Nat.add_0_r (Z.to_nat off)), <- lookup_drop, H. done.
Qed.

Lemma rest_load js off a b : rest js off (a ++ b) -> load off (zlen a) js = Some a.
Proof.
  intros Hr. pose proof (rest_len _ _ _ Hr) as Hl. destruct Hr as [H0 H].
  pose proof (zlen_nonneg a). pose proof (zlen_nonneg b). rewrite zlen_app in Hl.
  rewrite load_Some, H, ztake_app_l, ztake_all by lia. done.
Qed.

Section layout.
Context `{Layout}.

(** The tokens of a text give its tree, whatever follows them. *)
Definition builds (js : list byte) (fuel : nat) (t : tree) : Prop :=
  (wf MVal t = true -> forall ind off post more count, rest js off (render MVal ind t ++ post) ->
     (length (tokens MVal ind off t) <= fuel)%nat -> zlen (tokens MVal ind off t) <= count ->
     js2tree fuel js (tokens MVal ind off t ++ more) count = Some (zlen (tokens MVal ind off t), t)) /\
  (wf MObj t = true -> forall ind off post more count j, rest js off (render MObj ind t ++ post) ->
     (length (tokens MObj ind off t) <= fuel)%nat -> zlen (tokens MObj ind off t) + j <= count ->
     object_loop (js2tree fuel js) (chain t) (tokens MObj ind off t ++ more) count j
     = Some (j + zlen (tokens MObj ind off t), t)) /\
  (wf MArr t = true -> forall ind off post more count j, rest js off (render MArr ind t ++ post) ->
     (length (tokens MArr ind off t) <= fuel)%nat -> zlen (tokens MArr ind off t) + j <= count ->
     array_loop (js2tree fuel js) (chain t) (tokens MArr ind off t ++ more) count j
     = Some (j + zlen (tokens MArr ind off t), t)).

Lemma scalar_builds js fuel ty d off size post more count :
  wf_scalar ty d = true -> rest js off (scalar_text ty d ++ post) -> 0 < count ->
  js2tree (S fuel) js (scalar_tok ty d off size :: more) count = Some (1, Node ty d Null Null).
Proof.
  intros Hw Hr Hc. cbn [js2tree]. rewrite (proj2 (Z.eqb_neq _ _)) by lia. cbn [head mbind option_bind].
  assert (Hd : forall d0 off0 post0, rest js off0 (d0 ++ post0) ->
    _alloc_tree_node_len ty js off0 (off0 + zlen d0 - off0) = Some (Node ty (Some d0) Null Null)).
  { intros d0 off0 post0 Hr0. unfold _alloc_tree_node_len. pose proof (zlen_nonneg d0).
    replace (off0 + zlen d0 - off0) with (zlen d0) by lia. rewrite (proj2 (Z.leb_le _ _)) by lia.
    by rewrite (rest_load _ _ _ _ Hr0). }
  destruct ty, d as [d|]; try done; cbn [wf_scalar scalar_text] in *; unfold scalar_tok;
    cbn [type start end_ default bool_decide].
  - unfold quoted in Hr. rewrite <- !app_assoc in Hr. apply rest_app in Hr. change (zlen [Byte.x22]) with 1 in Hr.
    cbn. erewrite Hd; [done|exact Hr].
  - cbn. erewrite Hd; [done|exact Hr].
Qed.

Lemma zdrop_exact {A} (l k : list A) : zdrop (zlen l) (l ++ k) = k.
Proof. rewrite zdrop_app_r by lia. by rewrite Z.sub_diag. Qed.

Lemma tokens_elem ind off ty d l r :
  tokens MArr ind off (Node ty d l r) =
  tokens MVal ind (off + zlen (ipad ind)) (Node ty d Null r) ++
  tokens MArr ind (off + zlen (ipad ind) + zlen (render MVal ind (Node ty d Null r)) + zlen (sep l)) l.
Proof. done. Qed.

Lemma value_builds js fuel ty d r : builds js fuel r -> wf MVal (Node ty d Null r) = true ->
  forall ind off post more count, rest js off (render MVal ind (Node ty d Null r) ++ post) ->
  (length (tokens MVal ind off (Node ty d Null r)) <= S fuel)%nat ->
  zlen (tokens MVal ind off (Node ty d Null r)) <= count ->
  js2tree (S fuel) js (tokens MVal ind off (Node ty d Null r) ++ more) count
  = Some (zlen (tokens MVal ind off (Node ty d Null r)), Node ty d Null r).
Proof.
  intros (_ & HO & HA) Hw ind off post more count Hr Hf Hc. cbn [wf is_null] in Hw. rewrite andb_true_r in Hw.
  destruct ty.
  1, 4, 5: apply andb_true_iff in Hw as [Hw ?]; destruct r; [|done]; cbn [tokens app] in *;
    (eapply scalar_builds; [done|exact Hr|]); change (zlen [_]) with 1 in Hc; lia.
  all: apply andb_true_iff in Hw as [Hd Hw]; apply bool_decide_eq_true in Hd as ->;
    cbn [tokens length render] in *; rewrite zlen_cons in *; rewrite <- app_comm_cons;
    rewrite (app_assoc (lit _) [Byte.x0a]) in Hr; rewrite <- (app_assoc (_ ++ _)) in Hr;
    apply rest_app in Hr; change (zlen (lit _ ++ _)) with 2 in Hr; rewrite <- !app_assoc in Hr.
  all: cbn [js2tree]; rewrite (proj2 (Z.eqb_neq _ _)) by (pose proof (zlen_nonneg (tokens MObj (S ind) (off + 2) r));
    pose proof (zlen_nonneg (tokens MArr (S ind) (off + 2) r)); lia);
    cbn [head mbind option_bind type size]; rewrite Nat2Z.id; change (zdrop 1 (?x :: ?l)) with l.
  - erewrite HO; [|done|exact Hr|lia|lia]. cbn [mbind option_bind fst snd]. do 2 f_equal. lia.
  - erewrite HA; [|done|exact Hr|lia|lia]. cbn [mbind option_bind fst snd]. do 2 f_equal. lia.
Qed.

Lemma builds_all js t : forall fuel, builds js fuel t.
Proof.
  induction t as [|ty d l IHl r IHr]; intros fuel.
  { split_and!; [done|..]; intros; cbn [chain object_loop array_loop tokens]; by rewrite zlen_nil, Z.add_0_r. }
  destruct (IHl fuel) as (_ & HlO & HlA). destruct (IHr fuel) as (HrV & _).
  assert (HV : wf MVal (Node ty d Null r) = true -> forall ind off post more count,
    rest js off (render MVal ind (Node ty d Null r) ++ post) ->
    (length (tokens MVal ind off (Node ty d Null r)) <= fuel)%nat ->
    zlen (tokens MVal ind off (Node ty d Null r)) <= count ->
    js2tree fuel js (tokens MVal ind off (Node ty d Null r) ++ more) count
    = Some (zlen (tokens MVal ind off (Node ty d Null r)), Node ty d Null r)).
  { intros Hw ind off post more count Hr Hf. destruct fuel as [|fuel].
    - destruct ty; cbn [tokens length] in Hf; lia.
    - by eapply value_builds. }
  split_and!.
  - intros Hw. apply wf_value in Hw as [-> Hw]. by apply HV.
  - cbn [wf]. intros [[Hs Hv]%andb_true_iff Hw]%andb_true_iff ind off post more count j Hr Hf Hc.
    cbn [render tokens chain] in *.
    set (key := scalar_text ty d) in *. set (val := render MVal ind r) in *.
    set (off1 := off + zlen (ipad ind)) in *. set (off2 := off1 + zlen key + 1) in *.
    set (T1 := tokens MVal ind off2 r) in *. set (off3 := off2 + zlen val + zlen (sep l)) in *.
    set (T2 := tokens MObj ind off3 l) in *.
    rewrite zlen_cons, zlen_app in *. cbn [length] in Hf. rewrite length_app in Hf.
    pose proof (zlen_nonneg T1). pose proof (zlen_nonneg T2).
    rewrite <- !app_assoc in Hr. apply rest_app in Hr as Hr1. fold off1 in Hr1.
    apply rest_app in Hr1 as Hr2. apply rest_app in Hr2. change (zlen (lit ":")) with 1 in Hr2. fold off2 in Hr2.
    apply rest_app in Hr2 as Hr3. apply rest_app in Hr3. fold off3 in Hr3.
    destruct fuel as [|fuel]; [lia|]. cbn [object_loop]. rewrite <- app_comm_cons.
    rewrite (scalar_builds js fuel ty d off1 1 _ _ _ Hs Hr1) by lia. cbn [mbind option_bind fst snd].
    change (zdrop 1 (?x :: ?l)) with l. rewrite <- !app_assoc. unfold T1.
    erewrite HrV; [|done|exact Hr2|fold T1; lia|fold T1; lia]. fold T1. cbn [mbind option_bind fst snd].
    rewrite zdrop_exact. unfold T2. erewrite HlO; [|done|exact Hr3|fold T2; lia|fold T2; lia].
    fold T2. cbn [mbind option_bind fst snd]. do 2 f_equal. lia.
  - rewrite wf_elem. intros [Hv Hw]%andb_true_iff ind off post more count j Hr Hf Hc.
    rewrite render_elem in Hr. rewrite tokens_elem in *. cbn [chain].
    set (val := render MVal ind (Node ty d Null r)) in *.
    set (off1 := off + zlen (ipad ind)) in *. set (T1 := tokens MVal ind off1 (Node ty d Null r)) in *.
    set (off2 := off1 + zlen val + zlen (sep l)) in *. set (T2 := tokens MArr ind off2 l) in *.
    rewrite zlen_app in *. rewrite length_app in Hf. pose proof (zlen_nonneg T1). pose proof (zlen_nonneg T2).
    rewrite <- !app_assoc in Hr. apply rest_app in Hr as Hr1. fold off1 in Hr1.
    apply rest_app in Hr1 as Hr2. apply rest_app in Hr2. fold off2 in Hr2.
    cbn [array_loop]. rewrite <- !app_assoc. unfold T1.
    erewrite HV; [|done|exact Hr1|fold T1; lia|fold T1; lia]. fold T1. cbn [mbind option_bind fst snd].
    rewrite zdrop_exact. unfold T2. erewrite HlA; [|done|exact Hr2|fold T2; lia|fold T2; lia].
    fold T2. cbn [mbind option_bind fst snd]. do 2 f_equal. lia.
Qed.
End layout.
