(* ===== verification/JsonParse.v ===== *)
(** * Parsing the text of a tree

    The tokenizer turns the text [render] of a well-formed tree into [tokens];
    with [JsonText] this is the round trip from a tree over its text back to the
    tree. *)

From S2P Require Import Prelude Text Jsmn JsTree JsmnProofs JsonText.

(** ** Scanning *)

(** The next character of the text, and the text behind it. *)
Ltac next_char Hr :=
  rewrite <- ?app_comm_cons in Hr;
  let Hb := fresh "Hb" in let Hlt := fresh "Hlt" in
  apply rest_cons in Hr as (Hb & Hlt & Hr);
  rewrite (proj2 (Z.ltb_lt _ _) Hlt); cbv zeta; rewrite Hb; cbn [mbind option_bind].

Lemma hex_loop_skip js i : forall off ds post,
  length ds = i -> Forall (fun b => is_hex (chr b) = true) ds -> rest js off (ds ++ post) ->
  hex_loop js i off = Some (inr (off + Z.of_nat i)).
Proof.
  induction i as [|i IH]; intros off [|b ds] post Hi Hd Hr; try done; cbn [hex_loop].
  - by rewrite Z.add_0_r.
  - apply Forall_cons in Hd as [Hh Hd]. next_char Hr.
    destruct (Z.eqb_spec (chr b) 0) as [E|_]; [by rewrite E in Hh|]. rewrite Hh.
    erewrite IH; [|by injection Hi|done|done]. do 2 f_equal. lia.
Qed.

Lemma str_loop_body js d : str_body d = true -> forall fuel off post,
  (length d < fuel)%nat -> rest js off (d ++ Byte.x22 :: post) ->
  str_loop js fuel off = Some (inr (off + zlen d)).
Proof.
  revert d. apply (str_body_ind (fun d => forall fuel off post, (length d < fuel)%nat ->
    rest js off (d ++ Byte.x22 :: post) -> str_loop js fuel off = Some (inr (off + zlen d)))).
  - intros [|fuel] off post Hf Hr; [simpl in Hf; lia|]. cbn [str_loop app] in *. next_char Hr.
    cbn. by rewrite Z.add_0_r.
  - intros b d Hb0 Hbq Hbb IH [|fuel] off post Hf Hr; [simpl in Hf; lia|]. cbn [str_loop]. next_char Hr.
    rewrite (proj2 (Z.eqb_neq _ _) Hb0), (proj2 (Z.eqb_neq _ _) Hbq), (proj2 (Z.eqb_neq _ _) Hbb). cbn [andb].
    erewrite IH; [|simpl in Hf; lia|exact Hr]. rewrite zlen_cons. do 2 f_equal. lia.
  - intros e d He IH [|fuel] off post Hf Hr; [simpl in Hf; lia|]. cbn [str_loop]. next_char Hr.
    change (chr Byte.x5c) with c_backslash. simpl (c_backslash =? _). cbv iota. cbn [andb]. next_char Hr.
    rewrite He. erewrite IH; [|simpl in Hf; lia|exact Hr]. rewrite !zlen_cons. do 2 f_equal. lia.
  - intros h1 h2 h3 h4 d H1 H2 H3 H4 IH [|fuel] off post Hf Hr; [simpl in Hf; lia|]. cbn [str_loop]. next_char Hr.
    change (chr Byte.x5c) with c_backslash. simpl (c_backslash =? _). cbv iota. cbn [andb]. next_char Hr.
    change (is_escape (chr Byte.x75)) with false. change (chr Byte.x75 =? 117) with true. cbv iota.
    rewrite (hex_loop_skip js 4 _ [h1; h2; h3; h4] (d ++ Byte.x22 :: post));
      [|done|by repeat constructor|done]. cbn [mbind option_bind].
    rewrite Z.sub_add. change (Z.of_nat 4) with (zlen [h1; h2; h3; h4]).
    erewrite IH; [|simpl in Hf; lia|eapply rest_app; exact Hr]. rewrite !zlen_cons, zlen_nil. do 2 f_equal. lia.
Qed.

(** A primitive ends at a delimiter or with the text. *)
Definition stops (post : list byte) : Prop :=
  match post with [] => True | b :: _ => chr b ∈ [c_colon; 10; c_comma; c_rbrace] end.

Lemma prim_loop_body js d : Forall (fun b => prim_char b = true) d -> forall fuel off post,
  (length d < fuel)%nat -> rest js off (d ++ post) -> stops post ->
  prim_loop js fuel off = Some (inr (off + zlen d)).
Proof.
  induction 1 as [|b d Hc Hd IH]; intros [|fuel] off post Hf Hr Hs; try (simpl in Hf; lia); cbn [prim_loop].
  - change (zlen []) with 0. rewrite Z.add_0_r. cbn [app] in Hr. destruct post as [|b post].
    + apply rest_len in Hr. change (zlen []) with 0 in Hr. by rewrite (proj2 (Z.ltb_ge _ _)) by lia.
    + next_char Hr. case_if; [done|]. unfold stops in Hs. rewrite !elem_of_cons in Hs.
      destruct Hs as [->|[->|[->|[->|Hs]]]]; [done..|by apply elem_of_nil in Hs].
  - next_char Hr. unfold prim_char in Hc. bool_simpl. apply bool_decide_eq_false in H0.
    rewrite (proj2 (Z.eqb_neq (chr b) 0)) by lia.
    rewrite !not_elem_of_cons in H0. destruct H0 as (Hn1 & Hn2 & Hn3 & Hn4 & _).
    assert (Hbl : is_blank (chr b) = false).
    { apply bool_decide_eq_false. rewrite !elem_of_cons, elem_of_nil. lia. }
    rewrite (proj2 (Z.eqb_neq _ _) Hn1), (proj2 (Z.eqb_neq _ _) Hn2), (proj2 (Z.eqb_neq _ _) Hn3),
      (proj2 (Z.eqb_neq _ _) Hn4), Hbl. cbn [orb].
    rewrite (proj2 (orb_false_iff _ _)) by (rewrite Z.ltb_ge, Z.leb_gt; lia).
    erewrite IH; [|simpl in Hf; lia|exact Hr|done]. rewrite zlen_cons. do 2 f_equal. lia.
Qed.

(** ** Searching the tokens from behind *)

Lemma find_back_prefix test (T C : list jsmntok) : forall n, (n <= length T)%nat ->
  find_back test (T ++ C) n = find_back test T n.
Proof.
  induction n as [|n IH]; intros Hn; [done|]. cbn [find_back]. rewrite lookup_app_l by lia.
  destruct (T !! n); [|done]. cbn [mbind option_bind]. case_if; [done|]. apply IH. lia.
Qed.

Lemma find_back_snoc test (T : list jsmntok) x :
  find_back test (T ++ [x]) (length (T ++ [x])) =
  if test x then Some (zlen T) else find_back test T (length T).
Proof.
  rewrite length_app, Nat.add_1_r. cbn [find_back]. rewrite lookup_app_r, Nat.sub_diag by done.
  cbn [lookup list_lookup mbind option_bind]. by rewrite find_back_prefix.
Qed.

Lemma find_back_skip test (T C : list jsmntok) : Forall (fun t => test t = false) C ->
  find_back test (T ++ C) (length (T ++ C)) = find_back test T (length T).
Proof.
  induction C as [|x C IH] using rev_ind; [by rewrite app_nil_r|]. intros [HC Hx]%Forall_app.
  rewrite app_assoc, find_back_snoc. rewrite Forall_singleton in Hx. cbv beta in Hx. rewrite Hx. by apply IH.
Qed.

Lemma find_back_hit test (A C : list jsmntok) x : test x = true -> Forall (fun t => test t = false) C ->
  find_back test (A ++ x :: C) (length (A ++ x :: C)) = Some (zlen A).
Proof.
  intros Hx HC. change (x :: C) with ([x] ++ C). rewrite app_assoc, find_back_skip by done.
  by rewrite find_back_snoc, Hx.
Qed.

(** ** Tokens in the middle of the array *)

Lemma tok_at_mid (A C : list jsmntok) x : tok_at (zlen A) (A ++ x :: C) = Some x.
Proof.
  unfold tok_at. rewrite (proj2 (Z.leb_le 0 _)) by apply zlen_nonneg. unfold zlen. rewrite Nat2Z.id.
  by apply list_lookup_middle.
Qed.

Lemma tok_upd_mid f (A C : list jsmntok) x : tok_upd (zlen A) f (A ++ x :: C) = Some (A ++ f x :: C).
Proof.
  unfold tok_upd. rewrite tok_at_mid. cbn [mbind option_bind]. unfold zlen. rewrite Nat2Z.id.
  rewrite insert_app_r_alt, Nat.sub_diag by done. done.
Qed.

Definition inc (t : jsmntok) : jsmntok := mk_tok (type t) (start t) (end_ t) (size t + 1).

(** The token of the parent, if there is one, counts one more child. *)
Inductive grows (s : Z) : list jsmntok -> list jsmntok -> Prop :=
| grows_none T : s = -1 -> grows s T T
| grows_mid A x C : s = zlen A -> grows s (A ++ x :: C) (A ++ inc x :: C).

Lemma grows_super s T T1 L off : grows s T T1 ->
  grow_super (mk_parser off s (T ++ L)) = Some (mk_parser off s (T1 ++ L)).
Proof.
  unfold grow_super. cbn [toksuper toks]. destruct 1 as [T -> | A x C ->]; [done|].
  pose proof (zlen_nonneg A). rewrite (proj2 (Z.eqb_neq _ _)) by lia.
  rewrite <- !app_assoc, <- !app_comm_cons. by rewrite tok_upd_mid.
Qed.

Lemma grows_len s T T1 : grows s T T1 -> zlen T1 = zlen T.
Proof. destruct 1; [done|]. by rewrite !zlen_app, !zlen_cons. Qed.

(** ** Runs of the tokenizer *)

Section runs.
Context {L : Layout} (num : Z) (js : list byte).

Definition runs (p q : jsmn_parser) : Prop :=
  exists k, forall fuel, jsmn_loop num js (k + fuel) (toknext p) p = jsmn_loop num js fuel (toknext q) q.

Lemma runs_refl p : runs p p.
Proof. by exists 0%nat. Qed.

Lemma runs_trans p q r : runs p q -> runs q r -> runs p r.
Proof.
  intros [k Hk] [k' Hk']. exists (k + k')%nat. intros fuel. by rewrite <- Nat.add_assoc, Hk, Hk'.
Qed.

Lemma runs_char off s T b post q :
  rest js off (b :: post) -> chr b <> 0 ->
  jsmn_char num js (chr b) (zlen T) (mk_parser off s T) = Some (Go (toknext q) q) ->
  runs (mk_parser off s T) (set_pos (pos q + 1) q).
Proof.
  intros Hr Hb0 Hq. exists 1%nat. intros fuel. cbn [plus jsmn_loop pos]. next_char Hr.
  rewrite (proj2 (Z.eqb_neq _ _) Hb0). change (toknext (mk_parser off s T)) with (zlen T). by rewrite Hq.
Qed.

Lemma runs_blank off s T b post :
  rest js off (b :: post) -> is_blank (chr b) = true -> runs (mk_parser off s T) (mk_parser (off + 1) s T).
Proof.
  intros Hr Hb. apply (runs_char off s T b post (mk_parser off s T)); [done|..].
  - by intros E; rewrite E in Hb.
  - unfold is_blank in Hb. apply bool_decide_eq_true in Hb. rewrite !elem_of_cons, elem_of_nil in Hb.
    destruct Hb as [->|[->|[->|[->|[]]]]]; done.
Qed.

Lemma runs_blanks bs : Forall (fun b => is_blank (chr b) = true) bs -> forall off s T post,
  rest js off (bs ++ post) -> runs (mk_parser off s T) (mk_parser (off + zlen bs) s T).
Proof.
  induction 1 as [|b bs Hb Hbs IH]; intros off s T post Hr.
  - change (zlen []) with 0. rewrite Z.add_0_r. apply runs_refl.
  - cbn [app] in Hr. eapply runs_trans; [by eapply runs_blank|]. apply rest_cons in Hr as (_ & _ & Hr).
    rewrite zlen_cons, Z.add_assoc. by eapply IH.
Qed.

Lemma runs_ipad n off s T post :
  rest js off (ipad n ++ post) -> runs (mk_parser off s T) (mk_parser (off + zlen (ipad n)) s T).
Proof. apply runs_blanks, ipad_blank. Qed.

Lemma runs_cpad n off s T post :
  rest js off (cpad n ++ post) -> runs (mk_parser off s T) (mk_parser (off + zlen (cpad n)) s T).
Proof. apply runs_blanks, cpad_blank. Qed.

Lemma runs_colon off s T post :
  rest js off (Byte.x3a :: post) -> runs (mk_parser off s T) (mk_parser (off + 1) (zlen T - 1) T).
Proof. intros Hr. by apply (runs_char off s T Byte.x3a post (mk_parser off (zlen T - 1) T)). Qed.

(** After a comma the parent is the container that is open. *)
Lemma runs_comma off s A o C post :
  rest js off (Byte.x2c :: post) -> is_container o = true -> is_open o = true ->
  Forall (fun t => is_open t = false) C ->
  s = zlen A \/ 0 <= s /\ (exists t, tok_at s (A ++ o :: C) = Some t /\ is_container t = false) ->
  runs (mk_parser off s (A ++ o :: C)) (mk_parser (off + 1) (zlen A) (A ++ o :: C)).
Proof.
  intros Hr Hc Ho HC Hs. apply (runs_char off s _ Byte.x2c post (mk_parser off (zlen A) (A ++ o :: C)));
    [done|done|]. change (jsmn_char num js (chr Byte.x2c)) with comma. unfold comma. cbn [toksuper toks].
  pose proof (zlen_nonneg A). destruct Hs as [->|[Hs (t & Ht & Htc)]].
  - rewrite (proj2 (Z.eqb_neq _ _)), tok_at_mid by lia. cbn [mbind option_bind]. by rewrite Hc.
  - rewrite (proj2 (Z.eqb_neq _ _)), Ht by lia. cbn [mbind option_bind]. rewrite Htc.
    rewrite find_back_hit; [|by rewrite Hc, Ho|].
    + cbn [mbind option_bind]. by rewrite (proj2 (Z.eqb_neq _ _)) by lia.
    + eapply Forall_impl; [exact HC|]. intros x ->. apply andb_false_r.
Qed.

(** The rest of a round with a scalar: its token, and the count of its parent. *)
Lemma scalar_go parse off s T T1 q t :
  parse (mk_parser off s T) = Some (0, mk_parser q s (T ++ [t])) -> grows s T T1 ->
  scalar parse (zlen T) (mk_parser off s T) =
    Some (Go (toknext (mk_parser q s (T1 ++ [t]))) (mk_parser q s (T1 ++ [t]))).
Proof.
  intros Hp Hg. unfold scalar. rewrite Hp. cbn [mbind option_bind]. change (0 <? 0) with false. cbv iota.
  rewrite (grows_super _ _ _ _ _ Hg). cbn [mbind option_bind]. unfold toknext. cbn [toks].
  by rewrite zlen_app, (grows_len _ _ _ Hg), zlen_cons, zlen_nil.
Qed.

Lemma parse_string_go off s T d post :
  str_body d = true -> rest js off (quoted d ++ post) -> zlen T < num ->
  jsmn_parse_string num js (mk_parser off s T) =
  Some (0, mk_parser (off + 1 + zlen d) s (T ++ [scalar_tok JSMN_STRING (Some d) off 0])).
Proof.
  intros Hd Hr Hn. unfold quoted in Hr. rewrite <- !app_assoc in Hr. apply rest_app in Hr.
  change (off + zlen [Byte.x22]) with (off + 1) in Hr. cbn [app] in Hr.
  pose proof (rest_len _ _ _ Hr) as Hl. autorewrite with zlen in Hl. pose proof (zlen_nonneg post).
  unfold jsmn_parse_string. cbn [pos].
  rewrite (str_loop_body js d Hd _ _ post); [|destruct Hr; unfold zlen in *; lia|done]. cbn [mbind option_bind].
  unfold jsmn_alloc_token, toknext. cbn [toks]. rewrite (proj2 (Z.leb_gt _ _)) by lia.
  cbn [set_toks toks]. rewrite upd_last by done. done.
Qed.

Lemma parse_primitive_go off s T d post :
  prim_body d = true -> rest js off (d ++ post) -> stops post -> zlen T < num ->
  jsmn_parse_primitive num js (mk_parser off s T) =
  Some (0, mk_parser (off + zlen d - 1) s (T ++ [scalar_tok JSMN_PRIMITIVE (Some d) off 0])).
Proof.
  intros Hd Hr Hs Hn. pose proof (rest_len _ _ _ Hr) as Hl. rewrite zlen_app in Hl.
  pose proof (zlen_nonneg post). unfold jsmn_parse_primitive. cbn [pos].
  rewrite (prim_loop_body js d (prim_body_chars d Hd) _ _ post);
    [|destruct Hr; unfold zlen in *; lia|done|done]. cbn [mbind option_bind].
  unfold jsmn_alloc_token, toknext. cbn [toks]. rewrite (proj2 (Z.leb_gt _ _)) by lia.
  cbn [set_toks toks]. rewrite upd_last by done. done.
Qed.

(** The first character of a primitive is none of the others. *)
Lemma prim_first b d : prim_body (b :: d) = true -> chr b <> 0 /\
  forall count p, jsmn_char num js (chr b) count p = scalar (jsmn_parse_primitive num js) count p.
Proof.
  unfold prim_body. cbn [forallb]. unfold prim_char. intros H. bool_simpl.
  rewrite bool_decide_eq_false in *. rewrite !not_elem_of_cons in *. split; [lia|]. intros count p.
  assert (Hbl : is_blank (chr b) = false).
  { apply bool_decide_eq_false. rewrite !elem_of_cons, elem_of_nil. lia. }
  unfold jsmn_char. rewrite Hbl.
  repeat match goal with |- context [chr b =? ?c] => rewrite (proj2 (Z.eqb_neq (chr b) c)) by tauto end. done.
Qed.

Lemma runs_scalar off s T T1 ty d post :
  wf_scalar ty d = true -> rest js off (scalar_text ty d ++ post) -> stops post ->
  grows s T T1 -> zlen T < num ->
  runs (mk_parser off s T) (mk_parser (off + zlen (scalar_text ty d)) s (T1 ++ [scalar_tok ty d off 0])).
Proof.
  intros Hw Hr Hs Hg Hn. destruct ty, d as [d|]; try done; cbn [wf_scalar scalar_text] in *.
  - pose proof (parse_string_go off s T d post Hw Hr Hn) as Hp.
    pose proof (runs_char off s T Byte.x22 _ _ Hr ltac:(done) (scalar_go _ _ _ _ _ _ _ Hp Hg)) as H.
    cbn [set_pos pos toksuper toks] in H.
    by replace (off + zlen (quoted d)) with (off + 1 + zlen d + 1) by (unfold quoted; zlen_lia).
  - pose proof (parse_primitive_go off s T d post Hw Hr Hs Hn) as Hp. destruct d as [|b d]; [done|].
    destruct (prim_first b d Hw) as [Hb0 Hb].
    pose proof (scalar_go _ _ _ _ _ _ _ Hp Hg) as Hgo. rewrite <- Hb in Hgo.
    pose proof (runs_char off s T b _ _ Hr Hb0 Hgo) as H. cbn [set_pos pos toksuper toks] in H.
    by rewrite Z.sub_add in H.
Qed.

Lemma runs_open off s T T1 b ty post :
  (b = Byte.x7b /\ ty = JSMN_OBJECT \/ b = Byte.x5b /\ ty = JSMN_ARRAY) ->
  rest js off (b :: post) -> grows s T T1 -> zlen T < num ->
  runs (mk_parser off s T) (mk_parser (off + 1) (zlen T1) (T1 ++ [mk_tok ty off (-1) 0])).
Proof.
  intros Hb Hr Hg Hn.
  apply (runs_char off s T b post (mk_parser off (zlen T1) (T1 ++ [mk_tok ty off (-1) 0]))); [done|..].
  { by destruct Hb as [[-> _]|[-> _]]. }
  assert (Hc : jsmn_char num js (chr b) = open_bracket num (chr b)) by (by destruct Hb as [[-> _]|[-> _]]).
  rewrite Hc. unfold open_bracket, jsmn_alloc_token, toknext. cbn [toks]. rewrite (proj2 (Z.leb_gt _ _)) by lia.
  unfold set_toks. cbn [pos toksuper toks]. rewrite (grows_super _ _ _ _ _ Hg). cbn [mbind option_bind toks].
  rewrite upd_last by done. cbn [mbind option_bind set_toks set_super pos toksuper toks end_ size].
  rewrite !zlen_app, (grows_len _ _ _ Hg), !zlen_cons, !zlen_nil.
  replace (zlen T + (1 + 0) - 1) with (zlen T) by lia. by destruct Hb as [[-> ->]|[-> ->]].
Qed.

Lemma runs_close off s A o C b ty lo post :
  (b = Byte.x7d /\ ty = JSMN_OBJECT \/ b = Byte.x5d /\ ty = JSMN_ARRAY) ->
  rest js off (b :: post) -> is_open o = true -> type o = ty -> Forall (fun t => is_open t = false) C ->
  find_back is_open A (length A) = Some lo ->
  runs (mk_parser off s (A ++ o :: C))
    (mk_parser (off + 1) lo (A ++ mk_tok ty (start o) (off + 1) (size o) :: C)).
Proof.
  intros Hb Hr Ho Hty HC Hlo.
  apply (runs_char off s _ b post (mk_parser off lo (A ++ mk_tok ty (start o) (off + 1) (size o) :: C))); [done|..].
  { by destruct Hb as [[-> _]|[-> _]]. }
  assert (Hc : jsmn_char num js (chr b) = close_bracket (chr b)) by (by destruct Hb as [[-> _]|[-> _]]).
  rewrite Hc. unfold close_bracket. cbn [toks pos]. rewrite find_back_hit by done. cbn [mbind option_bind].
  pose proof (zlen_nonneg A). rewrite (proj2 (Z.eqb_neq _ _)) by lia. rewrite tok_at_mid. cbn [mbind option_bind].
  assert (Ht : (if chr b =? c_rbrace then JSMN_OBJECT else JSMN_ARRAY) = ty) by (by destruct Hb as [[-> ->]|[-> ->]]).
  rewrite Ht, Hty, bool_decide_true by done. cbn [negb]. rewrite tok_upd_mid. cbn [mbind option_bind]. rewrite Hty.
  assert (Hoc : is_open (mk_tok ty (start o) (off + 1) (size o)) = false).
  { unfold is_open. cbn [start end_]. rewrite (proj2 (Z.eqb_neq (off + 1) (-1))) by (destruct Hr; lia).
    apply andb_false_r. }
  set (o' := mk_tok ty (start o) (off + 1) (size o)) in *.
  change (o' :: C) with ([o'] ++ C). rewrite app_assoc.
  replace (Z.to_nat (zlen A + 1)) with (length (A ++ [o'])) by (rewrite length_app; unfold zlen; simpl; lia).
  rewrite find_back_prefix, find_back_snoc, Hoc, Hlo by done. cbn [mbind option_bind]. unfold toknext. cbn [toks].
  rewrite <- app_assoc. do 2 f_equal. by rewrite !zlen_app, !zlen_cons.
Qed.

Definition inc_n (n : nat) (t : jsmntok) : jsmntok :=
  mk_tok (type t) (start t) (end_ t) (size t + Z.of_nat n).

Definition node_scalar (t : tree) : bool :=
  match t with
  | Node JSMN_OBJECT _ _ _ | Node JSMN_ARRAY _ _ _ => false
  | _ => true
  end.

Abbreviation closed := (fun t => is_open t = false).

(** The text of a value leaves its tokens, the text of a chain in a container
    those of the siblings, counted in the container. *)
Definition parses_value (t : tree) : Prop := forall ind off post s T T1 lo,
  rest js off (render MVal ind t ++ post) -> stops post -> grows s T T1 ->
  find_back is_open T1 (length T1) = Some lo -> zlen T + zlen (tokens MVal ind off t) <= num ->
  runs (mk_parser off s T)
    (mk_parser (off + zlen (render MVal ind t)) (if node_scalar t then s else lo) (T1 ++ tokens MVal ind off t)).

Definition parses_chain (m : mode) (t : tree) : Prop := forall ind off post A o C,
  rest js off (render m ind t ++ post) -> is_open o = true -> is_container o = true -> Forall closed C ->
  zlen (A ++ o :: C) + zlen (tokens m ind off t) <= num ->
  exists s, runs (mk_parser off (zlen A) (A ++ o :: C))
    (mk_parser (off + zlen (render m ind t)) s (A ++ inc_n (chain t) o :: C ++ tokens m ind off t)).

Lemma scalar_closed ty d off size : 0 <= off -> is_open (scalar_tok ty d off size) = false.
Proof.
  intros H. unfold is_open, scalar_tok. cbn [start end_]. pose proof (zlen_nonneg (default [] d)).
  rewrite (proj2 (Z.eqb_neq _ _)) by (case_if; lia). rewrite (proj2 (Z.eqb_neq _ _)) by (case_if; lia). done.
Qed.

Lemma tokens_closed t : forall m ind off, 0 <= off -> Forall closed (tokens m ind off t).
Proof.
  induction t as [|ty d l IHl r IHr]; intros m ind off Hoff; [constructor|].
  assert (HV : forall off, 0 <= off -> Forall closed (tokens MVal ind off (Node ty d Null r))).
  { clear off Hoff. intros off Hoff. destruct ty; cbn [tokens]; try (by repeat constructor; apply scalar_closed).
    all: constructor; [|apply IHr; lia].
    all: match goal with |- is_open (mk_tok _ _ (_ + zlen ?x) _) = _ => pose proof (zlen_nonneg x) end.
    all: unfold is_open; cbn [start end_]; rewrite !(proj2 (Z.eqb_neq _ _)) by lia; done. }
  pose proof (zlen_nonneg (ipad ind)). destruct m.
  - by apply HV.
  - cbn [tokens]. pose proof (zlen_nonneg (scalar_text ty d)). pose proof (zlen_nonneg (render MVal ind r)).
    pose proof (zlen_nonneg (sep l)). constructor; [apply scalar_closed; lia|].
    apply Forall_app. split; [apply IHr; lia|apply IHl; lia].
  - rewrite tokens_elem. pose proof (zlen_nonneg (render MVal ind (Node ty d Null r))).
    pose proof (zlen_nonneg (sep l)). apply Forall_app. split; [apply HV; lia|apply IHl; lia].
Qed.

(** A container around its chain. *)
Lemma parses_container ty m o c r :
  (m = MObj /\ ty = JSMN_OBJECT /\ o = Byte.x7b /\ c = Byte.x7d \/
   m = MArr /\ ty = JSMN_ARRAY /\ o = Byte.x5b /\ c = Byte.x5d) ->
  parses_chain m r -> parses_value (Node ty None Null r).
Proof.
  intros Hm Hch ind off post s T T1 lo Hr Hs Hg Hlo Hn.
  assert (Htext : render MVal ind (Node ty None Null r) = o :: Byte.x0a :: render m (S ind) r ++ cpad ind ++ [c])
    by (by destruct Hm as [(-> & -> & -> & ->)|(-> & -> & -> & ->)]).
  assert (Htok : tokens MVal ind off (Node ty None Null r) =
    mk_tok ty off (off + zlen (render MVal ind (Node ty None Null r))) (Z.of_nat (chain r))
    :: tokens m (S ind) (off + 2) r)
    by (by destruct Hm as [(-> & -> & -> & ->)|(-> & -> & -> & ->)]).
  assert (Hns : node_scalar (Node ty None Null r) = false)
    by (by destruct Hm as [(-> & -> & -> & ->)|(-> & -> & -> & ->)]).
  rewrite Htok, Htext, Hns in *. autorewrite with zlen in *. 
  set (body := render m (S ind) r) in *. set (sub := tokens m (S ind) (off + 2) r) in *.
  pose proof (zlen_nonneg sub). pose proof (zlen_nonneg body). pose proof (grows_len _ _ _ Hg) as Hlen.
  rewrite <- !app_comm_cons, <- !app_assoc in Hr. pose proof (rest_cons _ _ _ _ Hr) as (_ & _ & Hr1).
  pose proof (rest_cons _ _ _ _ Hr1) as (_ & _ & Hr2).
  pose proof (rest_app _ _ _ _ Hr2) as Hr3. pose proof (rest_app _ _ _ _ Hr3) as Hr4.
  eapply runs_trans; [eapply (runs_open off s T T1 o ty); [|exact Hr|done|lia]; tauto|].
  eapply runs_trans; [by eapply runs_blank; [exact Hr1|]|].
  replace (off + 1 + 1) with (off + 2) in * by lia.
  destruct (Hch (S ind) (off + 2) _ T1 (mk_tok ty off (-1) 0) [] Hr2) as [s' Hrun].
  { unfold is_open. cbn [start end_]. rewrite (proj2 (Z.eqb_neq off (-1))) by (destruct Hr; lia). done. }
  { by destruct Hm as [(-> & -> & -> & ->)|(-> & -> & -> & ->)]. }
  { constructor. }
  { fold sub. autorewrite with zlen. lia. }
  eapply runs_trans; [exact Hrun|]. fold body sub. cbn [app].
  eapply runs_trans; [eapply runs_cpad; exact Hr3|].
  eapply (eq_ind _ (runs _)); [eapply (runs_close _ _ _ _ _ c ty lo)|].
  - tauto.
  - exact Hr4.
  - unfold is_open, inc_n. cbn [start end_]. rewrite (proj2 (Z.eqb_neq off (-1))) by (destruct Hr; lia). done.
  - done.
  - apply tokens_closed. destruct Hr; lia.
  - done.
  - cbn [inc_n start size]. f_equal; [lia|]. do 3 f_equal; lia.
Qed.

(** A separator: the next sibling belongs to the open container again. *)
Lemma runs_sep off s A o C l post :
  rest js off (sep l ++ post) -> is_open o = true -> is_container o = true -> Forall closed C ->
  s = zlen A \/ 0 <= s /\ (exists t, tok_at s (A ++ o :: C) = Some t /\ is_container t = false) ->
  exists s', runs (mk_parser off s (A ++ o :: C)) (mk_parser (off + zlen (sep l)) s' (A ++ o :: C)) /\
    (l <> Null -> s' = zlen A).
Proof.
  intros Hr Ho Hc HC Hs. destruct l as [|ty d l r]; cbn [sep] in *.
  - exists s. split; [|done]. by eapply runs_blank.
  - exists (zlen A). split; [|done]. eapply runs_trans; [by eapply runs_comma|].
    apply rest_cons in Hr as (_ & _ & Hr). change (zlen [Byte.x2c; Byte.x0a]) with (1 + 1). rewrite Z.add_assoc.
    by eapply runs_blank.
Qed.

Lemma stops_sep l post : stops (sep l ++ post).
Proof. destruct l; cbn; rewrite !elem_of_cons; auto. Qed.

Lemma inc_open o : is_open (inc o) = is_open o.
Proof. done. Qed.

Lemma inc_container o : is_container (inc o) = is_container o.
Proof. done. Qed.

Lemma inc_n_S n o : inc_n n (inc o) = inc_n (S n) o.
Proof. unfold inc_n, inc. simpl. f_equal. lia. Qed.

Lemma inc_n_0 o : inc_n 0 o = o.
Proof. destruct o. unfold inc_n. simpl. f_equal. lia. Qed.

(** The siblings behind a separator; without any, the parent does not matter. *)
Lemma parses_rest m l : parses_chain m l -> forall ind off post A o C s,
  (l = Null -> render m ind l = [] /\ tokens m ind off l = []) -> (l <> Null -> s = zlen A) ->
  rest js off (render m ind l ++ post) -> is_open o = true -> is_container o = true -> Forall closed C ->
  zlen (A ++ o :: C) + zlen (tokens m ind off l) <= num ->
  exists s', runs (mk_parser off s (A ++ o :: C))
    (mk_parser (off + zlen (render m ind l)) s' (A ++ inc_n (chain l) o :: C ++ tokens m ind off l)).
Proof.
  intros Hl ind off post A o C s H0 Hs Hr Ho Hc HC Hn. destruct l as [|ty d l r].
  - destruct (H0 eq_refl) as [-> ->]. exists s. cbn [chain]. rewrite inc_n_0, app_nil_r, zlen_nil, Z.add_0_r.
    apply runs_refl.
  - rewrite Hs by done. by eapply Hl.
Qed.

Lemma parses_element ty d l r :
  parses_value (Node ty d Null r) -> parses_chain MArr l -> parses_chain MArr (Node ty d l r).
Proof.
  intros HV Hl ind off post A o C Hr Ho Hc HC Hn. rewrite render_elem, tokens_elem in *. cbn [chain].
  set (val := render MVal ind (Node ty d Null r)) in *. set (off1 := off + zlen (ipad ind)) in *.
  set (T1 := tokens MVal ind off1 (Node ty d Null r)) in *. set (off2 := off1 + zlen val + zlen (sep l)) in *.
  set (T2 := tokens MArr ind off2 l) in *. pose proof (zlen_nonneg T1). pose proof (zlen_nonneg T2).
  rewrite <- !app_assoc in Hr. pose proof (rest_app _ _ _ _ Hr) as Hr1. fold off1 in Hr1.
  pose proof (rest_app _ _ _ _ Hr1) as Hr2. pose proof (rest_app _ _ _ _ Hr2) as Hr3. fold off2 in Hr3.
  assert (HT1 : Forall closed (C ++ T1)).
  { apply Forall_app. split; [done|]. apply tokens_closed. destruct Hr1; lia. }
  rewrite zlen_app in Hn.
  destruct (runs_sep (off1 + zlen val) (zlen A) A (inc o) (C ++ T1) l _ Hr2) as (s' & Hrun & Hs'); [done..|by left|].
  fold off2 in Hrun.
  destruct (parses_rest MArr l Hl ind off2 post A (inc o) (C ++ T1) s') as (s'' & Hrun'); try done.
  { intros ->. done. }
  { fold T2. autorewrite with zlen in *. lia. }
  exists s''. eapply runs_trans; [eapply runs_ipad; exact Hr|]. fold off1.
  assert (Hval : runs (mk_parser off1 (zlen A) (A ++ o :: C))
    (mk_parser (off1 + zlen val) (zlen A) (A ++ inc o :: C ++ T1))).
  { pose proof (HV ind off1 _ (zlen A) (A ++ o :: C) (A ++ inc o :: C) (zlen A) Hr1) as H1.
    rewrite <- app_assoc, <- app_comm_cons in H1. fold val T1 in H1.
    replace (if node_scalar _ then zlen A else zlen A) with (zlen A) in H1 by (by case_if).
    apply H1; [apply stops_sep|by constructor|by apply find_back_hit|autorewrite with zlen in *; lia]. }
  eapply runs_trans; [exact Hval|]. eapply runs_trans; [exact Hrun|].
  fold T2 in Hrun'. rewrite inc_n_S, <- app_assoc in Hrun'.
  replace (off + zlen (ipad ind ++ val ++ sep l ++ render MArr ind l)) with (off2 + zlen (render MArr ind l));
    [done|]. rewrite !zlen_app. lia.
Qed.

(** A key, the colon and the value below the key. *)
Lemma parses_pair ty d r ind off A o C post :
  wf_scalar ty d = true -> parses_value r -> stops post ->
  rest js off (scalar_text ty d ++ lit ":" ++ render MVal ind r ++ post) ->
  is_open o = true -> Forall closed C ->
  let off2 := off + zlen (scalar_text ty d) + 1 in
  zlen (A ++ o :: C) + 1 + zlen (tokens MVal ind off2 r) <= num ->
  exists s, runs (mk_parser off (zlen A) (A ++ o :: C))
     (mk_parser (off2 + zlen (render MVal ind r)) s
        (A ++ inc o :: C ++ scalar_tok ty d off 1 :: tokens MVal ind off2 r)) /\
     (s = zlen A \/ s = zlen (A ++ inc o :: C)).
Proof.
  intros Hw HV Hs Hr Ho HC off2 Hn. pose proof (rest_app _ _ _ _ Hr) as Hr1. pose proof (rest_app _ _ _ _ Hr1) as Hr2.
  change (zlen (lit ":")) with 1 in Hr2. fold off2 in Hr2. pose proof (zlen_nonneg (tokens MVal ind off2 r)).
  assert (Hk : runs (mk_parser off (zlen A) (A ++ o :: C))
    (mk_parser off2 (zlen (A ++ inc o :: C)) ((A ++ inc o :: C) ++ [scalar_tok ty d off 0]))).
  { eapply runs_trans.
    - eapply runs_scalar; [done|exact Hr| |by constructor|lia]. cbn. rewrite !elem_of_cons. auto.
    - eapply (eq_ind _ (runs _)); [eapply runs_colon; exact Hr1|]. f_equal. zlen_lia. }
  exists (if node_scalar r then zlen (A ++ inc o :: C) else zlen A). split; [|case_if; auto].
  eapply runs_trans; [exact Hk|].
  eapply (eq_ind _ (runs _)); [eapply HV; [exact Hr2|done|by constructor| |]|].
  - rewrite <- app_assoc, <- app_comm_cons. apply find_back_hit; [done|]. apply Forall_app. split; [done|].
    apply Forall_singleton. apply (scalar_closed ty d off 1). destruct Hr; lia.
  - autorewrite with zlen in *. lia.
  - f_equal. by rewrite <- !app_assoc, <- !app_comm_cons.
Qed.

Lemma parses_member ty d l r :
  wf_scalar ty d = true -> parses_value r -> parses_chain MObj l -> parses_chain MObj (Node ty d l r).
Proof.
  intros Hw HV Hl ind off post A o C Hr Ho Hc HC Hn. cbn [render tokens chain] in *.
  set (key := scalar_text ty d) in *. set (val := render MVal ind r) in *. set (off1 := off + zlen (ipad ind)) in *.
  set (off2 := off1 + zlen key + 1) in *. set (T1 := tokens MVal ind off2 r) in *.
  set (off3 := off2 + zlen val + zlen (sep l)) in *. set (T2 := tokens MObj ind off3 l) in *.
  set (k := scalar_tok ty d off1 1) in *.
  pose proof (zlen_nonneg T1). pose proof (zlen_nonneg T2). pose proof (zlen_nonneg key).
  rewrite <- !app_assoc in Hr. pose proof (rest_app _ _ _ _ Hr) as Hr1. fold off1 in Hr1.
  pose proof (rest_app _ _ _ _ Hr1) as Hr2. apply rest_app in Hr2. change (zlen (lit ":")) with 1 in Hr2.
  fold off2 in Hr2. pose proof (rest_app _ _ _ _ Hr2) as Hr3. pose proof (rest_app _ _ _ _ Hr3) as Hr4. fold off3 in Hr4.
  assert (Ho1 : 0 <= off1) by (destruct Hr1 as [? _]; lia).
  destruct (parses_pair ty d r ind off1 A o C _ Hw HV (stops_sep l _) Hr1 Ho HC) as (s & Hrun & Hs); [fold key off2 T1; autorewrite with zlen in *; lia|].
  fold key off2 val T1 k in Hrun.
  assert (HCk : Forall closed (C ++ k :: T1)).
  { apply Forall_app. split; [done|]. constructor; [by apply scalar_closed|]. apply tokens_closed. lia. }
  destruct (runs_sep (off2 + zlen val) s A (inc o) (C ++ k :: T1) l _ Hr3) as (s' & Hrun' & Hs'); [done..| |].
  { destruct Hs as [->| ->]; [by left|right]. split; [apply zlen_nonneg|]. exists k.
    rewrite app_comm_cons, app_assoc, tok_at_mid. split; [done|]. unfold k. clear - Hw. by destruct ty, d. }
  fold off3 in Hrun'.
  destruct (parses_rest MObj l Hl ind off3 post A (inc o) (C ++ k :: T1) s') as (s'' & Hrun''); try done.
  { intros ->. done. }
  { fold T2. autorewrite with zlen in *. lia. }
  exists s''. eapply runs_trans; [eapply runs_ipad; exact Hr|]. fold off1.
  eapply runs_trans; [exact Hrun|]. eapply runs_trans; [exact Hrun'|].
  fold T2 in Hrun''. rewrite inc_n_S, <- app_assoc, <- app_comm_cons in Hrun''.
  replace (off + zlen _) with (off3 + zlen (render MObj ind l)); [done|].
  rewrite !zlen_app. change (zlen (lit ":")) with 1. lia.
Qed.

Lemma parses_all t :
  (wf MVal t = true -> parses_value t) /\ (wf MObj t = true -> parses_chain MObj t) /\
  (wf MArr t = true -> parses_chain MArr t).
Proof.
  induction t as [|ty d l (_ & HlO & HlA) r (HrV & HrO & HrA)].
  { split_and!; [done|..]; intros _ ind off post A o C _ _ _ _ _; exists (zlen A); cbn [render tokens chain];
      rewrite inc_n_0, app_nil_r, zlen_nil, Z.add_0_r; apply runs_refl. }
  assert (HV : wf MVal (Node ty d Null r) = true -> parses_value (Node ty d Null r)).
  { cbn [wf is_null]. rewrite andb_true_r. intros Hw. destruct ty.
    1, 4, 5: apply andb_true_iff in Hw as [Hw ?]; intros ind off post s T T1 lo Hr Hs Hg _ Hn;
      by eapply runs_scalar; [..|change (zlen (tokens _ _ _ _)) with 1 in Hn; lia].
    all: apply andb_true_iff in Hw as [Hd Hw]; apply bool_decide_eq_true in Hd as ->.
    - eapply (parses_container _ MObj); [by left|auto].
    - eapply (parses_container _ MArr); [by right|auto]. }
  split_and!.
  - intros Hw. apply wf_value in Hw as [-> Hw]. auto.
  - cbn [wf]. intros [[Hs Hv]%andb_true_iff Hw]%andb_true_iff. by apply parses_member; auto.
  - rewrite wf_elem. intros [Hv Hw]%andb_true_iff. by apply parses_element; auto.
Qed.
End runs.

(** ** The round trip *)

(** A run to the end of the text that leaves no container open. *)
Lemma parse_runs cap js q : runs cap js jsmn_init q -> pos q = zlen js ->
  Forall (fun t => is_open t = false) (toks q) -> jsmn_parse cap js jsmn_init = Some (toknext q, q).
Proof.
  intros [k Hk] Hpos Hc. specialize (Hk 1%nat).
  assert (Hfin : jsmn_loop cap js 1 (toknext q) q = Some (toknext q, q)).
  { cbn [jsmn_loop]. rewrite (proj2 (Z.ltb_ge _ _)) by lia. unfold jsmn_finish.
    pose proof (find_back_skip is_open [] (toks q) Hc) as Hb. cbn [app] in Hb. by rewrite Hb. }
  rewrite Hfin in Hk.
  destruct (loop_ok cap js (S (length js)) jsmn_init) as (r & Hr & _); [apply init_ok|cbn [pos jsmn_init]; unfold zlen; lia|].
  unfold jsmn_parse. rewrite Hr.
  pose proof (loop_fuel js cap (k + 1) _ _ _ _ Hr) as H1. pose proof (loop_fuel js cap (S (length js)) _ _ _ _ Hk) as H2.
  rewrite Nat.add_comm in H1. congruence.
Qed.

(** The same for the growing array. *)
Lemma growing_runs cap js q : zlen js <= cap -> runs cap js jsmn_init q -> pos q = zlen js ->
  Forall (fun t => is_open t = false) (toks q) ->
  parse_growing (S (length js)) js 2 jsmn_init = Some (toknext q, q).
Proof.
  intros Hcap Hq Hpos Hc.
  destruct (parse_growing_run js cap Hcap (S (length js)) 2 jsmn_init) as (r & -> & Hr & _);
    [apply init_ok|lia|lia|unfold zlen; lia|].
  rewrite <- Hr. by apply parse_runs.
Qed.

Lemma rest_start js : rest js 0 js.
Proof. pose proof (zlen_nonneg js). split; [lia|done]. Qed.

Lemma parse_tree_render {L : Layout} t : wf MVal t = true -> parse_tree (json t) = Some t.
Proof.
  intros Hw. set (T := tokens MVal 0 0 t). set (cap := zlen (json t) + zlen T).
  pose proof (zlen_nonneg (json t)). pose proof (zlen_nonneg T). unfold parse_tree.
  assert (Hrest : rest (json t) 0 (json t ++ [])) by (rewrite app_nil_r; apply rest_start).
  pose proof (proj1 (parses_all cap (json t) t) Hw 0%nat 0 [] (-1) [] [] (-1) Hrest) as Hrun.
  erewrite (growing_runs cap); [|lia|apply Hrun|done|by apply tokens_closed].
  - unfold toknext. cbn [mbind option_bind snd toks app]. fold T.
    pose proof (proj1 (builds_all (json t) t (S (length T))) Hw 0%nat 0 [] [] (zlen T) Hrest) as Hb.
    fold T in Hb. rewrite app_nil_r in Hb. rewrite Hb; [done|lia|lia].
  - done.
  - by constructor.
  - done.
  - fold T. change (zlen []) with 0. lia.
Qed.

(** C16: A well-formed tree survives being written and read back.  Asked without
    a buffer, [tree2json] tells the size the text needs with its null byte; given
    a buffer of that size it fills it exactly; and tokenizing this text, growing
    the token array, and building the tree gives the same tree. *)
Theorem json_roundtrip t size buf :
  wf MVal t = true -> tree2json t None 0 = Some (size, []) -> zlen buf = size -> size < 2 ^ 31 ->
  exists text, tree2json t (Some buf) size = Some (size - 1, text ++ [Byte.x00]) /\
    zlen text = size - 1 /\ parse_tree text = Some t.
Proof.
  intros Hw Hs Hb Hlt. rewrite (tree2json_size t 0 Hw) in Hs. injection Hs as <-.
  exists (json t). rewrite <- Hb. rewrite (tree2json_prints t buf Hw) by lia. split_and!.
  - rewrite zdrop_all by lia. rewrite app_nil_r. do 2 f_equal. lia.
  - lia.
  - by apply parse_tree_render.
Qed.

Definition str_node (s : list byte) (l r : tree) : tree := Node JSMN_STRING (Some s) l r.
Definition prim_node (s : list byte) (l r : tree) : tree := Node JSMN_PRIMITIVE (Some s) l r.

Lemma json_roundtrip_witness :
  let t := Node JSMN_OBJECT None Null
    (str_node (lit "ssl") Null (Node JSMN_OBJECT None Null
      (str_node (lit "keyfile") (str_node (lit "ports") Null
         (Node JSMN_ARRAY None Null (prim_node (lit "1") (Node JSMN_ARRAY None (str_node (lit "\n") Null Null) Null) Null)))
       (str_node (lit "\u00e9.pem") Null Null)))) in
  exists text, tree2json t (Some (replicate 83 Byte.x00)) 83 = Some (83 - 1, text ++ [Byte.x00]) /\
    zlen text = 83 - 1 /\ parse_tree text = Some t.
Proof. apply json_roundtrip; vm_compute; reflexivity. Defined.
