(* ===== verification/JsDump.v ===== *)
(** * Showing a tree [shared/json/jstree.c]

    [dumptree] prints a tree, [dump] the tokens of a text; the other small
    functions on nodes.  What is printed is the result, with the number the
    function returns; a null string that is printed is a fault, [None]. *)

From S2P Require Import Prelude Text Jsmn JsTree JsmnProofs JsonText JsonParse.

Definition spaces (n : Z) : list byte := replicate (Z.to_nat n) Byte.x20.

(** ** Nodes *)

(** [data] is a string, or a null pointer. *)
Definition _alloc_tree_node_data (ty : jsmntype) (data : option (list byte)) : tree :=
  Node ty (cstr <$> data) Null Null.

(** The result and the buffer. *)
Definition get_node_string (node : tree) (buf : list byte) (bufsize : Z) : option (Z * list byte) :=
  match node with
  | Null => None
  | Node _ (Some d) _ _ => snprintf 0 bufsize (cstr d) buf
  | Node _ None _ _ => Some (0, buf)
  end.

(** [*end_node(&node) = x]: the pointer behind the last sibling is set. *)
Fixpoint end_node (node x : tree) : tree :=
  match node with
  | Null => x
  | Node ty d l r => Node ty d (end_node l x) r
  end.

(** ** The tree *)

Section loops.
Context (rec : tree -> Z -> option (Z * list byte)) (indent : Z).

Definition comma (l : tree) : list byte := match l with Null => [] | _ => lit "," end.

(** The members of an object, then the elements of an array. *)
Fixpoint dump_object (node : tree) : option (Z * list byte) :=
  match node with
  | Null => Some (0, [])
  | Node _ _ l r =>
      k ← rec node (indent + 1);
      v ← rec r (indent + 1);
      n ← dump_object l;
      Some (fst k + fst v + fst n,
            spaces indent ++ snd k ++ lit ":" ++ snd v ++ comma l ++ [Byte.x0a] ++ snd n)
  end.

Fixpoint dump_array (node : tree) : option (Z * list byte) :=
  match node with
  | Null => Some (0, [])
  | Node _ _ l _ =>
      e ← rec node (indent + 1);
      n ← dump_array l;
      Some (fst e + fst n, spaces indent ++ snd e ++ comma l ++ [Byte.x0a] ++ snd n)
  end.
End loops.

Fixpoint dumptree (fuel : nat) (t : tree) (indent : Z) : option (Z * list byte) :=
  match fuel with
  | O => None
  | S fuel =>
      match t with
      | Null => Some (0, [])
      | Node JSMN_PRIMITIVE d _ _ => d ← d; Some (1, cstr d)
      | Node JSMN_STRING d _ _ => d ← d; Some (1, quoted (cstr d))
      | Node JSMN_OBJECT _ _ r =>
          n ← dump_object (dumptree fuel) indent r;
          Some (fst n + 1, lit "{" ++ [Byte.x0a] ++ snd n ++ spaces indent ++ lit "}")
      | Node JSMN_ARRAY _ _ r =>
          n ← dump_array (dumptree fuel) indent r;
          Some (fst n + 1, lit "[" ++ [Byte.x0a] ++ snd n ++ spaces indent ++ lit "]")
      | Node JSMN_UNDEFINED _ _ _ => Some (0, lit "unknown type" ++ [Byte.x0a])
      end
  end.

(** ** The tokens *)

(** ["%.*s"]: a negative precision counts as none. *)
Definition print_prec (js : list byte) (off prec : Z) : option (list byte) :=
  if prec <? 0 then d ← load off (zlen js - off) js; Some (cstr d)
  else d ← load off prec js; Some (cstr d).

Section token_loops.
Context (rec : list jsmntok -> Z -> Z -> option (Z * list byte)) (indent : Z).

(** [t] are the tokens from [t + 1 + j] on. *)
Fixpoint dump_pairs (i : nat) (t : list jsmntok) (count j : Z) : option (Z * list byte) :=
  match i with
  | O => Some (j, [])
  | S i =>
      k ← rec t (count - j) (indent + 1);
      let t := zdrop (fst k) t in let j := j + fst k in
      v ← rec t (count - j) (indent + 1);
      let t := zdrop (fst v) t in let j := j + fst v in
      n ← dump_pairs i t count j;
      Some (fst n, spaces indent ++ snd k ++ lit ": " ++ snd v ++ [Byte.x0a] ++ snd n)
  end.

Fixpoint dump_items (i : nat) (t : list jsmntok) (count j : Z) : option (Z * list byte) :=
  match i with
  | O => Some (j, [])
  | S i =>
      e ← rec t (count - j) (indent + 1);
      let t := zdrop (fst e) t in let j := j + fst e in
      n ← dump_items i t count j;
      Some (fst n, spaces (indent - 1) ++ lit "   - " ++ snd e ++ [Byte.x0a] ++ snd n)
  end.
End token_loops.

Fixpoint dump (fuel : nat) (js : list byte) (t : list jsmntok) (count indent : Z) : option (Z * list byte) :=
  match fuel with
  | O => None
  | S fuel =>
      if count =? 0 then Some (0, []) else
      tk ← head t;
      match type tk with
      | JSMN_PRIMITIVE => d ← print_prec js (start tk) (end_ tk - start tk); Some (1, d)
      | JSMN_STRING => d ← print_prec js (start tk) (end_ tk - start tk); Some (1, lit "'" ++ d ++ lit "'")
      | JSMN_OBJECT =>
          n ← dump_pairs (dump fuel js) indent (Z.to_nat (size tk)) (zdrop 1 t) count 0; Some (fst n + 1, snd n)
      | JSMN_ARRAY =>
          n ← dump_items (dump fuel js) indent (Z.to_nat (size tk)) (zdrop 1 t) count 0;
          Some (fst n + 1, [Byte.x0a] ++ snd n)
      | JSMN_UNDEFINED => Some (0, [])
      end
  end.

(** ** What is printed *)

Fixpoint nodes (t : tree) : Z := match t with Null => 0 | Node _ _ l r => 1 + nodes l + nodes r end.

(** An item is indented like the bracket that closes its container. *)
Lemma spaces_blank n : Forall (fun b => is_blank (chr b) = true) (spaces n).
Proof. by apply Forall_replicate. Qed.
Definition space_layout : Layout :=
  {| ipad := fun n => spaces (Z.of_nat (pred n)); cpad := fun n => spaces (Z.of_nat n);
     ipad_blank := fun n => spaces_blank _; cpad_blank := fun n => spaces_blank _ |}.

Section shows.
#[local] Existing Instance space_layout.

Definition shows (fuel : nat) (t : tree) : Prop :=
  (wf MVal t = true -> forall ind, dumptree fuel t (Z.of_nat ind) = Some (nodes t, render MVal ind t)) /\
  (wf MObj t = true -> forall ind,
     dump_object (dumptree fuel) (Z.of_nat ind) t = Some (nodes t, render MObj (S ind) t)) /\
  (wf MArr t = true -> forall ind,
     dump_array (dumptree fuel) (Z.of_nat ind) t = Some (nodes t, render MArr (S ind) t)).

Lemma dumptree_scalar fuel ty d l r indent :
  wf_scalar ty d = true -> dumptree (S fuel) (Node ty d l r) indent = Some (1, scalar_text ty d).
Proof.
  intros Hw. destruct ty, d as [d|]; try done; cbn [wf_scalar dumptree mbind option_bind scalar_text] in *.
  - by rewrite cstr_all by by apply str_body_no_nul.
  - by rewrite cstr_all by by apply prim_body_no_nul.
Qed.

Lemma dumptree_sibling fuel ty d l r indent :
  dumptree fuel (Node ty d l r) indent = dumptree fuel (Node ty d Null r) indent.
Proof. by destruct fuel, ty. Qed.

Lemma sep_comma l : sep l = comma l ++ [Byte.x0a].
Proof. by destruct l. Qed.

Lemma value_shows fuel ty d r : shows fuel r -> wf MVal (Node ty d Null r) = true -> forall ind,
  dumptree (S fuel) (Node ty d Null r) (Z.of_nat ind) = Some (1 + nodes r, render MVal ind (Node ty d Null r)).
Proof.
  intros (_ & HO & HA) Hw ind. cbn [wf is_null] in Hw. rewrite andb_true_r in Hw.
  destruct ty; try (apply andb_true_iff in Hw as [Hw ?]; destruct r; [|done]; by rewrite dumptree_scalar by done).
  all: apply andb_true_iff in Hw as [_ Hw]; cbn [dumptree].
  - rewrite HO by done. cbn [mbind option_bind fst snd]. by rewrite Z.add_comm.
  - rewrite HA by done. cbn [mbind option_bind fst snd]. by rewrite Z.add_comm.
Qed.

Lemma shows_all t : forall fuel, (depth t <= fuel)%nat -> shows fuel t.
Proof.
  induction t as [|ty d l IHl r IHr]; intros fuel Hf; [by split_and!|]. cbn [depth] in Hf.
  destruct fuel as [|fuel]; [lia|]. destruct (IHl (S fuel) ltac:(lia)) as (_ & HlO & HlA).
  pose proof (IHr fuel ltac:(lia)) as Hr. destruct (IHr (S fuel) ltac:(lia)) as (HrV & _).
  assert (HV : wf MVal (Node ty d Null r) = true -> forall ind,
    dumptree (S fuel) (Node ty d Null r) (Z.of_nat ind) = Some (1 + nodes r, render MVal ind (Node ty d Null r)))
    by (intros; by apply value_shows).
  split_and!.
  - intros Hw ind. apply wf_value in Hw as [-> Hw]. by rewrite HV.
  - cbn [wf]. intros [[Hs Hv]%andb_true_iff Hw]%andb_true_iff ind. cbn [dump_object].
    replace (Z.of_nat ind + 1) with (Z.of_nat (S ind)) by lia.
    rewrite dumptree_scalar, HrV, HlO by done. cbn [mbind option_bind fst snd nodes render]. rewrite sep_comma, <- !app_assoc.
    do 2 f_equal. lia.
  - rewrite wf_elem. intros [Hv Hw]%andb_true_iff ind. cbn [dump_array]. rewrite dumptree_sibling.
    replace (Z.of_nat ind + 1) with (Z.of_nat (S ind)) by lia. rewrite HV, HlA by done.
    cbn [mbind option_bind fst snd nodes]. rewrite render_elem, sep_comma, <- !app_assoc. do 2 f_equal. lia.
Qed.

(** C17: what [dumptree] prints of a well-formed tree is its text: it ends, returns
    the number of nodes, and tokenizing what it printed and building the tree from
    the tokens gives the tree back. *)
Theorem dumptree_roundtrip t :
  wf MVal t = true ->
  exists text, dumptree (S (depth t)) t 0 = Some (nodes t, text) /\ parse_tree text = Some t.
Proof.
  intros Hw. exists (json t). destruct (shows_all t (S (depth t)) ltac:(lia)) as (HV & _).
  split; [by apply (HV Hw 0%nat)|]. by apply parse_tree_render.
Qed.
End shows.

Lemma dumptree_roundtrip_witness :
  let t := Node JSMN_OBJECT None Null
    (str_node (lit "a") (str_node (lit "b") Null (prim_node (lit "true") Null Null))
      (Node JSMN_ARRAY None Null (prim_node (lit "1") (str_node (lit "x") Null Null) Null))) in
  exists text, dumptree (S (depth t)) t 0 = Some (7, text) /\ parse_tree text = Some t.
Proof. apply dumptree_roundtrip. reflexivity. Defined.

(** ** Dumping tokens *)

Definition dump_scalar (ty : jsmntype) (d : option (list byte)) : list byte :=
  match ty, d with
  | JSMN_STRING, Some d => lit "'" ++ d ++ lit "'"
  | JSMN_PRIMITIVE, Some d => d
  | _, _ => []
  end.

Fixpoint dump_text (m : mode) (indent : Z) (t : tree) : list byte :=
  match t with
  | Null => []
  | Node ty d l r =>
      let own indent :=
        match ty with
        | JSMN_OBJECT => dump_text MObj indent r
        | JSMN_ARRAY => [Byte.x0a] ++ dump_text MArr indent r
        | _ => dump_scalar ty d
        end in
      match m with
      | MVal => own indent
      | MObj => spaces indent ++ dump_scalar ty d ++ lit ": " ++ dump_text MVal (indent + 1) r ++ [Byte.x0a] ++
                dump_text MObj indent l
      | MArr => spaces (indent - 1) ++ lit "   - " ++ own (indent + 1) ++ [Byte.x0a] ++ dump_text MArr indent l
      end
  end.

Section dumps.
Context (js : list byte).

(** A token that becomes a key or a value that is not a container. *)
Lemma dump_leaf fuel t count n ty d l r indent :
  js2tree (S fuel) js t count = Some (n, Node ty d l r) -> wf_scalar ty d = true ->
  l = Null /\ r = Null /\ dump (S fuel) js t count indent = Some (n, dump_scalar ty d).
Proof.
  cbn [js2tree dump]. destruct (count =? 0); [done|]. destruct (head t) as [tk|]; [|done]. cbn [mbind option_bind].
  assert (Hs : forall (f : list byte -> list byte),
    (node ← _alloc_tree_node_len (type tk) js (start tk) (end_ tk - start tk); Some (1, node)) = Some (n, Node ty d l r) ->
    wf_scalar ty d = true ->
    type tk = ty /\ n = 1 /\ l = Null /\ r = Null /\
    (x ← print_prec js (start tk) (end_ tk - start tk); Some (1, f x)) = Some (1, f (default [] d))).
  { intros f. unfold _alloc_tree_node_len, print_prec. destruct (Z.leb_spec 0 (end_ tk - start tk)).
    - destruct (load _ _ _) as [x|]; [|done]. cbn [mbind option_bind]. intros [= <- <- <- <- <-] Hw.
      rewrite (proj2 (Z.ltb_ge _ _)) by lia. cbn [mbind option_bind default]. split_and!; try done. rewrite cstr_all; [done|].
      destruct (type tk); try done; [by apply str_body_no_nul|by apply prim_body_no_nul].
    - cbn [mbind option_bind]. intros [= <- <- <- <- <-]. by destruct (type tk). }
  destruct (type tk) eqn:Et; intros Hj Hw.
  - done.
  - destruct (object_loop _ _ _ _ _); [|done]. cbn [mbind option_bind] in Hj. by injection Hj as <- <- <- <- <-.
  - destruct (array_loop _ _ _ _ _); [|done]. cbn [mbind option_bind] in Hj. by injection Hj as <- <- <- <- <-.
  - destruct (Hs (fun x => lit "'" ++ x ++ lit "'") Hj Hw) as (<- & -> & -> & -> & ->). by destruct d.
  - destruct (Hs (fun x => x) Hj Hw) as (<- & -> & -> & -> & ->). by destruct d.
Qed.

(** What is built of one token has no sibling. *)
Lemma js2tree_alone fuel t count n ty d l r : js2tree fuel js t count = Some (n, Node ty d l r) -> l = Null.
Proof.
  destruct fuel; [done|]. cbn [js2tree]. destruct (count =? 0); [done|]. destruct (head t) as [tk|]; [|done].
  cbn [mbind option_bind]. destruct (type tk); try done.
  1: destruct (object_loop _ _ _ _ _); [|done]. 2: destruct (array_loop _ _ _ _ _); [|done].
  1,2: cbn [mbind option_bind]; by intros [= _ _ _ <- _].
  all: unfold _alloc_tree_node_len; case_if; [destruct (load _ _ _); [|done]|]; cbn [mbind option_bind];
    by intros [= _ _ _ <- _].
Qed.

(** [dump] follows [js2tree] through the tokens. *)
Definition follows (fuel : nat) : Prop := forall t count n tr indent,
  js2tree fuel js t count = Some (n, tr) -> wf MVal tr = true ->
  dump fuel js t count indent = Some (n, dump_text MVal indent tr).

Lemma pairs_follow fuel indent : follows (S fuel) -> forall i t count j n tr,
  object_loop (js2tree (S fuel) js) i t count j = Some (n, tr) -> wf MObj tr = true ->
  dump_pairs (dump (S fuel) js) indent i t count j = Some (n, dump_text MObj indent tr).
Proof.
  intros Hf. induction i as [|i IH]; intros t count j n tr; cbn [object_loop dump_pairs]; [by intros [= <- <-]|].
  destruct (js2tree (S fuel) js t (count - j)) as [[nk kt]|] eqn:Ek; [|done]. cbn [mbind option_bind fst snd].
  destruct (js2tree (S fuel) js (zdrop nk t) _) as [[nv vt]|] eqn:Ev; [|done]. cbn [mbind option_bind fst snd].
  destruct kt as [|ty d l r]; [done|]. destruct (object_loop _ _ _ _ _) as [[n' tr']|] eqn:El; [|done].
  cbn [mbind option_bind fst snd]. intros [= <- <-]. cbn [wf].
  intros [[Hs Hv]%andb_true_iff Hw]%andb_true_iff.
  destruct (dump_leaf fuel t (count - j) nk ty d l r (indent + 1) Ek Hs) as (_ & _ & ->). cbn [mbind option_bind fst snd].
  rewrite (Hf _ _ _ _ (indent + 1) Ev Hv). cbn [mbind option_bind fst snd]. by rewrite (IH _ _ _ _ _ El Hw).
Qed.

Lemma items_follow fuel indent : follows (S fuel) -> forall i t count j n tr,
  array_loop (js2tree (S fuel) js) i t count j = Some (n, tr) -> wf MArr tr = true ->
  dump_items (dump (S fuel) js) indent i t count j = Some (n, dump_text MArr indent tr).
Proof.
  intros Hf. induction i as [|i IH]; intros t count j n tr; cbn [array_loop dump_items]; [by intros [= <- <-]|].
  destruct (js2tree (S fuel) js t (count - j)) as [[ne et]|] eqn:Ee; [|done]. cbn [mbind option_bind fst snd].
  destruct et as [|ty d l r]; [done|]. destruct (array_loop _ _ _ _ _) as [[n' tr']|] eqn:El; [|done].
  cbn [mbind option_bind fst snd]. intros [= <- <-]. rewrite wf_elem. intros [Hv Hw]%andb_true_iff.
  assert (Hl : l = Null) by (by apply (js2tree_alone (S fuel) t (count - j) ne ty d l r)). subst l.
  rewrite (Hf _ _ _ _ (indent + 1) Ee Hv). cbn [mbind option_bind fst snd]. by rewrite (IH _ _ _ _ _ El Hw).
Qed.

Lemma dump_follows fuel : follows fuel.
Proof.
  induction fuel as [|fuel IH]; intros t count n tr indent; [done|]. destruct tr as [|ty d l r]; [done|]. intros Hj Hw.
  destruct (wf_scalar ty d) eqn:Hs.
  { destruct (dump_leaf fuel t count n ty d l r indent Hj Hs) as (-> & -> & ->). by destruct ty. }
  revert Hj. cbn [js2tree dump]. destruct (count =? 0); [done|]. destruct (head t) as [tk|]; [|done].
  cbn [mbind option_bind]. cbn [wf] in Hw. apply andb_true_iff in Hw as [Hw _].
  destruct (type tk); try done.
  3,4: destruct (_alloc_tree_node_len _ _ _ _) as [x|] eqn:Ex; [|done]; cbn [mbind option_bind]; intros [= <- ->];
    unfold _alloc_tree_node_len in Ex; revert Ex; (case_if; [destruct (load _ _ _); [|done]|]);
    cbn [mbind option_bind]; intros [= <- <- <- <-]; by rewrite Hs in Hw.
  - destruct (object_loop _ _ _ _ _) as [[n' r']|] eqn:El; [|done]. cbn [mbind option_bind fst snd].
    intros [= <- <- <- <- <-]. apply andb_true_iff in Hw as [_ Hw]. destruct fuel as [|fuel].
    + destruct (Z.to_nat (size tk)); [by injection El as <- <-|done].
    + by rewrite (pairs_follow fuel indent IH _ _ _ _ _ _ El Hw).
  - destruct (array_loop _ _ _ _ _) as [[n' r']|] eqn:El; [|done]. cbn [mbind option_bind fst snd].
    intros [= <- <- <- <- <-]. apply andb_true_iff in Hw as [_ Hw]. destruct fuel as [|fuel].
    + destruct (Z.to_nat (size tk)); [by injection El as <- <-|done].
    + by rewrite (items_follow fuel indent IH _ _ _ _ _ _ El Hw).
Qed.
End dumps.
