(* ===== verification/TlsConfig.v ===== *)
(** * The TLS configuration

    The strings of the configuration and [loadconfig]: decoding a string into a
    buffer of the size the first pass computed, encoding and decoding, and what
    [loadconfig] makes of a configuration file. *)

From S2P Require Import Prelude Text Jsmn JsTree JsmnProofs JsonText JsonParse.

(** ** Decoding *)

(** The bytes a string stands for; [None] for an escape it does not know. *)
Fixpoint unescape (d : list byte) : option (list byte) :=
  match d with
  | [] => Some []
  | b :: d =>
      if negb (chr b =? c_backslash) then (b ::.) <$> unescape d else
      match d with
      | [] => None
      | e :: d =>
          match escape_code (chr e) with
          | Some c => (byte.of_Z c ::.) <$> unescape d
          | None =>
              if chr e =? 117 then
                match d with
                | h1 :: h2 :: h3 :: h4 :: d =>
                    (app (map byte.of_Z (utf8 (u16 (Z.shiftl (_c_hex (chr h1)) 12 + Z.shiftl (_c_hex (chr h2)) 8 +
                       Z.shiftl (_c_hex (chr h3)) 4 + _c_hex (chr h4)))))) <$> unescape d
                | _ => None
                end
              else None
          end
      end
  end.

(** The tests on a backslash and on the letter of a long escape. *)
Ltac escapes :=
  change (chr Byte.x5c =? c_backslash) with true in *; change (chr Byte.x75 =? 117) with true in *;
  change (escape_code (chr Byte.x75)) with (@None Z) in *; cbn [negb] in *; cbv zeta in *.

(** Induction along the escapes of any text. *)
Lemma unescape_ind (P : list byte -> Prop) :
  P [] ->
  (forall b d, (chr b =? c_backslash) = false -> P d -> P (b :: d)) ->
  P [Byte.x5c] ->
  (forall e c d, escape_code (chr e) = Some c -> P d -> P (Byte.x5c :: e :: d)) ->
  (forall h1 h2 h3 h4 d, P d -> P (Byte.x5c :: Byte.x75 :: h1 :: h2 :: h3 :: h4 :: d)) ->
  (forall d, (length d < 4)%nat -> P (Byte.x5c :: Byte.x75 :: d)) ->
  (forall e d, escape_code (chr e) = None -> (chr e =? 117) = false -> P (Byte.x5c :: e :: d)) ->
  forall d, P d.
Proof.
  intros H0 Hc H1 He Hu Hs Hx d. remember (length d) as n eqn:Hn. revert d Hn.
  induction n as [n IH] using lt_wf_ind. intros d ->.
  assert (IH' : forall d', (length d' < length d)%nat -> P d') by (intros; by eapply IH).
  destruct d as [|b d]; [done|]. destruct (chr b =? c_backslash) eqn:Eb; [|by apply Hc; [|apply IH'; simpl; lia]].
  apply Z.eqb_eq in Eb. assert (b = Byte.x5c) as -> by (by apply chr_inj).
  destruct d as [|e d]; [done|]. destruct (escape_code (chr e)) as [c|] eqn:Ec.
  { eapply He; [exact Ec|]. apply IH'. simpl. lia. }
  destruct (chr e =? 117) eqn:Eu; [|by apply Hx]. apply Z.eqb_eq in Eu.
  assert (e = Byte.x75) as -> by (by apply chr_inj).
  destruct d as [|h1 [|h2 [|h3 [|h4 d]]]]; try (apply Hs; simpl; lia). apply Hu, IH'. simpl. lia.
Qed.

Lemma store_here (w x x' bs : list byte) : length x = length bs ->
  store (zlen w) bs (w ++ x ++ x') = Some (w ++ bs ++ x').
Proof.
  intros Hl. pose proof (zlen_nonneg w). pose proof (zlen_nonneg x').
  assert (Hz : zlen x = zlen bs) by (unfold zlen; lia). pose proof (zlen_nonneg bs).
  rewrite store_Some by zlen_lia. rewrite ztake_app_l, ztake_all by lia.
  rewrite zdrop_app_r by lia. rewrite zdrop_app_r by lia.
  replace (zlen w + zlen bs - zlen w - zlen x) with 0 by lia. done.
Qed.

Lemma put_all_here cs : forall (w x x' : list byte), length x = length cs ->
  put_all (Some (w ++ x ++ x')) (zlen w) cs = Some (Some (w ++ map byte.of_Z cs ++ x')).
Proof.
  induction cs as [|c cs IH]; intros w [|b x] x' Hl; try done. cbn [put_all put_out].
  pose proof (store_here w [b] (x ++ x') [byte.of_Z c] eq_refl) as Hst. cbn [app] in *. rewrite Hst.
  cbn [mbind option_bind]. replace (zlen w + 1) with (zlen (w ++ [byte.of_Z c])) by zlen_lia.
  change (w ++ byte.of_Z c :: x ++ x') with (w ++ [byte.of_Z c] ++ x ++ x'). rewrite app_assoc.
  rewrite IH by (simpl in Hl; lia). cbn [map]. by rewrite <- !app_assoc.
Qed.

(** The first pass counts. *)
Lemma decode_counts d : forall fuel outlen ptr, (length d < fuel)%nat ->
  decode_loop fuel d outlen ptr None =
  Some (match unescape d with Some u => ptr + zlen u - 1 | None => -1 end, None).
Proof.
  pattern d. revert d. apply unescape_ind; intros; destruct fuel as [|fuel]; try (simpl in *; lia); cbn [decode_loop unescape].
  - change (zlen []) with 0. do 2 f_equal. lia.
  - rewrite H. cbn [negb writes mbind option_bind].
    rewrite H0 by (simpl in *; lia). destruct (unescape d); [|done]. simpl. rewrite zlen_cons. do 2 f_equal. lia.
  - done.
  - escapes. rewrite H. cbn [put_checked writes andb mbind option_bind].
    rewrite H0 by (simpl in *; lia). destruct (unescape d); [|done]. simpl. rewrite zlen_cons. do 2 f_equal. lia.
  - escapes.
    cbn [put_checked writes andb mbind option_bind].
    rewrite H by (simpl in *; lia). destruct (unescape d); [|done].
    cbn [fmap option_fmap option_map]. rewrite zlen_app. unfold zlen at 3. rewrite length_map.
    do 2 f_equal. unfold zlen. lia.
  - escapes.
    destruct d as [|? [|? [|? [|? ?]]]]; try done. simpl in H. lia.
  - escapes. by rewrite H, H0.
Qed.

(** The second pass fills a buffer of that size. *)
Lemma put_checked_here cs (w x x' : list byte) outlen :
  cs <> [] -> length x = length cs -> outlen = zlen (w ++ x ++ x') ->
  put_checked (Some (w ++ x ++ x')) outlen (zlen w) cs = Some (Some (w ++ map byte.of_Z cs ++ x')).
Proof.
  intros Hne Hl ->. assert (Hz : zlen x = zlen cs) by (unfold zlen; lia).
  assert (0 < zlen cs) by (destruct cs; [done|unfold zlen; simpl; lia]).
  pose proof (zlen_nonneg w). pose proof (zlen_nonneg x').
  unfold put_checked, writes, truthy. rewrite (proj2 (Z.eqb_neq _ _)) by zlen_lia.
  rewrite (proj2 (Z.ltb_lt _ _)) by zlen_lia. cbn [negb andb]. by apply put_all_here.
Qed.

Lemma utf8_nonempty x : utf8 x <> [].
Proof. unfold utf8. by repeat case_if. Qed.

Lemma split_len {A} (x : list A) n k : length x = (n + k)%nat -> exists a b, x = a ++ b /\ length a = n /\ length b = k.
Proof. intros H. exists (take n x), (drop n x). rewrite take_drop, length_take, length_drop. split_and!; [done|lia..]. Qed.

(** A piece is written, then the rest. *)
Lemma decode_piece cs u d fuel (w x : list byte) outlen :
  cs <> [] -> length x = length (map byte.of_Z cs ++ u) -> outlen = zlen (w ++ x) ->
  (forall (w x : list byte), length x = length u -> outlen = zlen (w ++ x) ->
    decode_loop fuel d outlen (zlen w) (Some (w ++ x)) = Some (zlen w + zlen u - 1, Some (w ++ u))) ->
  (out ← put_checked (Some (w ++ x)) outlen (zlen w) cs; decode_loop fuel d outlen (zlen w + zlen cs) out)
  = Some (zlen w + zlen (map byte.of_Z cs ++ u) - 1, Some (w ++ map byte.of_Z cs ++ u)).
Proof.
  intros Hne Hx Ho IH. rewrite length_app, length_map in Hx. destruct (split_len _ _ _ Hx) as (a & b & -> & Ha & Hb).
  rewrite put_checked_here by done. cbn [mbind option_bind].
  assert (Hm : zlen (map byte.of_Z cs) = zlen cs) by (unfold zlen; by rewrite length_map).
  assert (Hz : zlen a = zlen cs) by (unfold zlen; lia).
  replace (zlen w + zlen cs) with (zlen (w ++ map byte.of_Z cs)) by (rewrite zlen_app; lia).
  rewrite app_assoc, IH by (try done; rewrite Ho; autorewrite with zlen; lia).
  rewrite <- app_assoc, !zlen_app. do 2 f_equal. lia.
Qed.

Lemma writes_pos (m : list byte) outlen : outlen = zlen m -> m <> [] -> writes (Some m) outlen = true.
Proof. intros -> Hm. destruct m; [done|]. unfold writes, truthy. rewrite zlen_cons. pose proof (zlen_nonneg m). by rewrite (proj2 (Z.eqb_neq _ _)) by lia. Qed.

Lemma decode_fills d : forall u fuel (w x : list byte) outlen, unescape d = Some u -> (length d < fuel)%nat ->
  length x = length u -> outlen = zlen (w ++ x) ->
  decode_loop fuel d outlen (zlen w) (Some (w ++ x)) = Some (zlen w + zlen u - 1, Some (w ++ u)).
Proof.
  pattern d. revert d. apply unescape_ind; intros; destruct fuel as [|fuel]; try (simpl in *; lia);
    cbn [decode_loop unescape] in *.
  - simplify_eq. destruct x; [|done]. change (zlen []) with 0. do 2 f_equal. lia.
  - rewrite H in *. cbn [negb] in *. destruct (unescape d) as [u'|]; [|done]. injection H1 as <-.
    destruct x as [|y x]; [done|]. rewrite (writes_pos _ _ H4) by (by destruct w). cbn [put_out].
    pose proof (store_here w [y] x [byte.of_Z (chr b)] eq_refl) as Hst. cbn [app] in Hst. rewrite Hst.
    cbn [mbind option_bind]. unfold chr at 1. rewrite byte.of_Z_unsigned.
    replace (zlen w + 1) with (zlen (w ++ [b])) by zlen_lia.
    change (w ++ b :: x) with (w ++ [b] ++ x). rewrite app_assoc.
    rewrite (H0 u') by (first [done|simpl in *; lia|rewrite H4; zlen_lia]).
    rewrite <- app_assoc, !zlen_app. do 2 f_equal. rewrite !zlen_cons, zlen_nil. lia.
  - done.
  - escapes. rewrite H in *.
    destruct (unescape d) as [u'|]; [|done]. injection H1 as <-.
    apply (decode_piece [c] u'); [done|done|done|]. intros. apply H0; [done|simpl in *; lia|done|done].
  - escapes.
    destruct (unescape d) as [u'|]; [|done]. injection H0 as <-.
    apply decode_piece; [apply utf8_nonempty|done|done|]. intros. apply H; [done|simpl in *; lia|done|done].
  - escapes.
    destruct d as [|? [|? [|? [|? ?]]]]; try done. simpl in H. lia.
  - escapes. by rewrite H, H0 in H1.
Qed.

(** Without room nothing is written. *)
Lemma decode_fails d : forall fuel ptr m, unescape d = None -> (length d < fuel)%nat ->
  decode_loop fuel d 0 ptr (Some m) = Some (-1, Some m).
Proof.
  pattern d. revert d. apply unescape_ind; intros; destruct fuel as [|fuel]; try (simpl in *; lia);
    cbn [decode_loop unescape] in *; try done.
  - rewrite H in *. cbn [negb] in *. destruct (unescape d) eqn:E; [done|]. change (writes (Some m) 0) with false.
    cbn [mbind option_bind]. apply H0; [done|simpl in *; lia].
  - escapes. rewrite H in *.
    destruct (unescape d) eqn:E; [done|]. unfold put_checked. change (writes (Some m) 0) with false.
    cbn [andb mbind option_bind]. apply H0; [done|simpl in *; lia].
  - escapes.
    destruct (unescape d) as [u'|] eqn:E; [done|]. unfold put_checked. change (writes (Some m) 0) with false.
    cbn [andb mbind option_bind]. apply H; [done|simpl in *; lia].
  - escapes.
    destruct d as [|? [|? [|? [|? ?]]]]; try done. simpl in H. lia.
  - escapes. by rewrite H, H0.
Qed.

Lemma cstr_length d : (length (cstr d) <= length d)%nat.
Proof. induction d as [|b d IH]; cbn [cstr length]; [lia|]. case_if; simpl; lia. Qed.

Lemma unescape_nonempty d u : unescape d = Some u -> d <> [] -> 1 <= zlen u.
Proof.
  pattern d. revert d. apply unescape_ind; intros; cbn [unescape] in *; try done.
  - rewrite H in H1. destruct (unescape d); [|done]. injection H1 as <-. rewrite zlen_cons.
    match goal with |- _ <= 1 + zlen ?l => pose proof (zlen_nonneg l) end. lia.
  - escapes. rewrite H in *.
    destruct (unescape d); [|done]. injection H1 as <-. rewrite zlen_cons.
    match goal with |- _ <= 1 + zlen ?l => pose proof (zlen_nonneg l) end. lia.
  - escapes.
    destruct (unescape d) as [u'|]; [|done]. injection H0 as <-.
    match goal with |- context [utf8 ?x] => pose proof (utf8_nonempty x); destruct (utf8 x) end; [done|].
    cbn [map]. rewrite <- app_comm_cons, zlen_cons.
    match goal with |- _ <= 1 + zlen ?l => pose proof (zlen_nonneg l) end. lia.
  - escapes.
    destruct d as [|? [|? [|? [|? ?]]]]; try done. simpl in H. lia.
  - escapes. by rewrite H, H0 in H1.
Qed.

Lemma decode_size data :
  jstree_string_decode None 0 data =
  Some (match unescape (cstr data ++ [Byte.x00]) with Some u => zlen u - 1 | None => -1 end, None).
Proof.
  unfold jstree_string_decode. rewrite decode_counts; [done|].
  rewrite length_app. pose proof (cstr_length data). simpl. lia.
Qed.

(** Decoding a string takes two passes: without a buffer the length is
    computed, or -1 for an escape that is not known; then a buffer of that length
    and one is filled.  The second pass stays in the buffer, fills every byte of
    it whatever was in it, and reports the same length. *)
Theorem string_decode_exact data n buf :
  jstree_string_decode None 0 data = Some (n, None) -> 0 <= n -> zlen buf = n + 1 ->
  exists u, unescape (cstr data ++ [Byte.x00]) = Some u /\
    jstree_string_decode (Some buf) (n + 1) data = Some (n, Some u).
Proof.
  rewrite decode_size. destruct (unescape _) as [u|] eqn:E; intros [= <-] Hn Hb; [|lia].
  exists u. split; [done|]. unfold jstree_string_decode.
  pose proof (decode_fills _ u (S (S (length data))) [] buf (zlen u - 1 + 1) E) as H.
  rewrite zlen_nil in H. cbn [app] in H. rewrite Z.add_0_l in H. apply H; [|unfold zlen in *; lia|lia].
  rewrite length_app. pose proof (cstr_length data). simpl. lia.
Qed.

Lemma string_decode_exact_witness :
  exists u, unescape (cstr (lit "a\u20acb\n") ++ [Byte.x00]) = Some u /\
    jstree_string_decode (Some (replicate 7 Byte.xff)) (6 + 1) (lit "a\u20acb\n") = Some (6, Some u).
Proof. apply string_decode_exact; vm_compute; (reflexivity || discriminate). Defined.

(** ** Encoding *)

Definition escape (s : list byte) : list byte :=
  concat (map (fun b => if (chr b =? c_backslash) || (chr b =? c_quote) then [Byte.x5c; b] else [b]) s).

Lemma escape_cons b s : escape (b :: s) =
  (if (chr b =? c_backslash) || (chr b =? c_quote) then [Byte.x5c; b] else [b]) ++ escape s.
Proof. done. Qed.

Lemma escape_app s s' : escape (s ++ s') = escape s ++ escape s'.
Proof. unfold escape. by rewrite map_app, concat_app. Qed.

Lemma unescape_escape s l : unescape (escape s ++ l) = (app s) <$> unescape l.
Proof.
  induction s as [|b s IH]; [change (escape [] ++ l) with l; by destruct (unescape l)|]. rewrite escape_cons, <- app_assoc.
  destruct ((chr b =? c_backslash) || (chr b =? c_quote)) eqn:E.
  - cbn [app unescape]. escapes.
    assert (He : escape_code (chr b) = Some (chr b)).
    { apply orb_true_iff in E as [E|E]; apply Z.eqb_eq in E; by rewrite E. }
    rewrite He, IH. unfold chr. rewrite byte.of_Z_unsigned. by destruct (unescape l).
  - apply orb_false_iff in E as [E _]. cbn [app unescape]. rewrite E, IH. by destruct (unescape l).
Qed.

Lemma str_body_escape s : no_nul s -> str_body (escape s) = true.
Proof.
  induction 1 as [|b s Hb Hs IH]; [done|]. rewrite escape_cons.
  destruct ((chr b =? c_backslash) || (chr b =? c_quote)) eqn:E.
  - cbn [app str_body]. change (chr Byte.x5c) with c_backslash. cbn -[is_escape escape].
    assert (He : is_escape (chr b) = true).
    { apply orb_true_iff in E as [E|E]; apply Z.eqb_eq in E; by rewrite E. }
    by rewrite He.
  - apply orb_false_iff in E as [E1 E2]. cbn [app str_body]. rewrite (proj2 (Z.eqb_neq _ _) Hb), E1, E2. done.
Qed.

(** Without a buffer the bytes are counted. *)
Lemma encode_counts s : forall outlen ptr,
  encode_loop s outlen ptr None = Some (ptr + zlen (escape s) - 1, None).
Proof.
  induction s as [|b s IH]; intros outlen ptr; cbn [encode_loop].
  - change (zlen (escape [])) with 0. do 2 f_equal. lia.
  - rewrite escape_cons, zlen_app. unfold encode_byte. cbn [writes andb].
    destruct ((chr b =? c_backslash) || (chr b =? c_quote)); cbn [mbind option_bind]; rewrite IH;
      autorewrite with zlen; do 2 f_equal; lia.
Qed.

(** One byte of the text, as long as there is room for one more. *)
Lemma encode_byte_fills b (w a x : list byte) outlen :
  length a = length (escape [b]) -> x <> [] -> outlen = zlen (w ++ a ++ x) ->
  encode_byte outlen (zlen w) (Some (w ++ a ++ x)) b =
  Some (inr (zlen (w ++ escape [b]), Some ((w ++ escape [b]) ++ x))).
Proof.
  intros Ha Hx Ho. rewrite escape_cons in *. change (escape []) with (@nil byte) in *. rewrite app_nil_r in *.
  assert (Hxp : 0 < zlen x) by (destruct x; [done|unfold zlen; simpl; lia]).
  pose proof (zlen_nonneg w). pose proof (zlen_nonneg a).
  assert (Hw : forall m : list byte, writes (Some m) outlen = true).
  { intros m. unfold writes, truthy. rewrite (proj2 (Z.eqb_neq _ _)); [done|]. zlen_lia. }
  assert (Hput : forall (v : list byte) a1 r c, put_out (Some (v ++ a1 :: r)) (zlen v) c =
    Some (Some (v ++ byte.of_Z c :: r))).
  { intros v a1 r c. cbn [put_out]. pose proof (store_here v [a1] r [byte.of_Z c] eq_refl) as Hst.
    cbn [app] in Hst. by rewrite Hst. }
  unfold encode_byte. rewrite !Hw. cbn [andb].
  destruct ((chr b =? c_backslash) || (chr b =? c_quote)).
  - destruct a as [|a1 [|a2 [|]]]; try done. cbn [app] in *. rewrite Hput. cbn [mbind option_bind].
    rewrite (proj2 (Z.leb_gt _ _)) by (rewrite Ho; zlen_lia).
    replace (zlen w + 1) with (zlen (w ++ [byte.of_Z c_backslash])) by zlen_lia.
    change (w ++ byte.of_Z c_backslash :: a2 :: x) with (w ++ [byte.of_Z c_backslash] ++ a2 :: x).
    rewrite app_assoc, Hput. cbn [mbind option_bind].
    rewrite (proj2 (Z.leb_gt _ _)) by (rewrite Ho; zlen_lia).
    unfold chr. rewrite byte.of_Z_unsigned, <- !app_assoc. do 3 f_equal. zlen_lia.
  - destruct a as [|a1 [|]]; try done. cbn [app mbind option_bind] in *. rewrite Hput. cbn [mbind option_bind].
    rewrite (proj2 (Z.leb_gt _ _)) by (rewrite Ho; zlen_lia).
    unfold chr. rewrite byte.of_Z_unsigned, <- !app_assoc. do 3 f_equal. zlen_lia.
Qed.

(** A buffer with one byte to spare is filled. *)
Lemma encode_fills s : forall (w x y : list byte) outlen,
  length x = length (escape s) -> y <> [] -> outlen = zlen (w ++ x ++ y) ->
  encode_loop s outlen (zlen w) (Some (w ++ x ++ y)) =
  Some (zlen w + zlen (escape s) - 1, Some (w ++ escape s ++ y)).
Proof.
  induction s as [|b s IH]; intros w x y outlen Hx Hy Ho; cbn [encode_loop].
  - destruct x; [|done]. change (zlen (escape [])) with 0. do 2 f_equal. lia.
  - change (escape (b :: s)) with (escape ([b] ++ s)) in *.
    rewrite escape_app, length_app in *. destruct (split_len _ _ _ Hx) as (a & x2 & -> & Ha & Hb).
    rewrite <- !app_assoc in *. rewrite encode_byte_fills; [|done|by destruct x2|done]. cbn [mbind option_bind].
    assert (Hza : zlen a = zlen (escape [b])) by (unfold zlen; lia).
    rewrite IH by (try done; rewrite Ho; autorewrite with zlen; lia).
    rewrite <- !app_assoc. autorewrite with zlen. do 2 f_equal. lia.
Qed.

(** A string is encoded with one byte more than the encoded text and its null
    byte as the buffer; the null byte ends the text.  The encoded text may stand in
    a well-formed tree, and decoding it into a buffer of the size the decoder
    reports gives the string back. *)
Theorem string_roundtrip s n buf out :
  no_nul s -> jstree_string_encode None 0 (s ++ [Byte.x00]) = Some (n, None) -> zlen buf = n + 2 ->
  zlen out = zlen s + 1 ->
  exists enc pad, jstree_string_encode (Some buf) (n + 2) (s ++ [Byte.x00]) = Some (n, Some (enc ++ Byte.x00 :: pad)) /\
    zlen enc = n /\ str_body enc = true /\
    jstree_string_decode None 0 enc = Some (zlen s, None) /\
    jstree_string_decode (Some out) (zlen s + 1) enc = Some (zlen s, Some (s ++ [Byte.x00])).
Proof.
  intros Hs Hn Hb Ho. pose proof (cstr_no_nul s [] Hs) as Hc.
  unfold jstree_string_encode in *. rewrite Hc in *. rewrite encode_counts in Hn. injection Hn as <-.
  rewrite escape_app in *. change (escape [Byte.x00]) with [Byte.x00] in *.
  assert (Hz : zlen buf = zlen (escape s ++ [Byte.x00]) + 1) by lia.
  assert (Hbl : length buf = (length (escape s ++ [Byte.x00]) + 1)%nat) by (unfold zlen in Hz; lia).
  destruct (split_len _ _ _ Hbl) as (x & y & -> & Hx & Hy).
  pose proof (str_body_escape s Hs) as Hbody. pose proof (cstr_all _ (str_body_no_nul _ Hbody)) as Hce.
  exists (escape s), y. split_and!.
  - pose proof (encode_fills (s ++ [Byte.x00]) [] x y (0 + zlen (escape s ++ [Byte.x00]) - 1 + 2)) as He.
    rewrite escape_app in He. change (escape [Byte.x00]) with [Byte.x00] in He. change (zlen []) with 0 in He.
    cbn [app] in He. rewrite He; [by rewrite <- app_assoc|done|by destruct y|rewrite <- Hb; done].
  - rewrite zlen_app. change (zlen [Byte.x00]) with 1. lia.
  - done.
  - rewrite decode_size, Hce, unescape_escape. change (unescape [Byte.x00]) with (Some [Byte.x00]).
    cbn [fmap option_fmap option_map]. rewrite zlen_app. change (zlen [Byte.x00]) with 1. do 2 f_equal. lia.
  - unfold jstree_string_decode. rewrite Hce.
    pose proof (decode_fills (escape s ++ [Byte.x00]) (s ++ [Byte.x00]) (S (S (length (escape s)))) [] out (zlen s + 1)) as Hd.
    change (zlen []) with 0 in Hd. cbn [app] in Hd. rewrite Z.add_0_l in Hd. rewrite Hd.
    + rewrite zlen_app. change (zlen [Byte.x00]) with 1. do 2 f_equal. lia.
    + rewrite unescape_escape. done.
    + rewrite length_app. simpl. lia.
    + rewrite length_app. unfold zlen in Ho. simpl. lia.
    + lia.
Qed.

Lemma string_roundtrip_witness :
  exists enc pad,
    jstree_string_encode (Some (replicate 8 Byte.xff)) (6 + 2) [Byte.x61; Byte.x5c; Byte.x22; Byte.x62; Byte.x00]
      = Some (6, Some (enc ++ Byte.x00 :: pad)) /\
    zlen enc = 6 /\ str_body enc = true /\
    jstree_string_decode None 0 enc = Some (zlen [Byte.x61; Byte.x5c; Byte.x22; Byte.x62], None) /\
    jstree_string_decode (Some (replicate 5 Byte.xff)) (zlen [Byte.x61; Byte.x5c; Byte.x22; Byte.x62] + 1) enc
      = Some (zlen [Byte.x61; Byte.x5c; Byte.x22; Byte.x62], Some ([Byte.x61; Byte.x5c; Byte.x22; Byte.x62] ++ [Byte.x00])).
Proof.
  apply (string_roundtrip [Byte.x61; Byte.x5c; Byte.x22; Byte.x62] 6).
  - repeat constructor; vm_compute; discriminate.
  - vm_compute. reflexivity.
  - reflexivity.
  - reflexivity.
Defined.

(** ** The settings *)

(** The value of a key among the members of an object. *)
Fixpoint member (t : tree) (k : list byte) : option tree :=
  match t with
  | Null => None
  | Node _ d l r => if bool_decide (d = Some k) then Some r else member l k
  end.

Definition members (t : tree) : tree := match t with Node JSMN_OBJECT _ _ r => r | _ => Null end.

(** A setting is a member of the object [ssl]. *)
Definition setting (root : tree) (k : list byte) : option tree :=
  s ← member root (lit "ssl"); member (members s) k.

Lemma wf_scalar_text ty d : wf_scalar ty d = true ->
  exists s, d = Some s /\ is_text ty = true /\ no_nul s /\ cstr s = s.
Proof.
  destruct ty, d as [s|]; try done; cbn [wf_scalar]; intros H; exists s.
  - pose proof (str_body_no_nul s H). split_and!; try done. by apply cstr_all.
  - pose proof (prim_body_no_nul s H). split_and!; try done. by apply cstr_all.
Qed.

Lemma find_member t k : wf MObj t = true -> t <> Null ->
  exists n, find_node t k = Some n /\
    match member t k with Some v => exists ty d l, n = Node ty d l v | None => n = Null end.
Proof.
  induction t as [|ty d l IHl r _]; [done|]. cbn [wf]. intros [[Hs Hv]%andb_true_iff Hl]%andb_true_iff _.
  destruct (wf_scalar_text _ _ Hs) as (s & -> & Hty & Hn & Hc). cbn [find_node is_key member].
  rewrite Hty, Hc. cbn [andb]. destruct (bool_decide (s = k)) eqn:E.
  - apply bool_decide_eq_true in E as ->. rewrite bool_decide_true by done. by eexists; split; [|eauto].
  - apply bool_decide_eq_false in E. rewrite bool_decide_false by congruence.
    destruct l as [|ty' d' l' r']; [by exists Null|]. by apply IHl.
Qed.

(** A plain word is not an index. *)
Definition word (k : list byte) : bool :=
  match k with b :: _ => negb (chr b =? c_lbracket) | [] => false end.

Lemma scan_word k : word k = true -> scan_index k = Some None.
Proof. destruct k as [|b k]; [done|]. cbn [word scan_index]. by destruct (chr b =? c_lbracket). Qed.

Lemma member_wf t k v : wf MObj t = true -> member t k = Some v -> wf MVal v = true.
Proof.
  induction t as [|ty d l IHl r _]; [done|]. cbn [wf member]. intros [[_ Hv]%andb_true_iff Hl]%andb_true_iff.
  case_if; [by intros [= <-]|]. by apply IHl.
Qed.

(** What a step of [_do_jstree_read] gives in an object, and in an array. *)
Lemma read_member k argv i t : wf MObj t = true -> word k = true ->
  read_loop (k :: argv) i t =
  match member t k with
  | Some (Node ty d l r as v) => if is_text ty then Some (i + 1, v) else read_loop argv (i + 1) r
  | _ => Some (i, Null)
  end.
Proof.
  intros Hw Hk. cbn [read_loop]. destruct t as [|ty0 d0 l0 r0]; [done|].
  rewrite bool_decide_false by done. rewrite (scan_word k Hk). cbn [mbind option_bind].
  destruct (find_member _ k Hw ltac:(done)) as (n & -> & Hn). cbn [mbind option_bind].
  pose proof (member_wf (Node ty0 d0 l0 r0) k) as Hv.
  destruct (member (Node ty0 d0 l0 r0) k) as [v|]; [|by rewrite Hn]. specialize (Hv _ Hw eq_refl). destruct Hn as (ty & d & l & ->). destruct v as [|ty' d' l' r']; [done|].
  by destruct ty'.
Qed.

Lemma find_element t k : wf MArr t = true -> t <> Null ->
  exists n, find_node t k = Some n /\ (n = Null \/ exists ty d l, n = Node ty d l Null).
Proof.
  induction t as [|ty d l IHl r _]; [done|]. rewrite wf_elem. intros [Hv Hl]%andb_true_iff _. cbn [find_node].
  destruct (is_key ty d k) eqn:E.
  - eexists. split; [done|]. right. cbn [wf is_null] in Hv. rewrite andb_true_r in Hv.
    assert (r = Null) as ->; [|by eauto]. destruct d as [d|]; [|done]. cbn [is_key] in E.
    apply andb_true_iff in E as [E _].
    destruct ty; try done; apply andb_true_iff in Hv as [_ Hv]; by destruct r.
  - destruct l as [|ty' d' l' r']; [exists Null; auto|]. by apply IHl.
Qed.

Lemma read_array k i t : wf MArr t = true -> word k = true -> exists n, read_loop [k] i t = Some (i, n).
Proof.
  intros Hw Hk. cbn [read_loop]. destruct t as [|ty0 d0 l0 r0]; [by eexists|].
  rewrite bool_decide_false by done. rewrite (scan_word k Hk). cbn [mbind option_bind].
  destruct (find_element _ k Hw ltac:(done)) as (n & -> & [->|(ty & d & l & ->)]); by eexists.
Qed.

(** Reading a setting: two steps, or less when it is not there. *)
Lemma read_setting root k : wf MObj root = true -> word k = true ->
  match setting root k with
  | Some (Node ty d l r as v) => if is_text ty then read_ssl root k = Some (2, v) else True
  | _ => exists i n, read_ssl root k = Some (i, n) /\ (i =? 2) = false
  end.
Proof.
  intros Hw Hk. unfold setting, read_ssl, _do_jstree_read. rewrite read_member by done.
  destruct (member root (lit "ssl")) as [s|] eqn:Es; cbn [mbind option_bind]; [|by eauto].
  pose proof (member_wf _ _ _ Hw Es) as Hs. destruct s as [|ty d l r]; [done|].
  apply wf_value in Hs as [-> Hs]. cbn [wf is_null] in Hs. rewrite andb_true_r in Hs.
  destruct ty; cbn [members member]; try by eauto.
  - apply andb_true_iff in Hs as [_ Hs]. change (is_text JSMN_OBJECT) with false. cbv iota.
    rewrite read_member by done.
    destruct (member r k) as [[|ty' d' l' r']|]; [by eauto| |by eauto].
    destruct (is_text ty'); done.
  - apply andb_true_iff in Hs as [_ Hs]. change (is_text JSMN_ARRAY) with false. cbv iota.
    destruct (read_array k (0 + 1) r Hs Hk) as [n ->]. by eauto.
Qed.

(** The text of a setting, when it is a string. *)
Definition string_of (v : option tree) : option (list byte) :=
  match v with Some (Node JSMN_STRING d _ _) => d | _ => None end.

Definition string_setting (root : tree) (k : list byte) : Prop :=
  match setting root k with Some (Node JSMN_STRING _ _ _) | None => True | _ => False end.

Lemma read_string root k : wf MObj root = true -> word k = true -> string_setting root k ->
  match string_of (setting root k) with
  | Some s => str_body s = true /\ exists l r, read_ssl root k = Some (2, Node JSMN_STRING (Some s) l r)
  | None => exists i n, read_ssl root k = Some (i, n) /\ (i =? 2) = false
  end.
Proof.
  intros Hw Hk Hs. pose proof (read_setting root k Hw Hk) as H. unfold string_setting in Hs.
  destruct (setting root k) as [[|[] d l r]|] eqn:E; try done. cbn [string_of] in *.
  change (is_text JSMN_STRING) with true in H. cbv iota in H.
  unfold setting in E. apply bind_Some in E as (s & E1 & E2). pose proof (member_wf _ _ _ Hw E1) as Hw1.
  assert (Hw2 : wf MObj (members s) = true).
  { destruct s as [|[] ds ls rs]; try done. cbn [wf members] in *. by apply andb_true_iff in Hw1 as [[_ ?]%andb_true_iff _]. }
  pose proof (member_wf _ _ _ Hw2 E2) as Hv. cbn [wf] in Hv. apply andb_true_iff in Hv as [[Hv _]%andb_true_iff _].
  destruct d as [d|]; [|done]. split; [done|]. by eauto.
Qed.

Lemma unescape_terminated d : str_body d = true ->
  unescape (d ++ [Byte.x00]) = (fun s => s ++ [Byte.x00]) <$> unescape d.
Proof.
  revert d. apply str_body_ind; [done|..].
  - intros b d _ _ Hb IH. cbn [app unescape]. rewrite (proj2 (Z.eqb_neq _ _) Hb), IH. by destruct (unescape d).
  - intros e d He IH. cbn [app unescape]. escapes.
    destruct (escape_code (chr e)); [rewrite IH; by destruct (unescape d)|].
    destruct (Z.eqb_spec (chr e) 117) as [E|]; [by rewrite E in He|done].
  - intros h1 h2 h3 h4 d _ _ _ _ IH. cbn [app unescape]. escapes.
    rewrite IH. destruct (unescape d); [|done]. cbn [fmap option_fmap option_map]. by rewrite app_assoc.
Qed.

(** What [loadconfig] is meant to give for a configuration. *)
Definition config_of (root : tree) (cfg : vc_ssl_cfg) : option (Z * vc_ssl_cfg) :=
  let str k := string_of (setting root k) in
  match str (lit "keyfile") with
  | None => Some (-1, cfg)
  | Some key =>
      match str (lit "rootca") with
      | None => Some (-1, mk_cfg (password cfg) (rootca cfg) (Some key) (accept_expired_key cfg))
      | Some ca =>
          pw ← match str (lit "password") with
               | None => Some []
               | Some d => unescape d
               end;
          Some (0, mk_cfg (pw ++ [Byte.x00]) (Some ca) (Some key)
                     (if bool_decide (str (lit "accept_expired_key") = Some (lit "enable")) then 1 else 0))
      end
  end.

Definition keys : list (list byte) := [lit "keyfile"; lit "rootca"; lit "password"; lit "accept_expired_key"].

(** The two passes over the password, and the message that prints it. *)
Lemma read_password d : str_body d = true ->
  (n ← jstree_string_decode None 0 d;
   let len := fst n in
   r ← jstree_string_decode (Some (replicate (Z.to_nat (len + 1)) Byte.x00)) (len + 1) d;
   snd r) = Some (match unescape d with Some s => s ++ [Byte.x00] | None => [] end).
Proof.
  intros Hd. rewrite decode_size. rewrite (cstr_all d) by (by apply str_body_no_nul).
  assert (Hl : (length (d ++ [Byte.x00]) < S (S (length d)))%nat) by (rewrite length_app; simpl; lia).
  pose proof (unescape_terminated d Hd) as Hu. unfold jstree_string_decode.
  rewrite (cstr_all d) by (by apply str_body_no_nul).
  destruct (unescape d) as [s|]; cbn [fmap option_fmap option_map] in Hu; rewrite Hu; cbn [mbind option_bind fst]; cbv zeta.
  - pose proof (decode_fills _ _ _ [] (replicate (Z.to_nat (zlen (s ++ [Byte.x00]) - 1 + 1)) Byte.x00)
      (zlen (s ++ [Byte.x00]) - 1 + 1) Hu Hl) as Hf. change (zlen []) with 0 in Hf. cbn [app] in Hf.
    rewrite Hf; [done|rewrite length_replicate; unfold zlen; lia|].
    unfold zlen at 2. rewrite length_replicate. unfold zlen. lia.
  - change (-1 + 1) with 0. rewrite decode_fails by done. done.
Qed.

Lemma terminated_snoc s : terminated (s ++ [Byte.x00]) = true.
Proof. unfold terminated. rewrite existsb_app. apply orb_true_r. Qed.

(** The last setting, and what is done with it. *)
Lemma read_accept {B} root (K : bool -> option B) : wf MObj root = true ->
  string_setting root (lit "accept_expired_key") ->
  (e ← read_ssl root (lit "accept_expired_key");
   a ← (if negb (fst e =? 2) then Some false else
        d ← node_data (snd e); d ← d; Some (bool_decide (cstr d = lit "enable")));
   K a) = K (bool_decide (string_of (setting root (lit "accept_expired_key")) = Some (lit "enable"))).
Proof.
  intros Hw Hs. apply read_string in Hs; [|done|done].
  destruct (string_of (setting root _)) as [s|].
  - destruct Hs as (Hb & l & r & ->). cbn [mbind option_bind fst snd node_data]. change (2 =? 2) with true.
    cbn [negb mbind option_bind]. rewrite (cstr_all s) by (by apply str_body_no_nul).
    f_equal. apply bool_decide_ext. split; congruence.
  - destruct Hs as (i & n & -> & Hi). cbn [mbind option_bind fst]. rewrite Hi. cbn [negb mbind option_bind].
    by rewrite bool_decide_false.
Qed.



(** ** Files that are not a configuration *)

(** A configuration file that is empty, or blank, has no token and [js2tree]
    returns without a node, which [loadconfig] follows: the daemon reads through
    an unset pointer. *)
Theorem blank_config_faults js cfg :
  Forall (fun b => is_blank (chr b) = true) js -> loadconfig (Some js) cfg = None.
Proof.
  intros Hb. unfold loadconfig, parse_tree. pose proof (rest_start js) as Hr. rewrite <- (app_nil_r js) in Hr at 2.
  rewrite (growing_runs (zlen js) js (mk_parser (0 + zlen js) (-1) []));
    [done|lia|by eapply runs_blanks|done|constructor].
Qed.

Lemma blank_config_faults_witness : loadconfig (Some [Byte.x20; Byte.x0a]) (mk_cfg [] None None 0) = None.
Proof. apply blank_config_faults. repeat constructor. Defined.

(** An object with a string as its only key, and no value. *)
Definition bare (d : list byte) : list byte := lit "{" ++ quoted d ++ lit "}".
Definition bare_toks (d : list byte) : list jsmntok :=
  [mk_tok JSMN_OBJECT 0 (1 + zlen (quoted d) + 1) 1; scalar_tok JSMN_STRING (Some d) 1 0].

Lemma bare_len d : zlen (bare d) = 1 + zlen (quoted d) + 1.
Proof. unfold bare. rewrite !zlen_app. change (zlen (lit "{")) with 1. change (zlen (lit "}")) with 1. lia. Qed.

Lemma bare_rest d : rest (bare d) 1 (quoted d ++ lit "}").
Proof. exact (rest_app _ 0 (lit "{") _ (rest_start (bare d))). Qed.

Lemma bare_runs d num : str_body d = true -> 2 <= num ->
  runs num (bare d) jsmn_init (mk_parser (1 + zlen (quoted d) + 1) (-1) (bare_toks d)).
Proof.
  intros Hd Hn. set (o := mk_tok JSMN_OBJECT 0 (-1) 0). pose proof (bare_rest d) as Hr1.
  pose proof (rest_app _ _ _ _ Hr1) as Hr2.
  eapply runs_trans; [eapply (runs_open num _ 0 (-1) [] [] Byte.x7b JSMN_OBJECT);
    [by left|exact (rest_start (bare d))|by constructor|change (zlen []) with 0; lia]|].
  eapply runs_trans; [eapply (runs_scalar num _ 1 0 [o] [inc o] JSMN_STRING (Some d) (lit "}"));
    [done|exact Hr1|cbn; rewrite !elem_of_cons; auto|by apply (grows_mid 0 [] o [])|change (zlen [o]) with 1; lia]|].
  eapply (runs_close num _ (1 + zlen (quoted d)) 0 [] (inc o) [_] Byte.x7d JSMN_OBJECT (-1) []);
    [by left|exact Hr2|done|done|constructor; [by apply scalar_closed|constructor]|done].
Qed.

(** The tokenizer accepts an object with a key and no value, with two tokens
    for any number of tokens it may use; [js2tree] then reads the token behind
    them, outside of what was parsed. *)
Theorem bare_key_overread d num :
  str_body d = true -> 2 <= num ->
  exists p, jsmn_parse num (bare d) jsmn_init = Some (2, p) /\ toknext p = 2 /\
    forall fuel, js2tree fuel (bare d) (toks p) (toknext p) = None.
Proof.
  intros Hd Hn. exists (mk_parser (1 + zlen (quoted d) + 1) (-1) (bare_toks d)). split_and!; [|done|].
  - rewrite (parse_runs num (bare d) _ (bare_runs d num Hd Hn)); [done|by rewrite bare_len|]. pose proof (zlen_nonneg (quoted d)).
    constructor; [|by constructor; [apply scalar_closed|]]. unfold is_open. cbn [start end_].
    by rewrite (proj2 (Z.eqb_neq (1 + zlen (quoted d) + 1) (-1))) by lia.
  - intros [|[|fuel]]; [done|done|]. change (toknext _) with 2. cbn [toks]. unfold bare_toks.
    set (k := scalar_tok JSMN_STRING (Some d) 1 0).
    pose proof (scalar_builds (bare d) fuel JSMN_STRING (Some d) 1 0 _ [] 2 Hd (bare_rest d) ltac:(lia)) as Hk.
    fold k in Hk. remember (S fuel) as n. cbn [js2tree head mbind option_bind type size].
    change (2 =? 0) with false. change (Z.to_nat 1) with 1%nat. change (zdrop 1 [_; k]) with [k]. cbv iota.
    cbn [object_loop]. change (2 - 0) with 2. rewrite Hk. subst n. done.
Qed.

Lemma bare_key_overread_witness :
  exists p, jsmn_parse 2 (bare (lit "a")) jsmn_init = Some (2, p) /\ toknext p = 2 /\
    forall fuel, js2tree fuel (bare (lit "a")) (toks p) (toknext p) = None.
Proof. apply bare_key_overread; [reflexivity|lia]. Defined.
