(* ===== verification/Monitor.v ===== *)
(** * The monitor file [daemon/monitor/vcom_monitor_dbg.h]

    The daemon shows its state and its last messages in a mapped file of [MSIZE]
    bytes: a line with the state, behind it the messages, the newest first.  An
    access behind the mapping or behind the buffer [tmp] is a fault, [None].  The
    calls that open and map the file are arguments: what they return. *)

From S2P Require Import Prelude Text Os.

Definition MSIZE : Z := 2048.
Definition MON_MSGLEN_MAX : Z := 128.
Definition CUTTER : list byte := lit "> ".

(** [addr] is what is mapped, empty when nothing is. *)
Record vc_monitor := mk_mon { addr : list byte; fd : Z; pid : Z; max_statl : Z; dbg_first : Z }.

(** [name()] of the five states. *)
Definition vc_netdown_name : list byte := lit "Net Down".
Definition vc_netup_name : list byte := lit "Net Up".
Definition vc_pause_name : list byte := lit "Pause".
Definition vc_idle_name : list byte := lit "Idle".
Definition vc_sync_name : list byte := lit "Sync".

Definition vc_name (s : state_id) : list byte :=
  match s with
  | S_netdown => vc_netdown_name
  | S_netup => vc_netup_name
  | S_pause => vc_pause_name
  | S_idle => vc_idle_name
  | S_sync => vc_sync_name
  end.


(** [fname] is the argument, [opened] what [open] returns, [mapped] whether [mmap]
    succeeds; [getpid] is an argument too.  The flag says that [stk_mon] is set. *)
Definition mon_init (fname : option (list byte)) (getpid opened : Z) (mapped : bool) (m : vc_monitor)
  : Z * vc_monitor * bool :=
  let m := mk_mon [] (-1) (pid m) 0 1 in
  match fname with
  | None => (0, m, false)
  | Some _ =>
      let m := mk_mon [] opened getpid 0 1 in
      if opened <? 0 then (-1, m, false) else
      if negb mapped then (-1, mk_mon [] 0 getpid 0 1, false) else
      (0, mk_mon (replicate (Z.to_nat MSIZE) Byte.x0d) opened getpid 0 1, true)
  end.

(** [memmove(mem + dst, mem + src, n)] in one buffer. *)
Definition memmove (dst src n : Z) (mem : list byte) : option (list byte) :=
  d ← load src n mem; store dst d mem.

Definition blanks : list byte := replicate (Z.to_nat MON_MSGLEN_MAX) Byte.x20.

(** "%F|%T:" of the time, [now], when it fits with its null byte; the buffer is
    unchanged otherwise. *)
Definition time2str (now tmp : list byte) (off len : Z) : option (Z * list byte) :=
  if zlen now + 1 <=? len then tmp ← store off (now ++ [Byte.x00]) tmp; Some (zlen now, tmp)
  else Some (0, tmp).

(** The line with the state. *)
Definition stat_line (pid : Z) (s : state_id) : list byte :=
  lit "Pid " ++ dec pid ++ lit "|State[" ++ vc_name s ++ lit "]" ++ [Byte.x0a].

(** The message: the memory, and whether the function returns -1. *)
Definition mon_message (now dbg : list byte) (statl : Z) (m : vc_monitor) : option (Z * vc_monitor) :=
  let ptr := max_statl m in
  t ← time2str now blanks 0 MON_MSGLEN_MAX;
  let msglen := fst t in
  p ← snprintf msglen (MON_MSGLEN_MAX - msglen) (CUTTER ++ dbg ++ [Byte.x0a]) (snd t);
  let msglen := msglen + fst p in
  let tmp := snd p in
  if MSIZE - msglen - max_statl m <=? 1 then Some (-1, m) else
  r ← (if negb (truthy (dbg_first m))
       then mem ← memmove (ptr + msglen) ptr (MSIZE - statl - msglen) (addr m); Some (mem, dbg_first m)
       else Some (addr m, 0));
  d ← load 0 msglen tmp;
  mem ← store ptr d (fst r);
  Some (0, mk_mon mem (fd m) (pid m) (max_statl m) (snd r)).

(** [stk] is the top of the stack, [None] when it is empty.  What [msync] and
    [ftruncate] do is not visible here. *)
Definition mon_update (stk : option state_id) (now : list byte) (dbg : option (list byte)) (m : vc_monitor)
  : option (Z * vc_monitor) :=
  if fd m <? 0 then Some (0, m) else
  match stk with
  | None => Some (-1, m)
  | Some s =>
      p ← snprintf 0 MON_MSGLEN_MAX (stat_line (pid m) s) blanks;
      let statl := fst p in
      let tmp := snd p in
      if MSIZE - statl <=? 1 then Some (-1, m) else
      mem ← (if max_statl m <? statl then memmove statl (max_statl m) (MSIZE - statl) (addr m) else Some (addr m));
      let m := mk_mon mem (fd m) (pid m) (if max_statl m <? statl then statl else max_statl m) (dbg_first m) in
      d ← load 0 (max_statl m) tmp;
      mem ← store 0 d mem;
      let m := mk_mon mem (fd m) (pid m) (max_statl m) (dbg_first m) in
      match dbg with
      | None => Some (0, m)
      | Some dbg => mon_message now dbg statl m
      end
  end.

(** ** What the file shows *)

Definition log (m : vc_monitor) : list byte := zdrop (max_statl m) (addr m).

(** The line of the state, padded to the longest so far. *)
Definition header (w : Z) (line : list byte) : list byte :=
  ztake w (line ++ [Byte.x00] ++ replicate (Z.to_nat MON_MSGLEN_MAX) Byte.x20).

Definition message (now dbg : list byte) : list byte := now ++ CUTTER ++ dbg ++ [Byte.x0a].

Definition mon_ok (m : vc_monitor) : Prop :=
  zlen (addr m) = MSIZE /\ 0 <= fd m /\ 0 <= pid m < 2 ^ 31 /\ 0 <= max_statl m < MON_MSGLEN_MAX.

Lemma dec_loop_len k : forall fuel n acc, 0 <= n < 10 ^ Z.of_nat k -> (0 < k)%nat ->
  zlen (dec_loop fuel n acc) <= Z.of_nat k + zlen acc.
Proof.
  induction k as [|k IH]; intros fuel n acc Hn Hk; [lia|]. destruct fuel as [|fuel]; cbn [dec_loop]; [lia|].
  destruct (Z.ltb_spec n 10); [rewrite zlen_cons; lia|].
  destruct k as [|k]; [change (10 ^ Z.of_nat 1) with 10 in Hn; lia|].
  etransitivity; [apply IH; [|lia]|rewrite zlen_cons; lia].
  split; [apply Z.div_pos; lia|]. apply Z.div_lt_upper_bound; [lia|].
  replace (10 * 10 ^ Z.of_nat (S k)) with (10 ^ Z.of_nat (S (S k))); [lia|].
  rewrite (Nat2Z.inj_succ (S k)), Z.pow_succ_r by lia. done.
Qed.

Lemma dec_len n : 0 <= n < 2 ^ 31 -> zlen (dec n) <= 10.
Proof.
  intros Hn. unfold dec. rewrite (proj2 (Z.ltb_ge n 0)) by lia.
  etransitivity; [apply (dec_loop_len 10); [|lia]|rewrite zlen_nil; lia].
  change (10 ^ Z.of_nat 10) with 10000000000. lia.
Qed.

Lemma stat_line_len p s : 0 <= p < 2 ^ 31 -> 0 < zlen (stat_line p s) <= 31.
Proof.
  intros Hp%dec_len. unfold stat_line. rewrite !zlen_app. pose proof (zlen_nonneg (dec p)).
  change (zlen (lit "Pid ")) with 4. change (zlen (lit "|State[")) with 7. change (zlen (lit "]")) with 1.
  change (zlen [Byte.x0a]) with 1. destruct s; cbn [vc_name]; unfold vc_netdown_name, vc_netup_name, vc_pause_name, vc_idle_name, vc_sync_name;
  match goal with |- context [zlen (lit ?s)] => let n := eval vm_compute in (zlen (lit s)) in change (zlen (lit s)) with n end; lia.
Qed.

(** A text printed at the start of a blank buffer. *)
Lemma snprintf_blank off s tmp : 0 <= off -> zlen tmp = MON_MSGLEN_MAX -> off + zlen s < MON_MSGLEN_MAX ->
  snprintf off (MON_MSGLEN_MAX - off) s tmp =
  Some (zlen s, ztake off tmp ++ s ++ [Byte.x00] ++ zdrop (off + zlen s + 1) tmp).
Proof.
  intros Ho Ht Hs. pose proof (zlen_nonneg s). unfold snprintf, MON_MSGLEN_MAX in *. rewrite Z.mod_small by lia.
  rewrite (proj2 (Z.eqb_neq _ _)) by lia. rewrite ztake_all by lia.
  rewrite store_Some by zlen_lia. cbn [mbind option_bind]. rewrite <- app_assoc. do 4 f_equal.
  autorewrite with zlen. f_equal. f_equal. lia.
Qed.

Lemma blanks_len : zlen blanks = MON_MSGLEN_MAX.
Proof. done. Qed.

Lemma snprintf_stat s : zlen s < MON_MSGLEN_MAX ->
  snprintf 0 MON_MSGLEN_MAX s blanks = Some (zlen s, header MON_MSGLEN_MAX s).
Proof.
  intros Hs. pose proof (zlen_nonneg s).
  pose proof (snprintf_blank 0 s blanks ltac:(lia) blanks_len Hs) as H1. rewrite Z.sub_0_r in H1. rewrite H1.
  do 2 f_equal. unfold header. rewrite ztake_app_r by lia. cbn [app]. rewrite ztake_0. cbn [app]. f_equal.
  change (Byte.x00 :: ?l) with ([Byte.x00] ++ l). rewrite ztake_app_r by (change (zlen [Byte.x00]) with 1; lia).
  f_equal. unfold blanks, zdrop, ztake. rewrite drop_replicate, take_replicate. f_equal.
  change (zlen [Byte.x00]) with 1. lia.
Qed.

Lemma header_len w s : 0 <= w <= zlen s + MON_MSGLEN_MAX -> zlen (header w s) = w.
Proof.
  intros H. unfold header. apply zlen_ztake. rewrite !zlen_app. pose proof (zlen_nonneg s).
  change (zlen [Byte.x00]) with 1. change (zlen (replicate _ Byte.x20)) with MON_MSGLEN_MAX. lia.
Qed.

Lemma memmove_Some dst src n mem : 0 <= dst -> 0 <= src -> 0 <= n -> src + n <= zlen mem -> dst + n <= zlen mem ->
  memmove dst src n mem = Some (ztake dst mem ++ ztake n (zdrop src mem) ++ zdrop (dst + n) mem).
Proof.
  intros. unfold memmove. rewrite load_Some by lia. cbn [mbind option_bind].
  assert (Hz : zlen (ztake n (zdrop src mem)) = n) by (apply zlen_ztake; rewrite zlen_zdrop; lia).
  rewrite store_Some by lia. by rewrite Hz.
Qed.

(** The state is shown: the header is the new line, the messages move behind it. *)
Definition shown (s : state_id) (m : vc_monitor) : vc_monitor :=
  let line := stat_line (pid m) s in
  let w := Z.max (max_statl m) (zlen line) in
  mk_mon (header w line ++ ztake (MSIZE - w) (log m)) (fd m) (pid m) w (dbg_first m).

Lemma shown_ok s m : mon_ok m -> mon_ok (shown s m).
Proof.
  intros (Ha & Hf & Hp & Hm). pose proof (stat_line_len (pid m) s Hp) as Hl.
  unfold mon_ok, shown, log. cbn [addr fd pid max_statl dbg_first]. split_and!; try done; try (unfold MON_MSGLEN_MAX in *; lia).
  rewrite zlen_app, header_len by (unfold MON_MSGLEN_MAX in *; lia).
  rewrite zlen_ztake; [lia|]. rewrite zlen_zdrop; unfold MSIZE, MON_MSGLEN_MAX in *; lia.
Qed.

Lemma mon_update_shows s now dbg m : mon_ok m ->
  mon_update (Some s) now dbg m =
  match dbg with
  | None => Some (0, shown s m)
  | Some d => mon_message now d (zlen (stat_line (pid m) s)) (shown s m)
  end.
Proof.
  intros (Ha & Hf & Hp & Hm). pose proof (stat_line_len (pid m) s Hp) as Hl. unfold mon_update.
  rewrite (proj2 (Z.ltb_ge _ _)) by lia. rewrite snprintf_stat by (unfold MON_MSGLEN_MAX; lia).
  cbn [mbind option_bind fst snd]. set (line := stat_line (pid m) s) in *.
  rewrite (proj2 (Z.leb_gt _ _)) by (unfold MSIZE; lia).
  assert (Hw : (if max_statl m <? zlen line then zlen line else max_statl m) = Z.max (max_statl m) (zlen line))
    by (case_if; lia). rewrite Hw. set (w := Z.max (max_statl m) (zlen line)) in *.
  assert (Hmove : exists mem, (if max_statl m <? zlen line then memmove (zlen line) (max_statl m) (MSIZE - zlen line) (addr m)
    else Some (addr m)) = Some mem /\ zlen mem = MSIZE /\ zdrop w mem = ztake (MSIZE - w) (log m)).
  { unfold log. destruct (Z.ltb_spec (max_statl m) (zlen line)) as [Hlt|Hge].
    - rewrite memmove_Some by (unfold MSIZE, MON_MSGLEN_MAX in *; lia). eexists. split; [done|].
      replace w with (zlen line) by lia.
      assert (Ht : zlen (ztake (zlen line) (addr m)) = zlen line) by (apply zlen_ztake; unfold MSIZE in *; lia).
      rewrite (zdrop_all (zlen line + _)), app_nil_r by lia. split.
      + rewrite zlen_app, Ht, zlen_ztake; [lia|]. rewrite zlen_zdrop; unfold MSIZE, MON_MSGLEN_MAX in *; lia.
      + rewrite zdrop_app_r by lia. by rewrite Ht, Z.sub_diag.
    - eexists. split_and!; [done|done|]. replace w with (max_statl m) by lia.
      rewrite ztake_all; [done|]. rewrite zlen_zdrop; unfold MSIZE, MON_MSGLEN_MAX in *; lia. }
  destruct Hmove as (mem & -> & Hml & Hmd). cbn [mbind option_bind max_statl].
  assert (Hload : load 0 w (header MON_MSGLEN_MAX line) = Some (header w line)).
  { rewrite load_Some by (try rewrite header_len; unfold MON_MSGLEN_MAX in *; lia). rewrite zdrop_0. f_equal.
    unfold header. apply ztake_ztake. unfold MON_MSGLEN_MAX in *. lia. }
  rewrite Hload. cbn [mbind option_bind].
  assert (Hhl : zlen (header w line) = w) by (apply header_len; unfold MON_MSGLEN_MAX in *; lia).
  rewrite store_Some by (unfold MSIZE, MON_MSGLEN_MAX in *; lia). cbn [mbind option_bind].
  rewrite Hhl, Z.add_0_l, ztake_0, Hmd. done.
Qed.

(** The buffer the message is built in. *)
Lemma message_text now d : zlen (message now d) < MON_MSGLEN_MAX ->
  exists tmp,
    (t ← time2str now blanks 0 MON_MSGLEN_MAX;
     snprintf (fst t) (MON_MSGLEN_MAX - fst t) (CUTTER ++ d ++ [Byte.x0a]) (snd t))
    = Some (zlen (CUTTER ++ d ++ [Byte.x0a]), tmp) /\
    load 0 (zlen (message now d)) tmp = Some (message now d).
Proof.
  unfold message. set (text := CUTTER ++ d ++ [Byte.x0a]). rewrite zlen_app. intros Hl.
  pose proof (zlen_nonneg now). pose proof (zlen_nonneg text).
  assert (1 <= zlen text) by (unfold text; rewrite !zlen_app; change (zlen CUTTER) with 2;
    pose proof (zlen_nonneg d); pose proof (zlen_nonneg [Byte.x0a]); lia).
  unfold time2str. rewrite (proj2 (Z.leb_le _ _)) by lia.
  rewrite store_Some by (rewrite ?zlen_app, ?blanks_len; change (zlen [Byte.x00]) with 1; lia).
  cbn [mbind option_bind fst snd]. set (tmp := ztake 0 blanks ++ _ ++ _).
  assert (Htmp : zlen tmp = MON_MSGLEN_MAX /\ ztake (zlen now) tmp = now).
  { unfold tmp. rewrite ztake_0. cbn [app]. split.
    - rewrite !zlen_app, zlen_zdrop; rewrite ?zlen_app, ?blanks_len; change (zlen [Byte.x00]) with 1; lia.
    - rewrite <- app_assoc, ztake_app_l, ztake_all by lia. done. }
  destruct Htmp as [Htl Htn]. rewrite snprintf_blank by (try done; lia). rewrite Htn. eexists. split; [done|].
  rewrite load_Some.
  - rewrite zdrop_0, app_assoc, ztake_app_l, ztake_all by (rewrite zlen_app; lia). done.
  - lia.
  - lia.
  - rewrite !zlen_app. match goal with |- context [zlen (zdrop ?a ?b)] => pose proof (zlen_nonneg (zdrop a b)) end.
    pose proof (zlen_nonneg [Byte.x00]). lia.
Qed.

(** The new message is put in front of the others. *)
Lemma mon_message_logs now d m : mon_ok m -> zlen (message now d) < MON_MSGLEN_MAX ->
  forall statl, 0 <= statl ->
  (dbg_first m <> 0 -> mon_message now d statl m = Some (0, mk_mon (ztake (max_statl m) (addr m) ++
     message now d ++ zdrop (zlen (message now d)) (log m)) (fd m) (pid m) (max_statl m) 0)) /\
  (dbg_first m = 0 -> statl = max_statl m ->
   mon_message now d statl m = Some (0, mk_mon (ztake (max_statl m) (addr m) ++
     ztake (MSIZE - max_statl m) (message now d ++ log m)) (fd m) (pid m) (max_statl m) 0)).
Proof.
  intros (Ha & Hf & Hp & Hm) Hl statl Hst. destruct (message_text now d Hl) as (tmp & Htmp & Hload).
  apply bind_Some in Htmp as ([msglen t] & Ht & Hs). cbn [fst snd] in Hs.
  set (msg := message now d) in *. set (w := max_statl m) in *. pose proof (zlen_nonneg msg).
  assert (Hlen : msglen + zlen (CUTTER ++ d ++ [Byte.x0a]) = zlen msg).
  { unfold time2str in Ht. case_if in Ht.
    - apply bind_Some in Ht as (? & _ & [= <- _]). unfold msg, message. by rewrite (zlen_app now).
    - unfold msg, message in Hl. rewrite (zlen_app now) in Hl. pose proof (zlen_nonneg (CUTTER ++ d ++ [Byte.x0a])).
      assert (1 <= zlen (CUTTER ++ d ++ [Byte.x0a])); [|lia].
      rewrite !zlen_app. change (zlen CUTTER) with 2. pose proof (zlen_nonneg d). pose proof (zlen_nonneg [Byte.x0a]). lia. }
  unfold mon_message. rewrite Ht. cbn [mbind option_bind fst snd]. rewrite Hs. cbn [mbind option_bind fst snd].
  rewrite Hlen. fold w. unfold MSIZE, MON_MSGLEN_MAX in *. rewrite (proj2 (Z.leb_gt _ _)) by lia.
  assert (Hlog : zlen (log m) = 2048 - w) by (unfold log; fold w; rewrite zlen_zdrop; lia).
  assert (Htw : zlen (ztake w (addr m)) = w) by (apply zlen_ztake; lia). split.
  - intros Hfirst. unfold truthy. rewrite (proj2 (Z.eqb_neq _ _)) by done. cbn [negb mbind option_bind fst snd].
    rewrite Hload. cbn [mbind option_bind]. rewrite store_Some by lia. cbn [mbind option_bind].
    unfold log. fold w. by rewrite zdrop_zdrop by lia.
  - intros Hfirst ->. rewrite Hfirst. change (truthy 0) with false. cbn [negb].
    rewrite memmove_Some by lia. cbn [mbind option_bind fst snd]. rewrite Hload. cbn [mbind option_bind].
    rewrite store_Some; [|lia|].
    2: { rewrite !zlen_app, !zlen_ztake by (rewrite ?zlen_zdrop; lia). match goal with |- context [zlen (zdrop ?a ?b)] => pose proof (zlen_nonneg (zdrop a b)) end. lia. }
    cbn [mbind option_bind]. do 3 f_equal.
    rewrite (zdrop_all (w + zlen msg + (2048 - w - zlen msg))) by lia. rewrite app_nil_r.
    rewrite ztake_app_l by (rewrite zlen_ztake; lia). rewrite ztake_ztake by lia. f_equal.
    rewrite zdrop_app_r by (rewrite zlen_ztake; lia). rewrite zlen_ztake, Z.sub_diag, zdrop_0 by lia.
    by rewrite ztake_app_r by lia.
Qed.

(** ** The history of the messages *)

(** Updates one after the other in one state. *)
Fixpoint mon_run (s : state_id) (msgs : list (list byte * list byte)) (m : vc_monitor) : option vc_monitor :=
  match msgs with
  | [] => Some m
  | (now, d) :: msgs => r ← mon_update (Some s) now (Some d) m; mon_run s msgs (snd r)
  end.

(** What the messages leave of the log. *)
Fixpoint history (room : Z) (msgs : list (list byte * list byte)) (old : list byte) : list byte :=
  match msgs with
  | [] => old
  | (now, d) :: msgs => history room msgs (ztake room (message now d ++ old))
  end.

(** The file in a state: its line, then the log. *)
Definition shows (s : state_id) (l : list byte) (m : vc_monitor) : Prop :=
  mon_ok m /\ max_statl m = zlen (stat_line (pid m) s) /\ dbg_first m = 0 /\
  addr m = stat_line (pid m) s ++ l.

Lemma header_exact s : zlen s < MON_MSGLEN_MAX -> header (zlen s) s = s.
Proof. intros H. unfold header. rewrite ztake_app_l, ztake_all by lia. done. Qed.

Lemma mon_update_next s now d l m : shows s l m -> zlen (message now d) < MON_MSGLEN_MAX ->
  exists m', mon_update (Some s) now (Some d) m = Some (0, m') /\ pid m' = pid m /\
    shows s (ztake (MSIZE - zlen (stat_line (pid m) s)) (message now d ++ l)) m'.
Proof.
  intros (Hok & Hw & Hfirst & Haddr) Hl. rewrite mon_update_shows by done.
  pose proof (shown_ok s m Hok) as Hok'. pose proof Hok as (Ha & Hf & Hp & Hm).
  pose proof (stat_line_len (pid m) s Hp) as Hll. set (line := stat_line (pid m) s) in *.
  destruct (mon_message_logs now d (shown s m) Hok' Hl (zlen line) ltac:(lia)) as [_ Hmsg].
  assert (Hll' : zlen l = MSIZE - zlen line) by (rewrite Haddr, zlen_app in Ha; lia).
  assert (Hsm : shown s m = mk_mon (line ++ l) (fd m) (pid m) (zlen line) 0).
  { unfold shown, log. fold line. rewrite Hw, Z.max_id, header_exact, Haddr, Hfirst by (unfold MON_MSGLEN_MAX; lia).
    rewrite zdrop_app_r, Z.sub_diag, zdrop_0 by lia. by rewrite ztake_all by lia. }
  rewrite Hsm in *. cbn [max_statl dbg_first addr fd pid] in *. eexists. split; [by apply Hmsg|]. split; [done|].
  unfold shows, log. cbn [max_statl dbg_first addr fd pid]. fold line.
  rewrite ztake_app_l, ztake_all by lia. rewrite zdrop_app_r, Z.sub_diag, zdrop_0 by lia.
  split_and!; try done. unfold mon_ok in *. cbn [max_statl addr fd pid] in *. split_and!; try done; try lia.
  rewrite zlen_app, zlen_ztake; [lia|]. rewrite zlen_app. pose proof (zlen_nonneg (message now d)).
  unfold MSIZE in *. lia.
Qed.

Lemma mon_run_history s : forall msgs l m, shows s l m ->
  Forall (fun x => zlen (message x.1 x.2) < MON_MSGLEN_MAX) msgs ->
  exists m', mon_run s msgs m = Some m' /\ pid m' = pid m /\
    shows s (history (MSIZE - zlen (stat_line (pid m) s)) msgs l) m'.
Proof.
  induction msgs as [|[now d] msgs IH]; intros l m Hs Hl; [by exists m|].
  apply Forall_cons in Hl as [Hd Hl]. cbn [mon_run history fst snd] in *.
  destruct (mon_update_next s now d l m Hs Hd) as (m1 & -> & Hp & Hs1). cbn [mbind option_bind snd].
  destruct (IH _ _ Hs1 Hl) as (m2 & -> & Hp2 & Hs2). exists m2. rewrite <- Hp in *. done.
Qed.

(** The first message overwrites the blank file. *)
Lemma mon_update_first s now d p fdn : 0 <= p < 2 ^ 31 -> 0 <= fdn -> zlen (message now d) < MON_MSGLEN_MAX ->
  let blank := replicate (Z.to_nat MSIZE) Byte.x0d in
  exists m, mon_update (Some s) now (Some d) (mk_mon blank fdn p 0 1) = Some (0, m) /\ pid m = p /\
    shows s (ztake (MSIZE - zlen (stat_line p s)) (message now d ++ blank)) m.
Proof.
  intros Hp Hf Hl blank. set (m0 := mk_mon blank fdn p 0 1). set (line := stat_line p s).
  assert (Hok : mon_ok m0) by (unfold mon_ok; cbn [addr fd pid max_statl m0]; split_and!; (done || lia)).
  pose proof (stat_line_len p s Hp) as Hll. fold line in Hll.
  rewrite mon_update_shows by done. cbn [pid m0]. fold line.
  destruct (mon_message_logs now d (shown s m0) (shown_ok s m0 Hok) Hl (zlen line) ltac:(lia)) as [Hmsg _].
  assert (Hsm : shown s m0 = mk_mon (line ++ replicate (Z.to_nat (MSIZE - zlen line)) Byte.x0d) fdn p (zlen line) 1).
  { unfold shown, log. cbn [pid max_statl addr fd dbg_first m0]. fold line.
    rewrite Z.max_r, header_exact, zdrop_0 by (unfold MON_MSGLEN_MAX; lia). do 2 f_equal.
    unfold ztake, blank. rewrite take_replicate. f_equal. unfold MSIZE. lia. }
  rewrite Hsm in *. cbn [max_statl dbg_first addr fd pid] in *. eexists. split; [by apply Hmsg|]. split; [done|].
  unfold log. cbn [max_statl addr]. rewrite (ztake_app_l (zlen line) line), (ztake_all (zlen line) line) by lia.
  rewrite (zdrop_app_r (zlen line) line), Z.sub_diag, zdrop_0 by lia.
  pose proof (zlen_nonneg (message now d)). set (msg := message now d) in *.
  assert (Heq : msg ++ zdrop (zlen msg) (replicate (Z.to_nat (MSIZE - zlen line)) Byte.x0d) =
    ztake (MSIZE - zlen line) (msg ++ blank)).
  { rewrite ztake_app_r by (unfold MSIZE, MON_MSGLEN_MAX in *; lia). f_equal. unfold blank, zdrop, ztake.
    rewrite drop_replicate, take_replicate. f_equal. unfold MSIZE, MON_MSGLEN_MAX in *. lia. }
  rewrite Heq. unfold shows. cbn [max_statl dbg_first addr fd pid]. fold line.
  split_and!; try done. unfold mon_ok. cbn [max_statl addr fd pid]. split_and!; try done; try (unfold MON_MSGLEN_MAX; lia).
  rewrite zlen_app, zlen_ztake; [lia|]. rewrite zlen_app. change (zlen blank) with 2048. unfold MSIZE. lia.
Qed.

(** The monitor file as long as the state stays the same and the messages fit
    the buffer: after mapping the file and any messages, it is the line of the
    state followed by the messages, the newest first, as far as they fit into
    [MSIZE] bytes; no access leaves the mapping. *)
Theorem monitor_history s now d msgs name p fdn m0 :
  0 <= p < 2 ^ 31 -> 0 <= fdn ->
  Forall (fun x => zlen (message x.1 x.2) < MON_MSGLEN_MAX) ((now, d) :: msgs) ->
  let '(r, m, on) := mon_init (Some name) p fdn true m0 in
  r = 0 /\ on = true /\ exists m', mon_run s ((now, d) :: msgs) m = Some m' /\
    addr m' = stat_line p s ++
      history (MSIZE - zlen (stat_line p s)) ((now, d) :: msgs) (replicate (Z.to_nat MSIZE) Byte.x0d).
Proof.
  intros Hp Hf [Hd Hl]%Forall_cons. unfold mon_init. rewrite (proj2 (Z.ltb_ge _ _) Hf). cbn [negb].
  split_and!; [done..|]. cbn [mon_run history fst snd] in *.
  destruct (mon_update_first s now d p fdn Hp Hf Hd) as (m1 & -> & Hp1 & Hs1). cbn [mbind option_bind snd].
  destruct (mon_run_history s msgs _ _ Hs1 Hl) as (m2 & Hrun & Hp2 & (_ & _ & _ & Haddr)).
  exists m2. split; [done|]. rewrite Haddr. congruence.
Qed.

(** C32: Where the monitor leaves its memory.  Once a longer state line has been
    shown, a further message in a state with a shorter name moves the log with a
    length that is computed from the shorter line, and writes behind the
    mapping; and a message that does not fit the buffer is copied with its whole
    length, from behind the buffer. *)
Theorem mon_update_overruns s now d m :
  mon_ok m -> zlen (message now d) + 160 < MSIZE ->
  (dbg_first m = 0 /\ zlen (stat_line (pid m) s) < max_statl m) \/ MON_MSGLEN_MAX < zlen (message now d) ->
  0 < zlen now < MON_MSGLEN_MAX ->
  mon_update (Some s) now (Some d) m = None.
Proof.
  intros Hok Hfit Hbad Hnow. rewrite mon_update_shows by done.
  pose proof (shown_ok s m Hok) as (Ha & _ & _ & Hw). pose proof Hok as (_ & _ & Hp & Hm).
  pose proof (stat_line_len (pid m) s Hp) as Hll. set (line := stat_line (pid m) s) in *.
  assert (Hmax : max_statl (shown s m) = Z.max (max_statl m) (zlen line)) by done.
  assert (Hfst : dbg_first (shown s m) = dbg_first m) by done. revert Ha Hw Hmax Hfst. generalize (shown s m).
  intros m1 Ha Hw Hmax Hfst. unfold message in *. rewrite zlen_app in *.
  set (text := CUTTER ++ d ++ [Byte.x0a]) in *.
  unfold mon_message, time2str. rewrite (proj2 (Z.leb_le _ _)) by lia.
  destruct (store 0 _ blanks) as [t|] eqn:Et; [|done]. cbn [mbind option_bind fst snd]. fold text.
  destruct (snprintf _ _ _ t) as [[n tmp]|] eqn:Es; [|done]. cbn [mbind option_bind fst snd].
  assert (Htmp : n = zlen text /\ zlen tmp = MON_MSGLEN_MAX).
  { apply store_zlen in Et. rewrite blanks_len in Et. unfold snprintf in Es. case_if in Es; [by simplify_eq|].
    apply bind_Some in Es as (t' & Hst%store_zlen & [= <- <-]). split; [done|]. lia. }
  destruct Htmp as [-> Htl]. unfold MSIZE, MON_MSGLEN_MAX in *. rewrite (proj2 (Z.leb_gt _ _)) by lia.
  destruct Hbad as [[H0 Hlt]|Hlong].
  - rewrite Hfst, H0. change (truthy 0) with false. cbn [negb]. unfold memmove.
    destruct (load (max_statl m1) _ (addr m1)) as [x|] eqn:Ex; [|done]. cbn [mbind option_bind].
    apply load_zlen in Ex. unfold store. rewrite (proj2 (andb_false_iff _ _)); [done|]. right. apply Z.leb_gt. lia.
  - destruct (if negb (truthy (dbg_first m1)) then _ else _) as [x|]; [|done]. cbn [mbind option_bind].
    unfold load. rewrite (proj2 (andb_false_iff _ _)); [done|]. right. apply Z.leb_gt. lia.
Qed.

Definition noon : list byte := lit "2024-01-01|12:00:00:".

Lemma monitor_history_witness :
  let msgs := [(noon, lit "a"); (noon, lit "connect timeout 5")] in
  let '(r, m, on) := mon_init (Some (lit "/tmp/advmon/advtty0")) 4711 3 true (mk_mon [] 0 0 0 0) in
  r = 0 /\ on = true /\ exists m', mon_run S_netdown msgs m = Some m' /\
    addr m' = stat_line 4711 S_netdown ++
      history (MSIZE - zlen (stat_line 4711 S_netdown)) msgs (replicate (Z.to_nat MSIZE) Byte.x0d).
Proof.
  apply (monitor_history S_netdown noon (lit "a") [(noon, lit "connect timeout 5")]); [lia|lia|].
  repeat (constructor; [vm_compute; reflexivity|]). constructor.
Defined.

(** Two messages, the second in a state with a shorter name. *)
Lemma mon_update_overruns_witness :
  let m := mk_mon (replicate (Z.to_nat MSIZE) Byte.x0d) 3 4711 (zlen (stat_line 4711 S_netdown)) 0 in
  mon_update (Some S_sync) noon (Some (lit "b")) m = None.
Proof.
  apply mon_update_overruns; [unfold mon_ok; vm_compute; intuition discriminate|vm_compute; reflexivity| |vm_compute; split; reflexivity].
  left. vm_compute. split; reflexivity.
Defined.
