(* ===== verification/MonitorAlt.v ===== *)
(** * The other monitors and the display of the stack

    [daemon/monitor/vcom_monitor.h] and [daemon/monitor/vcom_monitor_pre_stat.h],
    which [daemon/vcom.h] offers in place of [vcom_monitor_dbg.h]: a mapped file of
    128 bytes with one line, the second with the state before; and
    [daemon/monitor/vcom_debug.h], which prints the stack of states.

    An access outside of the mapping is a fault, [None]. *)

From S2P Require Import Prelude Text Os Vcom ClientProofs Monitor.

(** ** The line *)

Definition ALT_MSIZE : Z := 128.
Definition alt_zeros (n : Z) : list byte := replicate (Z.to_nat n) Byte.x00.

(** [memset] to zero; the length is a [size_t]. *)
Definition memset0 (off n : Z) (mem : list byte) : option (list byte) :=
  let n := n mod 2 ^ 64 in
  if (0 <=? off) && (off + n <=? zlen mem) then store off (alt_zeros n) mem else None.

(** What both files do with the line of the state and the message, whose end is
    [tail]: the result and the memory. *)
Definition show_line (line tail : list byte) (dbg : option (list byte)) (mem : list byte) : option (Z * list byte) :=
  p ← snprintf 0 ALT_MSIZE line mem;
  let msgl := fst p in
  let len := ALT_MSIZE - msgl in
  if len <=? 1 then Some (-1, snd p) else
  q ← match dbg with
      | None => Some (msgl, snd p)
      | Some dbg => q ← snprintf msgl len (lit "| E : " ++ dbg ++ tail) (snd p); Some (msgl + fst q, snd q)
      end;
  let msgl := fst q in
  let len := ALT_MSIZE - msgl in
  mem ← memset0 (msgl + 1) (len - 1) (snd q);
  Some (0, mem).

(** ** [vcom_monitor.h] *)

Record plain_monitor := mk_plain { pl_addr : list byte; pl_fd : Z; pl_pid : Z }.

(** A file that was truncated and extended holds zeros.  The flag says that
    [stk_mon] is set. *)
Definition plain_mon_init (fname : option (list byte)) (getpid opened : Z) (mapped : bool) (m : plain_monitor)
  : Z * plain_monitor * bool :=
  match fname with
  | None => (0, mk_plain [] (-1) (pl_pid m), false)
  | Some _ =>
      if opened <? 0 then (-1, mk_plain [] opened getpid, false) else
      if negb mapped then (-1, mk_plain [] 0 getpid, false) else
      (0, mk_plain (alt_zeros ALT_MSIZE) opened getpid, true)
  end.

Definition plain_line (pid : Z) (s : state_id) : list byte :=
  lit "Pid : " ++ dec pid ++ lit " | State : " ++ vc_name s ++ lit " ".

Definition plain_mon_update (stk : option state_id) (dbg : option (list byte)) (m : plain_monitor)
  : option (Z * plain_monitor) :=
  if pl_fd m <? 0 then Some (0, m) else
  match stk with
  | None => Some (-1, m)
  | Some s =>
      r ← show_line (plain_line (pl_pid m) s) (lit "   " ++ [Byte.x0a]) dbg (pl_addr m);
      Some (fst r, mk_plain (snd r) (pl_fd m) (pl_pid m))
  end.

(** ** [vcom_monitor_pre_stat.h] *)

Record pre_monitor := mk_pre { pr_addr : list byte; pr_fd : Z; pr_pid : Z; pre_stat : list byte }.

Definition pre_mon_init (fname : option (list byte)) (getpid opened : Z) (mapped : bool) (m : pre_monitor)
  : Z * pre_monitor * bool :=
  let pre := lit "NULL" in
  match fname with
  | None => (0, mk_pre [] (-1) (pr_pid m) pre, false)
  | Some _ =>
      if opened <? 0 then (-1, mk_pre [] opened getpid pre, false) else
      if negb mapped then (-1, mk_pre [] 0 getpid pre, false) else
      (0, mk_pre (alt_zeros ALT_MSIZE) opened getpid pre, true)
  end.

Definition pre_line (pid : Z) (pre : list byte) (s : state_id) : list byte :=
  lit "Pid : " ++ dec pid ++ lit " | State : " ++ pre ++ lit " -> " ++ vc_name s ++ lit " ".

(** [pre_stat] has 16 bytes; it is not set when the line does not fit. *)
Definition pre_mon_update (stk : option state_id) (dbg : option (list byte)) (m : pre_monitor)
  : option (Z * pre_monitor) :=
  if pr_fd m <? 0 then Some (0, m) else
  match stk with
  | None => Some (-1, m)
  | Some s =>
      r ← show_line (pre_line (pr_pid m) (pre_stat m) s) (lit "    " ++ [Byte.x0a]) dbg (pr_addr m);
      let pre := if fst r =? 0 then ztake 15 (vc_name s) else pre_stat m in
      Some (fst r, mk_pre (snd r) (pr_fd m) (pr_pid m) pre)
  end.

(** ** [vcom_debug.h] *)

Definition ALL_SPACE : Z := 12.
Definition blank (n : Z) : list byte := replicate (Z.to_nat n) Byte.x20.

(** What is printed; the name of a slot that was never set is a fault. *)
Definition _lineup (k : stk_vc) (fram count : Z) : option (list byte) :=
  name ← vc_name <$> mjoin (stk_stat k !! Z.to_nat count);
  Some (blank (Z.quot fram 2) ++ name ++ blank (Z.quot fram 2) ++
    (if negb (Z.rem fram 2 =? 0) then lit " " else [])).

(** The loop from [i] down to 0. *)
Fixpoint display_loop (n : nat) (k : stk_vc) (i : Z) : option (list byte) :=
  match n with
  | O => Some []
  | S n =>
      name ← vc_name <$> mjoin (stk_stat k !! Z.to_nat i);
      l ← _lineup k (ALL_SPACE - zlen name) i;
      r ← display_loop n k (i - 1);
      Some (lit "|" ++ l ++ lit "|" ++ [Byte.x0a] ++ r)
  end.

(** [now] is the time, as "%02d:%02d:%02d" shows it. *)
Definition stk_display (k : stk_vc) (func now : list byte) : option (list byte) :=
  if stk_empty k then Some (lit "stack empty ..." ++ [Byte.x0a]) else
  rows ← display_loop (Z.to_nat (top k + 1)) k (top k);
  Some (lit "Function : " ++ func ++ [Byte.x0a] ++ lit "Time : " ++ now ++ [Byte.x0a] ++
    lit "Stack :" ++ [Byte.x0a] ++ lit "|" ++ blank ALL_SPACE ++ lit "|" ++ [Byte.x0a] ++ rows ++
    replicate (Z.to_nat (ALL_SPACE + 3)) Byte.x2d ++ [Byte.x0a]).

(** ** What they show *)

(** A text in a mapping of zeros. *)
Definition shown (text : list byte) : list byte := text ++ alt_zeros (ALT_MSIZE - zlen text).
Definition alt_text (line tail : list byte) (dbg : option (list byte)) : list byte :=
  line ++ match dbg with Some dbg => lit "| E : " ++ dbg ++ tail | None => [] end.
Definition fits (text : list byte) : bool := zlen text <? ALT_MSIZE.

(** A text that is cut, and one that is not. *)
Lemma snprintf_cut off size s mem : 0 <= off -> 0 < size -> off + size = zlen mem -> zlen mem = ALT_MSIZE ->
  exists mem', snprintf off size s mem = Some (zlen s, mem') /\ zlen mem' = ALT_MSIZE /\
    (zlen s < size -> ztake (off + zlen s + 1) mem' = ztake off mem ++ s ++ [Byte.x00]).
Proof.
  intros Ho Hs He Hz. pose proof (zlen_nonneg s). unfold snprintf, ALT_MSIZE in *. rewrite Z.mod_small by lia.
  rewrite (proj2 (Z.eqb_neq _ _)) by lia.
  assert (Hc : zlen (ztake (size - 1) s ++ [Byte.x00]) <= size).
  { rewrite zlen_app. change (zlen [Byte.x00]) with 1. destruct (Z.le_gt_cases (zlen s) (size - 1)).
    - rewrite ztake_all by lia. lia.
    - rewrite zlen_ztake by lia. lia. }
  pose proof (zlen_nonneg (ztake (size - 1) s ++ [Byte.x00])).
  destruct (store off (ztake (size - 1) s ++ [Byte.x00]) mem) as [mem'|] eqn:Hst; [|by rewrite store_Some in Hst by lia].
  exists mem'. split; [done|]. pose proof (store_zlen _ _ _ _ Hst) as Hl. split; [lia|]. intros Hlt.
  rewrite ztake_all in * by lia. rewrite store_Some in Hst by lia. injection Hst as <-.
  assert (Hzt : zlen (ztake off mem) = off) by (apply zlen_ztake; lia).
  rewrite (app_assoc (ztake off mem)). assert (Hz1 : zlen (ztake off mem ++ s ++ [Byte.x00]) = off + zlen s + 1)
    by (rewrite !zlen_app; change (zlen [Byte.x00]) with 1; lia).
  rewrite ztake_app_l by lia. apply ztake_all. lia.
Qed.

Lemma memset0_tail n mem : zlen mem = ALT_MSIZE -> 0 <= n ->
  memset0 (n + 1) (ALT_MSIZE - n - 1) mem =
  if n <? ALT_MSIZE then Some (ztake (n + 1) mem ++ alt_zeros (ALT_MSIZE - n - 1)) else None.
Proof.
  intros Hz Hn. unfold memset0, ALT_MSIZE in *. rewrite Hz. rewrite (proj2 (Z.leb_le 0 _)) by lia. cbn [andb].
  destruct (Z.ltb_spec n 128).
  - rewrite Z.mod_small, (proj2 (Z.leb_le _ _)) by lia.
    assert (Hzz : zlen (alt_zeros (128 - n - 1)) = 128 - n - 1) by (unfold alt_zeros, zlen; rewrite length_replicate; lia).
    rewrite store_Some by lia. rewrite Hzz. f_equal. f_equal. rewrite zdrop_all by lia. by rewrite app_nil_r.
  - rewrite (proj2 (Z.leb_gt _ _)); [done|]. pose proof (Z.mod_pos_bound (128 - n - 1) (2 ^ 64)).
    assert ((128 - n - 1) mod 2 ^ 64 >= 0) by lia. lia.
Qed.

Lemma alt_zeros_S n : 0 <= n -> [Byte.x00] ++ alt_zeros n = alt_zeros (n + 1).
Proof. intros Hn. unfold alt_zeros. by rewrite Z2Nat.inj_add, Nat.add_comm by lia. Qed.

(** The file shows the text and zeros behind it; a text that is as long as the
    mapping or longer makes [memset] write behind it. *)
Lemma show_line_exact line tail dbg mem :
  zlen mem = ALT_MSIZE -> zlen line < ALT_MSIZE - 1 ->
  show_line line tail dbg mem =
  let text := alt_text line tail dbg in if fits text then Some (0, shown text) else None.
Proof.
  intros Hz Hl. pose proof (zlen_nonneg line). cbv zeta. unfold show_line.
  destruct (snprintf_cut 0 ALT_MSIZE line mem) as (m1 & -> & Hz1 & Ht1); [done|done|by rewrite Hz|done|].
  assert (Hm1 : ztake (zlen line + 1) m1 = line ++ [Byte.x00]) by (apply Ht1; lia).
  assert (Hline : ztake (zlen line) m1 = line).
  { rewrite <- (ztake_zdrop (zlen line + 1) m1), Hm1, <- app_assoc, ztake_app_l by lia. by apply ztake_all. }
  cbn [mbind option_bind fst snd]. rewrite (proj2 (Z.leb_gt _ _)) by lia.
  assert (Hfin : forall text m2, zlen m2 = ALT_MSIZE -> (fits text = true -> ztake (zlen text + 1) m2 = text ++ [Byte.x00]) ->
    (mem ← memset0 (zlen text + 1) (ALT_MSIZE - zlen text - 1) m2; Some (0, mem)) =
    if fits text then Some (0, shown text) else None).
  { intros text m2 Hz2 Ht. pose proof (zlen_nonneg text). rewrite memset0_tail by done. unfold fits in *.
    destruct (zlen text <? ALT_MSIZE) eqn:E; [|done]. cbn [mbind option_bind]. bool_simpl.
    rewrite Ht, <- app_assoc, alt_zeros_S by (done || lia). unfold shown. by rewrite Z.sub_simpl_r. }
  destruct dbg as [d|]; unfold alt_text.
  - set (s := lit "| E : " ++ d ++ tail). pose proof (zlen_nonneg s).
    destruct (snprintf_cut (zlen line) (ALT_MSIZE - zlen line) s m1) as (m2 & -> & Hz2 & Ht2); [lia|lia|lia|done|].
    cbn [mbind option_bind fst snd]. rewrite <- zlen_app. apply Hfin; [done|]. intros Hf. unfold fits in Hf. bool_simpl.
    rewrite zlen_app in *. rewrite Ht2, Hline, app_assoc by lia. done.
  - cbn [mbind option_bind fst snd]. rewrite app_nil_r. by apply Hfin.
Qed.

(** ** Whole runs *)

Definition plain_ok (m : plain_monitor) : Prop :=
  zlen (pl_addr m) = ALT_MSIZE /\ 0 <= pl_fd m /\ 0 <= pl_pid m < 2 ^ 31.
Definition pre_ok (m : pre_monitor) : Prop :=
  zlen (pr_addr m) = ALT_MSIZE /\ 0 <= pr_fd m /\ 0 <= pr_pid m < 2 ^ 31 /\ zlen (pre_stat m) <= 15.

Lemma vc_name_len s : 0 < zlen (vc_name s) <= 8.
Proof. by destruct s. Qed.

Lemma plain_line_len pid s : 0 <= pid < 2 ^ 31 -> zlen (plain_line pid s) < ALT_MSIZE - 1.
Proof.
  intros Hp%dec_len. pose proof (vc_name_len s). unfold plain_line. rewrite !zlen_app.
  change (zlen (lit "Pid : ")) with 6. change (zlen (lit " | State : ")) with 11. change (zlen (lit " ")) with 1.
  unfold ALT_MSIZE. lia.
Qed.

Lemma pre_line_len pid pre s : 0 <= pid < 2 ^ 31 -> zlen pre <= 15 -> zlen (pre_line pid pre s) < ALT_MSIZE - 1.
Proof.
  intros Hp%dec_len Hl. pose proof (vc_name_len s). unfold pre_line. rewrite !zlen_app.
  change (zlen (lit "Pid : ")) with 6. change (zlen (lit " | State : ")) with 11. change (zlen (lit " ")) with 1.
  change (zlen (lit " -> ")) with 4. unfold ALT_MSIZE. lia.
Qed.

(** The updates of a run, each with the state on top and the message. *)
Fixpoint pre_run (m : pre_monitor) (l : list (state_id * option (list byte))) : option pre_monitor :=
  match l with
  | [] => Some m
  | (s, dbg) :: l => r ← pre_mon_update (Some s) dbg m; pre_run (snd r) l
  end.

Fixpoint pre_texts (pid : Z) (pre : list byte) (l : list (state_id * option (list byte))) : list (list byte) :=
  match l with
  | [] => []
  | (s, dbg) :: l => alt_text (pre_line pid pre s) (lit "    " ++ [Byte.x0a]) dbg :: pre_texts pid (vc_name s) l
  end.

Lemma shown_len text : fits text = true -> zlen (shown text) = ALT_MSIZE.
Proof.
  unfold fits, shown. intros Hf. bool_simpl. pose proof (zlen_nonneg text). rewrite zlen_app.
  unfold alt_zeros, zlen at 2. rewrite length_replicate. lia.
Qed.

Lemma pre_run_shows l : forall m, pre_ok m ->
  pre_run m l =
  let texts := pre_texts (pr_pid m) (pre_stat m) l in
  if forallb fits texts
  then Some (mk_pre (default (pr_addr m) (shown <$> last texts)) (pr_fd m) (pr_pid m)
               (default (pre_stat m) (vc_name ∘ fst <$> last l)))
  else None.
Proof.
  induction l as [|[s dbg] l IH]; intros m (Hz & Hfd & Hp & Hl); [by destruct m|].
  cbn [pre_run pre_texts]. cbv zeta. unfold pre_mon_update. rewrite (proj2 (Z.ltb_ge _ _)) by lia.
  rewrite show_line_exact by (done || by apply pre_line_len). cbv zeta.
  set (text := alt_text _ _ _). cbn [forallb]. destruct (fits text) eqn:Hf; cbn [mbind option_bind andb]; [|done].
  cbn [fst snd]. change (0 =? 0) with true. cbv iota. pose proof (vc_name_len s).
  rewrite ztake_all by lia. rewrite IH by (split_and!; simpl; [by apply shown_len|done|lia..]). cbn [pr_pid pre_stat pr_addr pr_fd].
  cbv zeta. destruct (forallb fits _); [|done]. do 2 f_equal; [|by rewrite last_cons; destruct (last l)].
  rewrite last_cons. by destruct (last (pre_texts _ _ l)).
Qed.

(** The other monitors show what they mean to.  The file of
    [vcom_monitor.h] holds the process, the state and the message, and zeros behind
    them; that of [vcom_monitor_pre_stat.h], over any sequence of updates, the last
    state and the one before it, NULL at first.  Both write behind the mapping
    exactly when a text is as long as the mapping or longer. *)
Theorem alt_monitors_show p s dbg m l :
  plain_ok p -> pre_ok m ->
  (let text := alt_text (plain_line (pl_pid p) s) (lit "   " ++ [Byte.x0a]) dbg in
   plain_mon_update (Some s) dbg p =
   if fits text then Some (0, mk_plain (shown text) (pl_fd p) (pl_pid p)) else None) /\
  (let texts := pre_texts (pr_pid m) (pre_stat m) l in
   pre_run m l =
   if forallb fits texts
   then Some (mk_pre (default (pr_addr m) (shown <$> last texts)) (pr_fd m) (pr_pid m)
                (default (pre_stat m) (vc_name ∘ fst <$> last l)))
   else None).
Proof.
  intros (Hz & Hfd & Hp) Hm. split; [|by apply pre_run_shows]. unfold plain_mon_update.
  rewrite (proj2 (Z.ltb_ge _ _)) by lia. rewrite show_line_exact by (done || by apply plain_line_len). cbv zeta.
  by destruct (fits _).
Qed.

Lemma alt_monitors_show_witness :
  let m := snd (fst (pre_mon_init (Some (lit "/tmp/m")) 42 3 true (mk_pre [] 0 0 []))) in
  let p := snd (fst (plain_mon_init (Some (lit "/tmp/m")) 42 3 true (mk_plain [] 0 0))) in
  plain_mon_update (Some S_idle) (Some (replicate 100 Byte.x61)) p = None /\
  (exists m', pre_run m [(S_netdown, None); (S_netup, Some (lit "up"))] = Some m' /\
    is_prefix (lit "Pid : 42 | State : Net Down -> Net Up | E : up") (pr_addr m') = true).
Proof.
  cbv zeta. destruct (alt_monitors_show (mk_plain (alt_zeros ALT_MSIZE) 3 42) S_idle (Some (replicate 100 Byte.x61))
    (mk_pre (alt_zeros ALT_MSIZE) 3 42 (lit "NULL")) [(S_netdown, None); (S_netup, Some (lit "up"))]) as [H1 H2];
    [by vm_compute|by vm_compute|].
  split; [exact H1|]. eexists. split; [exact H2|]. vm_compute. reflexivity.
Defined.

(** The stack is shown from the top, each name in a box of [ALL_SPACE]. *)
Definition box (s : state_id) : list byte :=
  let fram := ALL_SPACE - zlen (vc_name s) in
  blank (fram / 2) ++ vc_name s ++ blank (fram - fram / 2).

Lemma lineup_box k s i : mjoin (stk_stat k !! Z.to_nat i) = Some s ->
  _lineup k (ALL_SPACE - zlen (vc_name s)) i = Some (box s) /\ zlen (box s) = ALL_SPACE.
Proof. intros E. unfold _lineup. rewrite E. by destruct s. Qed.

Lemma display_loop_rows k l : stack_is k l -> forall n, (n <= length l)%nat ->
  display_loop n k (Z.of_nat n - 1) = Some (concat (map (fun s => lit "|" ++ box s ++ lit "|" ++ [Byte.x0a]) (rev (take n l)))).
Proof.
  intros (_ & _ & _ & Hs). induction n as [|n IH]; intros Hn; [done|].
  destruct (lookup_lt_is_Some_2 l n) as [x Hx]; [lia|].
  assert (E : mjoin (stk_stat k !! Z.to_nat (Z.of_nat (S n) - 1)) = Some x).
  { replace (Z.to_nat (Z.of_nat (S n) - 1)) with n by lia. rewrite <- (lookup_take_lt (stk_stat k) (length l) n) by lia.
    by rewrite Hs, list_lookup_fmap, Hx. }
  cbn [display_loop]. rewrite E. cbn [fmap option_fmap option_map mbind option_bind].
  rewrite (proj1 (lineup_box k x _ E)). cbn [mbind option_bind].
  replace (Z.of_nat (S n) - 1 - 1) with (Z.of_nat n - 1) by lia. rewrite IH by lia. cbn [mbind option_bind].
  rewrite (take_S_r l n x Hx), rev_unit. cbn [map concat]. by rewrite <- !app_assoc.
Qed.

Lemma stk_display_shows k l func now : stack_is k l -> l <> [] ->
  stk_display k func now = Some (lit "Function : " ++ func ++ [Byte.x0a] ++ lit "Time : " ++ now ++ [Byte.x0a] ++
    lit "Stack :" ++ [Byte.x0a] ++ lit "|" ++ blank ALL_SPACE ++ lit "|" ++ [Byte.x0a] ++
    concat (map (fun s => lit "|" ++ box s ++ lit "|" ++ [Byte.x0a]) (rev l)) ++
    replicate 15 Byte.x2d ++ [Byte.x0a]).
Proof.
  intros Hk Hl. pose proof Hk as (Ht & _). unfold stk_display, stk_empty. rewrite Ht. unfold zlen.
  rewrite (proj2 (Z.ltb_ge _ _)) by (destruct l; [done|simpl; lia]). rewrite Z.sub_add, Nat2Z.id.
  rewrite (display_loop_rows k l Hk) by done. cbn [mbind option_bind]. by rewrite take_ge by done.
Qed.
