(* ===== verification/StkMon.v ===== *)
(** * The stack and its monitor

    The operations on the stack of states of [daemon/vcom.h] together with the
    monitor they update, and the messages they show: [_stk_log], the text of
    [stk_excp], and the reason of a TLS failure, [ssl_errno_str] of
    [shared/ssl_select/ssl_select.c].

    The state Net Down is pushed first and has the longest line, and every message
    of an exception is shown in Net Down: that keeps the monitor within its file. *)

From S2P Require Import Prelude Text Os SslSelect Vcom ClientProofs Monitor.

(** ** Messages *)

(** The result and the buffer; the reason is OpenSSL's text for the error. *)
Definition X509_V_OK : Z := 0.
Definition show_x509_err_str (v_err : Z) (reason : list byte) (off len : Z) (buf : list byte) : option (Z * list byte) :=
  if negb (v_err =? X509_V_OK) then snprintf off len (lit "X509 error(" ++ dec v_err ++ lit "):" ++ reason) buf
  else Some (0, buf).

Definition SSL_ERROR_SYSCALL : Z := 5.
Definition SSL_ERROR_ZERO_RETURN : Z := 6.

(** [serror]: [strerror(errno)]; [reason]: the last error of OpenSSL's queue. *)
Definition ssl_errno_str (ssl_errno v_err : Z) (serror reason x509 : list byte) (buf : list byte) (buflen : Z)
  : option (Z * list byte) :=
  if ssl_errno =? SSL_ERROR_WANT_READ then snprintf 0 buflen (lit "SSL wait on read") buf
  else if ssl_errno =? SSL_ERROR_WANT_WRITE then snprintf 0 buflen (lit "SSL wait on write") buf
  else if ssl_errno =? SSL_ERROR_ZERO_RETURN then snprintf 0 buflen (lit "SSL connection closed by peer") buf
  else if ssl_errno =? SSL_ERROR_SYSCALL then snprintf 0 buflen (lit "SSL syscall: " ++ serror) buf
  else
    p ← snprintf 0 buflen (lit "SSL error(" ++ dec ssl_errno ++ lit "):" ++ reason ++ lit ";") buf;
    q ← show_x509_err_str v_err x509 (fst p) (buflen - fst p) (snd p);
    Some (fst p + fst q, snd q).

(** The text of [_stk_log] in its array of 512 bytes, [form] being what the format
    and its arguments give. *)
Definition log_text (name form : list byte) : list byte := ztake 511 (lit "(" ++ name ++ lit ")" ++ form).

(** The text of [stk_excp] in its array of 256 bytes. *)
Definition _expmsg_extra (name func : list byte) (line : Z) (extra : list byte) : list byte :=
  ztake 255 (lit "(" ++ name ++ lit ")" ++ func ++ lit "," ++ dec line ++ lit ":" ++ extra).

(** ** The operations *)

(** What happens to the stack.  [now] is the time the monitor shows. *)
Inductive stk_event :=
  | V_push (x : state_id) | V_pop | V_rpls (x : state_id) | V_restart
  | V_excp (func : list byte) (line : Z) (extra now : list byte) | V_log (form now : list byte).

(** The state on top for the monitor: an entry that was never set is a fault. *)
Definition mon_top (k : stk_vc) : option (option state_id) :=
  if stk_empty k then Some None else Some <$> stk_slot k.

Section stack.
(** [stk_mon]: whether there is a monitor. *)
Context (stk_mon : bool).

Definition mon_update_check (k : stk_vc) (now : list byte) (dbg : option (list byte)) (m : vc_monitor) : option vc_monitor :=
  if stk_mon then t ← mon_top k; r ← mon_update t now dbg m; Some (snd r) else Some m.

(** The result, the stack and the monitor. *)
Definition stk_do (o : stk_event) (k : stk_vc) (m : vc_monitor) : option (Z * stk_vc * vc_monitor) :=
  match o with
  | V_push x =>
      if stk_full k then Some (-1, k, m) else
      k ← stk_write (top k + 1) x (set_top (top k + 1) k);
      m ← mon_update_check k [] None m; Some (0, k, m)
  | V_pop =>
      if stk_empty k then Some (-1, k, m) else
      let k := set_top (top k - 1) k in
      m ← mon_update_check k [] None m; Some (0, k, m)
  | V_rpls x =>
      k ← stk_write (top k) x k;
      m ← mon_update_check k [] None m; Some (0, k, m)
  | V_restart =>
      if stk_bot k then Some (-1, k, m) else
      let k := set_top 0 k in
      m ← mon_update_check k [] None m; Some (0, k, m)
  | V_excp func line extra now =>
      name ← (if 0 <=? top k then vc_name <$> stk_slot k else Some (lit "NULL"));
      let msg := _expmsg_extra name func line extra in
      if stk_bot k then Some (-1, k, m) else
      let k := set_top 0 k in
      m ← mon_update_check k now (Some msg) m; Some (0, k, m)
  | V_log form now =>
      name ← (if stk_empty k then None else vc_name <$> stk_slot k);
      let text := log_text name form in
      m ← mon_update_check k now (Some text) m;
      Some (zlen (lit "(" ++ name ++ lit ")" ++ form), k, m)
  end.

Fixpoint stk_run (os : list stk_event) (k : stk_vc) (m : vc_monitor) : option (stk_vc * vc_monitor) :=
  match os with
  | [] => Some (k, m)
  | o :: os => r ← stk_do o k m; stk_run os (snd (fst r)) (snd r)
  end.
End stack.

(** The stack is the one of the state machine. *)
Lemma stk_do_stack {W} on o (s : St W) m r k m' :
  stk_do on o (stk (at_ s)) m = Some (r, k, m') ->
  let after := mk_st (set_stk k (at_ s)) (world s) (pre_excp_t s) (rbuf s) in
  match o with
  | V_push x => stk_push x s = Ok r after
  | V_pop => stk_pop s = Ok r after
  | V_rpls x => stk_rpls x s = Ok r after
  | V_restart => stk_restart s = Ok r after
  | V_excp _ _ _ _ | V_log _ _ => True
  end.
Proof.
  assert (Hid : forall k0, stk (at_ s) = k0 -> mk_st (set_stk k0 (at_ s)) (world s) (pre_excp_t s) (rbuf s) = s)
    by (intros k0 <-; by destruct s as [[]]).
  destruct o; cbn [stk_do]; try done; unfold stk_push, stk_pop, stk_rpls, stk_restart, mbind, prog_bind, gets, modify, lift.
  - destruct (stk_full _); [intros [= <- <- <-]; by rewrite Hid|]. cbn [top set_top].
    destruct (stk_write _ _ _) as [k1|]; [|done]. cbn [option_bind].
    destruct (mon_update_check _ _ _ _ _); [|done]. by intros [= <- <- <-].
  - destruct (stk_empty _); [intros [= <- <- <-]; by rewrite Hid|].
    destruct (mon_update_check _ _ _ _ _); [|done]. by intros [= <- <- <-].
  - destruct (stk_write _ _ _) as [k1|]; [|done]. cbn [option_bind].
    destruct (mon_update_check _ _ _ _ _); [|done]. by intros [= <- <- <-].
  - destruct (stk_bot _); [intros [= <- <- <-]; by rewrite Hid|].
    destruct (mon_update_check _ _ _ _ _); [|done]. by intros [= <- <- <-].
Qed.

(** ** The stack and the file *)

(** The stack, bottom first, and the messages shown so far.  [None]: the event is
    not one the daemon performs, or its message does not fit the buffer. *)
Definition view : Type := list state_id * list (list byte * list byte).

Definition fits (now text : list byte) : bool := zlen (message now text) <? MON_MSGLEN_MAX.

Definition view_step (o : stk_event) (v : view) : option view :=
  let '(l, msgs) := v in
  x ← last l;
  match o with
  | V_push y => if (length l <? 4)%nat then Some (l ++ [y], msgs) else None
  | V_pop => if (2 <=? length l)%nat then Some (removelast l, msgs) else None
  | V_rpls y => if (2 <=? length l)%nat then Some (removelast l ++ [y], msgs) else None
  | V_restart => Some (take 1 l, msgs)
  | V_excp func line extra now =>
      let text := _expmsg_extra (vc_name x) func line extra in
      if (length l =? 1)%nat then Some (l, msgs)
      else if fits now text then Some (take 1 l, msgs ++ [(now, text)]) else None
  | V_log form now =>
      let text := log_text (vc_name x) form in
      if (length l =? 1)%nat && fits now text then Some (l, msgs ++ [(now, text)]) else None
  end.

Fixpoint view_run (os : list stk_event) (v : view) : option view :=
  match os with
  | [] => Some v
  | o :: os => v ← view_step o v; view_run os v
  end.

Definition blank : list byte := replicate (Z.to_nat MSIZE) Byte.x0d.

(** The width of the line of the state: the one of Net Down. *)
Definition width (p : Z) : Z := zlen (stat_line p S_netdown).

(** What the file holds: the line of the state on top, then the messages. *)
Definition page (p : Z) (x : state_id) (msgs : list (list byte * list byte)) : list byte :=
  header (width p) (stat_line p x) ++ history (MSIZE - width p) msgs (ztake (MSIZE - width p) blank).

Record mirrors (p : Z) (v : view) (k : stk_vc) (m : vc_monitor) : Prop := {
  M_stack : stack_is k v.1;
  M_bottom : head v.1 = Some S_netdown;
  M_ok : mon_ok m;
  M_pid : pid m = p;
  M_width : max_statl m = width p;
  M_first : dbg_first m <> 0 -> v.2 = [];
  M_page : exists x, last v.1 = Some x /\ addr m = page p x v.2;
}.

Lemma width_widest p s : zlen (stat_line p s) <= width p.
Proof.
  unfold width, stat_line. rewrite !zlen_app.
  assert (zlen (vc_name s) <= zlen (vc_name S_netdown)) by (by destruct s). lia.
Qed.

Lemma history_snoc room now d : forall msgs old,
  history room (msgs ++ [(now, d)]) old = ztake room (message now d ++ history room msgs old).
Proof. induction msgs as [|[a b] msgs IH]; intros old; cbn [app history]; [done|apply IH]. Qed.

Lemma history_len room : forall msgs old, 0 <= room -> zlen old = room -> zlen (history room msgs old) = room.
Proof.
  induction msgs as [|[a b] msgs IH]; intros old Hr Ho; cbn [history]; [done|]. apply IH; [done|].
  apply zlen_ztake. rewrite zlen_app. pose proof (zlen_nonneg (message a b)). lia.
Qed.

(** *** The stack *)

Lemma stack_top k l x : stack_is k l -> last l = Some x ->
  stk_empty k = false /\ stk_slot k = Some x /\ top k = zlen l - 1 /\ mon_top k = Some (Some x).
Proof.
  intros Hk (l' & ->)%last_Some. pose proof (stack_slot _ _ _ Hk) as Hs. destruct Hk as (Ht & _).
  assert (He : stk_empty k = false).
  { unfold stk_empty. apply Z.ltb_ge. rewrite Ht, zlen_app. unfold zlen. simpl. lia. }
  unfold mon_top. by rewrite He, Hs.
Qed.

Lemma stack_put k l i x : stack_is k l -> (i <= length l)%nat -> (i <= 3)%nat ->
  exists k', stk_write (Z.of_nat i) x (set_top (Z.of_nat i) k) = Some k' /\ stack_is k' (take i l ++ [x]).
Proof.
  intros (Ht & Hlen & H4 & Hs) Hi H3. unfold stk_write, STACK_MAX, set_top. cbn [top stk_stat].
  rewrite (proj2 (andb_true_iff _ _)) by (rewrite Z.leb_le, Z.ltb_lt; lia). rewrite Nat2Z.id.
  eexists. split; [done|]. unfold stack_is. cbn [top stk_stat].
  rewrite zlen_app, length_insert, length_app. unfold zlen. rewrite length_take, Nat.min_l by lia. simpl.
  split_and!; [lia|done|lia|]. rewrite fmap_app, fmap_take, <- Hs, take_take, Nat.min_l by lia.
  rewrite Nat.add_1_r, (take_S_r _ _ (Some x)) by (by rewrite list_lookup_insert_eq by lia).
  by rewrite take_insert_ge by lia.
Qed.

Lemma stack_cut k l n : stack_is k l -> (n <= length l)%nat -> stack_is (set_top (Z.of_nat n - 1) k) (take n l).
Proof.
  intros (Ht & Hlen & H4 & Hs) Hn. unfold stack_is, zlen. cbn [top stk_stat set_top].
  rewrite length_take, Nat.min_l by lia. split_and!; [done|done|lia|].
  by rewrite fmap_take, <- Hs, take_take, Nat.min_l by lia.
Qed.

(** *** The file *)

Lemma width_bounds p : 0 <= p < 2 ^ 31 -> 0 < width p <= 31.
Proof. apply stat_line_len. Qed.

Lemma page_parts p x msgs : 0 <= p < 2 ^ 31 ->
  zlen (page p x msgs) = MSIZE /\ ztake (width p) (page p x msgs) = header (width p) (stat_line p x) /\
  zdrop (width p) (page p x msgs) = history (MSIZE - width p) msgs (ztake (MSIZE - width p) blank).
Proof.
  intros Hp. pose proof (width_bounds p Hp) as Hw. pose proof (zlen_nonneg (stat_line p x)).
  assert (Hh : zlen (header (width p) (stat_line p x)) = width p) by (apply header_len; unfold MON_MSGLEN_MAX; lia).
  assert (zlen blank = MSIZE) by done. unfold page. split_and!.
  - rewrite zlen_app, Hh, history_len; [lia|unfold MSIZE; lia|]. apply zlen_ztake. unfold MSIZE in *. lia.
  - rewrite ztake_app_l, ztake_all by lia. done.
  - by rewrite zdrop_app_r, Hh, Z.sub_diag, zdrop_0 by lia.
Qed.

(** The operations leave the file descriptor alone. *)
Lemma shown_page s p v k m : mirrors p v k m ->
  shown s m = mk_mon (page p s v.2) (fd m) p (width p) (dbg_first m).
Proof.
  intros [Hk _ Hok Hp Hw _ (x & _ & Ha)]. pose proof Hok as (_ & _ & Hr & _). rewrite Hp in Hr.
  destruct (page_parts p x v.2 Hr) as (Hl & _ & Hd). pose proof (width_bounds p Hr). pose proof (width_widest p s).
  unfold shown, log. rewrite Hp, Hw, Ha, Hd, Z.max_l by lia. f_equal. unfold page. f_equal.
  apply ztake_all. rewrite <- Hd, zlen_zdrop; unfold MSIZE in *; lia.
Qed.

Lemma message_page p v k m now d : mirrors p v k m -> zlen (message now d) < MON_MSGLEN_MAX ->
  mon_message now d (width p) (shown S_netdown m) =
  Some (0, mk_mon (page p S_netdown (v.2 ++ [(now, d)])) (fd m) p (width p) 0).
Proof.
  intros HM Hd. pose proof (shown_ok S_netdown m (M_ok _ _ _ _ HM)) as Hok. rewrite (shown_page S_netdown p v k m HM) in *.
  pose proof HM as [_ _ (_ & _ & Hr & _) Hp _ Hfirst _]. rewrite Hp in Hr. pose proof (width_bounds p Hr) as Hw.
  destruct (page_parts p S_netdown v.2 Hr) as (Hl & Ht & Hdrop).
  destruct (mon_message_logs now d _ Hok Hd (width p) ltac:(lia)) as [Hf Hn].
  unfold log in *. cbn [max_statl dbg_first addr fd pid] in *. rewrite Ht, Hdrop in *.
  destruct (decide (dbg_first m = 0)) as [E|E]; [rewrite Hn by done; unfold page; by rewrite history_snoc|].
  rewrite Hf by done. unfold page. rewrite history_snoc, (Hfirst E). cbn [history]. do 3 f_equal. f_equal.
  pose proof (zlen_nonneg (message now d)). unfold MON_MSGLEN_MAX in *.
  rewrite ztake_app_r by (unfold MSIZE; lia). f_equal. unfold blank, zdrop, ztake.
  rewrite take_replicate, drop_replicate, take_replicate. f_equal. unfold MSIZE in *. lia.
Qed.

(** An update in the state on top of the new stack. *)
Lemma mirrors_update p v k m l k' x now : mirrors p v k m ->
  stack_is k' l -> head l = Some S_netdown -> last l = Some x ->
  exists m', mon_update_check true k' now None m = Some m' /\ mirrors p (l, v.2) k' m'.
Proof.
  intros HM Hk Hb Hx. unfold mon_update_check. destruct (stack_top _ _ _ Hk Hx) as (_ & _ & _ & ->).
  cbn [mbind option_bind]. rewrite mon_update_shows by apply HM. cbn [mbind option_bind snd]. eexists. split; [done|].
  pose proof (shown_ok x m (M_ok _ _ _ _ HM)) as Hok. rewrite (shown_page x p v k m HM) in *.
  constructor; cbn [max_statl dbg_first addr pid fst snd]; try done; [apply HM|by exists x].
Qed.

(** A message in Net Down. *)
Lemma mirrors_message p v k m k' now d : mirrors p v k m ->
  stack_is k' [S_netdown] -> fits now d = true ->
  exists m', mon_update_check true k' now (Some d) m = Some m' /\ mirrors p ([S_netdown], v.2 ++ [(now, d)]) k' m'.
Proof.
  intros HM Hk Hd%Z.ltb_lt. unfold mon_update_check. destruct (stack_top _ _ S_netdown Hk eq_refl) as (_ & _ & _ & ->).
  cbn [mbind option_bind]. rewrite mon_update_shows by apply HM. rewrite (M_pid _ _ _ _ HM). fold (width p).
  rewrite (message_page p v k m now d HM Hd). cbn [mbind option_bind snd]. eexists. split; [done|].
  pose proof HM as [_ _ (_ & Hf & Hr & _) Hp _ _ _]. rewrite Hp in Hr.
  pose proof (width_bounds p Hr). destruct (page_parts p S_netdown (v.2 ++ [(now, d)]) Hr) as (Hl & _).
  constructor; cbn [max_statl dbg_first addr pid fst snd]; try done; [|by exists S_netdown].
  unfold mon_ok, MON_MSGLEN_MAX. cbn [max_statl dbg_first addr pid fd]. split_and!; (done || lia).
Qed.

Lemma head_take {A} (l : list A) n : (0 < n)%nat -> head (take n l) = head l.
Proof. intros. destruct n; [lia|]. by destruct l. Qed.

Lemma head_snoc {A} (l : list A) x y : head l = Some y -> head (l ++ [x]) = Some y.
Proof. by destruct l. Qed.

Lemma removelast_take {A} (l : list A) : removelast l = take (length l - 1) l.
Proof. rewrite removelast_firstn_len. do 2 f_equal. lia. Qed.

Lemma last_take {A} (l : list A) n : (0 < n <= length l)%nat -> exists x, last (take n l) = Some x.
Proof.
  intros Hn. destruct (last (take n l)) eqn:E; [by eexists|]. apply last_None in E.
  apply (f_equal length) in E. rewrite length_take in E. simpl in E. lia.
Qed.

Lemma stk_do_mirrors p v k m o v' : mirrors p v k m -> view_step o v = Some v' ->
  exists r k' m', stk_do true o k m = Some (r, k', m') /\ mirrors p v' k' m'.
Proof.
  intros HM. pose proof HM as [Hk Hb _ _ _ _ _]. destruct v as [l msgs]. cbn [fst snd] in Hk, Hb.
  unfold view_step. destruct (last l) as [x|] eqn:Hx; [|done]. cbn [mbind option_bind].
  destruct (stack_top _ _ _ Hk Hx) as (He & Hs & Ht & _).
  assert (Hl : (1 <= length l)%nat) by (destruct l; [done|simpl; lia]). pose proof Hk as (_ & _ & H4 & _).
  assert (Hcut : stack_is (set_top 0 k) (take 1 l)) by (apply (stack_cut k l 1 Hk Hl)).
  assert (Hone : take 1 l = [S_netdown]) by (destruct l; by simplify_eq/=).
  assert (Hbot : stk_bot k = (length l =? 1)%nat).
  { unfold stk_bot, zlen in *. rewrite Ht. destruct (Nat.eqb_spec (length l) 1); [apply Z.eqb_eq|apply Z.eqb_neq]; lia. }
  destruct o as [y| |y| |func line extra now|form now]; cbn [stk_do].
  - destruct (Nat.ltb_spec (length l) 4); [|done]. intros [= <-].
    replace (top k + 1) with (Z.of_nat (length l)) by (unfold zlen in Ht; lia).
    destruct (stack_put k l (length l) y Hk ltac:(lia) ltac:(lia)) as (k' & -> & Hk').
    rewrite take_ge in Hk' by lia. unfold stk_full, STACK_MAX. rewrite (proj2 (Z.leb_gt _ _)) by (unfold zlen in Ht; lia).
    cbn [mbind option_bind].
    destruct (mirrors_update _ _ _ _ _ _ y [] HM Hk' (head_snoc _ _ _ Hb) (last_snoc _ _)) as (m' & -> & HM'). eauto.
  - destruct (Nat.leb_spec 2 (length l)); [|done]. intros [= <-]. rewrite He, removelast_take.
    replace (top k - 1) with (Z.of_nat (length l - 1) - 1) by (unfold zlen in Ht; lia).
    pose proof (stack_cut k l (length l - 1) Hk ltac:(lia)) as Hk'.
    destruct (last_take l (length l - 1) ltac:(lia)) as (y & Hy).
    destruct (mirrors_update _ _ _ _ _ _ y [] HM Hk' ltac:(rewrite head_take by lia; done) Hy) as (m' & -> & HM'). eauto.
  - destruct (Nat.leb_spec 2 (length l)); [|done]. intros [= <-]. rewrite removelast_take.
    destruct (stack_put k l (length l - 1) y Hk ltac:(lia) ltac:(lia)) as (k' & Hw & Hk').
    assert (Hset : set_top (Z.of_nat (length l - 1)) k = k)
      by (destruct k; unfold set_top; simpl in *; f_equal; unfold zlen in Ht; lia).
    rewrite Hset in Hw. replace (top k) with (Z.of_nat (length l - 1)) by (unfold zlen in Ht; lia). rewrite Hw.
    assert (Hb' : head (take (length l - 1) l ++ [y]) = Some S_netdown) by (apply head_snoc; rewrite head_take by lia; done).
    cbn [mbind option_bind].
    destruct (mirrors_update _ _ _ _ _ _ y [] HM Hk' Hb' (last_snoc _ _)) as (m' & -> & HM'). eauto.
  - intros [= <-]. rewrite Hbot. destruct (Nat.eqb_spec (length l) 1) as [E|E].
    + exists (-1), k, m. rewrite take_ge by lia. done.
    + rewrite Hone in *. destruct (mirrors_update _ _ _ _ _ _ S_netdown [] HM Hcut eq_refl eq_refl) as (m' & -> & HM'). eauto.
  - rewrite (proj2 (Z.leb_le _ _)) by (unfold zlen in Ht; lia). rewrite Hs, Hbot. cbn [fmap option_fmap option_map mbind option_bind].
    destruct (Nat.eqb_spec (length l) 1) as [E|E]; [intros [= <-]; eauto|].
    destruct (fits _ _) eqn:Hf; [|done]. intros [= <-]. rewrite Hone in *.
    destruct (mirrors_message _ _ _ _ _ now _ HM Hcut Hf) as (m' & -> & HM'). eauto.
  - rewrite He, Hs. cbn [fmap option_fmap option_map mbind option_bind].
    destruct (Nat.eqb_spec (length l) 1) as [E|E]; [|done]. destruct (fits _ _) eqn:Hf; [|done]. intros [= <-].
    rewrite take_ge in Hone by lia. rewrite Hone in *.
    destruct (mirrors_message _ _ _ _ _ now _ HM Hk Hf) as (m' & -> & HM'). eauto.
Qed.

Lemma stk_run_mirrors p : forall os v k m v', mirrors p v k m -> view_run os v = Some v' ->
  exists k' m', stk_run true os k m = Some (k', m') /\ mirrors p v' k' m'.
Proof.
  induction os as [|o os IH]; intros v k m v' HM Hv; cbn [view_run stk_run] in *; [simplify_eq; eauto|].
  apply bind_Some in Hv as (v1 & H1 & H2). destruct (stk_do_mirrors _ _ _ _ _ _ HM H1) as (r & k1 & m1 & -> & HM1).
  cbn [mbind option_bind fst snd]. eauto.
Qed.

Definition no_states : stk_vc := mk_stk (-1) (replicate (Z.to_nat STACK_MAX) None).

Lemma first_push_mirrors p fdn : 0 <= p < 2 ^ 31 -> 0 <= fdn ->
  exists r k m, stk_do true (V_push S_netdown) no_states (mk_mon blank fdn p 0 1) = Some (r, k, m) /\
    mirrors p ([S_netdown], []) k m.
Proof.
  intros Hp Hf. pose proof (width_bounds p Hp). set (m0 := mk_mon blank fdn p 0 1).
  assert (Hok : mon_ok m0) by (unfold mon_ok, MON_MSGLEN_MAX; cbn [max_statl addr pid fd m0]; split_and!; (done || lia)).
  assert (Hsm : shown S_netdown m0 = mk_mon (page p S_netdown []) fdn p (width p) 1).
  { unfold shown, log. cbn [pid max_statl addr fd dbg_first m0]. fold (width p). by rewrite Z.max_r, zdrop_0 by lia. }
  assert (Hk0 : stack_is no_states []) by (unfold stack_is; split_and!; (done || simpl; lia)).
  destruct (stack_put no_states [] 0 S_netdown Hk0 ltac:(lia) ltac:(lia)) as (k & Hw & Hk). cbn [take app] in Hk.
  unfold stk_do. change (stk_full no_states) with false. change (top no_states + 1) with (Z.of_nat 0). rewrite Hw.
  cbn [mbind option_bind]. unfold mon_update_check. destruct (stack_top k _ S_netdown Hk eq_refl) as (_ & _ & _ & ->).
  cbn [mbind option_bind]. rewrite mon_update_shows by done. cbn [mbind option_bind snd]. do 3 eexists. split; [done|].
  pose proof (shown_ok S_netdown m0 Hok) as Hok'. rewrite Hsm in *. constructor; cbn [max_statl dbg_first addr pid fst snd]; try done.
  by exists S_netdown.
Qed.


