(* ===== verification/ProcTools.v ===== *)
(** * The process tools and the starter

    [shared/proc_tools/proc_tools.c]: finding the daemon of a port by the inode of
    its control file, and reading the options of its command line;
    [initd/advttyd.c]: reading the configuration of the ports, comparing it with
    the daemons that run, and starting what is missing.

    A string of the C program is its bytes without the null byte where its buffer
    is never too small (the lengths are part of the theorems), and a buffer where
    it may be.  What the system does is the class [Host]. *)

From S2P Require Import Prelude Text.

(** ** The system *)

(** An entry of [/proc]: what reading [cmdline] gives, if it can be opened, and
    for each entry of [fd] the inode that [stat] reports. *)
Record proc := mk_proc {
  d_name : list byte;
  p_exists : bool;
  p_cmdline : option (list byte);
  p_fds : option (list (option Z));
}.

Class Host (H : Type) := {
  stat_ino : H -> list byte -> option Z;
  procs : H -> list proc;
  sys_kill : H -> Z -> H;
  sys_system : H -> list byte -> H;
}.

(** ** The process tools *)

(** The descriptors are searched for the inode. *)
Definition __pid_search_fd_inode (p : proc) (inode : Z) : Z :=
  match p_fds p with
  | None => -1
  | Some l => if existsb (fun st => bool_decide (st = Some inode)) l then 0 else -1
  end.

(** [read] of the file into the buffer: the bytes read, or -1, and the buffer;
    [cmdline] is what the file holds when it can be opened. *)
Definition __pidpath_get_cmd (cmdline : option (list byte)) (buf : list byte) : Z * list byte :=
  match cmdline with
  | None => (-1, buf)
  | Some c =>
      let d := ztake (zlen buf) c in
      (if zlen d <=? 0 then -1 else zlen d, d ++ zdrop (zlen d) buf)
  end.

(** A name that starts with a digit is a process. *)
Definition is_pid (name : list byte) : bool :=
  match name with b :: _ => is_digit b | [] => false end.

(** The result is -1, or 0 with the length of the command line and the process;
    the buffer holds the last command line that was read. *)
Fixpoint search_loop (cmd : list byte) (inode : Z) (l : list proc) (buf : list byte)
  : option (option (Z * Z) * list byte) :=
  match l with
  | [] => Some (None, buf)
  | p :: l =>
      if negb (is_pid (d_name p)) then search_loop cmd inode l buf else
      if negb (p_exists p) then search_loop cmd inode l buf else
      let '(cmdlen, buf) := __pidpath_get_cmd (p_cmdline p) buf in
      if cmdlen <=? 0 then search_loop cmd inode l buf else
      s ← str_at buf 0;
      match strstr s cmd with
      | None => search_loop cmd inode l buf
      | Some _ =>
          if __pid_search_fd_inode p inode =? 0
          then Some (Some (cmdlen, digits (d_name p) 0), buf)
          else search_loop cmd inode l buf
      end
  end.

Definition __cmd_inode_search_pid {H} `{Host H} (h : H) (cmd : list byte) (inode : Z) (buf : list byte) :=
  search_loop cmd inode (procs h) buf.

(** The position behind the option in the first argument that contains it, or in
    the next argument when the option is all of it. *)
Fixpoint get_opts_loop (fuel : nat) (cmd : list byte) (cmdlen i : Z) (opt : list byte)
  : option (option Z) :=
  match fuel with
  | O => None
  | S fuel =>
      s ← str_at cmd i;
      match strstr s opt with
      | Some off =>
          let ptr := i + off + zlen opt in
          Some (Some (if bool_decide (s = opt) then ptr + 1 else ptr))
      | None =>
          let i := i + zlen s + 1 in
          if i <? cmdlen then get_opts_loop fuel cmd cmdlen i opt else Some None
      end
  end.

Definition __cmd_get_opts (cmd : list byte) (cmdlen : Z) (opt : list byte) : option (option Z) :=
  get_opts_loop (S (Z.to_nat cmdlen)) cmd cmdlen 0 opt.

(** ** The configuration of the ports *)

Definition CF_MAXSTRLEN : Z := 32.
Definition INET6_ADDRSTRLEN : Z := 46.
Definition CF_MAXPORTS : Z := 256.
Definition CF_PORTPROG : list byte := lit "vcomd".
Definition CF_CONFNAME : list byte := lit "advttyd.conf".
Definition CF_SSLCONF : list byte := lit "ssl.json".
Definition MON_PATH : list byte := lit "/tmp/advmon".

Record TTYINFO := mk_tty {
  mpt_nameidx_str : list byte;
  dev_type_str : list byte;
  dev_ipaddr_str : list byte;
  dev_portidx_str : list byte;
  dev_redundant_ipaddr_str : list byte;
  has_redundant_ip : bool;
  dev_ssl : bool;
}.

(** [_safe_strcpy] into an array of [size] bytes. *)
Definition _safe_strcpy (size : Z) (s : list byte) : list byte := ztake (size - 1) s.

Definition sslkeyword : list byte := lit "ssl:".

(** One line: what it adds to the table, if anything. *)
Definition parse_line (conf_dp : list byte) : option TTYINFO :=
  match scan_words [31; 31; 45; 31; 45]%nat (cstr conf_dp) with
  | mpt :: ty :: ip :: port :: more =>
      if bool_decide (head mpt = Some Byte.x23) || (CF_MAXPORTS <? atoi mpt) then None else
      let ssl := (4 <? zlen ty) && is_prefix sslkeyword ty in
      let dev_type := if ssl then zdrop (zlen sslkeyword) ty else ty in
      if atoi port <=? 0 then None else
      Some (mk_tty (_safe_strcpy CF_MAXSTRLEN mpt) (_safe_strcpy CF_MAXSTRLEN dev_type)
              (_safe_strcpy INET6_ADDRSTRLEN ip) (_safe_strcpy CF_MAXSTRLEN port)
              (match more with r :: _ => _safe_strcpy INET6_ADDRSTRLEN r | [] => [] end)
              (match more with _ :: _ => true | [] => false end) ssl)
  | _ => None
  end.

Fixpoint config_loop (fuel : nat) (file : list byte) (nrport : Z) : option (list TTYINFO) :=
  match fuel with
  | O => None
  | S fuel =>
      if nrport <? CF_MAXPORTS then
        match file with
        | [] => Some []
        | _ =>
            let '(conf_dp, file) := fgets 255 file in
            match parse_line conf_dp with
            | None => config_loop fuel file nrport
            | Some t => l ← config_loop fuel file (nrport + 1); Some (t :: l)
            end
        end
      else Some []
  end.

(** The table; the result of the function is its length. *)
Definition paser_config (file : option (list byte)) : option (list TTYINFO) :=
  match file with
  | None => Some []
  | Some f => config_loop (S (length f)) f 0
  end.

(** ** Commands *)

(** The path of the monitor file, set for each port. *)
Definition mon (t : TTYINFO) : list byte := MON_PATH ++ lit "/advtty" ++ mpt_nameidx_str t.

Section starter.
Context (sslconf : list byte).

(** The text that [_create_syscmd] prints. *)
Definition syscmd_text (t : TTYINFO) : list byte :=
  CF_PORTPROG ++ lit " -l" ++ mon t ++ lit " -t" ++ mpt_nameidx_str t ++ lit " -d" ++ dev_type_str t ++
  lit " -a" ++ dev_ipaddr_str t ++ lit " -p" ++ dev_portidx_str t ++
  (if has_redundant_ip t then
     if dev_ssl t then lit " -r" ++ dev_redundant_ipaddr_str t ++ lit " -S" ++ sslconf
     else lit " -r" ++ dev_redundant_ipaddr_str t ++ lit " "
   else if dev_ssl t then lit " -S" ++ sslconf else lit " ").

Definition _create_syscmd (syscmd : list byte) (syscmdlen : Z) (t : TTYINFO) : option (Z * list byte) :=
  snprintf 0 syscmdlen (syscmd_text t) syscmd.

(** [val] is the new value, [None] for a null pointer. *)
Definition __opt_cmp (oldcmd : list byte) (oldcmdlen : Z) (opt : list byte) (val : option (list byte)) : option Z :=
  p ← __cmd_get_opts oldcmd oldcmdlen opt;
  _val ← match p with None => Some None | Some p => v ← str_at oldcmd p; Some (Some v) end;
  let strnlen v := match v with Some v => Z.min (zlen v) oldcmdlen | None => 0 end in
  let newoptlen := strnlen val in
  let oldoptlen := strnlen _val in
  let strcmplen := if oldoptlen <? newoptlen then newoptlen else oldoptlen in
  Some (match val, _val with
        | None, None => 0
        | None, Some _ => 1
        | Some _, None => 1
        | Some a, Some b => if strncmp_eq a b strcmplen then 0 else 1
        end).

Definition oldcmd_cmp (oldcmd : list byte) (oldcmdlen : Z) (t : TTYINFO) : option Z :=
  d1 ← __opt_cmp oldcmd oldcmdlen (lit "-l") (Some (mon t));
  d2 ← __opt_cmp oldcmd oldcmdlen (lit "-d") (Some (dev_type_str t));
  d3 ← __opt_cmp oldcmd oldcmdlen (lit "-a") (Some (dev_ipaddr_str t));
  d4 ← __opt_cmp oldcmd oldcmdlen (lit "-p") (Some (dev_portidx_str t));
  d5 ← __opt_cmp oldcmd oldcmdlen (lit "-r") (if has_redundant_ip t then Some (dev_redundant_ipaddr_str t) else None);
  d6 ← __opt_cmp oldcmd oldcmdlen (lit "-S") (if dev_ssl t then Some sslconf else None);
  Some (d1 + d2 + d3 + d4 + d5 + d6).

Context {H : Type} `{Host H} (testrun : bool).

Definition advproc (name : list byte) : list byte := lit "/proc/vcom/advproc" ++ name.

(** The buffers of the function, whatever they hold. *)
Record spawn_bufs := mk_bufs { oldcmd : list byte; syscmd : list byte }.

(** One port: [inr] goes on, [inl] is [exit(0)]. *)
Definition spawn_one (t : TTYINFO) (h : H) (b : spawn_bufs) : option ((H * spawn_bufs) + (H * spawn_bufs)) :=
  match stat_ino h (advproc (mpt_nameidx_str t)) with
  | None => Some (inl (h, b))
  | Some ino =>
      r ← __cmd_inode_search_pid h CF_PORTPROG ino (oldcmd b);
      let '(found, old) := r in
      let b := mk_bufs old (syscmd b) in
      same ← (match found with
              | None => Some false
              | Some (oldcmdlen, _) => d ← oldcmd_cmp old oldcmdlen t; Some (d =? 0)
              end);
      if (same : bool) then Some (inr (h, b)) else
      c ← _create_syscmd (syscmd b) 1024 t;
      let '(cmdidx, sc) := c in
      let oldpid := match found with Some (_, pid) => pid | None => 0 end in
      let h := if (0 <? oldpid) && negb testrun then sys_kill h oldpid else h in
      c ← snprintf cmdidx (1024 - cmdidx - 1) (lit "&") sc;
      let sc := snd c in
      line ← str_at sc 0;
      Some (inr (if testrun then h else sys_system h line, mk_bufs old sc))
  end.

Fixpoint spawn_ttyp (l : list TTYINFO) (h : H) (b : spawn_bufs) : option (H * spawn_bufs) :=
  match l with
  | [] => Some (h, b)
  | t :: l =>
      r ← spawn_one t h b;
      match r with
      | inl r => Some r
      | inr (h, b) => spawn_ttyp l h b
      end
  end.

(** Daemons of ports that are not configured are stopped. *)
Fixpoint cleanup_loop (n : nat) (i : Z) (l : list TTYINFO) (h : H) (cmd : list byte) : option (H * list byte) :=
  match n with
  | O => Some (h, cmd)
  | S n =>
      match stat_ino h (advproc (dec i)) with
      | None => cleanup_loop n (i + 1) l h cmd
      | Some ino =>
          r ← __cmd_inode_search_pid h CF_PORTPROG ino cmd;
          let '(found, cmd) := r in
          match found with
          | None => cleanup_loop n (i + 1) l h cmd
          | Some (_, pid) =>
              let h := if existsb (fun t => atoi (mpt_nameidx_str t) =? i) l || testrun then h else sys_kill h pid in
              cleanup_loop n (i + 1) l h cmd
          end
      end
  end.

Definition cleanup_ttyp (l : list TTYINFO) (h : H) (cmd : list byte) : option (H * list byte) :=
  cleanup_loop (Z.to_nat CF_MAXPORTS) 0 l h cmd.
End starter.

(** ** [main]

    The options as [getopt] gives them, a letter and its argument, and the files
    as they can be read. *)

Definition PATH_MAX : Z := 4096.
Definition NAME_MAX : Z := 255.

Record options := mk_opt {
  custom_wpath : option (list byte);
  run_as_daemon : bool;
  daemon_cleanup : bool;
  testrun_ : bool;
}.

(** [None] is -1, after the help was printed; unknown options are ignored. *)
Fixpoint setup_options (l : list (byte * list byte)) (o : options) : option options :=
  match l with
  | [] => Some o
  | (ch, optarg) :: l =>
      match ch with
      | Byte.x68 => None
      | Byte.x64 => setup_options l (mk_opt (custom_wpath o) true (daemon_cleanup o) (testrun_ o))
      | Byte.x74 => setup_options l (mk_opt (custom_wpath o) (run_as_daemon o) (daemon_cleanup o) true)
      | Byte.x77 => setup_options l (mk_opt (Some optarg) (run_as_daemon o) (daemon_cleanup o) (testrun_ o))
      | Byte.x63 => setup_options l (mk_opt (custom_wpath o) (run_as_daemon o) true (testrun_ o))
      | _ => setup_options l o
      end
  end.

Definition main {H} `{Host H} (argv : list (byte * list byte)) (read : list byte -> option (list byte)) (h : H)
    (cmd : list byte) (b : spawn_bufs) : option H :=
  match setup_options argv (mk_opt None false false false) with
  | None => Some h
  | Some o =>
      match custom_wpath o with
      | None => Some h
      | Some w =>
          let work_path := ztake (PATH_MAX - NAME_MAX - 1) w in
          l ← paser_config (read (ztake (PATH_MAX - 1) (w ++ lit "/" ++ CF_CONFNAME)));
          if zlen l <=? 0 then Some h else
          let sslconf := ztake (PATH_MAX - 1) (work_path ++ lit "/" ++ CF_SSLCONF) in
          r ← (if daemon_cleanup o then cleanup_ttyp (testrun_ o) l h cmd else Some (h, cmd));
          r ← spawn_ttyp sslconf (testrun_ o) l (fst r) b;
          Some (fst r)
      end
  end.
