(* ===== verification/Starter.v ===== *)
(** * Correctness of the starter

    The configuration: what is read fits the table, and a table that is written
    as a configuration is read back.  The commands: the command line of a daemon
    is compared with the configuration exactly, so that a second run of the
    starter leaves the daemons alone. *)

From S2P Require Import Prelude Text ProcTools.

(** ** Words *)

Definition plain (b : byte) : Prop := is_space b = false /\ chr b <> 0.
Definition a_word (max : Z) (s : list byte) : Prop := 0 < zlen s < max /\ Forall plain s.

Lemma cstr_plain_nul s : Forall (fun b => chr b <> 0) (cstr s).
Proof. induction s as [|b s IH]; cbn [cstr]; [constructor|]. case_if; [constructor|]. by constructor. Qed.

Lemma skip_blank_suffix s (P : byte -> Prop) : Forall P s -> Forall P (skip_blank s).
Proof. induction 1 as [|b s Hb Hs IH]; [constructor|]. cbn [skip_blank]. case_if; [done|by constructor]. Qed.

Lemma skip_blank_head s b r : skip_blank s = b :: r -> is_space b = false.
Proof.
  induction s as [|c s IH]; [done|]. cbn [skip_blank]. destruct (is_space c) eqn:E; [done|]. by intros [= <- <-].
Qed.

Lemma span_word_ok n : forall s (P : byte -> Prop), Forall P s ->
  let '(a, r) := span_word n s in
  s = a ++ r /\ (length a <= n)%nat /\ Forall (fun b => is_space b = false /\ P b) a /\ Forall P r /\
  (forall b s', s = b :: s' -> is_space b = false -> (0 < n)%nat -> a <> []).
Proof.
  induction n as [|n IH]; intros s P Hs; [split_and!; try done; simpl; lia|].
  destruct s as [|b s]; cbn [span_word]; [by split_and!; try done; simpl; lia|].
  apply Forall_cons in Hs as [Hb Hs]. destruct (is_space b) eqn:E.
  - split_and!; try done; [simpl; lia|by constructor|]. intros ? ? [= <- <-]. congruence.
  - specialize (IH s P Hs). destruct (span_word n s) as [a r]. destruct IH as (-> & Hl & Ha & Hr & _).
    split_and!; [done|simpl; lia|by constructor|done|done].
Qed.

(** Every word that is scanned fits its buffer. *)
Lemma scan_words_ok ws : Forall (fun w => (0 < w)%nat) ws -> forall s i a,
  Forall (fun b => chr b <> 0) s -> scan_words ws s !! i = Some a ->
  exists w, ws !! i = Some w /\ a_word (Z.of_nat w + 1) a.
Proof.
  induction 1 as [|w ws Hw Hws IH]; intros s i a Hs Hi; [done|]. cbn [scan_words] in Hi.
  apply skip_blank_suffix in Hs. destruct (skip_blank s) as [|b s'] eqn:E; [done|]. apply skip_blank_head in E.
  pose proof (span_word_ok w (b :: s') _ Hs) as Hsp. destruct (span_word w (b :: s')) as [x r].
  destruct Hsp as (Heq & Hl & Ha & Hr & Hne). destruct i as [|i]; [|by eapply IH].
  injection Hi as <-. exists w. split; [done|]. split; [|done].
  specialize (Hne _ _ eq_refl E Hw). destruct x; [done|]. unfold zlen. simpl in *. lia.
Qed.

(** A line of a configuration, and a whole table. *)
Definition tty_ok (t : TTYINFO) : Prop :=
  a_word CF_MAXSTRLEN (mpt_nameidx_str t) /\ head (mpt_nameidx_str t) <> Some Byte.x23 /\
  atoi (mpt_nameidx_str t) <= CF_MAXPORTS /\
  a_word CF_MAXSTRLEN (dev_type_str t) /\ a_word INET6_ADDRSTRLEN (dev_ipaddr_str t) /\
  a_word CF_MAXSTRLEN (dev_portidx_str t) /\ 0 < atoi (dev_portidx_str t) /\
  (if has_redundant_ip t then a_word INET6_ADDRSTRLEN (dev_redundant_ipaddr_str t)
   else dev_redundant_ipaddr_str t = []).

Lemma safe_strcpy_id size s : zlen s < size -> _safe_strcpy size s = s.
Proof. intros. unfold _safe_strcpy. apply ztake_all. lia. Qed.

Lemma parse_line_ok line t : parse_line line = Some t -> tty_ok t.
Proof.
  unfold parse_line. pose proof (scan_words_ok [31; 31; 45; 31; 45]%nat ltac:(by repeat constructor; lia) (cstr line)) as Hsc.
  destruct (scan_words _ _) as [|mpt [|ty [|ip [|port more]]]] eqn:E; try done.
  pose proof (fun i a => Hsc i a (cstr_plain_nul line)) as Hw. clear Hsc.
  destruct (Hw 0%nat mpt eq_refl) as (? & [= <-] & H0). destruct (Hw 1%nat ty eq_refl) as (? & [= <-] & H1).
  destruct (Hw 2%nat ip eq_refl) as (? & [= <-] & H2). destruct (Hw 3%nat port eq_refl) as (? & [= <-] & H3).
  change (Z.of_nat 31 + 1) with 32 in *. change (Z.of_nat 45 + 1) with 46 in *. cbv zeta.
  assert (Hty : a_word 32 (if (4 <? zlen ty) && is_prefix sslkeyword ty then zdrop (zlen sslkeyword) ty else ty)).
  { case_if; [|done]. destruct H1 as [? H1]. change (zlen sslkeyword) with 4. split; [rewrite zlen_zdrop; lia|].
    unfold zdrop. by apply Forall_drop. }
  revert Hty. generalize (if (4 <? zlen ty) && is_prefix sslkeyword ty then zdrop (zlen sslkeyword) ty else ty).
  generalize ((4 <? zlen ty) && is_prefix sslkeyword ty). intros ssl dt Hty.
  case_if; [done|]. destruct (atoi port <=? 0) eqn:Ep; [done|]. apply Z.leb_gt in Ep. intros [= <-].
  unfold tty_ok, CF_MAXSTRLEN, INET6_ADDRSTRLEN.
  cbn [mpt_nameidx_str dev_type_str dev_ipaddr_str dev_portidx_str dev_redundant_ipaddr_str has_redundant_ip].
  pose proof Hty as [? _]. destruct H0 as [? ?], H2 as [? ?], H3 as [? ?].
  rewrite !safe_strcpy_id by lia.
  split_and!; try done; try lia.
  - intros Hc. by rewrite bool_decide_true in H.
  - destruct more as [|r more]; [done|]. destruct (Hw 4%nat r eq_refl) as (? & [= <-] & Hr).
    destruct Hr. by rewrite safe_strcpy_id by lia.
Qed.

Lemma fgets_shorter n b f : (0 < n)%nat -> (length (snd (fgets n (b :: f))) < length (b :: f))%nat.
Proof.
  revert b f. induction n as [|n IH]; intros b f Hn; [lia|]. cbn [fgets]. case_if; [simpl; lia|].
  destruct n as [|n]; [destruct f; simpl; lia|]. destruct f as [|c f]; [simpl; lia|].
  specialize (IH c f ltac:(lia)). destruct (fgets (S n) (c :: f)) as [a r]. simpl in *. lia.
Qed.

Lemma config_loop_ok fuel : forall file n, (length file < fuel)%nat -> 0 <= n <= CF_MAXPORTS ->
  exists l, config_loop fuel file n = Some l /\ n + zlen l <= CF_MAXPORTS /\ Forall tty_ok l.
Proof.
  induction fuel as [|fuel IH]; intros file n Hf Hn; [lia|]. cbn [config_loop].
  assert (Hnil : exists l, Some (@nil TTYINFO) = Some l /\ n + zlen l <= CF_MAXPORTS /\ Forall tty_ok l).
  { exists []. change (zlen []) with 0. split_and!; [done|lia|constructor]. }
  destruct (Z.ltb_spec n CF_MAXPORTS); [|done]. destruct file as [|b file]; [done|].
  pose proof (fgets_shorter 255 b file ltac:(lia)) as Hs. destruct (fgets 255 (b :: file)) as [line r].
  cbn [snd] in Hs. destruct (parse_line line) as [t|] eqn:E; [|apply IH; lia].
  destruct (IH r (n + 1)) as (l & -> & Hl & Hok); [lia|lia|]. exists (t :: l). rewrite zlen_cons.
  split_and!; [done|lia|]. constructor; [by eapply parse_line_ok|done].
Qed.

(** C27: Whatever the configuration file holds, reading it ends, the table has at
    most [CF_MAXPORTS] entries, every string fits its array with a null byte and is a
    single word, and the numbers are in their ranges. *)
Theorem paser_config_type file :
  exists l, paser_config file = Some l /\ zlen l <= CF_MAXPORTS /\ Forall tty_ok l.
Proof.
  destruct file as [f|]; cbn [paser_config].
  - destruct (config_loop_ok (S (length f)) f 0) as (l & -> & ? & ?); [lia|done|]. exists l. split_and!; (done || lia).
  - exists []. split_and!; [done|done|constructor].
Qed.

(** ** Writing a table and reading it *)

Definition line_of (t : TTYINFO) : list byte :=
  mpt_nameidx_str t ++ lit " " ++ (if dev_ssl t then sslkeyword ++ dev_type_str t else dev_type_str t) ++ lit " " ++
  dev_ipaddr_str t ++ lit " " ++ dev_portidx_str t ++
  (if has_redundant_ip t then lit " " ++ dev_redundant_ipaddr_str t else []) ++ [Byte.x0a].

(** The keyword for TLS shares the field with the type of the device. *)
Definition writable (t : TTYINFO) : Prop :=
  tty_ok t /\
  (if dev_ssl t then zlen (dev_type_str t) < 28
   else (4 <? zlen (dev_type_str t)) && is_prefix sslkeyword (dev_type_str t) = false).

Lemma span_word_exact w : Forall plain w -> forall n r, (length w <= n)%nat ->
  (match r with b :: _ => is_space b = true | [] => True end) -> span_word n (w ++ r) = (w, r).
Proof.
  induction 1 as [|b w [Hb _] Hw IH]; intros n r Hn Hr; cbn [app].
  - destruct n, r as [|c r]; cbn [span_word]; try done. by rewrite Hr.
  - destruct n as [|n]; [simpl in Hn; lia|]. cbn [span_word]. rewrite Hb, IH by (done || simpl in Hn; lia). done.
Qed.

Lemma skip_blank_word w r : Forall plain w -> w <> [] -> skip_blank (w ++ r) = w ++ r.
Proof. destruct 1 as [|b w [Hb _] Hw]; [done|]. intros _. cbn [app skip_blank]. by rewrite Hb. Qed.

(** Scanning one word, with and without a blank in front. *)
Lemma scan_word_first w ws x r : a_word (Z.of_nat w + 1) x ->
  (match r with b :: _ => is_space b = true | [] => True end) ->
  scan_words (w :: ws) (x ++ r) = x :: scan_words ws r.
Proof.
  intros [Hl Hx] Hr. assert (Hne : x <> []) by (destruct x; [unfold zlen in Hl; simpl in Hl; lia|done]).
  cbn [scan_words]. rewrite (skip_blank_word x r Hx Hne). destruct x as [|b x]; [done|]. cbn [app].
  rewrite app_comm_cons. by rewrite (span_word_exact (b :: x) Hx) by (done || unfold zlen in Hl; lia).
Qed.

Lemma scan_word_next w ws x r : a_word (Z.of_nat w + 1) x ->
  (match r with b :: _ => is_space b = true | [] => True end) ->
  scan_words (w :: ws) (lit " " ++ x ++ r) = x :: scan_words ws r.
Proof. exact (scan_word_first w ws x r). Qed.

Lemma plain_no_nul s : Forall plain s -> no_nul s.
Proof. intros H. eapply Forall_impl; [exact H|]. by intros b [_ Hb]. Qed.

Lemma sep_no_nul a b : no_nul a -> no_nul b -> no_nul (a ++ b).
Proof. intros. by apply Forall_app. Qed.

Lemma is_prefix_app p s : is_prefix p (p ++ s) = true.
Proof. induction p as [|a p IH]; [done|]. cbn [app is_prefix]. by rewrite bool_decide_true, IH by done. Qed.

(** The field with the type of the device. *)
Lemma type_field t : writable t ->
  let ty := if dev_ssl t then sslkeyword ++ dev_type_str t else dev_type_str t in
  a_word CF_MAXSTRLEN ty /\ (4 <? zlen ty) && is_prefix sslkeyword ty = dev_ssl t /\
  (if dev_ssl t then zdrop (zlen sslkeyword) ty else ty) = dev_type_str t.
Proof.
  intros [(_ & _ & _ & [Hl Hp] & _) Hs]. destruct (dev_ssl t); cbv zeta; [|by split_and!].
  change (zlen sslkeyword) with 4. unfold a_word, CF_MAXSTRLEN in *. rewrite zlen_app. change (zlen sslkeyword) with 4.
  split_and!; try lia.
  - apply Forall_app. split; [|done]. repeat constructor; done.
  - rewrite is_prefix_app, andb_true_r. apply Z.ltb_lt. lia.
  - done.
Qed.

Lemma line_no_nul t : writable t -> no_nul (line_of t).
Proof.
  intros Ht. destruct (type_field t Ht) as ((_ & Hty) & _ & _). destruct Ht as [(H1 & _ & _ & _ & H3 & H4 & _ & H5) _].
  unfold line_of. assert (Hsp : no_nul (lit " ")) by (by repeat constructor).
  assert (Hnl : no_nul [Byte.x0a]) by (by repeat constructor).
  repeat apply sep_no_nul; try done; try (apply plain_no_nul; by apply H1 || by apply H3 || by apply H4 || done).
  destruct (has_redundant_ip t); [|constructor]. apply sep_no_nul; [done|]. apply plain_no_nul, H5.
Qed.

Lemma parse_line_of t : writable t -> parse_line (line_of t) = Some t.
Proof.
  intros Ht. unfold parse_line. rewrite (cstr_all _ (line_no_nul t Ht)).
  destruct (type_field t Ht) as (Hty & Hssl & Hdt). destruct Ht as [(H1 & H2 & H3 & H4 & H5 & H6 & H7 & H8) _].
  unfold line_of. set (ty := if dev_ssl t then _ else _) in *.
  rewrite (scan_word_first 31 _ (mpt_nameidx_str t)) by done.
  rewrite (scan_word_next 31 _ ty) by done.
  rewrite (scan_word_next 45 _ (dev_ipaddr_str t)) by done.
  rewrite (scan_word_next 31 _ (dev_portidx_str t)) by (done || by destruct (has_redundant_ip t)).
  rewrite bool_decide_false by done. rewrite (proj2 (Z.ltb_ge _ _)) by lia. cbn [orb].
  rewrite (proj2 (Z.leb_gt _ _)) by lia. rewrite Hssl, Hdt.
  rewrite !safe_strcpy_id by (apply H1 || apply H4 || apply H5 || apply H6). destruct t as [n ty' ip port rip red ssl].
  cbn [mpt_nameidx_str dev_type_str dev_ipaddr_str dev_portidx_str dev_redundant_ipaddr_str has_redundant_ip dev_ssl] in *.
  destruct red.
  - rewrite <- app_assoc, scan_word_next by done. rewrite safe_strcpy_id by apply H8. done.
  - rewrite H8. done.
Qed.

Lemma fgets_line s : Forall (fun b => chr b <> 10) s -> forall n r, (length s < n)%nat ->
  fgets n (s ++ [Byte.x0a] ++ r) = (s ++ [Byte.x0a], r).
Proof.
  induction 1 as [|b s Hb Hs IH]; intros n r Hn; (destruct n as [|n]; [simpl in Hn; lia|]); cbn [app fgets]; [done|].
  rewrite (proj2 (Z.eqb_neq _ _) Hb). change (Byte.x0a :: r) with ([Byte.x0a] ++ r).
  rewrite IH by (simpl in Hn; lia). done.
Qed.

(** A line without its end. *)
Definition line_body (t : TTYINFO) : list byte :=
  mpt_nameidx_str t ++ lit " " ++ (if dev_ssl t then sslkeyword ++ dev_type_str t else dev_type_str t) ++ lit " " ++
  dev_ipaddr_str t ++ lit " " ++ dev_portidx_str t ++
  (if has_redundant_ip t then lit " " ++ dev_redundant_ipaddr_str t else []).

Lemma line_body_of t : line_of t = line_body t ++ [Byte.x0a].
Proof. unfold line_of, line_body. by rewrite <- !app_assoc. Qed.

Lemma plain_no_newline s : Forall plain s -> Forall (fun b => chr b <> 10) s.
Proof. intros H. eapply Forall_impl; [exact H|]. intros b [Hb _] E. unfold is_space in Hb. by rewrite E in Hb. Qed.

Lemma line_body_ok t : writable t -> Forall (fun b => chr b <> 10) (line_body t) /\ zlen (line_body t) < 255.
Proof.
  intros Ht. destruct (type_field t Ht) as (Hty & _ & _). destruct Ht as [(H1 & _ & _ & _ & H3 & H4 & _ & H5) _].
  set (ty := if dev_ssl t then _ else _) in *. unfold line_body. fold ty.
  assert (Hsp : Forall (fun b => chr b <> 10) (lit " ")) by (by repeat constructor).
  destruct H1 as [? H1%plain_no_newline], Hty as [? Hty%plain_no_newline], H3 as [? H3%plain_no_newline],
    H4 as [? H4%plain_no_newline]. unfold CF_MAXSTRLEN, INET6_ADDRSTRLEN in *. split.
  - repeat (apply Forall_app; split; try done). destruct (has_redundant_ip t); [|constructor].
    apply Forall_app. split; [done|]. destruct H5 as [_ H5]. by apply plain_no_newline.
  - rewrite !zlen_app. change (zlen (lit " ")) with 1.
    assert (zlen (if has_redundant_ip t then lit " " ++ dev_redundant_ipaddr_str t else []) < 47); [|lia].
    destruct (has_redundant_ip t); [|done]. destruct H5 as [H5 _]. rewrite zlen_app. change (zlen (lit " ")) with 1. lia.
Qed.

Lemma config_loop_table l : forall fuel n, Forall writable l -> (length l < fuel)%nat -> n + zlen l <= CF_MAXPORTS ->
  config_loop fuel (concat (map line_of l)) n = Some l.
Proof.
  induction l as [|t l IH]; intros [|fuel] n Hl Hf Hn; try (simpl in Hf; lia); cbn [map concat config_loop].
  - by case_if.
  - apply Forall_cons in Hl as [Ht Hl]. rewrite zlen_cons in Hn. pose proof (zlen_nonneg l).
    rewrite (proj2 (Z.ltb_lt _ _)) by lia. destruct (line_body_ok t Ht) as [Hb Hlen].
    destruct (line_of t ++ concat (map line_of l)) eqn:E.
    { rewrite line_body_of in E. by destruct (line_body t). }
    rewrite <- E, line_body_of, <- app_assoc, fgets_line, <- line_body_of by (done || unfold zlen in Hlen; lia).
    rewrite parse_line_of by done. rewrite IH by (done || simpl in Hf; lia). done.
Qed.

(** C28: A table of ports written as a configuration file, one line each, is read
    back as the same table. *)
Theorem config_roundtrip l :
  Forall writable l -> zlen l <= CF_MAXPORTS -> paser_config (Some (concat (map line_of l))) = Some l.
Proof.
  intros Hl Hn. cbn [paser_config]. apply config_loop_table; [done| |lia].
  assert (Hlen : forall l, Forall writable l -> (length l <= length (concat (map line_of l)))%nat).
  { clear. induction 1 as [|t l Ht Hl IH]; [done|]. cbn [map concat length]. rewrite length_app, line_body_of, length_app.
    simpl. lia. }
  specialize (Hlen l Hl). lia.
Qed.

Lemma config_roundtrip_witness :
  let l := [mk_tty (lit "0") (lit "EKI-1524") (lit "10.0.0.1") (lit "1") [] false true;
            mk_tty (lit "7") (lit "EKI-1521") (lit "fe80::1") (lit "16") (lit "10.0.0.2") true false] in
  zlen l <= CF_MAXPORTS /\ paser_config (Some (concat (map line_of l))) = Some l.
Proof.
  split; [vm_compute; discriminate|]. apply config_roundtrip; [|vm_compute; discriminate].
  repeat constructor; vm_compute; (discriminate || reflexivity).
Defined.

(** ** The command line of a daemon *)

(** A process sees its arguments one behind the other, each with a null byte. *)
Definition cmdline_of (args : list (list byte)) : list byte := concat (map (fun w => w ++ [Byte.x00]) args).

Lemma cmdline_cons w args : cmdline_of (w :: args) = w ++ [Byte.x00] ++ cmdline_of args.
Proof. unfold cmdline_of. cbn [map concat]. by rewrite <- app_assoc. Qed.

(** The string that starts behind a prefix. *)
Lemma str_at_here pre w r : no_nul w -> str_at (pre ++ w ++ Byte.x00 :: r) (zlen pre) = Some w.
Proof.
  intros Hw. unfold str_at. pose proof (zlen_nonneg pre). pose proof (zlen_nonneg w). pose proof (zlen_nonneg r).
  rewrite zdrop_app_r, Z.sub_diag, zdrop_0 by lia. rewrite cstr_no_nul by done.
  rewrite (proj2 (Z.leb_le _ _)), (proj2 (Z.ltb_lt _ _)) by zlen_lia. cbn [andb].
  rewrite existsb_app. cbn [existsb]. change (chr Byte.x00 =? 0) with true. cbn [orb]. by rewrite orb_true_r.
Qed.

(** What follows the option in the first argument that contains it. *)
Fixpoint opt_value (opt : list byte) (args : list (list byte)) : option (list byte) :=
  match args with
  | [] => None
  | w :: args =>
      match strstr w opt with
      | Some off => Some (zdrop (off + zlen opt) w)
      | None => opt_value opt args
      end
  end.

Lemma is_prefix_len p : forall s, is_prefix p s = true -> zlen p <= zlen s.
Proof.
  induction p as [|a p IH]; intros [|b s]; cbn [is_prefix]; try done.
  intros [_ H]%andb_true_iff. rewrite !zlen_cons. specialize (IH s H). lia.
Qed.

Lemma strstr_range s p off : strstr s p = Some off -> 0 <= off /\ off + zlen p <= zlen s.
Proof.
  revert off. induction s as [|b s IH]; intros off; cbn [strstr].
  - destruct (is_prefix p []) eqn:E; [|done]. intros [= <-]. apply is_prefix_len in E. lia.
  - destruct (is_prefix p (b :: s)) eqn:E; [intros [= <-]; apply is_prefix_len in E; lia|].
    destruct (strstr s p) as [o|]; [|done]. intros [= <-]. destruct (IH o eq_refl). rewrite zlen_cons. lia.
Qed.

(** The search in the command line is the one in the arguments. *)
Lemma get_opts_args opt args : forall fuel pre junk,
  args <> [] -> Forall no_nul args -> opt <> [] -> opt ∉ args ->
  (length (cmdline_of args) < fuel)%nat ->
  exists p, get_opts_loop fuel (pre ++ cmdline_of args ++ junk) (zlen (pre ++ cmdline_of args)) (zlen pre) opt = Some p /\
    match p with
    | Some p => exists v, opt_value opt args = Some v /\ str_at (pre ++ cmdline_of args ++ junk) p = Some v
    | None => opt_value opt args = None
    end.
Proof.
  induction args as [|w args IH]; intros [|fuel] pre junk Hne Hn Ho Hni Hf; try done; try lia.
  apply Forall_cons in Hn as [Hw Hn]. apply not_elem_of_cons in Hni as [Hwo Hni].
  rewrite cmdline_cons in *. cbn [get_opts_loop opt_value].
  rewrite <- !app_assoc. cbn [app]. rewrite str_at_here by done. cbn [mbind option_bind].
  destruct (strstr w opt) as [off|] eqn:E.
  - eexists. split; [done|]. rewrite bool_decide_false by congruence.
    apply strstr_range in E as [E0 E1]. eexists. split; [done|].
    pose proof (zlen_nonneg opt) as Hop. set (k := off + zlen opt) in *.
    assert (Hsplit : pre ++ w ++ Byte.x00 :: cmdline_of args ++ junk =
      (pre ++ ztake k w) ++ zdrop k w ++ Byte.x00 :: cmdline_of args ++ junk).
    { rewrite <- app_assoc, (app_assoc (ztake k w)), ztake_zdrop. done. }
    rewrite Hsplit. replace (zlen pre + off + zlen opt) with (zlen (pre ++ ztake k w))
      by (rewrite zlen_app, zlen_ztake; lia).
    apply str_at_here. unfold zdrop. by apply Forall_drop.
  - rewrite !zlen_app. cbn [app]. rewrite zlen_cons. pose proof (zlen_nonneg (cmdline_of args)).
    destruct (Z.ltb_spec (zlen pre + zlen w + 1) (zlen pre + (zlen w + (1 + zlen (cmdline_of args))))) as [Hlt|Hge].
    + specialize (IH fuel (pre ++ w ++ [Byte.x00]) junk). rewrite <- !app_assoc in IH. cbn [app] in IH.
      rewrite !zlen_app in IH. cbn [app] in IH. rewrite !zlen_cons, zlen_nil in IH.
      replace (zlen pre + zlen w + 1) with (zlen pre + (zlen w + (1 + 0))) by lia.
      apply IH; try done.
      * intros ->. change (zlen (cmdline_of [])) with 0 in Hlt. lia.
      * rewrite length_app in Hf. cbn [app length] in Hf. lia.
    + exists None. split; [done|]. destruct args as [|x args]; [done|]. rewrite cmdline_cons, !zlen_app in Hge.
      change (zlen [Byte.x00]) with 1 in Hge. pose proof (zlen_nonneg x). pose proof (zlen_nonneg (cmdline_of args)). lia.
Qed.

(** Comparing up to the longer of two lengths is comparing the strings. *)
Lemma strncmp_whole a b n : no_nul a -> no_nul b -> zlen b <= n -> zlen b < n \/ zlen a <= n ->
  strncmp_eq a b n = bool_decide (a = b).
Proof.
  intros Ha Hb Hn Hab. unfold strncmp_eq. apply bool_decide_ext. split; [|by intros ->].
  destruct (Z.lt_ge_cases (zlen a) n) as [Hlt|Hge].
  - rewrite (ztake_all n (a ++ _)) by (rewrite zlen_app; change (zlen [Byte.x00]) with 1; lia). intros Heq.
    destruct (Z.lt_ge_cases (zlen b) n) as [Hlt'|Hge'].
    + rewrite (ztake_all n (b ++ _)) in Heq by (rewrite zlen_app; change (zlen [Byte.x00]) with 1; lia). by apply app_inj_tail in Heq as [-> _].
    + rewrite (ztake_app_l n b), (ztake_all n b) in Heq by lia. rewrite <- Heq in Hb. apply Forall_app in Hb as [_ Hb].
      by apply Forall_cons in Hb as [Hb _].
  - rewrite (ztake_app_l n a) by lia. intros Heq. destruct (Z.lt_ge_cases (zlen b) n) as [Hlt'|Hge'].
    + rewrite (ztake_all n (b ++ _)) in Heq by (rewrite zlen_app; change (zlen [Byte.x00]) with 1; lia).
      assert (Hna : no_nul (ztake n a)) by (unfold ztake; by apply Forall_take). rewrite Heq in Hna.
      apply Forall_app in Hna as [_ Hna]. by apply Forall_cons in Hna as [Hna _].
    + rewrite (ztake_app_l n b), (ztake_all n b), (ztake_all n a) in Heq by lia. done.
Qed.

Lemma opt_value_len opt args v : opt_value opt args = Some v -> no_nul v \/ ~ Forall no_nul args.
Proof.
  induction args as [|w args IH]; [done|]. cbn [opt_value]. destruct (strstr w opt) as [off|].
  - intros [= <-]. destruct (decide (Forall (fun b => chr b <> 0) w)) as [Hw|Hw].
    + left. unfold zdrop. by apply Forall_drop.
    + right. intros [Hw' _]%Forall_cons. done.
  - intros H. destruct (IH H) as [|Hn]; [by left|]. right. intros [_ Hw]%Forall_cons. done.
Qed.

Lemma opt_value_short opt args v : opt_value opt args = Some v -> zlen v < zlen (cmdline_of args).
Proof.
  induction args as [|w args IH]; [done|]. cbn [opt_value]. rewrite cmdline_cons, !zlen_app.
  change (zlen [Byte.x00]) with 1. pose proof (zlen_nonneg (cmdline_of args)). pose proof (zlen_nonneg w).
  destruct (strstr w opt) as [off|] eqn:E; [|intros H1; specialize (IH H1); lia].
  intros [= <-]. apply strstr_range in E. pose proof (zlen_nonneg opt). rewrite zlen_zdrop; lia.
Qed.

Lemma opt_cmp_spec opt args junk val :
  args <> [] -> Forall no_nul args -> opt <> [] -> opt ∉ args ->
  (match val with Some v => no_nul v | None => True end) ->
  __opt_cmp (cmdline_of args ++ junk) (zlen (cmdline_of args)) opt val =
  Some (if bool_decide (val = opt_value opt args) then 0 else 1).
Proof.
  intros Hne Hn Ho Hni Hv. unfold __opt_cmp, __cmd_get_opts.
  destruct (get_opts_args opt args (S (Z.to_nat (zlen (cmdline_of args)))) [] junk) as (p & Hp & Hval); try done.
  { unfold zlen. lia. }
  cbn [app] in Hp, Hval. change (zlen []) with 0 in Hp. rewrite Hp. cbn [mbind option_bind].
  destruct p as [p|].
  - destruct Hval as (b & Hb & ->). cbn [mbind option_bind]. rewrite Hb. destruct val as [a|].
    + pose proof (opt_value_short _ _ _ Hb). destruct (opt_value_len _ _ _ Hb) as [Hbn|]; [|done].
      pose proof (zlen_nonneg b). pose proof (zlen_nonneg a).
      rewrite strncmp_whole; [|done|done| |]; [|case_if; lia|case_if; lia].
      by rewrite (bool_decide_ext (a = b) (Some a = Some b)) by (split; congruence).
    + done.
  - rewrite Hval. cbn [mbind option_bind]. by destruct val.
Qed.

(** ** The arguments of a daemon *)

Section args.
Context (sslconf : list byte).

Definition args (t : TTYINFO) : list (list byte) :=
  [CF_PORTPROG; lit "-l" ++ mon t; lit "-t" ++ mpt_nameidx_str t; lit "-d" ++ dev_type_str t;
   lit "-a" ++ dev_ipaddr_str t; lit "-p" ++ dev_portidx_str t] ++
  (if has_redundant_ip t then [lit "-r" ++ dev_redundant_ipaddr_str t] else []) ++
  (if dev_ssl t then [lit "-S" ++ sslconf] else []).

(** The options that are looked for; a value must not look like one of them. *)
Definition opts : list (list byte) := [lit "-l"; lit "-d"; lit "-a"; lit "-p"; lit "-r"; lit "-S"].
Definition clean (s : list byte) : Prop := Forall (fun o => strstr s o = None) opts.

Definition clean_tty (t : TTYINFO) : Prop :=
  clean (mpt_nameidx_str t) /\ clean (dev_type_str t) /\ clean (dev_ipaddr_str t) /\ clean (dev_portidx_str t) /\
  clean (dev_redundant_ipaddr_str t).

(** What is compared. *)
Definition settings (t : TTYINFO) :=
  (mon t, dev_type_str t, dev_ipaddr_str t, dev_portidx_str t,
   if has_redundant_ip t then Some (dev_redundant_ipaddr_str t) else None,
   if dev_ssl t then Some sslconf else None).
End args.

Lemma strstr_skip a s o p : Forall (fun b => b <> o) a -> strstr s (o :: p) = None -> strstr (a ++ s) (o :: p) = None.
Proof.
  intros Ha Hs. induction Ha as [|b a Hb Ha IH]; [done|]. cbn [app strstr is_prefix].
  rewrite bool_decide_false by done. cbn [andb]. by rewrite IH.
Qed.

(** An argument with another option letter does not match. *)
Lemma strstr_other x y s : x <> y -> y <> Byte.x2d -> x <> Byte.x2d ->
  strstr s [Byte.x2d; y] = None -> strstr (Byte.x2d :: x :: s) [Byte.x2d; y] = None.
Proof.
  intros Hxy Hy Hx Hs. cbn [strstr is_prefix]. rewrite (bool_decide_false (y = x)) by congruence.
  cbn [andb]. rewrite andb_false_r. rewrite bool_decide_false by congruence. cbn [andb]. by rewrite Hs.
Qed.

Lemma strstr_same x s : strstr (Byte.x2d :: x :: s) [Byte.x2d; x] = Some 0.
Proof. cbn [strstr is_prefix]. by rewrite !bool_decide_true by done. Qed.

Lemma opt_hit y s l : opt_value [Byte.x2d; y] ((Byte.x2d :: y :: s) :: l) = Some s.
Proof. cbn [opt_value]. by rewrite strstr_same. Qed.

Lemma opt_skip x y s l : clean s -> bool_decide ([Byte.x2d; y] ∈ opts) && negb (bool_decide (x = y)) && negb (bool_decide (x = Byte.x2d)) = true ->
  opt_value [Byte.x2d; y] ((Byte.x2d :: x :: s) :: l) = opt_value [Byte.x2d; y] l.
Proof.
  intros Hs H. rewrite !andb_true_iff, !negb_true_iff, bool_decide_eq_true, !bool_decide_eq_false in H.
  destruct H as [[Hy Hxy] Hx]. unfold clean in Hs. rewrite Forall_forall in Hs. specialize (Hs _ Hy).
  cbn [opt_value]. rewrite strstr_other; try done. intros ->. revert Hy. unfold opts.
  rewrite !elem_of_cons, elem_of_nil. intros [H|[H|[H|[H|[H|[H|[]]]]]]]; by vm_compute in H.
Qed.

Lemma clean_mon t : clean (mpt_nameidx_str t) -> clean (mon t).
Proof.
  intros H. unfold mon. rewrite app_assoc. apply Forall_forall. intros o Ho.
  unfold clean in H. rewrite Forall_forall in H. specialize (H o Ho).
  assert (Hpre : Forall (fun b => b <> Byte.x2d) (MON_PATH ++ lit "/advtty")).
  { apply Forall_forall. intros b Hb Hc. subst b.
    apply (bool_decide_eq_true_2 _) in Hb. vm_compute in Hb. done. }
  unfold opts in Ho. rewrite !elem_of_cons, elem_of_nil in Ho.
  destruct Ho as [->|[->|[->|[->|[->|[->|[]]]]]]]; by apply strstr_skip.
Qed.

(** Each option is found in its own argument. *)
Lemma opt_values ssl t : clean ssl -> clean_tty t ->
  opt_value (lit "-l") (args ssl t) = Some (mon t) /\
  opt_value (lit "-d") (args ssl t) = Some (dev_type_str t) /\
  opt_value (lit "-a") (args ssl t) = Some (dev_ipaddr_str t) /\
  opt_value (lit "-p") (args ssl t) = Some (dev_portidx_str t) /\
  opt_value (lit "-r") (args ssl t) = (if has_redundant_ip t then Some (dev_redundant_ipaddr_str t) else None) /\
  opt_value (lit "-S") (args ssl t) = (if dev_ssl t then Some ssl else None).
Proof.
  intros Hssl (Hn & Hty & Hip & Hp & Hr). pose proof (clean_mon t Hn) as Hm.
  assert (H0 : forall o l, o ∈ opts -> opt_value o (CF_PORTPROG :: l) = opt_value o l).
  { intros o l Ho. unfold opts in Ho. rewrite !elem_of_cons, elem_of_nil in Ho.
    destruct Ho as [->|[->|[->|[->|[->|[->|[]]]]]]]; reflexivity. }
  unfold args. change (lit "-l" ++ mon t) with (Byte.x2d :: Byte.x6c :: mon t).
  change (lit "-t" ++ mpt_nameidx_str t) with (Byte.x2d :: Byte.x74 :: mpt_nameidx_str t).
  change (lit "-d" ++ dev_type_str t) with (Byte.x2d :: Byte.x64 :: dev_type_str t).
  change (lit "-a" ++ dev_ipaddr_str t) with (Byte.x2d :: Byte.x61 :: dev_ipaddr_str t).
  change (lit "-p" ++ dev_portidx_str t) with (Byte.x2d :: Byte.x70 :: dev_portidx_str t).
  change (lit "-r" ++ dev_redundant_ipaddr_str t) with (Byte.x2d :: Byte.x72 :: dev_redundant_ipaddr_str t).
  change (lit "-S" ++ ssl) with (Byte.x2d :: Byte.x53 :: ssl). cbn [app].
  change (lit "-l") with [Byte.x2d; Byte.x6c]. change (lit "-d") with [Byte.x2d; Byte.x64].
  change (lit "-a") with [Byte.x2d; Byte.x61]. change (lit "-p") with [Byte.x2d; Byte.x70].
  change (lit "-r") with [Byte.x2d; Byte.x72]. change (lit "-S") with [Byte.x2d; Byte.x53].
  split_and!; rewrite H0 by (apply (bool_decide_eq_true_1 _); by vm_compute);
    repeat first [rewrite opt_hit|rewrite opt_skip by (done || by vm_compute)]; try done;
    destruct (has_redundant_ip t), (dev_ssl t); cbn [app];
    repeat first [rewrite opt_hit|rewrite opt_skip by (done || by vm_compute)]; done.
Qed.

Lemma args_ok ssl t : tty_ok t -> no_nul ssl -> 0 < zlen ssl ->
  Forall (fun w => no_nul w /\ 2 < zlen w) (args ssl t).
Proof.
  intros (H1 & _ & _ & H2 & H3 & H4 & _ & H5) Hssl Hsl.
  assert (Hopt : forall o s, no_nul o -> zlen o = 2 -> no_nul s -> 0 < zlen s -> no_nul (o ++ s) /\ 2 < zlen (o ++ s)).
  { intros o s Ho Hz Hs Hl. split; [by apply Forall_app|]. rewrite zlen_app. lia. }
  assert (Hw : forall n s, a_word n s -> no_nul s /\ 0 < zlen s) by (intros n s [? ?]; split; [by apply plain_no_nul|lia]).
  assert (Hlit : forall b : byte, chr b <> 0 -> no_nul [Byte.x2d; b]) by (intros; by repeat constructor).
  assert (Hmon : no_nul (mon t) /\ 0 < zlen (mon t)).
  { unfold mon. rewrite app_assoc. destruct (Hw _ _ H1). split.
    - apply Forall_app. split; [by repeat constructor|done].
    - rewrite zlen_app. pose proof (zlen_nonneg (MON_PATH ++ lit "/advtty")). lia. }
  unfold args. apply Forall_app. split.
  - repeat (apply Forall_cons; split; [first [by repeat constructor | apply Hopt; [by apply Hlit|done|..]; solve [apply Hmon | eapply Hw; eassumption]]|]).
    constructor.
  - apply Forall_app. split.
    + destruct (has_redundant_ip t); [|constructor]. apply Forall_singleton. apply Hopt; [by apply Hlit|done|by apply (Hw _ _ H5)..].
    + destruct (dev_ssl t); [|constructor]. apply Forall_singleton. apply Hopt; [by apply Hlit|done|done|done].
Qed.

(** In how many settings two entries differ. *)
Definition differ {A} `{EqDecision A} (a b : A) : Z := if decide (a = b) then 0 else 1.
Lemma differ_bool {A} `{EqDecision A} (a b : A) `{!Decision (a = b)} :
  (if bool_decide (a = b) then 0 else 1) = differ a b.
Proof. unfold differ. by case_bool_decide; case_decide. Qed.

Lemma differ_Some {A} `{EqDecision A} (a b : A) : differ (Some a) (Some b) = differ a b.
Proof. unfold differ. repeat case_decide; congruence. Qed.

Definition settings_differ (ssl ssl0 : list byte) (t t0 : TTYINFO) : Z :=
  let '(l, d, a, p, r, s) := settings ssl t in
  let '(l0, d0, a0, p0, r0, s0) := settings ssl0 t0 in
  differ l l0 + differ d d0 + differ a a0 + differ p p0 + differ r r0 + differ s s0.

Lemma settings_differ_0 ssl ssl0 t t0 : settings_differ ssl ssl0 t t0 = 0 <-> settings ssl t = settings ssl0 t0.
Proof.
  unfold settings_differ. destruct (settings ssl t) as [[[[[a b] c] d] e] f], (settings ssl0 t0) as [[[[[a' b'] c'] d'] e'] f'].
  unfold differ. repeat case_decide; subst; (split; [intros; first [done | lia]|]); intros Heq; first [done | congruence].
Qed.

Lemma cmp_settings ssl ssl0 t t0 junk :
  tty_ok t -> tty_ok t0 -> clean_tty t0 -> clean ssl0 -> no_nul ssl -> no_nul ssl0 -> 0 < zlen ssl0 ->
  oldcmd_cmp ssl (cmdline_of (args ssl0 t0) ++ junk) (zlen (cmdline_of (args ssl0 t0))) t =
  Some (settings_differ ssl ssl0 t t0).
Proof.
  intros Ht Ht0 Hc0 Hcs Hs Hs0 Hl0. pose proof (args_ok ssl0 t0 Ht0 Hs0 Hl0) as Ha.
  destruct (opt_values ssl0 t0 Hcs Hc0) as (V1 & V2 & V3 & V4 & V5 & V6).
  assert (Hcmp : forall o val, zlen o = 2 -> match val with Some v => no_nul v | None => True end ->
    __opt_cmp (cmdline_of (args ssl0 t0) ++ junk) (zlen (cmdline_of (args ssl0 t0))) o val =
    Some (if bool_decide (val = opt_value o (args ssl0 t0)) then 0 else 1)).
  { intros o val Ho Hv. apply opt_cmp_spec; [done| | | |done].
    - eapply Forall_impl; [exact Ha|]. by intros w [? _].
    - intros ->. done.
    - intros Hin. rewrite Forall_forall in Ha. destruct (Ha _ Hin) as [_ Hlen]. lia. }
  assert (Hw : forall n s, a_word n s -> no_nul s) by (intros n s [_ ?]; by apply plain_no_nul).
  destruct Ht as (H1 & _ & _ & H2 & H3 & H4 & _ & H5).
  assert (Hmon : no_nul (mon t)).
  { unfold mon. rewrite app_assoc. apply Forall_app. split; [by repeat constructor|by eapply Hw]. }
  unfold oldcmd_cmp. rewrite !Hcmp; try done; try (by eapply Hw);
    try (by destruct (has_redundant_ip t); [eapply Hw|]); try (by destruct (dev_ssl t)).
  cbn [mbind option_bind]. rewrite V1, V2, V3, V4, V5, V6. unfold settings_differ, settings.
  by rewrite !differ_bool, !differ_Some.
Qed.


