(* ===== verification/Spawn.v ===== *)
(** * Starting the daemons

    The search for the daemon of a port, the laws of the system around the
    starter, and that a second run of the starter changes nothing: the daemons it
    started are recognised by their command lines. *)

From S2P Require Import Prelude Text ProcTools Starter.

(** ** The search *)

Definition pid_of (p : proc) : Z := digits (d_name p) 0.

Definition cmd_of (p : proc) : list byte := default [] (p_cmdline p).

Definition holds (p : proc) (ino : Z) : bool := __pid_search_fd_inode p ino =? 0.

Definition is_live (p : proc) : bool := is_pid (d_name p) && p_exists p && negb (bool_decide (cmd_of p = [])).

(** A daemon that has the inode open. *)
Definition owns (ino : Z) (p : proc) : bool :=
  is_live p && (match strstr (cstr (cmd_of p)) CF_PORTPROG with Some _ => true | None => false end) && holds p ino.

Fixpoint owner (ino : Z) (l : list proc) : option proc :=
  match l with
  | [] => None
  | p :: l => if owns ino p then Some p else owner ino l
  end.

(** Command lines fit the buffer and end with a null byte. *)
Definition sane (n : Z) (p : proc) : Prop :=
  zlen (cmd_of p) <= n /\ (cmd_of p = [] \/ exists c, cmd_of p = c ++ [Byte.x00]).

Lemma sane_wide n m l : n <= m -> Forall (sane n) l -> Forall (sane m) l.
Proof. intros Hn Hl. eapply Forall_impl; [exact Hl|]. intros p [? ?]. split; [lia|done]. Qed.

Lemma str_at_start c junk : c <> [] -> (exists c', c = c' ++ [Byte.x00]) -> str_at (c ++ junk) 0 = Some (cstr c).
Proof.
  intros Hne [c' ->]. unfold str_at. pose proof (zlen_nonneg c'). pose proof (zlen_nonneg junk).
  rewrite zdrop_0. change (0 <=? 0) with true. rewrite (proj2 (Z.ltb_lt _ _)) by zlen_lia. cbn [andb].
  rewrite !existsb_app. cbn [existsb]. change (chr Byte.x00 =? 0) with true.
  rewrite !orb_true_r. cbn [orb]. f_equal. clear. induction c' as [|b c IH]; [done|]. cbn [app cstr]. case_if; [done|].
  by rewrite IH.
Qed.

Lemma search_spec n ino l : Forall (sane n) l -> forall buf, zlen buf = n ->
  exists buf', search_loop CF_PORTPROG ino l buf =
    Some (p ← owner ino l; Some (zlen (cmd_of p), pid_of p), buf') /\ zlen buf' = n /\
    (forall p, owner ino l = Some p -> exists junk, buf' = cmd_of p ++ junk).
Proof.
  induction 1 as [|p l [Hlen Hend] Hl IH]; intros buf Hb; cbn [search_loop owner]; [by exists buf|].
  unfold owns, is_live. destruct (is_pid (d_name p)) eqn:E1; cbn [negb andb]; [|by apply IH].
  destruct (p_exists p) eqn:E2; cbn [negb andb]; [|by apply IH].
  unfold __pidpath_get_cmd, cmd_of in *. destruct (p_cmdline p) as [c|] eqn:Ec; cbn [from_option] in *; unfold id in *; [|by apply IH].
  rewrite ztake_all by lia. pose proof (zlen_nonneg c).
  assert (Hz : zlen (c ++ zdrop (zlen c) buf) = n) by (rewrite zlen_app, zlen_zdrop; lia).
  destruct (Z.leb_spec (zlen c) 0) as [Hc|Hc].
  - change (-1 <=? 0) with true. cbv iota. assert (c = []) as -> by (apply zlen_0_nil; lia).
    rewrite bool_decide_true by done. cbn [negb andb]. by apply IH.
  - rewrite (proj2 (Z.leb_gt _ _)) by lia. assert (Hne : c <> []) by (intros ->; done).
    rewrite str_at_start; [|done|by destruct Hend]. cbn [mbind option_bind]. rewrite bool_decide_false by done.
    cbn [negb andb]. destruct (strstr (cstr c) CF_PORTPROG); cbn [andb]; [|by apply IH].
    unfold holds. destruct (__pid_search_fd_inode p ino =? 0); [|by apply IH].
    eexists. cbn [mbind option_bind]. rewrite Ec. split; [done|]. split; [done|]. intros q [= <-]. rewrite Ec. by eexists.
Qed.

(** ** The laws of the system *)

(** Words that a shell takes as they are: letters, digits and [-./:_%]. *)
Definition sh_byte (b : byte) : bool :=
  let c := chr b in
  ((48 <=? c) && (c <=? 58)) || ((65 <=? c) && (c <=? 90)) || ((97 <=? c) && (c <=? 122)) ||
  ((45 <=? c) && (c <=? 47)) || (c =? 95) || (c =? 37).
Definition sh_word (s : list byte) : Prop := s <> [] /\ Forall (fun b => sh_byte b = true) s.

Definition blank_join (ws : list (list byte)) : list byte :=
  match ws with [] => [] | w :: ws => w ++ concat (map (fun x => lit " " ++ x) ws) end.

Definition control {H} `{Host H} (h : H) (ino : Z) : Prop := exists name, stat_ino h (advproc name) = Some ino.

(** What is documented: a killed process is gone; a command in the background is a
    new process with the words as its arguments, and a daemon holds the control
    file of the port it is started for, and no other. *)
Class HostLaws (H : Type) `{Host H} := {
  stat_kill h pid path : stat_ino (sys_kill h pid) path = stat_ino h path;
  stat_system h line path : stat_ino (sys_system h line) path = stat_ino h path;
  procs_kill h pid : procs (sys_kill h pid) = filter (fun p => pid_of p <> pid) (procs h);
  procs_system h a name rest tail ino :
    let ws := CF_PORTPROG :: a :: (lit "-t" ++ name) :: rest in
    Forall sh_word ws -> (tail = [] \/ tail = lit " ") -> stat_ino h (advproc name) = Some ino ->
    exists l1 l2 p, procs h = l1 ++ l2 /\
      procs (sys_system h (blank_join ws ++ tail ++ lit "&")) = l1 ++ p :: l2 /\
      is_pid (d_name p) = true /\ p_exists p = true /\ p_cmdline p = Some (cmdline_of ws) /\
      holds p ino = true /\ (forall j, control h j -> holds p j = true -> j = ino) /\
      0 < pid_of p /\ pid_of p ∉ map pid_of (procs h);
}.

Lemma cmdline_end ws : ws <> [] -> exists c, cmdline_of ws = c ++ [Byte.x00].
Proof.
  intros Hne. destruct (exists_last Hne) as (l & w & ->). unfold cmdline_of.
  rewrite map_app, concat_app. cbn [map concat]. rewrite app_nil_r, app_assoc. by eexists.
Qed.

Lemma cmdline_len w ws : zlen (cmdline_of (w :: ws)) = zlen (blank_join (w :: ws)) + 1.
Proof.
  cbn [blank_join]. rewrite cmdline_cons, !zlen_app. change (zlen [Byte.x00]) with 1.
  assert (H : zlen (cmdline_of ws) = zlen (concat (map (fun x => lit " " ++ x) ws))); [|lia].
  induction ws as [|x ws IH]; [done|]. rewrite cmdline_cons. cbn [map concat]. rewrite !zlen_app, IH.
  change (zlen [Byte.x00]) with 1. change (zlen (lit " ")) with 1. lia.
Qed.

(** The text of the command is the words with blanks between them. *)
Lemma syscmd_join ssl t :
  syscmd_text ssl t = blank_join (args ssl t) ++ (if dev_ssl t then [] else lit " ").
Proof.
  unfold syscmd_text, args. cbn [app blank_join]. 
  destruct (has_redundant_ip t), (dev_ssl t); cbn [app map concat]; rewrite <- ?app_assoc; cbn [app];
    rewrite ?app_nil_r; repeat f_equal.
Qed.

Lemma str_at_0 w r : no_nul w -> str_at (w ++ Byte.x00 :: r) 0 = Some w.
Proof. exact (str_at_here [] w r). Qed.

(** Two prints one behind the other, as the starter does them. *)
Lemma print_two text tail m : no_nul (text ++ tail) -> zlen text + zlen tail + 1 < zlen m -> zlen m < 2 ^ 64 ->
  exists m1 m2, snprintf 0 (zlen m) text m = Some (zlen text, m1) /\
    snprintf (zlen text) (zlen m - zlen text - 1) tail m1 = Some (zlen tail, m2) /\
    zlen m2 = zlen m /\ str_at m2 0 = Some (text ++ tail).
Proof.
  intros Hnul Hlen Hm. pose proof (zlen_nonneg text). pose proof (zlen_nonneg tail). unfold snprintf.
  rewrite !Z.mod_small by lia. rewrite !(proj2 (Z.eqb_neq _ _)) by lia. rewrite !ztake_all by lia.
  assert (Hz : forall s : list byte, zlen (s ++ [Byte.x00]) = zlen s + 1) by (intros; by rewrite zlen_app).
  rewrite store_Some by (rewrite ?Hz; lia). cbn [mbind option_bind]. rewrite ztake_0. cbn [app].
  set (m1 := (text ++ [Byte.x00]) ++ _).
  assert (Hm1 : zlen m1 = zlen m) by (unfold m1; rewrite zlen_app, zlen_zdrop, Hz; [lia|rewrite ?Hz; lia]).
  eexists m1, _. split; [done|]. rewrite store_Some by (rewrite ?Hz, ?Hm1; lia). cbn [mbind option_bind].
  split; [done|]. assert (Ht : ztake (zlen text) m1 = text).
  { unfold m1. rewrite <- app_assoc, ztake_app_l, ztake_all by lia. done. }
  rewrite Ht. split.
  - rewrite !zlen_app, zlen_zdrop; rewrite ?zlen_app; change (zlen [Byte.x00]) with 1; lia.
  - rewrite <- !app_assoc. cbn [app]. rewrite app_assoc. by apply str_at_0.
Qed.

Section idempotent.
Context {W : Type} {HostW : Host W} {Laws : HostLaws W} (sslconf : list byte).

(** A command line the starter wrote. *)
Definition good (ssl : list byte) (t : TTYINFO) : Prop :=
  tty_ok t /\ clean_tty t /\ clean ssl /\ no_nul ssl /\ 0 < zlen ssl.

(** The processes as the system keeps them: a daemon has one control file and was
    started by the starter, and a control file has one daemon. *)
Definition host_ok (h : W) : Prop :=
  Forall (sane 1024) (procs h) /\ Forall (fun p => is_pid (d_name p) = true -> 0 < pid_of p) (procs h) /\
  NoDup (map pid_of (procs h)) /\
  (forall p q i, control h i -> p ∈ procs h -> q ∈ procs h -> owns i p = true -> owns i q = true -> p = q) /\
  (forall p i j, control h i -> control h j -> p ∈ procs h -> owns i p = true -> owns j p = true -> i = j) /\
  (forall p i, control h i -> p ∈ procs h -> owns i p = true ->
     exists s0 t0, good s0 t0 /\ cmd_of p = cmdline_of (args s0 t0)).

Lemma owner_in ino l p : owner ino l = Some p -> p ∈ l /\ owns ino p = true.
Proof.
  induction l as [|q l IH]; [done|]. cbn [owner]. destruct (owns ino q) eqn:E.
  - intros [= <-]. split; [apply elem_of_cons; by left|done].
  - intros Hp. destruct (IH Hp). split; [apply elem_of_cons; by right|done].
Qed.

Lemma owner_none ino l : owner ino l = None -> forall p, p ∈ l -> owns ino p = false.
Proof.
  induction l as [|q l IH]; intros Ho p Hp; [by apply elem_of_nil in Hp|]. cbn [owner] in Ho.
  destruct (owns ino q) eqn:E; [done|]. apply elem_of_cons in Hp as [->|Hp]; [done|]. by apply IH.
Qed.

Lemma owner_app ino l1 l2 : owner ino (l1 ++ l2) = match owner ino l1 with Some p => Some p | None => owner ino l2 end.
Proof. induction l1 as [|q l1 IH]; [done|]. cbn [app owner]. by destruct (owns ino q). Qed.

Lemma owner_insert ino l1 l2 p : owns ino p = false -> owner ino (l1 ++ p :: l2) = owner ino (l1 ++ l2).
Proof. intros Hp. rewrite !owner_app. cbn [owner]. by rewrite Hp. Qed.

Lemma owner_filter ino l pid : (forall p, p ∈ l -> owns ino p = true -> pid_of p <> pid) ->
  owner ino (filter (fun p => pid_of p <> pid) l) = owner ino l.
Proof.
  induction l as [|q l IH]; intros Hl; [done|]. rewrite filter_cons.
  assert (IH' : owner ino (filter (fun p => pid_of p <> pid) l) = owner ino l).
  { apply IH. intros p Hp. apply Hl, elem_of_cons. by right. }
  destruct (decide (pid_of q <> pid)) as [Hd|Hd]; cbn [owner]; [by rewrite IH'|].
  destruct (owns ino q) eqn:E; [|done]. exfalso. apply Hd. apply Hl; [apply elem_of_cons; by left|done].
Qed.

Lemma control_kill h pid i : control (sys_kill h pid) i <-> control h i.
Proof. unfold control. by setoid_rewrite stat_kill. Qed.

Lemma control_system h line i : control (sys_system h line) i <-> control h i.
Proof. unfold control. by setoid_rewrite stat_system. Qed.

Lemma kill_ok h pid : host_ok h -> host_ok (sys_kill h pid).
Proof.
  intros (H1 & H2 & H3 & H4 & H5 & H6). unfold host_ok. setoid_rewrite control_kill. rewrite procs_kill.
  assert (Hin : forall p, p ∈ filter (fun p => pid_of p <> pid) (procs h) -> p ∈ procs h).
  { intros p Hp. by apply list_elem_of_filter in Hp as [_ ?]. }
  split_and!.
  - apply Forall_forall. intros p Hp. rewrite Forall_forall in H1. auto.
  - apply Forall_forall. intros p Hp. rewrite Forall_forall in H2. auto.
  - eapply sublist_NoDup; [exact H3|]. apply (fmap_sublist pid_of), sublist_filter.
  - intros p q i Hi Hp Hq. apply H4; auto.
  - intros p i j Hi Hj Hp. apply H5; auto.
  - intros p i Hi Hp. apply (H6 p i); auto.
Qed.

(** The daemon that is killed is the only one of its port. *)
Lemma kill_frees h ino p : host_ok h -> control h ino -> owner ino (procs h) = Some p ->
  owner ino (procs (sys_kill h (pid_of p))) = None.
Proof.
  intros (_ & _ & _ & H4 & _) Hc Ho. apply owner_in in Ho as [Hp Hop]. rewrite procs_kill.
  destruct (owner ino (filter _ _)) as [q|] eqn:E; [|done]. exfalso. apply owner_in in E as [Hq Hoq].
  apply list_elem_of_filter in Hq as [Hne Hq]. by rewrite (H4 q p ino) in Hne.
Qed.

Lemma NoDup_same_pid (l : list proc) p q : NoDup (map pid_of l) -> p ∈ l -> q ∈ l -> pid_of p = pid_of q -> p = q.
Proof.
  induction l as [|x l IH]; intros Hn Hp Hq Heq; [by apply elem_of_nil in Hp|]. cbn [map] in Hn.
  apply NoDup_cons in Hn as [Hx Hn]. apply elem_of_cons in Hp as [->|Hp]; apply elem_of_cons in Hq as [->|Hq]; try done.
  - exfalso. apply Hx. rewrite Heq. by apply (list_elem_of_fmap_2 pid_of).
  - exfalso. apply Hx. rewrite <- Heq. by apply (list_elem_of_fmap_2 pid_of).
  - by apply IH.
Qed.

(** Other ports keep their daemons. *)
Lemma kill_keeps h ino p j : host_ok h -> control h ino -> control h j -> j <> ino ->
  owner ino (procs h) = Some p -> owner j (procs (sys_kill h (pid_of p))) = owner j (procs h).
Proof.
  intros (_ & _ & H3 & _ & H5 & _) Hc Hj Hne Ho. apply owner_in in Ho as [Hp Hop]. rewrite procs_kill.
  apply owner_filter. intros q Hq Hoq Heq. assert (q = p) as -> by (by eapply NoDup_same_pid).
  apply Hne. by apply (H5 p).
Qed.

(** A daemon is started for a port that has none. *)
Lemma system_ok h t tail ino : host_ok h -> good sslconf t -> Forall sh_word (args sslconf t) ->
  zlen (cmdline_of (args sslconf t)) <= 1024 -> (tail = [] \/ tail = lit " ") ->
  stat_ino h (advproc (mpt_nameidx_str t)) = Some ino -> owner ino (procs h) = None ->
  let h' := sys_system h (blank_join (args sslconf t) ++ tail ++ lit "&") in
  host_ok h' /\ (exists p, owner ino (procs h') = Some p /\ cmd_of p = cmdline_of (args sslconf t)) /\
  (forall j, control h j -> j <> ino -> owner j (procs h') = owner j (procs h)).
Proof.
  intros (H1 & H2 & H3 & H4 & H5 & H6) Hg Hws Hlen Htail Hst Hno h'. pose proof (owner_none _ _ Hno) as Hnone.
  destruct (procs_system h (lit "-l" ++ mon t) (mpt_nameidx_str t) (skipn 3 (args sslconf t)) tail ino Hws Htail Hst)
    as (l1 & l2 & p & Hl & Hl' & Hpid & Hex & Hcmd & Hholds & Honly & Hpos & Hfresh).
  change (procs h' = l1 ++ p :: l2) in Hl'.
  change (CF_PORTPROG :: _ :: _ :: _) with (args sslconf t) in Hcmd.
  assert (Hc : cmd_of p = cmdline_of (args sslconf t)) by (unfold cmd_of; by rewrite Hcmd).
  assert (Hown : owns ino p = true).
  { unfold owns, is_live. rewrite Hpid, Hex, Hc, Hholds. done. }
  assert (Hother : forall j, control h j -> j <> ino -> owns j p = false).
  { intros j Hj Hne. unfold owns. destruct (holds p j) eqn:E; [|by rewrite andb_false_r].
    exfalso. apply Hne. by apply Honly. }
  assert (Hin : forall q, q ∈ procs h' -> q = p \/ q ∈ procs h).
  { intros q. rewrite Hl', Hl, !elem_of_app, elem_of_cons. tauto. }
  assert (Hctl : forall i, control h' i <-> control h i) by (intros i; apply control_system).
  split_and!.
  - unfold host_ok. setoid_rewrite Hctl. split_and!.
    + rewrite Hl'. rewrite Hl in H1. apply Forall_app in H1 as [? ?]. apply Forall_app. split; [done|].
      constructor; [|done]. unfold sane. rewrite Hc. split; [done|]. right. by apply cmdline_end.
    + rewrite Hl'. rewrite Hl in H2. apply Forall_app in H2 as [? ?]. apply Forall_app. split; [done|]. by constructor.
    + rewrite Hl'. rewrite Hl in H3, Hfresh. rewrite map_app in *. cbn [map].
      rewrite <- Permutation_middle. by apply NoDup_cons.
    + intros a b i Hi Ha Hb Hoa Hob. destruct (Hin a Ha) as [->|Ha'], (Hin b Hb) as [->|Hb']; [done|..|by apply (H4 a b i)].
      * destruct (decide (i = ino)) as [->|Hne]; [by rewrite Hnone in Hob|by rewrite Hother in Hoa].
      * destruct (decide (i = ino)) as [->|Hne]; [by rewrite Hnone in Hoa|by rewrite Hother in Hob].
    + intros a i j Hi Hj Ha Hoa Hob. destruct (Hin a Ha) as [->|Ha']; [|by apply (H5 a i j)].
      destruct (decide (i = ino)) as [->|Hne]; [|by rewrite Hother in Hoa].
      destruct (decide (j = ino)) as [->|Hne]; [done|by rewrite Hother in Hob].
    + intros a i Hi Ha Hoa. destruct (Hin a Ha) as [->|Ha']; [|by apply (H6 a i)]. by exists sslconf, t.
  - exists p. split; [|done]. rewrite Hl', owner_app. cbn [owner]. rewrite Hown.
    destruct (owner ino l1) as [q|] eqn:E; [|done]. apply owner_in in E as [Hq Hoq].
    rewrite Hnone in Hoq; [done|]. rewrite Hl. apply elem_of_app. by left.
  - intros j Hj Hne. rewrite Hl', Hl. by apply owner_insert, Hother.
Qed.

(** The daemon of a port runs with the settings of the entry. *)
Definition started (h : W) (t : TTYINFO) : Prop :=
  exists ino p s0 t0, stat_ino h (advproc (mpt_nameidx_str t)) = Some ino /\ owner ino (procs h) = Some p /\
    good s0 t0 /\ cmd_of p = cmdline_of (args s0 t0) /\ settings sslconf t = settings s0 t0.

(** An entry whose command the shell takes as it is, and that fits the buffer. *)
Definition runnable (t : TTYINFO) : Prop :=
  good sslconf t /\ Forall sh_word (args sslconf t) /\ zlen (syscmd_text sslconf t) <= 1021.

Definition bufs_ok (b : spawn_bufs) : Prop := zlen (oldcmd b) = 2048 /\ zlen (syscmd b) = 1024.

Lemma runnable_cmdline t : runnable t ->
  zlen (cmdline_of (args sslconf t)) <= 1024 /\ no_nul (syscmd_text sslconf t ++ lit "&").
Proof.
  intros ((Ht & _ & _ & Hn & Hl) & Hsh & Hlen). split.
  - assert (Hj := syscmd_join sslconf t). rewrite Hj, zlen_app in Hlen.
    pose proof (zlen_nonneg (if dev_ssl t then [] else lit " ")).
    assert (Hc : zlen (cmdline_of (args sslconf t)) = zlen (blank_join (args sslconf t)) + 1) by apply cmdline_len. lia.
  - apply sep_no_nul; [|by repeat constructor]. rewrite syscmd_join.
    apply sep_no_nul; [|by destruct (dev_ssl t); repeat constructor].
    pose proof (args_ok sslconf t Ht Hn Hl) as Ha. clear -Ha.
    destruct Ha as [|w ws [Hw _] Ha]; [constructor|]. cbn [blank_join]. apply sep_no_nul; [done|].
    induction Ha as [|x ws [Hx _] Ha IH]; [constructor|]. cbn [map concat].
    apply sep_no_nul; [|done]. apply sep_no_nul; [by repeat constructor|done].
Qed.

(** What is found for a port, and whether it has to be started. *)
Lemma compare_found h t ino b : host_ok h -> runnable t ->
  stat_ino h (advproc (mpt_nameidx_str t)) = Some ino -> zlen (oldcmd b) = 2048 ->
  exists old, zlen old = 2048 /\
    __cmd_inode_search_pid h CF_PORTPROG ino (oldcmd b) =
      Some (p ← owner ino (procs h); Some (zlen (cmd_of p), pid_of p), old) /\
    (forall p, owner ino (procs h) = Some p ->
      0 < pid_of p /\ exists d, oldcmd_cmp sslconf old (zlen (cmd_of p)) t = Some d /\ (d = 0 <-> started h t)).
Proof.
  intros (H1 & H2 & _ & _ & _ & H6) ((Ht & _ & _ & Hn & _) & _) Hst Hb.
  apply (sane_wide 1024 2048) in H1; [|lia].
  destruct (search_spec 2048 ino (procs h) H1 (oldcmd b) Hb) as (old & Hs & Hl & Hold). exists old.
  split; [done|]. split; [done|]. intros p Hp. destruct (Hold p Hp) as [junk ->].
  destruct (owner_in _ _ _ Hp) as [Hin Hown]. split.
  { rewrite Forall_forall in H2. apply (H2 p Hin). unfold owns, is_live in Hown. by destruct (is_pid (d_name p)). }
  destruct (H6 p ino) as (s0 & t0 & Hg & Hc); [by eexists|done|done|]. pose proof Hg as (Ht0 & Hct & Hcs & Hns & Hls).
  rewrite Hc. pose proof (cmp_settings sslconf s0 t t0 junk Ht Ht0 Hct Hcs Hn Hns Hls) as Hd.
  eexists. split; [done|]. split.
  - intros He%settings_differ_0. by exists ino, p, s0, t0.
  - intros (ino' & p' & s1 & t1 & Hst' & Hp' & Hg1 & Hc1 & He). rewrite Hst in Hst'. injection Hst' as <-.
    rewrite Hp in Hp'. injection Hp' as <-. rewrite Hc in Hc1.
    destruct Hg1 as (G1 & G2 & G3 & G4 & G5).
    pose proof (cmp_settings sslconf s1 t t1 junk Ht G1 G2 G3 Hn G4 G5) as Hd'. rewrite <- Hc1, Hd in Hd'.
    injection Hd' as ->. by apply settings_differ_0.
Qed.

Lemma spawn_one_spec t h b ino : host_ok h -> runnable t -> bufs_ok b ->
  stat_ino h (advproc (mpt_nameidx_str t)) = Some ino ->
  exists h' b', spawn_one sslconf false t h b = Some (inr (h', b')) /\ bufs_ok b' /\ host_ok h' /\ started h' t /\
    (forall path, stat_ino h' path = stat_ino h path) /\
    (forall j, control h j -> j <> ino -> owner j (procs h') = owner j (procs h)) /\
    (started h t -> h' = h).
Proof.
  intros Hh Ht [Hb1 Hb2] Hst. unfold spawn_one. rewrite Hst.
  assert (Hctl : control h ino) by (by eexists).
  destruct (compare_found h t ino b Hh Ht Hst Hb1) as (old & Hold & -> & Hcmp). cbn [mbind option_bind].
  destruct (runnable_cmdline t Ht) as [Hcl Hnn].
  assert (Hrun : forall h1, host_ok h1 -> owner ino (procs h1) = None -> (forall path, stat_ino h1 path = stat_ino h path) ->
    (forall j, control h j -> j <> ino -> owner j (procs h1) = owner j (procs h)) ->
    forall h2, h2 = sys_system h1 (syscmd_text sslconf t ++ lit "&") ->
    host_ok h2 /\ started h2 t /\ (forall path, stat_ino h2 path = stat_ino h path) /\
    (forall j, control h j -> j <> ino -> owner j (procs h2) = owner j (procs h))).
  { intros h1 Hh1 Ho1 Hs1 Hj1 h2 ->. destruct Ht as (Hg & Hsh & Hlen). rewrite syscmd_join, <- app_assoc.
    destruct (system_ok h1 t (if dev_ssl t then [] else lit " ") ino) as (K1 & (p & K2 & K3) & K4); try done.
    { destruct (dev_ssl t); tauto. } { by rewrite Hs1. }
    split; [done|]. split.
    { exists ino, p, sslconf, t. by rewrite stat_system, Hs1. }
    split; [intros; by rewrite stat_system|]. intros j Hj Hne. rewrite K4; [by apply Hj1| |done].
    destruct Hj as [nm Hnm]. exists nm. by rewrite Hs1. }
  destruct (print_two (syscmd_text sslconf t) (lit "&") (syscmd b)) as (m1 & m2 & P1 & P2 & P3 & P4); try done.
  { destruct Ht as (_ & _ & ?). change (zlen (lit "&")) with 1. lia. } { by rewrite Hb2. }
  rewrite Hb2 in P1, P2, P3. unfold _create_syscmd. cbn [syscmd].
  destruct (owner ino (procs h)) as [p|] eqn:Eo; cbn [mbind option_bind].
  - destruct (Hcmp p eq_refl) as (Hpos & d & -> & Hd). cbn [mbind option_bind].
    destruct (Z.eqb_spec d 0) as [Hz|Hz].
    + exists h, (mk_bufs old (syscmd b)). apply Hd in Hz. split_and!; try done.
    + rewrite P1. cbn [mbind option_bind]. rewrite P2. cbn [mbind option_bind snd]. rewrite P4. cbn [mbind option_bind].
      rewrite (proj2 (Z.ltb_lt _ _)) by lia. cbn [negb andb]. eexists _, _. split; [done|]. split; [done|].
      destruct (Hrun (sys_kill h (pid_of p)) (kill_ok h _ Hh) (kill_frees h ino p Hh Hctl Eo)) with (h2 := sys_system (sys_kill h (pid_of p)) (syscmd_text sslconf t ++ lit "&"))
        as (K1 & K2 & K3 & K4); [intros; by rewrite stat_kill|intros j Hj Hne; by apply (kill_keeps h ino p j)|done|].
      split_and!; try done. intros Hs. exfalso. by apply Hz, Hd.
  - rewrite P1. cbn [mbind option_bind]. rewrite P2. cbn [mbind option_bind snd]. rewrite P4. cbn [mbind option_bind].
    change ((0 <? 0) && negb false) with false. cbv iota. eexists _, _. split; [done|]. split; [done|].
    destruct (Hrun h Hh Eo) with (h2 := sys_system h (syscmd_text sslconf t ++ lit "&")) as (K1 & K2 & K3 & K4); try done.
    split_and!; try done. intros (i & q & ? & ? & Hi & Hq & _). rewrite Hst in Hi. injection Hi as <-. congruence.
Qed.

Lemma started_keep h h' t ino : stat_ino h (advproc (mpt_nameidx_str t)) = Some ino ->
  (forall path, stat_ino h' path = stat_ino h path) -> owner ino (procs h') = owner ino (procs h) ->
  started h t -> started h' t.
Proof.
  intros Hst Hs Ho (i & p & s0 & t0 & Hi & Hp & Hrest). rewrite Hst in Hi. injection Hi as <-.
  exists ino, p, s0, t0. by rewrite Hs, Ho.
Qed.

(** The control files of the ports. *)
Definition has_control (h : W) (t : TTYINFO) (ino : Z) : Prop := stat_ino h (advproc (mpt_nameidx_str t)) = Some ino.

Lemma spawn_all l : forall inos h b, host_ok h -> bufs_ok b -> Forall runnable l ->
  Forall2 (has_control h) l inos -> NoDup inos ->
  exists h' b', spawn_ttyp sslconf false l h b = Some (h', b') /\ bufs_ok b' /\ host_ok h' /\ Forall (started h') l /\
    (forall path, stat_ino h' path = stat_ino h path) /\
    (forall j, control h j -> j ∉ inos -> owner j (procs h') = owner j (procs h)) /\
    (Forall (started h) l -> h' = h).
Proof.
  induction l as [|t l IH]; intros inos h b Hh Hb Hl Hi Hnd; cbn [spawn_ttyp].
  { exists h, b. by split_and!. }
  apply Forall_cons in Hl as [Ht Hl]. apply Forall2_cons_inv_l in Hi as (ino & inos' & Hino & Hi & ->).
  apply NoDup_cons in Hnd as [Hni Hnd].
  destruct (spawn_one_spec t h b ino Hh Ht Hb Hino) as (h1 & b1 & -> & Hb1 & Hh1 & Hst1 & Hs1 & Ho1 & Hid1).
  cbn [mbind option_bind].
  destruct (IH inos' h1 b1) as (h2 & b2 & -> & Hb2 & Hh2 & Hst2 & Hs2 & Ho2 & Hid2); try done.
  { eapply Forall2_impl; [exact Hi|]. intros x i Hx. unfold has_control. by rewrite Hs1. }
  assert (Hc1 : forall j, control h j -> control h1 j) by (intros j [nm Hnm]; exists nm; by rewrite Hs1).
  assert (Hino1 : stat_ino h1 (advproc (mpt_nameidx_str t)) = Some ino) by (by rewrite Hs1).
  exists h2, b2. split_and!; try done.
  - constructor; [|done]. eapply started_keep; [exact Hino1|done| |done].
    apply Ho2; [by eexists|done].
  - intros path. by rewrite Hs2, Hs1.
  - intros j Hj [Hne Hnj]%not_elem_of_cons. rewrite Ho2 by auto. by apply Ho1.
  - intros [Hs Hsl]%Forall_cons. rewrite (Hid1 Hs) in *. by apply Hid2.
Qed.

(** The ports [i], ..., [i + n - 1] after the cleanup: those that are not configured
    lost their daemons, and nothing else happened. *)
Definition configured (l : list TTYINFO) (i : Z) : bool := existsb (fun t => atoi (mpt_nameidx_str t) =? i) l.

Definition cleaned (l : list TTYINFO) (i n : Z) (h h' : W) : Prop :=
  host_ok h' /\ (forall path, stat_ino h' path = stat_ino h path) /\
  (forall a ino, i <= a < i + n -> stat_ino h (advproc (dec a)) = Some ino ->
     owner ino (procs h') = if configured l a then owner ino (procs h) else None) /\
  (forall j, control h j -> (forall a, i <= a < i + n -> stat_ino h (advproc (dec a)) <> Some j) ->
     owner j (procs h') = owner j (procs h)) /\
  ((forall a ino, i <= a < i + n -> stat_ino h (advproc (dec a)) = Some ino -> configured l a = false ->
     owner ino (procs h) = None) -> h' = h).

(** The ports have control files of their own. *)
Definition distinct (i n : Z) (h : W) : Prop :=
  forall a b ino, i <= a < i + n -> i <= b < i + n ->
    stat_ino h (advproc (dec a)) = Some ino -> stat_ino h (advproc (dec b)) = Some ino -> a = b.

Lemma cleaned_cons l i n h h1 h' : 0 <= n -> distinct i (n + 1) h ->
  cleaned l i 1 h h1 -> cleaned l (i + 1) n h1 h' -> cleaned l i (n + 1) h h'.
Proof.
  intros Hn Hd (Hh1 & Hs1 & Hi1 & Ho1 & He1) (Hh' & Hs' & Hi' & Ho' & He').
  assert (Hct : forall j, control h j -> control h1 j) by (intros j [nm Hnm]; exists nm; by rewrite Hs1).
  assert (Hno : forall a ino, i + 1 <= a < i + 1 + n -> stat_ino h (advproc (dec a)) = Some ino ->
    owner ino (procs h1) = owner ino (procs h)).
  { intros a ino Ha Hst. apply Ho1; [by eexists|]. intros b Hb Hst'. assert (a = b) by (apply (Hd a b ino); (done || lia)). lia. }
  split; [done|]. split; [intros; by rewrite Hs', Hs1|]. split_and!.
  - intros a ino Ha Hst. destruct (decide (a = i)) as [->|Hne].
    + rewrite Ho'; [apply Hi1; (done || lia)|by apply Hct; eexists|]. intros b Hb Hst'. rewrite Hs1 in Hst'.
      assert (i = b) by (apply (Hd i b ino); (done || lia)). lia.
    + rewrite (Hi' a ino) by (lia || by rewrite Hs1). by rewrite (Hno a) by (done || lia).
  - intros j Hj Hnj. rewrite Ho'; [|by apply Hct|intros a Ha; rewrite Hs1; apply Hnj; lia].
    apply Ho1; [done|]. intros a Ha. apply Hnj. lia.
  - intros Hnone. assert (h1 = h) as ->; [apply He1; intros; eapply Hnone; [|done|done]; lia|].
    apply He'. intros. eapply Hnone; [|done|done]; lia.
Qed.

(** A port without a control file or a daemon, or one that is configured. *)
Lemma cleaned_same l i h : host_ok h ->
  (forall ino, stat_ino h (advproc (dec i)) = Some ino -> configured l i = false -> owner ino (procs h) = None) ->
  cleaned l i 1 h h.
Proof.
  intros Hh Hi. split_and!; try done. intros a ino Ha. assert (a = i) as -> by lia. intros Hst.
  destruct (configured l i) eqn:E; [done|]. by apply Hi.
Qed.

Lemma cleanup_all l n : forall i h cmd, host_ok h -> zlen cmd = 1024 -> distinct i (Z.of_nat n) h ->
  exists h' cmd', cleanup_loop false n i l h cmd = Some (h', cmd') /\ zlen cmd' = 1024 /\ cleaned l i (Z.of_nat n) h h'.
Proof.
  induction n as [|n IH]; intros i h cmd Hh Hc Hd.
  { exists h, cmd. unfold cleaned. split_and!; try done. intros a ino Ha. simpl in Ha. lia. }
  cbn [cleanup_loop]. replace (Z.of_nat (S n)) with (Z.of_nat n + 1) in * by lia.
  assert (Hstep : forall h1 cmd1, zlen cmd1 = 1024 -> cleaned l i 1 h h1 ->
    exists h' cmd', cleanup_loop false n (i + 1) l h1 cmd1 = Some (h', cmd') /\ zlen cmd' = 1024 /\
      cleaned l i (Z.of_nat n + 1) h h').
  { intros h1 cmd1 Hc1 Hcl. pose proof Hcl as (Hh1 & Hs1 & _).
    destruct (IH (i + 1) h1 cmd1 Hh1 Hc1) as (h' & cmd' & -> & Hc' & Hcl').
    { intros a b ino Ha Hb. rewrite !Hs1. apply Hd; lia. }
    exists h', cmd'. split_and!; try done. eapply cleaned_cons; (done || lia). }
  destruct (stat_ino h (advproc (dec i))) as [ino|] eqn:Est; [|apply Hstep; [done|]; apply cleaned_same; congruence].
  assert (Hctl : control h ino) by (by eexists).
  unfold __cmd_inode_search_pid. pose proof Hh as (H1 & _).
  destruct (search_spec 1024 ino (procs h) H1 cmd Hc) as (buf & -> & Hbuf & _). cbn [mbind option_bind].
  destruct (owner ino (procs h)) as [p|] eqn:Eo; cbn [mbind option_bind];
    [|apply Hstep; [done|]; apply cleaned_same; congruence].
  rewrite orb_false_r. fold (configured l i).
  destruct (configured l i) eqn:Ec; (apply Hstep; [done|]); [apply cleaned_same; congruence|].
  split; [by apply kill_ok|]. split; [intros; apply stat_kill|]. split_and!.
  - intros a j Ha. assert (a = i) as -> by lia. rewrite Est, Ec. intros [= <-]. by apply kill_frees.
  - intros j Hj Hne. apply (kill_keeps h ino p j); try done. intros ->. by apply (Hne i); [lia|].
  - intros Hn. rewrite (Hn i ino) in Eo; (done || lia).
Qed.

(** The names of the ports are their numbers. *)
Definition numbered (t : TTYINFO) : Prop :=
  0 <= atoi (mpt_nameidx_str t) < CF_MAXPORTS /\ mpt_nameidx_str t = dec (atoi (mpt_nameidx_str t)).

(** One run of both: the configured ports have daemons with their settings, the other
    ports have none; and when it was so already, nothing happens. *)
Lemma clean_and_spawn l inos h cmd b : host_ok h -> zlen cmd = 1024 -> bufs_ok b ->
  distinct 0 CF_MAXPORTS h -> Forall runnable l -> Forall numbered l -> Forall2 (has_control h) l inos -> NoDup inos ->
  exists h1 cmd1 h2 b2, cleanup_ttyp false l h cmd = Some (h1, cmd1) /\ spawn_ttyp sslconf false l h1 b = Some (h2, b2) /\
    host_ok h2 /\ Forall (started h2) l /\ (forall path, stat_ino h2 path = stat_ino h path) /\
    (forall i ino, 0 <= i < CF_MAXPORTS -> configured l i = false -> stat_ino h (advproc (dec i)) = Some ino ->
       owner ino (procs h2) = None) /\
    (Forall (started h) l -> (forall i ino, 0 <= i < CF_MAXPORTS -> configured l i = false ->
       stat_ino h (advproc (dec i)) = Some ino -> owner ino (procs h) = None) -> h2 = h).
Proof.
  intros Hh Hc Hb Hd Hl Hnum Hi Hnd.
  destruct (cleanup_all l (Z.to_nat CF_MAXPORTS) 0 h cmd Hh Hc Hd) as (h1 & cmd1 & Hcl & _ & Hh1 & Hs1 & Hi1 & _ & He1).
  change (Z.of_nat (Z.to_nat CF_MAXPORTS)) with CF_MAXPORTS in *.
  destruct (spawn_all l inos h1 b) as (h2 & b2 & Hsp & _ & Hh2 & Hst2 & Hs2 & Ho2 & He2); try done.
  { eapply Forall2_impl; [exact Hi|]. intros t i Ht. unfold has_control. by rewrite Hs1. }
  exists h1, cmd1, h2, b2. split_and!; try done.
  - intros path. by rewrite Hs2, Hs1.
  - intros i ino Hr Hcf Hst. rewrite Ho2.
    + rewrite (Hi1 i ino) by (done || lia). by rewrite Hcf.
    + exists (dec i). by rewrite Hs1.
    + intros Hin. apply list_elem_of_lookup in Hin as [k Hk]. destruct (Forall2_lookup_r _ _ _ _ _ Hi Hk) as (t & Ht & Htc).
      apply list_elem_of_lookup_2 in Ht. rewrite Forall_forall in Hnum. destruct (Hnum t Ht) as [Hrng Hname].
      unfold has_control in Htc. rewrite Hname in Htc. assert (i = atoi (mpt_nameidx_str t)) by (apply (Hd _ _ ino); (done || lia)).
      assert (configured l i = true); [|congruence]. apply existsb_exists. exists t. split; [by apply list_elem_of_In|by apply Z.eqb_eq].
  - intros Hs Hn. assert (h1 = h) as -> by (apply He1; intros; eapply Hn; (done || lia)). by apply He2.
Qed.
End idempotent.

(** ** Commands that do not fit *)

Lemma print_cut size text m : 0 < size < 2 ^ 64 -> zlen m = size ->
  exists m', snprintf 0 size text m = Some (zlen text, m') /\ zlen m' = size /\
    (zlen text < size -> exists r, m' = text ++ [Byte.x00] ++ r).
Proof.
  intros Hs Hm. unfold snprintf. rewrite Z.mod_small by lia. rewrite (proj2 (Z.eqb_neq _ _)) by lia.
  assert (Hz : zlen (ztake (size - 1) text ++ [Byte.x00]) <= size).
  { pose proof (zlen_nonneg text). rewrite zlen_app. change (zlen [Byte.x00]) with 1.
    destruct (Z.le_ge_cases (zlen text) (size - 1)); [rewrite ztake_all by done; lia|rewrite zlen_ztake by lia; lia]. }
  rewrite store_Some by lia. cbn [mbind option_bind]. eexists. split; [done|]. rewrite ztake_0. cbn [app]. split.
  - rewrite zlen_app, zlen_zdrop by (pose proof (zlen_nonneg (ztake (size - 1) text ++ [Byte.x00])); lia). lia.
  - intros Hl. rewrite ztake_all by lia. rewrite <- app_assoc. by eexists.
Qed.

(** C29: The command of a port that has no daemon is printed into 1024 bytes: up to
    1021 bytes it is run in the background; a command of 1022 or 1023 bytes loses its
    ampersand, so that the starter waits for the daemon; a longer one is cut, and the
    ampersand is written outside of the buffer, because the size that is left wraps. *)
Theorem spawn_command_bounds {W} `{Host W} sslconf t (h : W) b ino :
  let text := syscmd_text sslconf t in
  stat_ino h (advproc (mpt_nameidx_str t)) = Some ino -> Forall (sane 2048) (procs h) -> owner ino (procs h) = None ->
  bufs_ok b -> no_nul text -> zlen text < 2 ^ 31 ->
  if zlen text <=? 1023 then
    exists b', spawn_one sslconf false t h b =
      Some (inr (sys_system h (text ++ (if zlen text <=? 1021 then lit "&" else [])), b'))
  else spawn_one sslconf false t h b = None.
Proof.
  intros text Hst Hsane Hno [Hb1 Hb2] Hnn Hlen. pose proof (zlen_nonneg text). unfold spawn_one. rewrite Hst.
  unfold __cmd_inode_search_pid.
  destruct (search_spec 2048 ino (procs h) Hsane (oldcmd b) Hb1) as (old & -> & _ & _). rewrite Hno.
  cbn [mbind option_bind]. change ((0 <? 0) && negb false) with false. cbv iota. cbn [syscmd].
  unfold _create_syscmd. fold text. destruct (Z.leb_spec (zlen text) 1021) as [H1|H1].
  - rewrite (proj2 (Z.leb_le _ _)) by lia.
    destruct (print_two text (lit "&") (syscmd b)) as (m1 & m2 & P1 & P2 & _ & P4).
    { apply sep_no_nul; [done|by repeat constructor]. }
    { change (zlen (lit "&")) with 1. lia. }
    { by rewrite Hb2. }
    rewrite Hb2 in P1, P2. rewrite P1. cbn [mbind option_bind]. rewrite P2. cbn [mbind option_bind snd]. rewrite P4.
    cbn [mbind option_bind]. by eexists.
  - destruct (print_cut 1024 text (syscmd b)) as (m & -> & Hm & Hcut); [done|done|]. cbn [mbind option_bind].
    unfold snprintf. destruct (Z.leb_spec (zlen text) 1023) as [H2|H2].
    + destruct Hcut as [r ->]; [lia|]. cbn [app] in Hm |- *. rewrite Z.mod_small by lia. destruct (Z.eqb_spec (1024 - zlen text - 1) 0) as [E|E]; cbn [mbind option_bind snd].
      * cbn [app]; rewrite str_at_0 by done. cbn [mbind option_bind]. rewrite app_nil_r. by eexists.
      * replace (1024 - zlen text - 1 - 1) with 0 by lia. rewrite ztake_0. change ([] ++ [Byte.x00]) with [Byte.x00].
        rewrite store_Some by (rewrite ?Hm; change (zlen [Byte.x00]) with 1; lia). cbn [mbind option_bind snd].
        rewrite ztake_app_l, ztake_all by lia. cbn [app]. rewrite str_at_0 by done. cbn [mbind option_bind].
        rewrite app_nil_r. by eexists.
    + replace (1024 - zlen text - 1) with (- (zlen text - 1023)) by lia.
      rewrite Z.mod_opp_l_nz by (try rewrite Z.mod_small; lia). rewrite Z.mod_small by lia.
      rewrite (proj2 (Z.eqb_neq _ _)) by lia. rewrite (ztake_all _ (lit "&")) by (change (zlen (lit "&")) with 1; lia).
      unfold store. rewrite (proj2 (Z.leb_le _ _)) by lia. change (zlen (lit "&" ++ [Byte.x00])) with 2.
      by repeat (case_if; try done; try lia).
Qed.

(** ** A whole run *)

Definition sslconf_of (w : list byte) : list byte :=
  ztake (PATH_MAX - 1) (ztake (PATH_MAX - NAME_MAX - 1) w ++ lit "/" ++ CF_SSLCONF).

Section run.
Context {W : Type} {HostW : Host W} {Laws : HostLaws W}.

End run.

(** ** A system with these laws *)

Lemma digit_chr n : 0 <= n < 10 -> chr (digit n) = 48 + n.
Proof. intros. unfold chr, digit. rewrite byte.unsigned_of_Z. unfold byte.wrap. rewrite Z.mod_small; lia. Qed.

Lemma digit_is_digit n : 0 <= n < 10 -> is_digit (digit n) = true.
Proof. intros H. unfold is_digit. rewrite digit_chr by done. apply andb_true_iff. rewrite !Z.leb_le. lia. Qed.

Lemma digits_dec_loop fuel : forall n acc, 0 <= n < 2 ^ Z.of_nat fuel ->
  digits (dec_loop fuel n acc) 0 = digits acc n /\ ((0 < fuel)%nat -> is_pid (dec_loop fuel n acc) = true).
Proof.
  induction fuel as [|fuel IH]; intros n acc Hn.
  { split; [|lia]. cbn [dec_loop]. change (2 ^ Z.of_nat 0) with 1 in Hn. by replace n with 0 by lia. }
  cbn [dec_loop]. destruct (Z.ltb_spec n 10).
  - cbn [digits is_pid]. rewrite digit_is_digit, digit_chr by lia. split; [f_equal; lia|done].
  - rewrite Nat2Z.inj_succ, Z.pow_succ_r in Hn by lia. destruct (IH (n / 10) (digit (n mod 10) :: acc)) as [IH1 IH2].
    { split; [apply Z.div_pos; lia|]. apply Z.div_lt_upper_bound; lia. }
    pose proof (Z.mod_pos_bound n 10). split.
    + rewrite IH1. cbn [digits]. rewrite digit_is_digit, digit_chr by lia. f_equal. pose proof (Z.div_mod n 10). lia.
    + intros _. apply IH2. destruct fuel; [|lia]. change (2 ^ Z.of_nat 0) with 1 in Hn. lia.
Qed.

Lemma dec_ok n : 0 <= n -> digits (dec n) 0 = n /\ is_pid (dec n) = true.
Proof.
  intros Hn. unfold dec. rewrite (proj2 (Z.ltb_ge _ _)) by lia.
  destruct (digits_dec_loop (S (Z.to_nat (Z.log2 n))) n []) as [H1 H2].
  { destruct (decide (n = 0)) as [->|Hz]; [done|]. pose proof (Z.log2_spec n ltac:(lia)). pose proof (Z.log2_nonneg n). rewrite Nat2Z.inj_succ, Z2Nat.id by done. lia. }
  split; [exact H1|]. apply H2. lia.
Qed.

(** The files with their inodes, and the processes. *)
Record sim := mk_sim { files : list (list byte * Z); running : list proc }.

Fixpoint find_file (path : list byte) (l : list (list byte * Z)) : option Z :=
  match l with
  | [] => None
  | (p, ino) :: l => if decide (p = path) then Some ino else find_file path l
  end.

(** The words of a command. *)
Fixpoint split_blank (s w : list byte) : list (list byte) :=
  match s with
  | [] => if decide (w = []) then [] else [w]
  | b :: s =>
      if chr b =? 32 then (if decide (w = []) then [] else [w]) ++ split_blank s []
      else split_blank s (w ++ [b])
  end.

Definition next_pid (l : list proc) : Z := 1 + foldr Z.max 0 (map pid_of l).

Definition run_command (s : sim) (line : list byte) : sim :=
  let ws := split_blank (ztake (zlen line - 1) line) [] in
  match ws with
  | prog :: a :: t :: _ =>
      let ino := find_file (advproc (zdrop 2 t)) (files s) in
      mk_sim (files s) (running s ++ [mk_proc (dec (next_pid (running s))) true (Some (cmdline_of ws)) (Some [ino])])
  | _ => s
  end.

#[export] Instance sim_host : Host sim := {
  stat_ino s path := find_file path (files s);
  procs := running;
  sys_kill s pid := mk_sim (files s) (filter (fun p => pid_of p <> pid) (running s));
  sys_system := run_command;
}.

Lemma sh_byte_word w rest acc : Forall (fun b => sh_byte b = true) w -> split_blank (w ++ rest) acc = split_blank rest (acc ++ w).
Proof.
  intros H. revert acc. induction H as [|b w Hb Hw IH]; intros acc; [by rewrite app_nil_r|]. cbn [app split_blank].
  destruct (Z.eqb_spec (chr b) 32) as [E|E].
  - unfold sh_byte in Hb. rewrite E in Hb. done.
  - rewrite IH, <- app_assoc. done.
Qed.

Lemma split_join ws tail : Forall sh_word ws -> ws <> [] -> (tail = [] \/ tail = lit " ") ->
  split_blank (blank_join ws ++ tail) [] = ws.
Proof.
  intros H Hne Ht. destruct H as [|w ws [Hwne Hw] Hws]; [done|]. cbn [blank_join]. rewrite <- app_assoc, sh_byte_word by done.
  cbn [app]. clear Hne Hw. revert w Hwne. induction Hws as [|x ws [Hx1 Hx] Hws IH]; intros w Hw; cbn [map concat app].
  - destruct Ht as [->| ->]; [cbn [split_blank]; by rewrite decide_False by done|].
    change (lit " ") with [Byte.x20]. cbn [split_blank]. change (chr Byte.x20 =? 32) with true. cbv iota.
    by rewrite decide_False, decide_True by done.
  - change (lit " ") with [Byte.x20]. rewrite <- !app_assoc. cbn [app split_blank].
    change (chr Byte.x20 =? 32) with true. cbv iota. rewrite decide_False by done. rewrite sh_byte_word by done.
    cbn [app]. f_equal. by apply IH.
Qed.

Lemma next_pid_fresh l : 0 < next_pid l /\ next_pid l ∉ map pid_of l.
Proof.
  unfold next_pid. assert (H : 0 <= foldr Z.max 0 (map pid_of l) /\ forall x, x ∈ map pid_of l -> x <= foldr Z.max 0 (map pid_of l)).
  { induction (map pid_of l) as [|x xs [IH1 IH2]]; cbn [foldr]; [split; [done|]; intros x Hx; by apply elem_of_nil in Hx|].
    split; [lia|]. intros y [->|Hy]%elem_of_cons; [lia|]. specialize (IH2 y Hy). lia. }
  destruct H as [H1 H2]. split; [lia|]. intros Hin. specialize (H2 _ Hin). lia.
Qed.

#[export] Instance sim_laws : HostLaws sim.
Proof.
  split; try done.
  - intros h line path. cbn. unfold run_command. by repeat case_match.
  - intros h a name rest tail ino ws Hws Ht Hst. cbn [stat_ino procs sys_system sim_host] in *. unfold run_command.
    rewrite app_assoc. replace (zlen _ - 1) with (zlen (blank_join ws ++ tail))
      by (rewrite (zlen_app _ (lit "&")); change (zlen (lit "&")) with 1; lia).
    rewrite ztake_app_l, ztake_all by lia.
    rewrite split_join by done. subst ws. cbv beta iota zeta. change (zdrop 2 (lit "-t" ++ name)) with name. rewrite Hst.
    set (ws := CF_PORTPROG :: _). destruct (next_pid_fresh (running h)) as [Hpos Hfresh].
    destruct (dec_ok (next_pid (running h)) ltac:(lia)) as [Hd Hp].
    eexists (running h), [], _. cbn [running]. rewrite app_nil_r. split; [done|]. split; [done|].
    cbn [d_name p_exists p_cmdline]. split; [done|]. split; [done|]. split; [done|].
    unfold holds, __pid_search_fd_inode, pid_of. cbn [d_name p_fds existsb]. rewrite Hd. split_and!; try done.
    + by rewrite bool_decide_true by done.
    + intros j _. case_bool_decide as E; cbn; [|done]. intros _. by injection E as <-.
Qed.

Lemma find_file_in path l ino : find_file path l = Some ino -> (path, ino) ∈ l.
Proof.
  induction l as [|[p i] l IH]; [done|]. cbn [find_file]. case_decide as E; [intros [= ->]; subst; apply elem_of_cons; by left|].
  intros H. apply elem_of_cons. right. by apply IH.
Qed.

Lemma sim_distinct (s : sim) : NoDup (map snd (files s)) -> distinct 0 CF_MAXPORTS s.
Proof.
  intros Hnd a b ino Ha Hb H1%find_file_in H2%find_file_in.
  assert (Heq : advproc (dec a) = advproc (dec b)).
  { revert Hnd H1 H2. induction (files s) as [|[p i] l IH]; intros Hnd H1 H2; [by apply elem_of_nil in H1|].
    cbn [map snd] in Hnd. apply NoDup_cons in Hnd as [Hi Hnd].
    apply elem_of_cons in H1 as [E1|H1]; apply elem_of_cons in H2 as [E2|H2].
    - congruence.
    - exfalso. apply Hi. injection E1 as _ <-. by apply (list_elem_of_fmap_2 snd _ (advproc (dec b), ino)).
    - exfalso. apply Hi. injection E2 as _ <-. by apply (list_elem_of_fmap_2 snd _ (advproc (dec a), ino)).
    - by apply IH. }
  apply app_inv_head in Heq. destruct (dec_ok a ltac:(lia)) as [E1 _], (dec_ok b ltac:(lia)) as [E2 _]. congruence.
Qed.

(** Two daemons: one for port 5 with an address that is not configured any more, one for
    port 7, which is not configured. *)
Definition the_config : list byte :=
  lit "3 ssl:EKI-1524 10.0.0.1 1" ++ [Byte.x0a] ++ lit "# a comment" ++ [Byte.x0a] ++
  lit "5 EKI-1521 10.0.0.2 2 10.0.0.3" ++ [Byte.x0a].
Definition tty5 : TTYINFO := mk_tty (lit "5") (lit "EKI-1521") (lit "10.0.0.9") (lit "2") [] false false.
Definition tty7 : TTYINFO := mk_tty (lit "7") (lit "EKI-1521") (lit "10.0.0.9") (lit "4") [] false true.
Definition the_path : list byte := lit "/etc/vcom".
Definition daemon_of (pid : list byte) (t : TTYINFO) (ino : Z) : proc :=
  mk_proc pid true (Some (cmdline_of (args (sslconf_of the_path) t))) (Some [None; Some ino]).
Definition the_sim : sim :=
  mk_sim [(advproc (lit "3"), 103); (advproc (lit "5"), 105); (advproc (lit "7"), 107)]
    [mk_proc (lit "1") true (Some (lit "init" ++ [Byte.x00])) (Some []);
     mk_proc (lit "self") true None None; daemon_of (lit "20") tty5 105; daemon_of (lit "31") tty7 107].
Definition the_ttys : list TTYINFO :=
  [mk_tty (lit "3") (lit "EKI-1524") (lit "10.0.0.1") (lit "1") [] false true;
   mk_tty (lit "5") (lit "EKI-1521") (lit "10.0.0.2") (lit "2") (lit "10.0.0.3") true false].

Lemma owns_daemon pid t i j : owns j (daemon_of pid t i) = true -> j = i.
Proof.
  unfold owns. intros [_ H]%andb_true_iff. unfold holds, __pid_search_fd_inode in H. cbn [p_fds daemon_of existsb] in H.
  rewrite bool_decide_false in H by done. cbn [orb] in H. case_bool_decide as E; [by injection E as ->|done].
Qed.

Lemma the_sim_owns p i : p ∈ procs the_sim -> owns i p = true ->
  (p = daemon_of (lit "20") tty5 105 /\ i = 105) \/ (p = daemon_of (lit "31") tty7 107 /\ i = 107).
Proof.
  cbn [procs sim_host the_sim running]. rewrite !elem_of_cons, elem_of_nil.
  intros [->|[->|[->|[->|[]]]]] H; [done|done|left|right]; (split; [done|]); by eapply owns_daemon.
Qed.

Lemma the_sim_ok : host_ok the_sim.
Proof.
  assert (H : forall p, p ∈ procs the_sim -> sane 1024 p /\ (is_pid (d_name p) = true -> 0 < pid_of p)).
  { cbn [procs sim_host the_sim running]. intros p. rewrite !elem_of_cons, elem_of_nil.
    intros [->|[->|[->|[->|[]]]]]; (split; [split; [vm_compute; discriminate|]|vm_compute; done]);
      [right; by eexists|left; reflexivity|right; by apply cmdline_end..]. }
  split_and!.
  - apply Forall_forall. intros p Hp. by apply H.
  - apply Forall_forall. intros p Hp. by apply H.
  - apply (bool_decide_eq_true_1 _). vm_compute. reflexivity.
  - intros p q i _ Hp Hq Ho1 Ho2. destruct (the_sim_owns _ _ Hp Ho1) as [[-> ->]|[-> ->]], (the_sim_owns _ _ Hq Ho2) as [[-> ?]|[-> ?]]; done.
  - intros p i j _ _ Hp Ho1 Ho2. destruct (the_sim_owns _ _ Hp Ho1) as [[-> ->]|[-> ->]]; destruct (the_sim_owns _ _ Hp Ho2) as [[Hc ->]|[Hc ->]]; try done;
      apply (f_equal d_name) in Hc; vm_compute in Hc; discriminate.
  - intros p i _ Hp Ho. destruct (the_sim_owns _ _ Hp Ho) as [[-> ->]|[-> ->]].
    + exists (sslconf_of the_path), tty5. split; [|done]. repeat constructor; vm_compute; (discriminate || reflexivity).
    + exists (sslconf_of the_path), tty7. split; [|done]. repeat constructor; vm_compute; (discriminate || reflexivity).
Qed.


Lemma spawn_command_bounds_witness :
  let sslconf := replicate 1000 Byte.x61 in
  let b := mk_bufs (replicate 2048 Byte.xbb) (replicate 1024 Byte.xcc) in
  let t := mk_tty (lit "3") (lit "EKI-1524") (lit "10.0.0.1") (lit "1") [] false true in
  1023 < zlen (syscmd_text sslconf t) /\ spawn_one sslconf false t the_sim b = None.
Proof.
  intros sslconf b t. split; [vm_compute; reflexivity|].
  assert (Hs : Forall (sane 2048) (procs the_sim)) by (apply (sane_wide 1024 2048); [lia|]; apply the_sim_ok).
  pose proof (spawn_command_bounds sslconf t the_sim b 103) as Hb. cbv zeta in Hb.
  change (zlen (syscmd_text sslconf t) <=? 1023) with false in Hb. cbv iota in Hb. apply Hb.
  - vm_compute. reflexivity.
  - exact Hs.
  - vm_compute. reflexivity.
  - split; vm_compute; reflexivity.
  - apply (bool_decide_eq_true_1 _). vm_compute. reflexivity.
  - vm_compute. reflexivity.
Defined.
