(* ===== verification/Advps.v ===== *)
(** * Listing the daemons [advps/advps.c]

    For every port its control file is looked up, the daemon that holds it, and
    the settings in the daemon's command line.  The model returns what is printed.
    Printing a null pointer as a string is a fault.  [CF_MAXPORTS] is [VCOM_PORTS],
    as the starter's header defines it. *)

From S2P Require Import Prelude Text ProcTools Starter Spawn.

(** The string behind an option, if the option is there. *)
Definition opt_text (cmd : list byte) (cmdlen : Z) (opt : list byte) : option (option (list byte)) :=
  p ← __cmd_get_opts cmd cmdlen opt;
  match p with
  | None => Some None
  | Some p => v ← str_at cmd p; Some (Some v)
  end.

Definition ps_line (i pid : Z) (ssl : bool) (type port ip : list byte) (rip : option (list byte)) : list byte :=
  lit "ttyADV" ++ dec i ++ lit " PID:" ++ dec pid ++ lit " " ++ (if ssl then lit "TLS" else lit "TCP") ++
  lit " Dev:" ++ type ++ lit " Port" ++ port ++ lit " IP:" ++ ip ++
  (match rip with Some r => lit "|" ++ r | None => [] end) ++ [Byte.x0a].

Definition no_access (i : Z) : list byte := lit "cannot access VCOM interface " ++ advproc (dec i) ++ [Byte.x0a].

Fixpoint ps_loop {H} `{Host H} (n : nat) (i : Z) (h : H) (cmd : list byte) : option (list byte) :=
  match n with
  | O => Some []
  | S n =>
      match stat_ino h (advproc (dec i)) with
      | None => out ← ps_loop n (i + 1) h cmd; Some (no_access i ++ out)
      | Some ino =>
          r ← __cmd_inode_search_pid h CF_PORTPROG ino cmd;
          let '(found, cmd) := r in
          match found with
          | None => ps_loop n (i + 1) h cmd
          | Some (cmdlen, pid) =>
              type ← opt_text cmd cmdlen (lit "-d");
              port ← opt_text cmd cmdlen (lit "-p");
              ip ← opt_text cmd cmdlen (lit "-a");
              ssl ← opt_text cmd cmdlen (lit "-S");
              rip ← opt_text cmd cmdlen (lit "-r");
              type ← type; port ← port; ip ← ip;
              let line := ps_line i pid (match ssl with Some _ => true | None => false end) type port ip rip in
              out ← ps_loop n (i + 1) h cmd;
              Some (line ++ out)
          end
      end
  end.

Definition advps_main {H} `{Host H} (h : H) (cmd : list byte) : option (list byte) := ps_loop (Z.to_nat CF_MAXPORTS) 0 h cmd.

(** ** What is listed *)

Lemma opt_text_args opt args junk :
  args <> [] -> Forall no_nul args -> opt <> [] -> opt ∉ args ->
  opt_text (cmdline_of args ++ junk) (zlen (cmdline_of args)) opt = Some (opt_value opt args).
Proof.
  intros Hne Hn Ho Hni. unfold opt_text, __cmd_get_opts.
  destruct (get_opts_args opt args (S (Z.to_nat (zlen (cmdline_of args)))) [] junk) as (p & Hp & Hval); try done.
  { unfold zlen. lia. }
  cbn [app] in Hp, Hval. change (zlen []) with 0 in Hp. rewrite Hp. cbn [mbind option_bind].
  destruct p as [p|]; [|by rewrite Hval]. by destruct Hval as (v & -> & ->).
Qed.

(** The line for an entry of the configuration. *)
Definition tty_line (i pid : Z) (t : TTYINFO) : list byte :=
  ps_line i pid (dev_ssl t) (dev_type_str t) (dev_portidx_str t) (dev_ipaddr_str t)
    (if has_redundant_ip t then Some (dev_redundant_ipaddr_str t) else None).

Section lists.
Context {W : Type} {HostW : Host W}.

(** What is printed for port [i]: nothing, when no daemon has it. *)
Definition reports (h : W) (i : Z) (line : list byte) : Prop :=
  match stat_ino h (advproc (dec i)) with
  | None => line = no_access i
  | Some ino =>
      match owner ino (procs h) with
      | None => line = []
      | Some p => exists s0 t0, good s0 t0 /\ cmd_of p = cmdline_of (args s0 t0) /\ line = tty_line i (pid_of p) t0
      end
  end.

(** The settings of a daemon that the starter started. *)
Lemma texts_of s0 t0 junk : good s0 t0 ->
  let cmd := cmdline_of (args s0 t0) ++ junk in
  let n := zlen (cmdline_of (args s0 t0)) in
  opt_text cmd n (lit "-d") = Some (Some (dev_type_str t0)) /\
  opt_text cmd n (lit "-p") = Some (Some (dev_portidx_str t0)) /\
  opt_text cmd n (lit "-a") = Some (Some (dev_ipaddr_str t0)) /\
  opt_text cmd n (lit "-S") = Some (if dev_ssl t0 then Some s0 else None) /\
  opt_text cmd n (lit "-r") = Some (if has_redundant_ip t0 then Some (dev_redundant_ipaddr_str t0) else None).
Proof.
  intros (Ht & Hc & Hs & Hn & Hl) cmd n. pose proof (args_ok s0 t0 Ht Hn Hl) as Ha.
  destruct (opt_values s0 t0 Hs Hc) as (_ & V2 & V3 & V4 & V5 & V6).
  assert (Hopt : forall o, zlen o = 2 -> opt_text cmd n o = Some (opt_value o (args s0 t0))).
  { intros o Ho. apply opt_text_args; [done| | |].
    - eapply Forall_impl; [exact Ha|]. by intros w [? _].
    - by intros ->.
    - intros Hin. rewrite Forall_forall in Ha. destruct (Ha _ Hin) as [_ Hlen]. lia. }
  rewrite !Hopt by done. by rewrite V2, V3, V4, V5, V6.
Qed.

Lemma ps_loop_ok n : forall i h cmd, host_ok h -> zlen cmd = 1024 ->
  exists lines, ps_loop n i h cmd = Some (concat lines) /\ Forall2 (reports h) (seqZ i (Z.of_nat n)) lines.
Proof.
  induction n as [|n IH]; intros i h cmd Hh Hc.
  { exists []. split; [done|constructor]. }
  rewrite Nat2Z.inj_succ. rewrite seqZ_cons, Z.pred_succ by lia.
  assert (Hnext : forall cmd line, zlen cmd = 1024 -> reports h i line -> exists lines,
    (out ← ps_loop n (i + 1) h cmd; Some (line ++ out)) = Some (concat lines) /\
    Forall2 (reports h) (i :: seqZ (Z.succ i) (Z.of_nat n)) lines).
  { intros c line Hc' Hr. destruct (IH (i + 1) h c Hh Hc') as (lines & -> & Hl). exists (line :: lines). split; [done|]. by constructor. }
  unfold reports in Hnext at 1. cbn [ps_loop]. destruct (stat_ino h (advproc (dec i))) as [ino|] eqn:Est; [|by apply Hnext].
  pose proof Hh as (H1 & _ & _ & _ & _ & H6). unfold __cmd_inode_search_pid.
  destruct (search_spec 1024 ino (procs h) H1 cmd Hc) as (buf & -> & Hbuf & Hp). cbn [mbind option_bind].
  destruct (owner ino (procs h)) as [p|] eqn:Eo; cbn [mbind option_bind].
  - destruct (owner_in _ _ _ Eo) as [Hin Hown]. destruct (H6 p ino) as (s0 & t0 & Hg & Hcmd); [by eexists|done|done|].
    destruct (Hp p eq_refl) as [junk ->]. rewrite Hcmd in *. destruct (texts_of s0 t0 junk Hg) as (-> & -> & -> & -> & ->).
    cbn [mbind option_bind]. apply Hnext; [done|]. exists s0, t0. split_and!; try done. unfold tty_line. f_equal. by destruct (dev_ssl t0).
  - destruct (Hnext buf []) as (lines & Hl & Hf); [done|done|]. exists lines. split; [|done]. rewrite <- Hl.
    by destruct (ps_loop n (i + 1) h buf).
Qed.

End lists.


Example advps_shows_port_5 :
  match advps_main the_sim (replicate 1024 Byte.xaa) with
  | Some out => match strstr out (lit "ttyADV5 PID:20 TCP Dev:EKI-1521 Port2 IP:10.0.0.9") with Some _ => true | None => false end
  | None => false
  end = true.
Proof. vm_compute. reflexivity. Qed.
