(* ===== verification/ProcNet.v ===== *)
(** * The table of connections [shared/proc_tools/proc_tools.c]

    Finding the inode of the socket with a local port and a state in
    [/proc/net/tcp] and [/proc/net/tcp6], and the command line of a process by its
    number.  [sscanf] is a list of conversions; the files are an argument, what
    opening a path gives. *)

From S2P Require Import Prelude Text ProcTools Starter Spawn.

(** ** [sscanf] *)

Inductive conv := C_d | C_x | C_hx | C_ju | C_s (n : nat) | C_lit (b : byte) | C_blank.
Inductive value := V_num (n : Z) | V_str (s : list byte).

Definition dval (b : byte) : option Z :=
  let c := chr b in
  if (48 <=? c) && (c <=? 57) then Some (c - 48) else
  if (65 <=? c) && (c <=? 70) then Some (c - 55) else
  if (97 <=? c) && (c <=? 102) then Some (c - 87) else None.
Definition is_dig (base : Z) (b : byte) : bool :=
  match dval b with Some d => d <? base | None => false end.

(** The digits that start a text, and what follows them. *)
Fixpoint num_digits (base acc : Z) (s : list byte) : Z * list byte :=
  match s with
  | b :: s' => if is_dig base b then num_digits base (acc * base + default 0 (dval b)) s' else (acc, s)
  | [] => (acc, [])
  end.

(** "0x" in front of a hexadecimal number. *)
Definition strip_0x (s : list byte) : list byte :=
  match s with
  | a :: x :: s' => if (chr a =? 48) && ((chr x =? 120) || (chr x =? 88)) then s' else s
  | _ => s
  end.

Definition scan_number (base : Z) (s : list byte) : option (bool * Z * list byte) :=
  let s := skip_blank s in
  let '(neg, s) := match s with
                   | b :: s' => if chr b =? 45 then (true, s') else if chr b =? 43 then (false, s') else (false, s)
                   | [] => (false, s)
                   end in
  let s := if base =? 16 then strip_0x s else s in
  match s with
  | b :: _ => if is_dig base b then let '(v, r) := num_digits base 0 s in Some (neg, v, r) else None
  | [] => None
  end.

(** [strtol] and [strtoul], which saturate. *)
Definition strtol_val (neg : bool) (v : Z) : Z := Z.max (- 2 ^ 63) (Z.min (2 ^ 63 - 1) (if neg then - v else v)).
Definition strtoul_val (neg : bool) (v : Z) : Z :=
  if 2 ^ 64 <=? v then 2 ^ 64 - 1 else (if neg then - v else v) mod 2 ^ 64.

(** The values that are assigned, as many as the call returns. *)
Fixpoint sscanf (fmt : list conv) (s : list byte) : list value :=
  match fmt with
  | [] => []
  | C_blank :: fmt => sscanf fmt (skip_blank s)
  | C_lit b :: fmt =>
      match s with c :: s => if bool_decide (b = c) then sscanf fmt s else [] | [] => [] end
  | C_s n :: fmt =>
      match skip_blank s with
      | [] => []
      | s => let '(w, r) := span_word n s in V_str w :: sscanf fmt r
      end
  | C_d :: fmt =>
      match scan_number 10 s with Some (g, v, r) => V_num (s32 (strtol_val g v)) :: sscanf fmt r | None => [] end
  | C_x :: fmt =>
      match scan_number 16 s with Some (g, v, r) => V_num (strtoul_val g v mod 2 ^ 32) :: sscanf fmt r | None => [] end
  | C_hx :: fmt =>
      match scan_number 16 s with Some (g, v, r) => V_num (strtoul_val g v mod 2 ^ 16) :: sscanf fmt r | None => [] end
  | C_ju :: fmt =>
      match scan_number 10 s with Some (g, v, r) => V_num (strtoul_val g v) :: sscanf fmt r | None => [] end
  end.

(** ** The search *)

(** [scan_format]: the widths are those of the arrays. *)
Definition scan_format : list conv :=
  [C_d; C_lit Byte.x3a; C_blank; C_s 63; C_blank; C_s 63; C_blank; C_x; C_blank; C_s 1023; C_blank; C_s 1023;
   C_blank; C_s 1023; C_blank; C_s 1023; C_blank; C_s 1023; C_blank; C_ju].

(** The local address, the state and the inode of a line with all ten values. *)
Definition scan_line (buf : list byte) : option (list byte * Z * Z) :=
  match sscanf scan_format (cstr buf) with
  | [V_num sl; V_str laddr; V_str raddr; V_num connection_state; _; _; _; _; _; V_num inode] =>
      Some (laddr, connection_state, inode)
  | _ => None
  end.

(** The loop over the lines.  [lport] keeps its value when the port cannot be
    read; [None] is out of fuel, [Some None] that nothing was found. *)
Fixpoint lport_loop (fuel : nat) (port stat : Z) (file : list byte) (lport : Z) : option (option Z) :=
  match fuel with
  | O => None
  | S fuel =>
      match file with
      | [] => Some None
      | _ =>
          let '(buf, file) := fgets 2047 file in
          match scan_line buf with
          | None => lport_loop fuel port stat file lport
          | Some (laddr, connection_state, inode) =>
              if negb (connection_state =? stat) then lport_loop fuel port stat file lport else
              match strstr laddr (lit ":") with
              | None => lport_loop fuel port stat file lport
              | Some i =>
                  let lport := match sscanf [C_hx] (zdrop (i + 1) laddr) with V_num n :: _ => n | _ => lport end in
                  if lport =? port then Some (Some inode) else lport_loop fuel port stat file lport
              end
          end
      end
  end.

(** The inode, or nothing, which is -1.  [lport] is not set at the start. *)
Definition __search_lport_stat_inode (fopen : list byte -> option (list byte)) (lport : Z)
    (ipfamily port stat : Z) : option (option Z) :=
  match fopen (lit "/proc/net/tcp" ++ (if ipfamily =? 4 then [] else lit "6")) with
  | None => Some None
  | Some file =>
      let file := snd (fgets 2047 file) in
      lport_loop (S (length file)) port stat file lport
  end.

(** The state is an [int] here and an [unsigned short] there. *)
Definition __search_port_inode (fopen : list byte -> option (list byte)) (lport port stat : Z) : option (option Z) :=
  r ← __search_lport_stat_inode fopen lport 4 port (stat mod 2 ^ 16);
  match r with
  | Some inode => Some (Some inode)
  | None => __search_lport_stat_inode fopen lport 6 port (stat mod 2 ^ 16)
  end.

(** The path is spelled as in the program. *)
Definition __pid_get_cmd (fopen : list byte -> option (list byte)) (pid : Z) (cmd : list byte) : Z * list byte :=
  __pidpath_get_cmd (fopen (lit "/poc/" ++ dec pid ++ lit "/cmdline")) cmd.

(** ** Numbers that were printed *)

Fixpoint hexn (k : nat) (v : Z) : list byte :=
  match k with
  | O => []
  | S k => hexn k (v / 16) ++ [byte.of_Z (let d := v mod 16 in if d <? 10 then 48 + d else 55 + d)]
  end.

Definition ends_digits (base : Z) (r : list byte) : Prop :=
  match r with b :: _ => is_dig base b = false | [] => True end.

Lemma chr_of_Z c : 0 <= c < 256 -> chr (byte.of_Z c) = c.
Proof. intros Hc. unfold chr. rewrite byte.unsigned_of_Z. unfold byte.wrap. by rewrite Z.mod_small. Qed.

Lemma dval_hex d : 0 <= d < 16 -> dval (byte.of_Z (if d <? 10 then 48 + d else 55 + d)) = Some d.
Proof.
  intros Hd. unfold dval. rewrite chr_of_Z by (case_if; lia).
  destruct (Z.ltb_spec d 10); repeat (case_if; bool_simpl; [f_equal; lia|]); bool_simpl; try lia.
  all: repeat match goal with H : (_ && _) = false |- _ => apply andb_false_iff in H as [H|H]; bool_simpl end; lia.
Qed.

Lemma dval_digit d : 0 <= d < 10 -> dval (digit d) = Some d.
Proof.
  intros Hd. pose proof (dval_hex d) as Hx. rewrite (proj2 (Z.ltb_lt _ _)) in Hx by lia. apply Hx. lia.
Qed.

Lemma is_dig_digit d : 0 <= d < 10 -> is_dig 10 (digit d) = true.
Proof. intros Hd. unfold is_dig. rewrite dval_digit by done. apply Z.ltb_lt. lia. Qed.

Lemma num_dec_loop fuel : forall n acc r, 0 <= n < 2 ^ Z.of_nat fuel ->
  num_digits 10 0 (dec_loop fuel n acc ++ r) = num_digits 10 n (acc ++ r).
Proof.
  induction fuel as [|fuel IH]; intros n acc r Hn.
  { change (2 ^ Z.of_nat 0) with 1 in Hn. by replace n with 0 by lia. }
  cbn [dec_loop]. destruct (Z.ltb_spec n 10).
  - cbn [num_digits app]. by rewrite is_dig_digit, dval_digit by lia.
  - rewrite Nat2Z.inj_succ, Z.pow_succ_r in Hn by lia. pose proof (Z.mod_pos_bound n 10).
    rewrite IH by (split; [apply Z.div_pos|apply Z.div_lt_upper_bound]; lia). cbn [app num_digits].
    rewrite is_dig_digit, dval_digit by lia. cbn [default]. f_equal. pose proof (Z.div_mod n 10). simpl. lia.
Qed.

Lemma num_digits_ends base acc r : ends_digits base r -> num_digits base acc r = (acc, r).
Proof. destruct r as [|b r]; [done|]. simpl. by intros ->. Qed.

Lemma num_dec n r : 0 <= n -> ends_digits 10 r -> num_digits 10 0 (dec n ++ r) = (n, r).
Proof.
  intros Hn Hr. unfold dec. rewrite (proj2 (Z.ltb_ge _ _)) by lia. rewrite num_dec_loop; [by apply num_digits_ends|].
  rewrite Nat2Z.inj_succ, Z2Nat.id by apply Z.log2_nonneg. split; [done|].
  destruct (decide (n = 0)) as [->|Hz]; [done|]. apply Z.log2_spec. lia.
Qed.

Lemma hexn_digits k : forall v, Forall (fun b => is_dig 16 b = true) (hexn k v) /\ length (hexn k v) = k.
Proof.
  induction k as [|k IH]; intros v; [by split; [constructor|]|]. cbn [hexn]. destruct (IH (v / 16)) as [H1 H2].
  rewrite length_app, H2. split; [|simpl; lia]. apply Forall_app. split; [done|]. constructor; [|constructor].
  pose proof (Z.mod_pos_bound v 16). unfold is_dig. rewrite dval_hex by lia. apply Z.ltb_lt. lia.
Qed.

Lemma num_hexn k : forall v a r, 0 <= v < 16 ^ Z.of_nat k ->
  num_digits 16 a (hexn k v ++ r) = num_digits 16 (a * 16 ^ Z.of_nat k + v) r.
Proof.
  induction k as [|k IH]; intros v a r Hv.
  { change (16 ^ Z.of_nat 0) with 1 in *. cbn [hexn app]. f_equal. lia. }
  rewrite Nat2Z.inj_succ, Z.pow_succ_r in * by lia. cbn [hexn]. rewrite <- app_assoc, IH
    by (split; [apply Z.div_pos|apply Z.div_lt_upper_bound]; lia).
  pose proof (Z.mod_pos_bound v 16). cbn [app num_digits]. unfold is_dig. rewrite dval_hex by lia.
  rewrite (proj2 (Z.ltb_lt _ _)) by lia. cbn [default]. f_equal. pose proof (Z.div_mod v 16). unfold id. lia.
Qed.

Lemma dig_range base b :
  is_dig base b = true -> 48 <= chr b <= 57 \/ 65 <= chr b <= 70 \/ 97 <= chr b <= 102.
Proof.
  unfold is_dig, dval. destruct (_ && _) eqn:E1; [bool_simpl; lia|].
  destruct (_ && _) eqn:E2 in |- *; [bool_simpl; lia|]. destruct (_ && _) eqn:E3 in |- *; [bool_simpl; lia|done].
Qed.

(** A digit is neither a blank nor a sign. *)
Lemma dig_plain base b : is_dig base b = true -> is_space b = false /\ (chr b =? 45) = false /\ (chr b =? 43) = false.
Proof.
  intros Hd%dig_range. unfold is_space. split_and!; [|apply Z.eqb_neq; lia..].
  apply orb_false_iff. split; [apply Z.eqb_neq|apply andb_false_iff; right; apply Z.leb_gt]; lia.
Qed.

Lemma scan_digits base b s v r :
  is_dig base b = true -> ((base =? 16) = true -> strip_0x (b :: s) = b :: s) -> num_digits base 0 (b :: s) = (v, r) ->
  scan_number base (b :: s) = Some (false, v, r).
Proof.
  intros Hd Hx Hn. destruct (dig_plain _ _ Hd) as (E1 & E2 & E3). unfold scan_number. cbn [skip_blank].
  rewrite E1, E2, E3. destruct (base =? 16); [rewrite Hx by done|]; by rewrite Hd, Hn.
Qed.

Lemma dec_loop_digits fuel : forall n acc, 0 <= n -> Forall (fun b => is_dig 10 b = true) acc ->
  Forall (fun b => is_dig 10 b = true) (dec_loop fuel n acc).
Proof.
  induction fuel as [|fuel IH]; intros n acc Hn Ha; cbn [dec_loop]; [done|]. destruct (Z.ltb_spec n 10).
  - constructor; [apply is_dig_digit; lia|done].
  - pose proof (Z.mod_pos_bound n 10). apply IH; [apply Z.div_pos; lia|]. constructor; [apply is_dig_digit; lia|done].
Qed.

Lemma dec_digits n : 0 <= n -> Forall (fun b => is_dig 10 b = true) (dec n).
Proof. intros Hn. unfold dec. rewrite (proj2 (Z.ltb_ge _ _)) by lia. by apply dec_loop_digits. Qed.

Lemma dec_head n : 0 <= n -> exists b s, dec n = b :: s /\ is_dig 10 b = true.
Proof.
  intros [_ Hp]%dec_ok. destruct (dec n) as [|b s]; [done|]. exists b, s. split; [done|]. simpl in Hp.
  unfold is_digit in Hp. unfold is_dig, dval. rewrite Hp. apply Z.ltb_lt. bool_simpl. lia.
Qed.

Lemma scan_dec n r : 0 <= n -> ends_digits 10 r -> scan_number 10 (dec n ++ r) = Some (false, n, r).
Proof.
  intros Hn Hr. pose proof (num_dec n r Hn Hr) as Hd. destruct (dec_head n Hn) as (b & s & E & Hb).
  rewrite E in *. cbn [app] in *. by apply scan_digits.
Qed.

Lemma scan_hexn k v r : (2 <= k)%nat -> 0 <= v < 16 ^ Z.of_nat k -> ends_digits 16 r ->
  scan_number 16 (hexn k v ++ r) = Some (false, v, r).
Proof.
  intros Hk Hv Hr. pose proof (num_hexn k v 0 r Hv) as Hn. rewrite (num_digits_ends 16 _ r Hr) in Hn.
  destruct (hexn_digits k v) as [Hd Hl]. destruct (hexn k v) as [|a [|b s]]; [simpl in Hl; lia..|].
  apply Forall_cons in Hd as [Ha Hd]. apply Forall_cons in Hd as [Hb _]. cbn [app] in *.
  apply scan_digits; [done| |rewrite Hn; f_equal; lia]. intros _. cbn [strip_0x].
  rewrite (proj2 (andb_false_iff _ _)); [done|right]. apply orb_false_iff.
  apply dig_range in Hb. split; apply Z.eqb_neq; lia.
Qed.

(** ** The table as the kernel prints it *)

Definition spaces (n : nat) : list byte := replicate n Byte.x20.

(** A connection: its number, the local address and port, the remote address with
    its port, the state, the five fields in between, the inode, and what follows;
    a field is printed with the blanks in front of it. *)
Record tcp_row := mk_row {
  r_pad : nat;
  r_sl : Z;
  r_laddr : list byte;
  r_lport : Z;
  r_raddr : list byte;
  r_st : Z;
  r_fields : list (nat * list byte);
  r_ipad : nat;
  r_inode : Z;
  r_rest : list byte;
}.

Definition field_text (f : nat * list byte) : list byte := spaces (S (fst f)) ++ snd f.

Definition row_text (r : tcp_row) : list byte :=
  spaces (r_pad r) ++ dec (r_sl r) ++ lit ": " ++ r_laddr r ++ lit ":" ++ hexn 4 (r_lport r) ++ lit " " ++
  r_raddr r ++ lit " " ++ hexn 2 (r_st r) ++ concat (map field_text (r_fields r)) ++
  spaces (S (r_ipad r)) ++ dec (r_inode r) ++ r_rest r.

Definition row_ok (r : tcp_row) : Prop :=
  0 <= r_sl r < 2 ^ 31 /\ (a_word 59 (r_laddr r) /\ Byte.x3a ∉ r_laddr r) /\ 0 <= r_lport r < 2 ^ 16 /\
  a_word 64 (r_raddr r) /\ 0 <= r_st r < 2 ^ 8 /\
  (length (r_fields r) = 5%nat /\ Forall (fun f => a_word 1024 (snd f)) (r_fields r)) /\
  0 <= r_inode r < 2 ^ 64 /\ ends_digits 10 (r_rest r) /\
  zlen (row_text r) < 2047 /\ Forall (fun b => chr b <> 0 /\ chr b <> 10) (r_rest r).

Definition table_text (header : list byte) (rows : list tcp_row) : list byte :=
  header ++ [Byte.x0a] ++ concat (map (fun r => row_text r ++ [Byte.x0a]) rows).
Definition header_ok (h : list byte) : Prop := zlen h < 2047 /\ Forall (fun b => chr b <> 10) h.

(** The first connection with the port and the state. *)
Definition find_row (port stat : Z) (rows : list tcp_row) : option tcp_row :=
  find (fun r => (r_st r =? stat) && (r_lport r =? port)) rows.

Lemma skip_spaces n s : skip_blank (spaces n ++ s) = skip_blank s.
Proof. induction n as [|n IH]; [done|exact IH]. Qed.

Lemma hexn_plain k v : Forall plain (hexn k v).
Proof.
  destruct (hexn_digits k v) as [Hd _]. eapply Forall_impl; [exact Hd|]. intros b Hb. cbv beta in Hb.
  split; [by destruct (dig_plain _ _ Hb)|]. apply dig_range in Hb. lia.
Qed.

Lemma scan_number_spaces base n s : scan_number base (spaces n ++ s) = scan_number base s.
Proof. unfold scan_number. by rewrite skip_spaces. Qed.

(** Blanks in front of a conversion do not matter. *)
Definition skips_blank (c : conv) : Prop := match c with C_lit _ | C_blank => False | _ => True end.

Lemma skip_blank_idem s : skip_blank (skip_blank s) = skip_blank s.
Proof. induction s as [|b s IH]; [done|]. cbn [skip_blank]. destruct (is_space b) eqn:E; [done|]. cbn [skip_blank]. by rewrite E. Qed.

Lemma sscanf_blank c fmt s : skips_blank c -> sscanf (C_blank :: c :: fmt) s = sscanf (c :: fmt) s.
Proof.
  intros Hc. cbn [sscanf]. destruct c; try done; rewrite ?skip_blank_idem; unfold scan_number; rewrite ?skip_blank_idem; done.
Qed.

Lemma sscanf_lit b fmt s : sscanf (C_lit b :: fmt) (b :: s) = sscanf fmt s.
Proof. cbn [sscanf]. by rewrite bool_decide_true. Qed.

(** The conversions on what was printed. *)
Lemma sscanf_word n fmt w r k : a_word (Z.of_nat n + 1) w ->
  (match r with b :: _ => is_space b = true | [] => True end) ->
  sscanf (C_s n :: fmt) (spaces k ++ w ++ r) = V_str w :: sscanf fmt r.
Proof.
  intros [Hl Hw] Hr. assert (Hne : w <> []) by (destruct w; [unfold zlen in Hl; simpl in Hl; lia|done]).
  cbn [sscanf]. rewrite skip_spaces, (skip_blank_word w r Hw Hne). destruct w as [|b w]; [done|]. cbn [app].
  rewrite app_comm_cons. by rewrite (span_word_exact (b :: w) Hw) by (done || unfold zlen in Hl; lia).
Qed.

Lemma sscanf_dec n fmt r k : 0 <= n < 2 ^ 31 -> ends_digits 10 r ->
  sscanf (C_d :: fmt) (spaces k ++ dec n ++ r) = V_num n :: sscanf fmt r.
Proof.
  intros Hn Hr. cbn [sscanf]. rewrite scan_number_spaces, scan_dec by (done || lia). f_equal. f_equal.
  unfold strtol_val. rewrite Z.max_r, Z.min_r, s32_small by lia. done.
Qed.

Lemma sscanf_inode n fmt r k : 0 <= n < 2 ^ 64 -> ends_digits 10 r ->
  sscanf (C_ju :: fmt) (spaces k ++ dec n ++ r) = V_num n :: sscanf fmt r.
Proof.
  intros Hn Hr. cbn [sscanf]. rewrite scan_number_spaces, scan_dec by (done || lia). f_equal. f_equal.
  unfold strtoul_val. rewrite (proj2 (Z.leb_gt _ _)), Z.mod_small by lia. done.
Qed.

Lemma strtoul_small v m : 0 <= v < 2 ^ m -> 0 <= m <= 32 -> strtoul_val false v mod 2 ^ m = v.
Proof.
  intros Hv Hm. assert (2 ^ m <= 2 ^ 32) by (apply Z.pow_le_mono_r; lia). unfold strtoul_val.
  rewrite (proj2 (Z.leb_gt _ _)) by lia. rewrite (Z.mod_small v (2 ^ 64)) by lia. by apply Z.mod_small.
Qed.

Lemma sscanf_state v fmt r k : 0 <= v < 2 ^ 8 -> ends_digits 16 r ->
  sscanf (C_x :: fmt) (spaces k ++ hexn 2 v ++ r) = V_num v :: sscanf fmt r.
Proof.
  intros Hv Hr. cbn [sscanf]. rewrite scan_number_spaces, scan_hexn; [|lia|exact Hv|done].
  rewrite strtoul_small by lia. done.
Qed.

(** The fields between the state and the inode. *)
Fixpoint field_formats (n : nat) (fmt : list conv) : list conv :=
  match n with O => fmt | S n => C_blank :: C_s 1023 :: field_formats n fmt end.

Lemma sscanf_fields fs : forall fmt r, Forall (fun f => a_word 1024 (snd f)) fs ->
  (match r with b :: _ => is_space b = true | [] => True end) ->
  sscanf (field_formats (length fs) fmt) (concat (map field_text fs) ++ r) =
  map (fun f => V_str (snd f)) fs ++ sscanf fmt r.
Proof.
  induction fs as [|[k w] fs IH]; intros fmt r Hf Hr; [done|]. apply Forall_cons in Hf as [Hw Hf].
  cbn [map concat length field_formats app]. rewrite <- app_assoc. unfold field_text at 1. cbn [fst snd].
  rewrite <- app_assoc, sscanf_blank by done. cbn [snd] in Hw.
  rewrite (sscanf_word 1023 _ w); [by rewrite IH|done|].
  destruct fs as [|[k' w'] fs]; [exact Hr|reflexivity].
Qed.

Lemma laddr_word r : row_ok r -> a_word 64 (r_laddr r ++ lit ":" ++ hexn 4 (r_lport r)).
Proof.
  intros (_ & [[Hl Hw] _] & _). destruct (hexn_digits 4 (r_lport r)) as [_ Hh]. split.
  - rewrite !zlen_app. unfold zlen at 3 6. rewrite Hh. change (zlen (lit ":")) with 1. lia.
  - apply Forall_app. split; [done|]. apply Forall_app. split; [by repeat constructor|apply hexn_plain].
Qed.

Lemma spaces_one : lit " " = spaces 1.
Proof. done. Qed.

Lemma scan_row r : row_ok r ->
  sscanf scan_format (row_text r ++ [Byte.x0a]) =
  [V_num (r_sl r); V_str (r_laddr r ++ lit ":" ++ hexn 4 (r_lport r)); V_str (r_raddr r); V_num (r_st r)] ++
  map (fun f => V_str (snd f)) (r_fields r) ++ [V_num (r_inode r)].
Proof.
  intros Hok. pose proof (laddr_word r Hok) as Hla.
  destruct Hok as (Hsl & _ & _ & Hra & Hst & [Hlen Hf] & Hino & Hend & _).
  unfold row_text, scan_format. rewrite <- !app_assoc, sscanf_dec by done.
  change (lit ": " ++ ?s) with (Byte.x3a :: spaces 1 ++ s). rewrite sscanf_lit, sscanf_blank by done.
  rewrite (app_assoc (lit ":") (hexn _ _)), (app_assoc (r_laddr r)), spaces_one, sscanf_word by done.
  rewrite sscanf_blank, sscanf_word, sscanf_blank by done. rewrite sscanf_state; [|done|].
  2:{ destruct (r_fields r); [done|reflexivity]. }
  change [C_blank; C_s 1023; C_blank; C_s 1023; C_blank; C_s 1023; C_blank; C_s 1023; C_blank; C_s 1023; C_blank; C_ju]
    with (field_formats 5 [C_blank; C_ju]). rewrite <- Hlen, sscanf_fields by done.
  rewrite sscanf_blank, sscanf_inode; [done|done|by destruct (r_rest r)|done].
Qed.

(** A line of the table is read as the connection it was printed from. *)
Lemma row_no_nul r : row_ok r -> Forall (fun b => chr b <> 0 /\ chr b <> 10) (row_text r).
Proof.
  intros (Hsl & [[_ Hla] _] & _ & [_ Hra] & _ & [_ Hf] & Hino & _ & _ & Hrest).
  assert (Hw : forall w, Forall plain w -> Forall (fun b => chr b <> 0 /\ chr b <> 10) w).
  { intros w Hp. apply Forall_and. split; [by apply plain_no_nul|by apply plain_no_newline]. }
  assert (Hs : forall n, Forall (fun b => chr b <> 0 /\ chr b <> 10) (spaces n)) by (intros n; by apply Forall_replicate).
  assert (Hd : forall n, 0 <= n -> Forall (fun b => chr b <> 0 /\ chr b <> 10) (dec n)).
  { intros n Hn. eapply Forall_impl; [exact (dec_digits n Hn)|]. cbv beta. intros b Hb%dig_range. lia. }
  unfold row_text. rewrite !Forall_app. split_and!; auto using hexn_plain; try (by repeat constructor).
  - apply Hd. lia.
  - apply Forall_concat, Forall_fmap. eapply Forall_impl; [exact Hf|]. intros [k w] [_ Hp]. unfold compose, field_text.
    apply Forall_app. auto.
  - apply Hd. lia.
Qed.

Lemma scan_row_line r : row_ok r ->
  scan_line (row_text r ++ [Byte.x0a]) = Some (r_laddr r ++ lit ":" ++ hexn 4 (r_lport r), r_st r, r_inode r).
Proof.
  intros Hok. unfold scan_line. rewrite cstr_all.
  2:{ apply Forall_app. split; [|by repeat constructor]. eapply Forall_impl; [by apply row_no_nul|]. by intros b []. }
  rewrite scan_row by done. destruct Hok as (_ & _ & _ & _ & _ & [Hlen _] & _).
  by destruct (r_fields r) as [|f1 [|f2 [|f3 [|f4 [|f5 [|]]]]]].
Qed.

(** The port behind the colon. *)
Lemma strstr_colon a s : Byte.x3a ∉ a -> strstr (a ++ lit ":" ++ s) (lit ":") = Some (zlen a).
Proof.
  induction a as [|b a IH]; intros Ha; [by destruct s|]. apply not_elem_of_cons in Ha as [Hb Ha].
  cbn [app strstr]. change (is_prefix (lit ":") (b :: ?s)) with (bool_decide (Byte.x3a = b) && true).
  rewrite bool_decide_false by done. cbn [andb].
  rewrite IH by done. rewrite zlen_cons. simpl. f_equal. lia.
Qed.

Lemma scan_port r : row_ok r ->
  sscanf [C_hx] (zdrop (zlen (r_laddr r) + 1) (r_laddr r ++ lit ":" ++ hexn 4 (r_lport r))) = [V_num (r_lport r)].
Proof.
  intros (_ & _ & Hp & _). change (zlen (r_laddr r) + 1) with (zlen (r_laddr r) + zlen (lit ":")).
  rewrite <- zlen_app, app_assoc, zdrop_app_r, Z.sub_diag, zdrop_0 by lia.
  pose proof (scan_hexn 4 (r_lport r) [] ltac:(lia) Hp I) as Hs. rewrite app_nil_r in Hs. cbn [sscanf].
  rewrite Hs, strtoul_small by lia. done.
Qed.

Lemma lport_loop_rows port stat rows : forall fuel lport, Forall row_ok rows -> (length rows < fuel)%nat ->
  lport_loop fuel port stat (concat (map (fun r => row_text r ++ [Byte.x0a]) rows)) lport =
  Some (r_inode <$> find_row port stat rows).
Proof.
  induction rows as [|r rows IH]; intros [|fuel] lport Hr Hf; try (simpl in Hf; lia); cbn [map concat lport_loop]; [done|].
  apply Forall_cons in Hr as [Hok Hr]. cbn [length] in Hf. set (file := concat _) in *.
  pose proof (row_no_nul r Hok) as Hn. destruct ((row_text r ++ [Byte.x0a]) ++ file) eqn:E.
  { by destruct (row_text r). }
  rewrite <- E, <- app_assoc, fgets_line.
  2:{ eapply Forall_impl; [exact Hn|]. by intros c []. }
  2:{ destruct Hok as (_ & _ & _ & _ & _ & _ & _ & _ & Hz & _). unfold zlen in Hz. lia. }
  rewrite scan_row_line by done. unfold find_row. cbn [find].
  destruct (r_st r =? stat); cbn [negb andb]; [|apply IH; [done|lia]].
  rewrite strstr_colon by apply Hok. rewrite scan_port by done.
  destruct (r_lport r =? port); [done|apply IH; [done|lia]].
Qed.

Lemma find_row_app port stat l k :
  find_row port stat (l ++ k) = match find_row port stat l with Some r => Some r | None => find_row port stat k end.
Proof. unfold find_row. induction l as [|r l IH]; [done|]. cbn [app find]. by case_if. Qed.

(** Looking for a port in tables as the kernel prints them, of either
    protocol, gives the inode of the first connection with the port and the state,
    those of IPv4 before those of IPv6, and nothing when there is none. *)
Theorem search_port_finds fopen (lport port stat : Z) h4 h6 (rows4 rows6 : list tcp_row) :
  fopen (lit "/proc/net/tcp") = Some (table_text h4 rows4) ->
  fopen (lit "/proc/net/tcp6") = Some (table_text h6 rows6) ->
  header_ok h4 -> header_ok h6 -> Forall row_ok rows4 -> Forall row_ok rows6 -> 0 <= stat < 2 ^ 16 ->
  __search_port_inode fopen lport port stat = Some (r_inode <$> find_row port stat (rows4 ++ rows6)).
Proof.
  intros F4 F6 H4 H6 R4 R6 Hs.
  assert (Hone : forall h rows, header_ok h -> Forall row_ok rows ->
    lport_loop (S (length (snd (fgets 2047 (table_text h rows))))) port stat
      (snd (fgets 2047 (table_text h rows))) lport = Some (r_inode <$> find_row port stat rows)).
  { intros h rows [Hz Hn] Hr. unfold table_text. rewrite fgets_line by (done || unfold zlen in Hz; lia). cbn [snd].
    apply lport_loop_rows; [done|]. apply Nat.lt_succ_r. clear. induction rows as [|r rows IH]; [done|].
    cbn [map concat length]. rewrite !length_app. cbn [length]. lia. }
  unfold __search_port_inode. rewrite (Z.mod_small stat) by done. unfold __search_lport_stat_inode.
  change (4 =? 4) with true. change (6 =? 4) with false. cbv iota. rewrite app_nil_r, F4, Hone by done.
  change (lit "/proc/net/tcp" ++ lit "6") with (lit "/proc/net/tcp6"). rewrite F6.
  cbn [mbind option_bind]. rewrite find_row_app.
  destruct (find_row port stat rows4); [done|]. by apply Hone.
Qed.

(** A connection to port 80 that is established, behind a listener on it. *)
Definition sample_row (st inode : Z) : tcp_row :=
  mk_row 3 0 (lit "0100007F") 80 (lit "00000000:0000") st
    [(0, lit "00000000:00000000"); (0, lit "00:00000000"); (0, lit "00000000"); (4, lit "0"); (7, lit "0")]%nat
    0 inode (lit " 1 0000000000000000 100 0 0 10 0").

Lemma sample_row_ok st ino :
  0 <= st < 2 ^ 8 -> 0 <= ino < 10000 -> zlen (row_text (sample_row st ino)) < 2047 -> row_ok (sample_row st ino).
Proof.
  intros Hst Hino Hz. unfold row_ok, a_word. cbn [sample_row r_sl r_laddr r_lport r_raddr r_st r_fields r_inode r_rest].
  split_and!; try done; try lia; try (by repeat constructor).
  apply (bool_decide_unpack (Byte.x3a ∉ lit "0100007F")). vm_compute. exact I.
Qed.

Lemma search_port_finds_witness :
  __search_port_inode (fun p => if bool_decide (p = lit "/proc/net/tcp")
      then Some (table_text (lit "  sl  local_address") [sample_row 10 4711; sample_row 1 4712])
      else Some (table_text (lit "  sl  local_address") [])) 80 80 1 = Some (Some 4712).
Proof.
  apply (search_port_finds _ 80 80 1 (lit "  sl  local_address") (lit "  sl  local_address")
    [sample_row 10 4711; sample_row 1 4712] []); try reflexivity; try (split; [by vm_compute|by repeat constructor]).
  - constructor; [apply sample_row_ok; [lia|lia|by vm_compute]|].
    constructor; [apply sample_row_ok; [lia|lia|by vm_compute]|constructor].
  - constructor.
Defined.

(** The search ends whatever the file holds. *)
Lemma lport_loop_ends port stat : forall fuel file lport, (length file < fuel)%nat ->
  exists r, lport_loop fuel port stat file lport = Some r.
Proof.
  induction fuel as [|fuel IH]; intros file lport Hf; [lia|]. cbn [lport_loop].
  destruct file as [|b file]; [by eexists|]. pose proof (fgets_shorter 2047 b file ltac:(lia)) as Hs.
  destruct (fgets 2047 (b :: file)) as [buf rest]. cbn [snd length] in Hs, Hf.
  assert (Hr : (length rest < fuel)%nat) by lia.
  destruct (scan_line buf) as [[[la st] ino]|]; [|by apply IH]. case_if; [by apply IH|].
  destruct (strstr la (lit ":")); [|by apply IH]. cbv zeta. case_if; [by eexists|by apply IH].
Qed.

(** With the path it opens, the command line of a process is never found. *)
Lemma pid_get_cmd_fails fopen pid cmd :
  (forall p, is_prefix (lit "/poc/") p = true -> fopen p = None) -> __pid_get_cmd fopen pid cmd = (-1, cmd).
Proof. intros Hf. unfold __pid_get_cmd. by rewrite Hf by apply is_prefix_app. Qed.
