(* ===== verification/Legacy.v ===== *)
(** * The driver on older kernels [driver/legacy/]

    The functions that are compiled in place of the current ones: [set_termios]
    before 6.1 and before 4.0, the ioctls before 5.0, the page faults before 4.17 and
    before 4.10.  (The transmit routine before 6.10 is in [Uart].)  On every kernel
    the port behaves as on the current one, except for [port->status]. *)

From S2P Require Import Prelude RingBuf Tty Uart DrvMain.

Section legacy.
Context {T : Type} `{TtyIf T}.
Implicit Types d : adv_vcom T.

(** ** [adv_uart_set_termios] *)

(** Kernels from 4.0. *)
Definition adv_uart_set_termios_4_0 d (termios old : ktermios) : adv_vcom T :=
  let baud := uart_get_baud_rate (tty d) termios old 50 921600 in
  let clr s b := Z.land s (Z.lnot b) in
  let c := c_cflag termios in
  let size := Z.land c CSIZE in
  let byte := if size =? CS5 then 5 else if size =? CS6 then 6 else if size =? CS7 then 7 else 8 in
  let s := port_status d in
  let '(flow, status) :=
    if c &? CRTSCTS then
      (ADV_FLOW_RTSCTS, clr (Z.lor (Z.lor s UPSTAT_AUTOCTS) UPSTAT_AUTORTS) UPSTAT_AUTOXOFF)
    else if c_iflag termios &? IXOFF then
      (ADV_FLOW_XONXOFF, clr (clr (Z.lor s UPSTAT_AUTOXOFF) UPSTAT_AUTOCTS) UPSTAT_AUTORTS)
    else
      (ADV_FLOW_NONE, clr (clr (clr s UPSTAT_AUTOCTS) UPSTAT_AUTORTS) UPSTAT_AUTOXOFF) in
  let p := Z.land c (Z.lor PARODD (Z.lor CMSPAR PARENB)) in
  let pair := if p =? PARENB then ADV_PAIR_EVEN
              else if p =? Z.lor PARODD PARENB then ADV_PAIR_ODD
              else if p =? Z.lor CMSPAR PARENB then ADV_PAIR_SPACE
              else if p =? Z.lor PARODD (Z.lor CMSPAR PARENB) then ADV_PAIR_MARK
              else ADV_PAIR_NONE in
  let stop := if c &? CSTOPB then ADV_STOP_2 else ADV_STOP_1 in
  let d := set_info (fun i => mk_info (i_is_open i) baud flow byte pair stop (i_ms i)) d in
  let d := set_port_status status d in
  let d := set_tty (uart_update_timeout (tty d) c baud) d in
  wake_if_active WQ_attr d.

(** Kernels before 4.0: the flow control is not entered in [port->status]. *)
Definition adv_uart_set_termios_2_6 d (termios old : ktermios) : adv_vcom T :=
  let baud := uart_get_baud_rate (tty d) termios old 50 921600 in
  let c := c_cflag termios in
  let size := Z.land c CSIZE in
  let byte := if size =? CS5 then 5 else if size =? CS6 then 6 else if size =? CS7 then 7 else 8 in
  let flow := if c &? CRTSCTS then ADV_FLOW_RTSCTS
              else if c_iflag termios &? IXOFF then ADV_FLOW_XONXOFF
              else ADV_FLOW_NONE in
  let p := Z.land c (Z.lor PARODD (Z.lor CMSPAR PARENB)) in
  let pair := if p =? PARENB then ADV_PAIR_EVEN
              else if p =? Z.lor PARODD PARENB then ADV_PAIR_ODD
              else if p =? Z.lor CMSPAR PARENB then ADV_PAIR_SPACE
              else if p =? Z.lor PARODD (Z.lor CMSPAR PARENB) then ADV_PAIR_MARK
              else ADV_PAIR_NONE in
  let stop := if c &? CSTOPB then ADV_STOP_2 else ADV_STOP_1 in
  let d := set_info (fun i => mk_info (i_is_open i) baud flow byte pair stop (i_ms i)) d in
  let d := set_tty (uart_update_timeout (tty d) c baud) d in
  wake_if_active WQ_attr d.

(** ** [adv_proc_ioctl] *)

Inductive verify := VERIFY_READ | VERIFY_WRITE.

(** [access_ok] of these kernels is told the direction. *)
Definition legacy_adv_proc_ioctl (access_ok : verify -> user_int -> bool) d (cmd : Z) (arg : user_int)
  : option (Z * user_int * adv_vcom T) :=
  if negb (_IOC_TYPE cmd =? ADVVCOM_IOC_MAGIC) then Some (- ENOTTY, arg, d) else
  if ADVVCOM_IOCMAX <? _IOC_NR cmd then Some (- ENOTTY, arg, d) else
  let err := if _IOC_DIR cmd &? _IOC_READ then negb (access_ok VERIFY_WRITE arg)
             else if _IOC_DIR cmd &? _IOC_WRITE then negb (access_ok VERIFY_READ arg) else false in
  if err then Some (- EFAULT, arg, d) else
  let put x d := let '(ret, arg) := put_user x arg in Some (ret, arg, d) in
  if cmd =? ADVVCOM_IOCGTXHEAD then put (get_rb_head (tx d)) d
  else if cmd =? ADVVCOM_IOCGTXTAIL then put (get_rb_tail (tx d)) d
  else if cmd =? ADVVCOM_IOCGTXSIZE then put (K.size (tx d)) d
  else if cmd =? ADVVCOM_IOCGTXBEGIN then put (K.begin (tx d)) d
  else if cmd =? ADVVCOM_IOCGRXHEAD then put (get_rb_head (rx d)) d
  else if cmd =? ADVVCOM_IOCGRXTAIL then put (get_rb_tail (rx d)) d
  else if cmd =? ADVVCOM_IOCGRXSIZE then put (K.size (rx d)) d
  else if cmd =? ADVVCOM_IOCGRXBEGIN then put (K.begin (rx d)) d
  else if cmd =? ADVVCOM_IOCSTXTAIL then
    let '(ret, tmp) := get_user arg in
    let d := set_tx (move_rb_tail (tx d) tmp) d in
    d ← adv_uart_recv_chars d;
    Some (ret, arg, d)
  else if cmd =? ADVVCOM_IOCSRXHEAD then
    let '(ret, tmp) := get_user arg in
    Some (ret, arg, set_rx (move_rb_head (rx d) tmp) d)
  else if cmd =? ADVVCOM_IOCGATTRBEGIN then put (att_begin (attr d)) d
  else if cmd =? ADVVCOM_IOCGATTRPTR then
    r ← flush_attr_info (attr d);
    let '(tmp, a) := r in put tmp (set_attr a d)
  else if cmd =? ADVVCOM_IOCSINTER then
    let '(ret, tmp) := get_user arg in
    d ← adv_main_interrupt d tmp;
    Some (ret, arg, d)
  else if cmd =? ADVVCOM_IOCSMCTRL then
    let '(ret, tmp) := get_user arg in
    Some (ret, arg, snd (adv_uart_ms d (u32 tmp)))
  else if cmd =? ADVVCOM_IOCSCLR then
    let '(ret, tmp) := get_user arg in
    Some (ret, arg, adv_main_clear d tmp)
  else Some (- EFAULT, arg, d).

(** ** Page faults *)

Record vm_area := mk_vma { vm_start : Z; vm_pgoff : Z }.
Definition PAGE_SHIFT : Z := 12.

(** The offset is an [unsigned long]. *)
Definition vma_offset (vma : vm_area) (address : Z) : Z :=
  (address - vm_start vma + Z.shiftl (vm_pgoff vma) PAGE_SHIFT) mod 2 ^ 64.

(** Kernels from 4.10; before, the address has another name. *)
Definition adv_vma_nopage_4_10 d (vma : vm_area) (address : Z) : option page :=
  let offset := vma_offset vma address in
  if offset <? K.size (tx d) + K.begin (tx d) then Some P_tx
  else if offset <? K.size (rx d) + K.begin (rx d) then Some P_rx
  else if offset <? att_size (attr d) + att_begin (attr d) then Some P_attr
  else None.

Definition adv_vma_nopage_2_6 d (vma : vm_area) (virtual_address : Z) : option page :=
  let offset := vma_offset vma virtual_address in
  if offset <? K.size (tx d) + K.begin (tx d) then Some P_tx
  else if offset <? K.size (rx d) + K.begin (rx d) then Some P_rx
  else if offset <? att_size (attr d) + att_begin (attr d) then Some P_attr
  else None.

(** ** The driver as it is compiled *)

Inductive kernel := K_2_6 | K_4_0 | K_5_0 | K_6_1.

Definition kernel_set_termios (v : kernel) d (new old : ktermios) : adv_vcom T :=
  match v with
  | K_6_1 => adv_uart_set_termios d new old
  | K_5_0 | K_4_0 => adv_uart_set_termios_4_0 d new old
  | K_2_6 => adv_uart_set_termios_2_6 d new old
  end.

Context (access_ok : verify -> user_int -> bool).

Definition kernel_ioctl (v : kernel) d (cmd : Z) (arg : user_int) : option (Z * user_int * adv_vcom T) :=
  match v with
  | K_6_1 | K_5_0 => adv_proc_ioctl d cmd arg
  | K_4_0 | K_2_6 => legacy_adv_proc_ioctl access_ok d cmd arg
  end.

Definition kernel_ioctl_on (v : kernel) d (cmd val : Z) : option (adv_vcom T) :=
  r ← kernel_ioctl v d cmd (uarg val); Some (snd r).

Definition kernel_do (v : kernel) d (o : port_op) : option (adv_vcom T) :=
  match o with
  | O_tty (T_set_termios new old) => Some (kernel_set_termios v d new old)
  | O_tty o => tty_do d o
  | O_poll => r ← adv_proc_poll d; Some (snd r)
  | O_interrupt mask => kernel_ioctl_on v d ADVVCOM_IOCSINTER mask
  | O_attrptr => kernel_ioctl_on v d ADVVCOM_IOCGATTRPTR 0
  | O_mctrl status => kernel_ioctl_on v d ADVVCOM_IOCSMCTRL status
  | O_produce bs =>
      b ← ring_copy (tx d) bs;
      kernel_ioctl_on v (set_tx b d) ADVVCOM_IOCSTXTAIL (zlen bs)
  | O_consume n => kernel_ioctl_on v d ADVVCOM_IOCSRXHEAD n
  | O_clear flags =>
      d ← kernel_ioctl_on v d ADVVCOM_IOCSCLR flags;
      if flags &? ADV_CLR_RX then kernel_ioctl_on v d ADVVCOM_IOCSRXHEAD 0 else Some d
  end.

Fixpoint kernel_run (v : kernel) d (os : list port_op) : option (adv_vcom T) :=
  match os with
  | [] => Some d
  | o :: os => d ← kernel_do v d o; kernel_run v d os
  end.
End legacy.

(** ** Ports that agree but for [port->status] *)

Definition same_port {T} (d d' : adv_vcom T) : Prop := set_port_status 0 d = set_port_status 0 d'.

#[export] Instance same_port_equiv {T} : Equivalence (@same_port T).
Proof. unfold same_port. split; [intros a|intros a b|intros a b c]; congruence. Qed.

Lemma same_port_status {T} (d d' : adv_vcom T) : same_port d d' <-> d' = set_port_status (port_status d') d.
Proof.
  split.
  - destruct d, d'. unfold same_port, set_port_status. cbn. congruence.
  - intros Heq. unfold same_port. by rewrite Heq.
Qed.

Definition same_result {T} : option (adv_vcom T) -> option (adv_vcom T) -> Prop := option_Forall2 same_port.

Section equiv.
Context {T : Type} `{TtyIf T}.
Implicit Types d : adv_vcom T.

(** An operation that neither reads nor writes [port->status]. *)
Definition blind (f : adv_vcom T -> option (adv_vcom T)) : Prop :=
  forall s d, f (set_port_status s d) = set_port_status s <$> f d.

Lemma blind_same f d d' : blind f -> same_port d d' -> same_result (f d) (f d').
Proof.
  intros Hf Hs. rewrite (proj1 (same_port_status d d') Hs), Hf. destruct (f d); constructor. unfold same_port. done.
Qed.

Lemma blind_bind f g : blind f -> blind g -> blind (fun d => d ← f d; g d).
Proof. intros Hf Hg s d. rewrite Hf. destruct (f d) as [x|]; [|done]. cbn. apply Hg. Qed.

Lemma blind_some f : (forall s d, f (set_port_status s d) = set_port_status s (f d)) -> blind (fun d => Some (f d)).
Proof. intros Hf s d. by rewrite Hf. Qed.

Lemma blind_wake q : forall s d, wake_if_active q (set_port_status s d) = set_port_status s (wake_if_active q d).
Proof. intros s d. unfold wake_if_active. cbn. by destruct (active d q). Qed.

(** Reading the other fields through [set_port_status]. *)
Ltac fields := cbn; unfold up_tx, up_rx, set_up_tx, set_up_rx in *; cbn.

Lemma blind_xmit_loop fuel : blind (xmit_loop fuel).
Proof.
  induction fuel as [|fuel IH]; intros s d; [done|]. cbn [xmit_loop]. fields.
  repeat (case_if; [done|]). destruct (store _ _ _) as [m|]; [|done]. cbn.
  match goal with |- _ = _ <$> xmit_loop _ ?x => exact (IH s x) end.
Qed.

Lemma blind_xmit : blind adv_uart_xmit.
Proof.
  intros s d. unfold adv_uart_xmit. change (up_tx (set_port_status s d)) with (up_tx d).
  change (tty (set_port_status s d)) with (tty d). case_if; [done|]. apply (blind_xmit_loop _ s d).
Qed.

Lemma blind_recv_loop n : forall count s d,
  recv_loop n count (set_port_status s d) = (fun r => (fst r, set_port_status s (snd r))) <$> recv_loop n count d.
Proof.
  induction n as [|n IH]; intros count s d; [done|]. cbn [recv_loop]. fields. case_if; [|done].
  destruct (load _ _ _) as [bs|]; [|done]. cbn. destruct (tty_insert_flip_string (tty d) bs) as [ret t].
  case_if; [|done].
  match goal with |- _ = _ <$> recv_loop _ ?c ?x => exact (IH c s x) end.
Qed.

Lemma blind_recv : blind adv_uart_recv_chars.
Proof.
  intros s d. unfold adv_uart_recv_chars. change (attr (set_port_status s d)) with (attr d).
  change (up_rx (set_port_status s d)) with (up_rx d). repeat (case_if; [done|]). rewrite blind_recv_loop.
  destruct (recv_loop _ _ d) as [[c d']|]; [|done]. cbn. case_if; [|done]. cbn. f_equal. apply (blind_wake WQ_up_rx s (set_tty _ d')).
Qed.

Lemma blind_tty_do o : match o with T_set_termios _ _ => True | _ => blind (fun d => tty_do d o) end.
Proof.
  destruct o; try done; cbn [tty_do]; try (apply blind_some; intros s d; apply (blind_wake _ s (set_info _ d))).
  - intros s d. unfold adv_uart_start_tx. 
    change (set_up_tx (ring_enable (up_tx (set_port_status s d))) (set_port_status s d))
      with (set_port_status s (set_up_tx (ring_enable (up_tx d)) d)).
    cbv zeta. rewrite blind_xmit. destruct (adv_uart_xmit _) as [x|]; [|done]. cbn. f_equal. apply blind_wake.
  - apply blind_some. intros s d. unfold adv_uart_startup. cbv zeta.
    by rewrite <- !blind_wake.
  - apply blind_some. intros s d. unfold adv_uart_throttle. apply (blind_wake _ s (set_attr _ d)).
  - intros s d. unfold adv_uart_unthrottle. apply (blind_recv s (set_attr _ d)).
Qed.

Lemma blind_interrupt mask : blind (fun d => adv_main_interrupt d mask).
Proof.
  unfold adv_main_interrupt.
  apply (blind_bind (fun d => if mask &? ADV_INT_RX then adv_uart_update_xmit d else Some d)
    (fun d => if mask &? ADV_INT_TX then adv_uart_recv_chars d else Some d)); case_if; intros s d; try done; [|apply blind_recv].
  unfold adv_uart_update_xmit. change (attr (set_port_status s d)) with (attr d).
  change (up_tx (set_port_status s d)) with (up_tx d). case_if; [|done]. case_if; [|done].
  rewrite blind_xmit. by destruct (adv_uart_xmit d).
Qed.

Lemma blind_ioctl_on cmd v : blind (fun d => ioctl_on d cmd v).
Proof.
  intros s d. unfold ioctl_on, adv_proc_ioctl. do 2 (case_if; [done|]). cbn [uarg u_access negb].
  assert (Hf : forall b c : bool, (if b then false else if c then false else false) = false) by (by intros [] []).
  rewrite Hf. cbv iota zeta. do 8 (case_if; [done|]). case_if.
  { cbn [get_user uarg u_mapped]. pose proof (blind_recv s (set_tx (move_rb_tail (tx d) v) d)) as Hr.
    change (u_val (uarg v)) with v. change (set_tx (move_rb_tail (tx (set_port_status s d)) v) (set_port_status s d))
      with (set_port_status s (set_tx (move_rb_tail (tx d) v) d)). rewrite Hr. clear Hr. by destruct (adv_uart_recv_chars _). }
  do 2 (case_if; [done|]). case_if.
  { change (attr (set_port_status s d)) with (attr d). by destruct (flush_attr_info (attr d)) as [[tmp a]|]. }
  case_if.
  { cbn [get_user uarg u_mapped]. change (u_val (uarg v)) with v. rewrite (blind_interrupt v s d). by destruct (adv_main_interrupt d v). }
  case_if; [done|]. case_if; [|done]. cbn [get_user uarg u_mapped u_val mbind option_bind snd fmap option_fmap option_map].
  f_equal. unfold adv_main_clear. by repeat case_if.
Qed.

Context (access_ok : verify -> user_int -> bool) (Haccess : forall ty u, access_ok ty u = u_access u).

Lemma kernel_ioctl_same v d cmd arg : kernel_ioctl access_ok v d cmd arg = adv_proc_ioctl d cmd arg.
Proof using Haccess. destruct v; try done; cbn [kernel_ioctl]; unfold legacy_adv_proc_ioctl; by rewrite !Haccess. Qed.

Lemma kernel_termios_same v d new old : same_port (kernel_set_termios v d new old) (adv_uart_set_termios d new old).
Proof.
  destruct v; [|done..]. unfold same_port, kernel_set_termios, adv_uart_set_termios, adv_uart_set_termios_2_6, termios_flow.
  unfold wake_if_active. destruct (c_cflag new &? CRTSCTS); [|destruct (c_iflag new &? IXOFF)]; cbv beta iota zeta;
    change (active (set_tty _ _)) with (active d); by destruct (active d WQ_attr).
Qed.

Lemma termios_respects d d' new old : same_port d d' ->
  same_port (adv_uart_set_termios d new old) (adv_uart_set_termios d' new old).
Proof.
  intros Hs. rewrite (proj1 (same_port_status d d') Hs). unfold same_port, adv_uart_set_termios, termios_flow.
  unfold wake_if_active. destruct (c_cflag new &? CRTSCTS); [|destruct (c_iflag new &? IXOFF)]; cbv beta iota zeta;
    change (active (set_tty _ _)) with (active d); by destruct (active d WQ_attr).
Qed.

Lemma kernel_do_same v d d' o : same_port d d' -> same_result (kernel_do access_ok v d o) (port_do d' o).
Proof using Haccess.
  intros Hs. assert (Hon : forall x cmd w, kernel_ioctl_on access_ok v x cmd w = ioctl_on x cmd w).
  { intros. unfold kernel_ioctl_on, ioctl_on. by rewrite kernel_ioctl_same. }
  destruct o as [o| | | | | | |]; cbn [kernel_do port_do]; rewrite ?Hon;
    try (by apply (blind_same (fun x => ioctl_on x _ _) d d' (blind_ioctl_on _ _))).
  - pose proof (blind_tty_do o) as Ho. destruct o; try (by apply (blind_same _ d d' Ho)). constructor.
    etransitivity; [apply kernel_termios_same|]. by apply termios_respects.
  - apply (blind_same (fun x => r ← adv_proc_poll x; Some (snd r)) d d'); [|done]. intros s x. unfold adv_proc_poll.
    change (poll_mask (poll_wait (set_port_status s x))) with (poll_mask (poll_wait x)). by destruct (poll_mask _).
  - rewrite (proj1 (same_port_status d d') Hs). change (tx (set_port_status _ d)) with (tx d).
    destruct (ring_copy (tx d) bs) as [b|]; [|constructor]. cbn [mbind option_bind]. rewrite Hon.
    by apply (blind_same (fun x => ioctl_on x _ _) (set_tx b d) _ (blind_ioctl_on _ _)).
  - assert (Hc : same_result (ioctl_on d ADVVCOM_IOCSCLR flags) (ioctl_on d' ADVVCOM_IOCSCLR flags))
      by (by apply (blind_same (fun x => ioctl_on x _ _) d d' (blind_ioctl_on _ _))).
    destruct Hc as [x y Hxy|]; [|constructor]. cbn [mbind option_bind]. case_if; [|by constructor]. rewrite Hon.
    by apply (blind_same (fun x => ioctl_on x _ _) x y (blind_ioctl_on _ _)).
Qed.

Lemma kernel_run_same v os : forall d d', same_port d d' -> same_result (kernel_run access_ok v d os) (port_run d' os).
Proof using Haccess.
  induction os as [|o os IH]; intros d d' Hs; [by constructor|]. cbn [kernel_run port_run].
  destruct (kernel_do_same v d d' o Hs) as [x y Hxy|]; [|constructor]. by apply IH.
Qed.
End equiv.

(** ** Transmitting *)

Lemma zlen_circ x : circ_ok x -> zlen (circ_contents x) = uart_circ_chars_pending x.
Proof.
  intros Hx. pose proof Hx as (Hl & ? & ?). pose proof (circ_pending_range x Hx).
  unfold circ_contents. apply zlen_ring_read; unfold UART_XMIT_SIZE in *; lia.
Qed.

(** How much each of the two routines moves. *)
Lemma legacy_moves_min x r : circ_ok x -> ring_ok r ->
  exists x' r', legacy_adv_uart_xmit x r = Some (x', r') /\
    contents r' ++ circ_contents x' = contents r ++ circ_contents x /\
    zlen (contents r') = zlen (contents r) + Z.min (zlen (circ_contents x)) (get_rb_room r).
Proof.
  intros Hx Hr. unfold legacy_adv_uart_xmit. rewrite (zlen_circ x Hx).
  pose proof (circ_pending_range x Hx). pose proof (rb_room_range _ (ring_ok_geom _ Hr)).
  destruct (uart_circ_empty x) eqn:He.
  { exists x, r. split_and!; try done. unfold uart_circ_empty in He. rewrite circ_pending_cases by done. bool_simpl.
    rewrite He, Z.leb_refl. lia. }
  assert (0 < uart_circ_chars_pending x).
  { unfold uart_circ_empty in He. rewrite circ_pending_cases by done. bool_simpl. destruct Hx as (_ & ? & ?). case_if; lia. }
  destruct (Z.eqb_spec (get_rb_room r) 0) as [Hz|Hz]; [exists x, r; split_and!; try done; lia|].
  set (count := if _ <? _ then _ else _).
  assert (Hc : count = Z.min (uart_circ_chars_pending x) (get_rb_room r)) by (unfold count; case_if; lia).
  destruct (legacy_xmit_loop_spec 3 count x r) as (x' & r' & Hl & Hx' & Hr' & Hcon & Hp & _); try done; try lia.
  { unfold rounds. repeat case_if; lia. }
  exists x', r'. split_and!; [done|done|]. apply (f_equal zlen) in Hcon. rewrite !zlen_app, !zlen_circ in Hcon by done. lia.
Qed.

Lemma xmit_moves_min {T} `{TtyLaws T} (d : adv_vcom T) : ring_ok (up_tx d) ->
  exists d', adv_uart_xmit d = Some d' /\
    contents (up_tx d') ++ xmit_fifo (tty d') = contents (up_tx d) ++ xmit_fifo (tty d) /\
    zlen (contents (up_tx d')) = zlen (contents (up_tx d)) + Z.min (zlen (xmit_fifo (tty d))) (get_rb_room (up_tx d)).
Proof.
  intros Hr. destruct (adv_uart_xmit_spec d Hr) as (d' & Hx & (Hr' & Hcon & _ & _ & _ & Hsize & _) & Hend).
  exists d'. split_and!; [done|done|]. pose proof (contents_capacity _ Hr). pose proof (contents_capacity _ Hr').
  pose proof (rb_room_range _ (ring_ok_geom _ Hr')). pose proof (zlen_nonneg (xmit_fifo (tty d'))).
  apply (f_equal zlen) in Hcon. rewrite !zlen_app in Hcon.
  destruct Hend as [Hend|Hend]; [rewrite Hend in Hcon; change (zlen []) with 0 in Hcon; lia|lia].
Qed.

(** On the kernels with a circular transmit buffer the transmit routine leaves the
    same bytes in the ring and the same bytes to be sent as the routine of the current
    kernels does for a fifo with the same contents. *)
Theorem legacy_xmit_equiv {T} `{TtyLaws T} (d : adv_vcom T) x :
  circ_ok x -> ring_ok (up_tx d) -> xmit_fifo (tty d) = circ_contents x ->
  exists d' x' r', adv_uart_xmit d = Some d' /\ legacy_adv_uart_xmit x (up_tx d) = Some (x', r') /\
    contents r' = contents (up_tx d') /\ circ_contents x' = xmit_fifo (tty d').
Proof.
  intros Hx Hr Heq. destruct (xmit_moves_min d Hr) as (d' & H1 & H2 & H3).
  destruct (legacy_moves_min x (up_tx d) Hx Hr) as (x' & r' & L1 & L2 & L3). exists d', x', r'. split; [done|]. split; [done|].
  rewrite <- Heq in L2, L3. rewrite <- H2 in L2. apply app_inj_1 in L2; [done|].
  unfold zlen in *. lia.
Qed.

Lemma legacy_xmit_equiv_witness :
  let d := small_port [] (replicate 4 Byte.xab) in
  exists d' x' r', adv_uart_xmit d = Some d' /\ legacy_adv_uart_xmit wrapping_circ (up_tx d) = Some (x', r') /\
    contents r' = contents (up_tx d') /\ circ_contents x' = xmit_fifo (tty d').
Proof.
  intros d. apply legacy_xmit_equiv.
  - vm_compute. intuition congruence.
  - apply small_ring_ok; lia.
  - vm_compute. reflexivity.
Defined.



(** A mapping of the control file: the faults of every kernel give the page of the
    offset, when nothing wraps. *)
Lemma nopage_same {T} (d : adv_vcom T) vma address : 0 <= vm_pgoff vma -> vm_start vma <= address ->
  address - vm_start vma + 4096 * vm_pgoff vma < 2 ^ 64 ->
  let off := address - vm_start vma + 4096 * vm_pgoff vma in
  adv_vma_nopage_4_10 d vma address = adv_vma_nopage d off /\ adv_vma_nopage_2_6 d vma address = adv_vma_nopage d off.
Proof.
  intros Hp Ha Hl off. assert (Ho : vma_offset vma address = off).
  { unfold vma_offset, PAGE_SHIFT, off. rewrite Z.shiftl_mul_pow2 by lia. rewrite Z.mod_small by lia. lia. }
  unfold adv_vma_nopage_4_10, adv_vma_nopage_2_6. by rewrite Ho.
Qed.
