(* ===== verification/DrvModule.v ===== *)
(** * Loading and unloading the driver

    [driver/adv_main.c] ([adv_main_init], [adv_main_release], [adv_vcom_init],
    [adv_vcom_exit]) and [driver/adv_uart.c] ([adv_uart_register], [adv_uart_init],
    [adv_uart_rm_port], [adv_uart_release], each also as older kernels have it): what
    the module takes from the kernel and gives back.  The fields of a port are in
    [DrvMain]; here a port is where it is, its index and its pages.

    Using a null pointer, giving back what is not held and taking the list head for an
    entry are faults, [None]. *)

From stdpp Require Import gmultiset.
From S2P Require Import Prelude DrvMain.

(** ** What the kernel gives *)

Inductive res :=
  | R_vcom (addr : Z) | R_page (addr : Z) | R_uart (addr : Z)
  | R_entry (port : Z) | R_root | R_driver | R_line (line : Z) | R_dev | R_dev_added.

#[export] Instance res_eq_dec : EqDecision res.
Proof. solve_decision. Defined.

#[export] Instance res_countable : Countable res.
Proof.
  refine (inj_countable'
    (fun r => match r with
              | R_vcom a => (0, a) | R_page a => (1, a) | R_uart a => (2, a) | R_entry a => (3, a) | R_line a => (4, a)
              | R_root => (5, 0) | R_driver => (6, 0) | R_dev => (7, 0) | R_dev_added => (8, 0) end)
    (fun '(k, a) => match k with
              | 0 => R_vcom a | 1 => R_page a | 2 => R_uart a | 3 => R_entry a | 4 => R_line a
              | 5 => R_root | 6 => R_driver | 7 => R_dev | _ => R_dev_added end) _).
  by intros [].
Defined.

(** Entries of [vcom_list] and [uart_list]; a page may be null. *)
Record vcom_entry := mk_ve { ve_addr : Z; ve_index : Z; ve_tx : Z; ve_rx : Z; ve_attr : Z; ve_entry : bool }.
Record uart_entry := mk_ue { ue_addr : Z; ue_line : Z }.

Record module := mk_module {
  live : gmultiset res;
  next : Z;
  vcom_list : list vcom_entry;
  uart_list : list uart_entry;
}.

(** The results of the kernel's functions, and whether the kernel is 6.5 or newer.
    Allocations are numbered. *)
Class Kernel := {
  since_6_5 : bool;
  alloc_ok : Z -> bool;
  proc_create_ok : Z -> bool;
  uart_register_driver : Z;
  platform_device_alloc : bool;
  platform_device_add : Z;
  uart_add_one_port : Z -> Z;
}.

Section load.
Context `{Kernel}.

Definition take (r : res) (m : module) : module :=
  mk_module (live m ⊎ {[+ r +]}) (next m) (vcom_list m) (uart_list m).

Definition give_back (r : res) (m : module) : option module :=
  if decide (r ∈ live m) then Some (mk_module (live m ∖ {[+ r +]}) (next m) (vcom_list m) (uart_list m)) else None.

(** [kmalloc] and [__get_free_pages]; 0 is the null pointer. *)
Definition alloc (mk : Z -> res) (m : module) : Z * module :=
  let a := next m in
  let m := mk_module (live m) (a + 1) (vcom_list m) (uart_list m) in
  if alloc_ok a then (a, take (mk a) m) else (0, m).

(** ** The uart driver *)

Definition adv_uart_register (m : module) : option (Z * module) :=
  let ret := uart_register_driver in
  if ret <? 0 then m ← give_back R_driver m; Some (ret, m) else
  let m := take R_driver m in
  if since_6_5 then
    if negb platform_device_alloc then Some (-1, m) else
    let m := take R_dev m in
    if platform_device_add <? 0 then m ← give_back R_dev m; Some (platform_device_add, m)
    else Some (platform_device_add, take R_dev_added m)
  else Some (ret, m).

Definition adv_uart_init (index : Z) (m : module) : option (Z * module) :=
  let '(up, m) := alloc R_uart m in
  if up =? 0 then None else
  let ret := uart_add_one_port index in
  let m := if ret <? 0 then m else take (R_line index) m in
  Some (ret, mk_module (live m) (next m) (vcom_list m) (mk_ue up index :: uart_list m)).

(** The entry stays in the list, and is not freed. *)
Definition adv_uart_rm_port (index : Z) (m : module) : option module :=
  match find (fun u => ue_line u =? index) (uart_list m) with
  | None => None
  | Some _ => give_back (R_line index) m
  end.

Definition adv_uart_release (m : module) : option module :=
  m ← (if since_6_5 then m ← give_back R_dev_added m; give_back R_dev m else Some m);
  give_back R_driver m.

(** ** The ports *)

Definition adv_main_init_port (port : Z) (m : module) : option module :=
  let '(vcomdata, m) := alloc R_vcom m in
  if vcomdata =? 0 then None else
  let '(tx, m) := alloc R_page m in
  let '(rx, m) := alloc R_page m in
  let '(attr, m) := alloc R_page m in
  if attr =? 0 then None else
  let ok := proc_create_ok port in
  let m := if ok then take (R_entry port) m else m in
  Some (mk_module (live m) (next m) (mk_ve vcomdata port tx rx attr ok :: vcom_list m) (uart_list m)).

(** [list_for_each_entry] up to the port, then [list_del]. *)
Fixpoint unlink (port : Z) (l : list vcom_entry) : option (vcom_entry * list vcom_entry) :=
  match l with
  | [] => None
  | d :: l => if ve_index d =? port then Some (d, l) else r ← unlink port l; Some (fst r, d :: snd r)
  end.

Definition free_page (p : Z) (m : module) : option module := if p =? 0 then Some m else give_back (R_page p) m.

Definition adv_main_release (port : Z) (m : module) : option module :=
  r ← unlink port (vcom_list m);
  let '(d, l) := r in
  let m := mk_module (live m) (next m) l (uart_list m) in
  m ← (if ve_entry d then give_back (R_entry port) m else Some m);
  m ← free_page (ve_rx d) m;
  m ← free_page (ve_tx d) m;
  m ← free_page (ve_attr d) m;
  give_back (R_vcom (ve_addr d)) m.

(** ** The module *)

Fixpoint init_ports (n : nat) (i : Z) (m : module) : option module :=
  match n with
  | O => Some m
  | S n =>
      m ← adv_main_init_port i m;
      r ← adv_uart_init i m;
      init_ports n (i + 1) (snd r)
  end.

(** The result of the registration is ignored. *)
Definition adv_vcom_init (m : module) : option module :=
  let m := take R_root m in
  r ← adv_uart_register m;
  init_ports VCOM_PORTS 0 (snd r).

Fixpoint exit_ports (n : nat) (i : Z) (m : module) : option module :=
  match n with
  | O => Some m
  | S n =>
      m ← adv_uart_rm_port i m;
      m ← adv_main_release i m;
      exit_ports n (i + 1) m
  end.

Definition adv_vcom_exit (m : module) : option module :=
  m ← exit_ports VCOM_PORTS 0 m;
  m ← adv_uart_release m;
  give_back R_root m.

(** ** Loading, then unloading *)

Lemma give_back_take r m m' : live m = live m' ⊎ {[+ r +]} -> next m = next m' -> vcom_list m = vcom_list m' ->
  uart_list m = uart_list m' -> give_back r m = Some m'.
Proof.
  intros Hl Hn Hv Hu. unfold give_back. rewrite decide_True by (rewrite Hl; multiset_solver).
  f_equal. destruct m as [l n v u], m' as [l' n' v' u']. cbn in *. subst. f_equal. multiset_solver.
Qed.

(** Everything succeeds. *)
Definition kernel_gives : Prop :=
  (forall a, alloc_ok a = true) /\ (forall i, proc_create_ok i = true) /\ 0 <= uart_register_driver /\
  platform_device_alloc = true /\ 0 <= platform_device_add /\ (forall i, 0 <= uart_add_one_port i).

(** Port [i] of a module whose allocations start at [a]: five allocations each. *)
Definition base_of (a i : Z) : Z := a + 5 * i.
Definition entry_of (a i : Z) : vcom_entry :=
  let b := base_of a i in mk_ve b i (b + 1) (b + 2) (b + 3) true.
Definition uart_of (a i : Z) : uart_entry := mk_ue (base_of a i + 4) i.
Definition port_res (a i : Z) : gmultiset res :=
  let b := base_of a i in
  {[+ R_vcom b; R_page (b + 1); R_page (b + 2); R_page (b + 3); R_entry i; R_line i +]}.
Definition uart_res (a i : Z) : gmultiset res := {[+ R_uart (base_of a i + 4) +]}.

Fixpoint res_of (f : Z -> gmultiset res) (n : nat) (i : Z) : gmultiset res :=
  match n with O => ∅ | S n => f i ⊎ res_of f n (i + 1) end.

Context (Hgives : kernel_gives).

Lemma alloc_gives mk m : alloc mk m = (next m, mk_module (live m ⊎ {[+ mk (next m) +]}) (next m + 1) (vcom_list m) (uart_list m)).
Proof using Hgives. unfold alloc. destruct Hgives as (-> & _). done. Qed.

(** One port is created. *)
Lemma init_port_gives a i m : next m = base_of a i -> 0 < a -> 0 <= i ->
  exists m1 r, adv_main_init_port i m = Some m1 /\ adv_uart_init i m1 = Some (r,
    mk_module (live m ⊎ port_res a i ⊎ uart_res a i) (base_of a (i + 1)) (entry_of a i :: vcom_list m) (uart_of a i :: uart_list m)).
Proof using Hgives.
  intros Hn Ha Hi. pose proof Hgives as (_ & Hproc & _ & _ & _ & Hadd). unfold adv_main_init_port, adv_uart_init.
  rewrite !alloc_gives. cbn [next live vcom_list uart_list]. rewrite Hn. unfold base_of in *.
  rewrite !(proj2 (Z.eqb_neq _ _)) by lia. rewrite Hproc. cbv iota.
  eexists _, _. split; [done|]. rewrite alloc_gives. cbn [next live vcom_list uart_list take].
  rewrite (proj2 (Z.eqb_neq _ _)) by lia. rewrite (proj2 (Z.ltb_ge _ _)) by apply Hadd.
  cbn [next live vcom_list uart_list take]. f_equal. f_equal. unfold entry_of, uart_of, port_res, uart_res, base_of.
  replace (a + 5 * i + 1 + 1 + 1) with (a + 5 * i + 3) by lia. replace (a + 5 * i + 1 + 1) with (a + 5 * i + 2) by lia.
  replace (a + 5 * i + 3 + 1) with (a + 5 * i + 4) by lia.
  f_equal; [multiset_solver|lia].
Qed.

Definition entries (a i : Z) (n : nat) : list vcom_entry := reverse (entry_of a <$> seqZ i (Z.of_nat n)).
Definition uarts (a i : Z) (n : nat) : list uart_entry := reverse (uart_of a <$> seqZ i (Z.of_nat n)).

Lemma seqZ_S i n : seqZ i (Z.of_nat (S n)) = i :: seqZ (i + 1) (Z.of_nat n).
Proof using Type. clear Hgives. rewrite seqZ_cons by lia. do 2 f_equal; lia. Qed.

Lemma init_ports_gives a n : forall i m, next m = base_of a i -> 0 < a -> 0 <= i ->
  init_ports n i m = Some (mk_module (live m ⊎ res_of (port_res a) n i ⊎ res_of (uart_res a) n i) (base_of a (i + Z.of_nat n))
    (entries a i n ++ vcom_list m) (uarts a i n ++ uart_list m)).
Proof using Hgives.
  induction n as [|n IH]; intros i m Hn Ha Hi; cbn [init_ports res_of].
  - replace (i + Z.of_nat 0) with i by lia. rewrite <- Hn. destruct m as [l k v u]. cbn. do 2 f_equal. multiset_solver.
  - destruct (init_port_gives a i m Hn Ha Hi) as (m1 & r & -> & E). cbn [mbind option_bind]. rewrite E.
    cbn [mbind option_bind snd]. rewrite IH by (done || lia). cbn [live next vcom_list uart_list]. f_equal.
    unfold entries, uarts. rewrite seqZ_S. cbn [fmap list_fmap]. rewrite !reverse_cons, <- !app_assoc. cbn [app].
    f_equal; [multiset_solver|f_equal; lia].
Qed.

Lemma unlink_last port d l : ve_index d = port -> Forall (fun x => ve_index x <> port) l -> unlink port (l ++ [d]) = Some (d, l).
Proof using Type.
  clear Hgives.
  intros Hd Hl. induction Hl as [|x l Hx Hl IH]; cbn [app unlink].
  - by rewrite Hd, Z.eqb_refl.
  - rewrite (proj2 (Z.eqb_neq _ _)) by done. by rewrite IH.
Qed.

(** One port is released. *)
Lemma release_gives a i n L m : 0 < a -> 0 <= i -> live m = L ⊎ port_res a i -> vcom_list m = entries a i (S n) ->
  (exists u, find (fun u => ue_line u =? i) (uart_list m) = Some u) ->
  exists m1, adv_uart_rm_port i m = Some m1 /\
    adv_main_release i m1 = Some (mk_module L (next m) (entries a (i + 1) n) (uart_list m)).
Proof using Type.
  clear Hgives.
  intros Ha Hi Hl Hv [u Hu]. unfold adv_uart_rm_port. rewrite Hu.
  unfold port_res in Hl. set (b := base_of a i) in *.
  assert (Hb : 0 < b) by (unfold b, base_of; lia).
  set (V := entries a (i + 1) n).
  assert (Hun : unlink i (vcom_list m) = Some (entry_of a i, V)).
  { rewrite Hv. unfold entries, V. rewrite seqZ_S. cbn [fmap list_fmap]. rewrite reverse_cons. apply unlink_last; [done|].
    apply Forall_reverse, Forall_fmap, Forall_forall. intros x Hx%elem_of_seqZ. cbn. lia. }
  exists (mk_module (L ⊎ {[+ R_vcom b; R_page (b + 1); R_page (b + 2); R_page (b + 3); R_entry i +]}) (next m) (vcom_list m) (uart_list m)).
  split; [apply give_back_take; cbn [live next vcom_list uart_list]; [rewrite Hl; clear; multiset_solver|done..]|].
  unfold adv_main_release. cbn [vcom_list]. rewrite Hun. cbn [mbind option_bind entry_of ve_entry ve_rx ve_tx ve_attr ve_addr live next uart_list].
  fold b. unfold free_page. rewrite !(proj2 (Z.eqb_neq _ _)) by lia.
  rewrite (give_back_take _ _ (mk_module (L ⊎ {[+ R_vcom b; R_page (b + 1); R_page (b + 2); R_page (b + 3) +]}) (next m) V (uart_list m)))
    by (done || (cbn [live]; clear; multiset_solver)). cbn [mbind option_bind].
  rewrite (give_back_take _ _ (mk_module (L ⊎ {[+ R_vcom b; R_page (b + 1); R_page (b + 3) +]}) (next m) V (uart_list m)))
    by (done || (cbn [live]; clear; multiset_solver)). cbn [mbind option_bind].
  rewrite (give_back_take _ _ (mk_module (L ⊎ {[+ R_vcom b; R_page (b + 3) +]}) (next m) V (uart_list m)))
    by (done || (cbn [live]; clear; multiset_solver)). cbn [mbind option_bind].
  rewrite (give_back_take _ _ (mk_module (L ⊎ {[+ R_vcom b +]}) (next m) V (uart_list m)))
    by (done || (cbn [live]; clear; multiset_solver)). cbn [mbind option_bind].
  apply give_back_take; done.
Qed.

Lemma exit_ports_gives a n : forall i L m, 0 < a -> 0 <= i -> live m = L ⊎ res_of (port_res a) n i ->
  vcom_list m = entries a i n ->
  (forall j, i <= j < i + Z.of_nat n -> exists u, find (fun u => ue_line u =? j) (uart_list m) = Some u) ->
  exit_ports n i m = Some (mk_module L (next m) [] (uart_list m)).
Proof using Type.
  clear Hgives.
  induction n as [|n IH]; intros i L m Ha Hi Hl Hv Hu; cbn [exit_ports res_of] in *.
  - destruct m as [l k v u]. cbn in *. subst. do 2 f_equal. multiset_solver.
  - destruct (release_gives a i n (L ⊎ res_of (port_res a) n (i + 1)) m) as (m1 & -> & E); try done.
    { rewrite Hl. generalize (port_res a i) (res_of (port_res a) n (i + 1)). clear. intros; multiset_solver. }
    { apply Hu. lia. }
    cbn [mbind option_bind]. rewrite E. cbn [mbind option_bind]. rewrite (IH (i + 1) L); try done; try lia.
    intros j Hj. apply Hu. lia.
Qed.

Lemma uarts_find a n j : 0 <= j < Z.of_nat n -> exists u, find (fun u => ue_line u =? j) (uarts a 0 n) = Some u.
Proof using Type.
  clear Hgives.
  intros Hj. destruct (find (fun u => ue_line u =? j) (uarts a 0 n)) as [u|] eqn:E; [by exists u|]. exfalso.
  pose proof (find_none _ _ E (uart_of a j)) as Hn. cbn in Hn. rewrite Z.eqb_refl in Hn.
  discriminate Hn. apply list_elem_of_In. apply elem_of_reverse, list_elem_of_fmap_2, elem_of_seqZ. lia.
Qed.

Lemma release_driver L m : live m = L ⊎ ({[+ R_driver +]} ⊎ (if since_6_5 then {[+ R_dev; R_dev_added +]} else ∅)) ->
  adv_uart_release m = Some (mk_module L (next m) (vcom_list m) (uart_list m)).
Proof using Type.
  clear Hgives.
  intros Hl. unfold adv_uart_release. destruct since_6_5.
  - rewrite (give_back_take R_dev_added m (mk_module (L ⊎ {[+ R_driver; R_dev +]}) (next m) (vcom_list m) (uart_list m)))
      by (done || (rewrite Hl; cbn [live]; clear; multiset_solver)). cbn [mbind option_bind].
    rewrite (give_back_take R_dev _ (mk_module (L ⊎ {[+ R_driver +]}) (next m) (vcom_list m) (uart_list m)))
      by (done || (cbn [live]; clear; multiset_solver)). cbn [mbind option_bind]. by apply give_back_take.
  - cbn [mbind option_bind]. by apply give_back_take.
Qed.

End load.

Section failed.
Context {Kn : Kernel}.

(** The ports only, when the rest of the module has been set up to [L]. *)
Lemma ports_come_and_go n L a : (forall k, alloc_ok k = true) -> (forall i, proc_create_ok i = true) ->
  (forall i, 0 <= uart_add_one_port i) -> 0 < a ->
  exists m1, init_ports n 0 (mk_module L a [] []) = Some m1 /\
    exit_ports n 0 m1 = Some (mk_module (L ⊎ res_of (uart_res a) n 0) (next m1) [] (uart_list m1)).
Proof.
  intros Ha Hp Hu Hpos.
  set (k := Build_Kernel since_6_5 alloc_ok proc_create_ok 0 true 0 uart_add_one_port).
  assert (Hg : @kernel_gives k) by (by split_and!).
  assert (Hsame : forall n i m, @init_ports Kn n i m = @init_ports k n i m).
  { clear. induction n as [|n IH]; intros i m; [done|]. cbn [init_ports].
    change (@adv_main_init_port k i m) with (@adv_main_init_port Kn i m). destruct (@adv_main_init_port Kn i m) as [m0|]; [|done].
    cbn [mbind option_bind]. change (@adv_uart_init k i m0) with (@adv_uart_init Kn i m0). destruct (@adv_uart_init Kn i m0); [|done].
    apply IH. }
  rewrite Hsame. rewrite (@init_ports_gives k Hg a n 0 (mk_module L a [] [])) by (unfold base_of; cbn; lia).
  eexists. split; [done|]. cbn [live next vcom_list uart_list]. rewrite !app_nil_r.
  apply (exit_ports_gives a); try done.
  - cbn [live]. generalize (res_of (port_res a) n 0) (res_of (uart_res a) n 0). clear. intros; multiset_solver.
  - intros j Hj. apply uarts_find. lia.
Qed.

(** Errors while the module is loaded.  When the driver cannot be registered, it is
    unregistered nevertheless, which faults.  When the platform device of the newer
    kernels cannot be made, the error is ignored: loading goes on and reports success,
    and unloading faults, because it removes a device that is not there. *)
Theorem failed_registration m :
  0 < next m -> vcom_list m = [] -> uart_list m = [] -> R_driver ∉ live m -> R_dev_added ∉ live m ->
  (uart_register_driver < 0 -> adv_vcom_init m = None) /\
  (since_6_5 = true -> 0 <= uart_register_driver -> platform_device_alloc = false \/ platform_device_add < 0 ->
   (forall k, alloc_ok k = true) -> (forall i, proc_create_ok i = true) -> (forall i, 0 <= uart_add_one_port i) ->
   exists m1, adv_vcom_init m = Some m1 /\ adv_vcom_exit m1 = None).
Proof.
  intros Hpos Hv Hu Hdr Hda. split.
  - intros Hr. unfold adv_vcom_init, adv_uart_register. rewrite (proj2 (Z.ltb_lt _ _)) by done.
    unfold give_back. cbn [take live]. rewrite decide_False; [done|]. multiset_solver.
  - intros Hk Hr Hdev Hal Hpr Hup.
    assert (Hreg : exists r L, adv_uart_register (take R_root m) = Some (r, mk_module L (next m) [] []) /\ R_dev_added ∉ L).
    { unfold adv_uart_register. rewrite (proj2 (Z.ltb_ge _ _)) by done. rewrite Hk. unfold take. cbn [live next vcom_list uart_list].
      rewrite Hv, Hu. destruct platform_device_alloc; cbn [negb].
      - destruct Hdev as [|Hadd]; [done|]. rewrite (proj2 (Z.ltb_lt _ _)) by done. unfold give_back. cbn [live next vcom_list uart_list].
        rewrite decide_True by multiset_solver. eexists _, _. split; [done|]. multiset_solver.
      - eexists _, _. split; [done|]. multiset_solver. }
    destruct Hreg as (r & L & Hreg & HL). unfold adv_vcom_init, adv_vcom_exit. rewrite Hreg. cbn [mbind option_bind snd].
    destruct (ports_come_and_go VCOM_PORTS L (next m) Hal Hpr Hup Hpos) as (m1 & -> & E).
    exists m1. split; [done|]. rewrite E. cbn [mbind option_bind]. unfold adv_uart_release. rewrite Hk. unfold give_back.
    cbn [live]. rewrite decide_False; [done|]. intros [Hin|Hin]%gmultiset_elem_of_disj_union; [done|].
    revert Hin. generalize VCOM_PORTS 0 (next m). clear. intros n. induction n as [|n IH]; intros i a; cbn [res_of]; [multiset_solver|].
    intros [Hin|Hin]%gmultiset_elem_of_disj_union; [unfold uart_res in Hin; multiset_solver|by eapply IH].
Qed.
End failed.

(** ** Examples *)

Definition new_kernel : Kernel := Build_Kernel true (fun _ => true) (fun _ => true) 0 true 0 (fun _ => 0).
Definition no_device : Kernel := Build_Kernel true (fun _ => true) (fun _ => true) 0 false 0 (fun _ => 0).
Definition fresh_module : module := mk_module ∅ 1 [] [].


Lemma failed_registration_witness :
  exists m1, @adv_vcom_init no_device fresh_module = Some m1 /\ @adv_vcom_exit no_device m1 = None.
Proof.
  apply (@failed_registration no_device fresh_module); try (cbn; lia); try reflexivity;
    try (apply gmultiset_not_elem_of_empty); try (by left); intros; reflexivity || (cbn; lia).
Defined.
