(* ===== verification/DrvFile.v ===== *)
(** * The device as a whole: tables of operations, files and mappings

    [driver/adv_uart.c], [driver/adv_main.c] and [driver/adv_mmap.c]: the table
    [adv_uart_ops] the serial core calls, and the one of the control file,
    [adv_proc_fops], with what opening and mapping store: a file keeps the port of
    its entry in [/proc/vcom], a mapping the port of the file.  The kernel's tables
    of files and mappings are maps from their numbers.

    The theorem is about all ports together: whatever processes and the serial
    core do, every port sees exactly the calls meant for it. *)

From stdpp Require Import gmap.
From S2P Require Import Prelude Text RingBuf Tty Uart DrvMain.

(** ** [adv_uart_ops] *)

Inductive uart_call :=
  | U_tx_empty | U_set_mctrl (m : Z) | U_get_mctrl | U_stop_tx | U_start_tx | U_stop_rx | U_enable_ms
  | U_break_ctl (break_state : Z) | U_startup | U_shutdown | U_set_termios (new old : ktermios) | U_type
  | U_release_port | U_request_port | U_config_port (flags : Z) | U_ioctl (cmd arg : Z) | U_throttle | U_unthrottle.

(** What a call returns. *)
Inductive reply := R_void | R_int (n : Z) | R_str (s : list byte) | R_user (n : Z) (u : user_int).

Definition ENOIOCTLCMD : Z := 515.

Section device.
Context {T : Type} `{TtyIf T}.
Implicit Types d : adv_vcom T.

Definition adv_uart_enable_ms d : adv_vcom T := d.
Definition adv_uart_break_ctl d (break_state : Z) : adv_vcom T := d.
Definition adv_uart_ioctl d (cmd arg : Z) : Z := - ENOIOCTLCMD.
Definition adv_uart_release_port d : adv_vcom T := d.
Definition adv_uart_request_port d : Z := 0.
Definition adv_uart_config_port d (flags : Z) : adv_vcom T := d.
Definition adv_uart_type d : list byte := lit "Advantech VCOM".

Definition adv_uart_ops (c : uart_call) d : option (reply * adv_vcom T) :=
  match c with
  | U_tx_empty => Some (R_int (adv_uart_tx_empty d), d)
  | U_set_mctrl m => Some (R_void, adv_uart_set_mctrl d m)
  | U_get_mctrl => Some (R_int (adv_uart_get_mctrl d), d)
  | U_stop_tx => Some (R_void, adv_uart_stop_tx d)
  | U_start_tx => d ← adv_uart_start_tx d; Some (R_void, d)
  | U_stop_rx => Some (R_void, adv_uart_stop_rx d)
  | U_enable_ms => Some (R_void, adv_uart_enable_ms d)
  | U_break_ctl b => Some (R_void, adv_uart_break_ctl d b)
  | U_startup => Some (R_int 0, adv_uart_startup d)
  | U_shutdown => Some (R_void, adv_uart_shutdown d)
  | U_set_termios new old => Some (R_void, adv_uart_set_termios d new old)
  | U_type => Some (R_str (adv_uart_type d), d)
  | U_release_port => Some (R_void, adv_uart_release_port d)
  | U_request_port => Some (R_int (adv_uart_request_port d), d)
  | U_config_port f => Some (R_void, adv_uart_config_port d f)
  | U_ioctl cmd arg => Some (R_int (adv_uart_ioctl d cmd arg), d)
  | U_throttle => Some (R_void, adv_uart_throttle d)
  | U_unthrottle => d ← adv_uart_unthrottle d; Some (R_void, d)
  end.

(** ** A port *)

(** What reaches a port: the serial core, a request or a poll of the control file,
    and bytes stored through a mapping.  A store into the page of the attributes,
    or where the fault handler has no page, is a fault. *)
Inductive dev_op := D_uart (c : uart_call) | D_ioctl (cmd : Z) (arg : user_int) | D_poll | D_store (off : Z) (bs : list byte).

Definition page_store (off : Z) (bs : list byte) d : option (adv_vcom T) :=
  pg ← adv_vma_nopage d off;
  match pg with
  | P_tx => m ← store (off - K.begin (tx d)) bs (K.data (tx d)); Some (set_tx (K.set_data m (tx d)) d)
  | P_rx => m ← store (off - K.begin (rx d)) bs (K.data (rx d)); Some (set_rx (K.set_data m (rx d)) d)
  | P_attr => None
  end.

Definition dev_do (o : dev_op) d : option (reply * adv_vcom T) :=
  match o with
  | D_uart c => adv_uart_ops c d
  | D_ioctl cmd arg => r ← adv_proc_ioctl d cmd arg; let '(ret, u, d) := r in Some (R_user ret u, d)
  | D_poll => r ← adv_proc_poll d; Some (R_int (fst r), snd r)
  | D_store off bs => d ← page_store off bs d; Some (R_void, d)
  end.

Fixpoint dev_run (os : list dev_op) d : option (adv_vcom T) :=
  match os with
  | [] => Some d
  | o :: os => r ← dev_do o d; dev_run os (snd r)
  end.

(** ** Files and mappings *)

(** [sy_files]: [private_data] of the open files; [sy_vmas]: [vm_private_data]. *)
Record system := mk_sys { sy_ports : list (adv_vcom T); sy_files : gmap Z nat; sy_vmas : gmap Z nat }.

(** [data] is the port of the entry, what [proc_create_data] stored. *)
Definition adv_proc_open (data : nat) (filp : Z) (s : system) : Z * system :=
  (0, mk_sys (sy_ports s) (<[filp := data]> (sy_files s)) (sy_vmas s)).
Definition adv_proc_release (filp : Z) (s : system) : Z * system := (0, s).

Definition adv_proc_mmap (filp vma : Z) (s : system) : option (Z * system) :=
  data ← sy_files s !! filp;
  Some (0, mk_sys (sy_ports s) (sy_files s) (<[vma := data]> (sy_vmas s))).
Definition adv_vma_open (vma : Z) (s : system) : system := s.
Definition adv_vma_close (vma : Z) (s : system) : system := s.

(** What processes and the serial core do.  The kernel forgets a file that was
    released and a mapping that was closed; a mapping is copied by [fork], the copy
    with the same private data. *)
Inductive sys_op :=
  | S_open (data : nat) (filp : Z) | S_close (filp : Z) | S_mmap (filp vma : Z) | S_copy (vma new : Z) | S_unmap (vma : Z)
  | S_uart (port : nat) (c : uart_call) | S_ioctl (filp : Z) (cmd : Z) (arg : user_int) | S_poll (filp : Z)
  | S_store (vma off : Z) (bs : list byte).

Definition on_port (p : nat) (o : dev_op) (s : system) : option (reply * system) :=
  d ← sy_ports s !! p;
  r ← dev_do o d;
  Some (fst r, mk_sys (<[p := snd r]> (sy_ports s)) (sy_files s) (sy_vmas s)).

(** The tables [adv_proc_fops] and [adv_vm_ops], called by the kernel. *)
Definition sys_do (o : sys_op) (s : system) : option (reply * system) :=
  match o with
  | S_open data filp => let '(r, s) := adv_proc_open data filp s in Some (R_int r, s)
  | S_close filp =>
      let '(r, s) := adv_proc_release filp s in
      Some (R_int r, mk_sys (sy_ports s) (delete filp (sy_files s)) (sy_vmas s))
  | S_mmap filp vma => r ← adv_proc_mmap filp vma s; Some (R_int (fst r), snd r)
  | S_copy vma new =>
      data ← sy_vmas s !! vma;
      Some (R_void, adv_vma_open new (mk_sys (sy_ports s) (sy_files s) (<[new := data]> (sy_vmas s))))
  | S_unmap vma =>
      let s := adv_vma_close vma s in
      Some (R_void, mk_sys (sy_ports s) (sy_files s) (delete vma (sy_vmas s)))
  | S_uart p c => on_port p (D_uart c) s
  | S_ioctl filp cmd arg => p ← sy_files s !! filp; on_port p (D_ioctl cmd arg) s
  | S_poll filp => p ← sy_files s !! filp; on_port p D_poll s
  | S_store vma off bs => p ← sy_vmas s !! vma; on_port p (D_store off bs) s
  end.

Fixpoint sys_run (os : list sys_op) (s : system) : option system :=
  match os with
  | [] => Some s
  | o :: os => r ← sys_do o s; sys_run os (snd r)
  end.

(** ** What the handles stand for

    By the history alone, the latest first: a file for the entry it was opened
    at, until it is closed; a mapping for what its file stood for when it was made,
    also after the file is closed. *)

Fixpoint file_port (f : Z) (past : list sys_op) : option nat :=
  match past with
  | [] => None
  | S_open data f' :: past => if decide (f = f') then Some data else file_port f past
  | S_close f' :: past => if decide (f = f') then None else file_port f past
  | _ :: past => file_port f past
  end.

Fixpoint vma_port (v : Z) (past : list sys_op) : option nat :=
  match past with
  | [] => None
  | S_mmap f v' :: past => if decide (v = v') then file_port f past else vma_port v past
  | S_copy v0 v' :: past => if decide (v = v') then vma_port v0 past else vma_port v past
  | S_unmap v' :: past => if decide (v = v') then None else vma_port v past
  | _ :: past => vma_port v past
  end.

(** The port an operation is for, and what it is there. *)
Definition meant (past : list sys_op) (o : sys_op) : option (nat * dev_op) :=
  match o with
  | S_uart p c => Some (p, D_uart c)
  | S_ioctl f cmd arg => p ← file_port f past; Some (p, D_ioctl cmd arg)
  | S_poll f => p ← file_port f past; Some (p, D_poll)
  | S_store v off bs => p ← vma_port v past; Some (p, D_store off bs)
  | _ => None
  end.

Fixpoint project (p : nat) (past os : list sys_op) : list dev_op :=
  match os with
  | [] => []
  | o :: os =>
      match meant past o with
      | Some (q, x) => if decide (p = q) then [x] else []
      | None => []
      end ++ project p (o :: past) os
  end.

(** Every file and mapping that is used is there, and so is the port. *)
Definition usable (n : nat) (past : list sys_op) (o : sys_op) : bool :=
  match o with
  | S_open _ _ | S_close _ | S_unmap _ => true
  | S_mmap f _ => bool_decide (is_Some (file_port f past))
  | S_copy v _ => bool_decide (is_Some (vma_port v past))
  | _ => match meant past o with Some (p, _) => bool_decide (p < n)%nat | None => false end
  end.
Fixpoint all_usable (n : nat) (past os : list sys_op) : bool :=
  match os with
  | [] => true
  | o :: os => usable n past o && all_usable n (o :: past) os
  end.

(** ** Independence *)

Definition handles (past : list sys_op) (s : system) : Prop :=
  (forall f, sy_files s !! f = file_port f past) /\ (forall v, sy_vmas s !! v = vma_port v past).

(** The ports are carried along by the calls meant for them. *)
Definition advanced (o : option (nat * dev_op)) (s s' : system) : Prop :=
  match o with
  | None => sy_ports s' = sy_ports s
  | Some (p, x) => exists d r, sy_ports s !! p = Some d /\ dev_do x d = Some r /\ sy_ports s' = <[p := snd r]> (sy_ports s)
  end.

Lemma on_port_runs p x s :
  (exists d, sy_ports s !! p = Some d /\ is_Some (dev_do x d)) ->
  exists r s', on_port p x s = Some (r, s') /\ sy_files s' = sy_files s /\ sy_vmas s' = sy_vmas s /\
    advanced (Some (p, x)) s s'.
Proof.
  intros (d & Hd & [[r d'] Hx]). unfold on_port. rewrite Hd. simpl. rewrite Hx. simpl. do 2 eexists.
  split; [done|]. split_and!; [done..|]. exists d, (r, d'). done.
Qed.

Lemma sys_do_runs past o s :
  handles past s -> usable (length (sy_ports s)) past o = true ->
  (forall p x d, meant past o = Some (p, x) -> sy_ports s !! p = Some d -> is_Some (dev_do x d)) ->
  exists r s', sys_do o s = Some (r, s') /\ handles (o :: past) s' /\ advanced (meant past o) s s'.
Proof.
  intros [Hf Hv] Hu Hd.
  assert (Hport : forall p x, meant past o = Some (p, x) -> bool_decide (p < length (sy_ports s))%nat = true ->
    (forall f, file_port f (o :: past) = file_port f past) -> (forall v, vma_port v (o :: past) = vma_port v past) ->
    exists r s', on_port p x s = Some (r, s') /\ handles (o :: past) s' /\ advanced (Some (p, x)) s s').
  { intros p x Em Hp Hf' Hv'. apply bool_decide_eq_true in Hp. apply lookup_lt_is_Some in Hp as [d Ed].
    destruct (on_port_runs p x s) as (r & s' & Hr & Ef & Ev & Ha); [eauto|]. exists r, s'. split_and!; [done| |done].
    split; intros y; [rewrite Ef, Hf; symmetry; apply Hf'|rewrite Ev, Hv; symmetry; apply Hv']. }
  destruct o; cbn [sys_do adv_proc_open adv_proc_release meant usable] in *.
  - do 2 eexists. split_and!; [done| |done]. split; intros y; cbn [sy_files sy_vmas file_port vma_port]; [|apply Hv].
    case_decide as E; [subst; by rewrite lookup_insert_eq|rewrite lookup_insert_ne by done; apply Hf].
  - do 2 eexists. split_and!; [done| |done]. split; intros y; cbn [sy_files sy_vmas file_port vma_port]; [|apply Hv].
    case_decide as E; [subst; by rewrite lookup_delete_eq|rewrite lookup_delete_ne by done; apply Hf].
  - apply bool_decide_eq_true in Hu as [p Hp]. unfold adv_proc_mmap. rewrite Hf, Hp. do 2 eexists.
    split_and!; [done| |done]. split; intros y; cbn [sy_files sy_vmas file_port vma_port snd]; [apply Hf|].
    case_decide as E; [subst; by rewrite lookup_insert_eq|rewrite lookup_insert_ne by done; apply Hv].
  - apply bool_decide_eq_true in Hu as [p Hp]. rewrite Hv, Hp. do 2 eexists. split_and!; [done| |done].
    split; intros y; cbn [adv_vma_open sy_files sy_vmas file_port vma_port]; [apply Hf|].
    case_decide as E; [subst; by rewrite lookup_insert_eq|rewrite lookup_insert_ne by done; apply Hv].
  - do 2 eexists. split_and!; [done| |done]. split; intros y; cbn [adv_vma_close sy_files sy_vmas file_port vma_port]; [apply Hf|].
    case_decide as E; [subst; by rewrite lookup_delete_eq|rewrite lookup_delete_ne by done; apply Hv].
  - by apply Hport.
  - rewrite Hf. destruct (file_port filp past) as [p|]; [|done]. by apply Hport.
  - rewrite Hf. destruct (file_port filp past) as [p|]; [|done]. by apply Hport.
  - rewrite Hv. destruct (vma_port vma past) as [p|]; [|done]. by apply Hport.
Qed.

Lemma sys_run_projects os : forall past s,
  handles past s -> all_usable (length (sy_ports s)) past os = true ->
  (forall p d, sy_ports s !! p = Some d -> is_Some (dev_run (project p past os) d)) ->
  exists s', sys_run os s = Some s' /\ length (sy_ports s') = length (sy_ports s) /\
    forall p d, sy_ports s !! p = Some d -> dev_run (project p past os) d = sy_ports s' !! p.
Proof.
  induction os as [|o os IH]; intros past s Hh Hu Hd; cbn [sys_run project all_usable] in *; [by exists s|].
  apply andb_true_iff in Hu as [Ho Hu].
  destruct (sys_do_runs past o s Hh Ho) as (r & s1 & Hr & Hh1 & Ha).
  { intros p x d Em Ed. specialize (Hd p d Ed). rewrite Em, decide_True in Hd by done. cbn [app dev_run] in Hd.
    destruct (dev_do x d); [by eexists|by destruct Hd]. }
  rewrite Hr. cbn [mbind option_bind snd].
  assert (Hl : length (sy_ports s1) = length (sy_ports s)).
  { unfold advanced in Ha. destruct (meant past o) as [[p x]|]; [|by rewrite Ha].
    destruct Ha as (d & r' & _ & _ & ->). by rewrite length_insert. }
  (** the state of a port after the operation *)
  assert (Hstep : forall p d1, sy_ports s1 !! p = Some d1 -> exists d, sy_ports s !! p = Some d /\ forall rest,
    dev_run (match meant past o with Some (q, x) => if decide (p = q) then [x] else [] | None => [] end ++ rest) d
    = dev_run rest d1).
  { intros p d1 E1. unfold advanced in Ha. destruct (meant past o) as [[q x]|].
    - destruct Ha as (d & r' & Ed & Ex & Es). rewrite Es in E1. destruct (decide (p = q)) as [->|Hne].
      + rewrite list_lookup_insert_eq in E1 by (by apply lookup_lt_Some in Ed). injection E1 as <-.
        exists d. split; [done|]. intros rest. cbn [app dev_run]. by rewrite Ex.
      + rewrite list_lookup_insert_ne in E1 by done. by exists d1.
    - rewrite Ha in E1. by exists d1. }
  destruct (IH (o :: past) s1 Hh1) as (s' & Hrun & Hl' & Hp); [by rewrite Hl| |].
  { intros p d1 E1. destruct (Hstep p d1 E1) as (d & Ed & Hrest). rewrite <- Hrest. by apply Hd. }
  exists s'. split_and!; [done|congruence|]. intros p d Ed.
  destruct (lookup_lt_is_Some_2 (sy_ports s1) p) as [d1 E1]; [rewrite Hl; by apply lookup_lt_Some in Ed|].
  destruct (Hstep p d1 E1) as (d' & Ed' & Hrest). rewrite Ed in Ed'. injection Ed' as <-. rewrite Hrest. by apply Hp.
Qed.


(** A call of the table the serial core makes is one of the port's operations or
    leaves the port alone. *)
Definition tty_of (c : uart_call) : option tty_op :=
  match c with
  | U_set_mctrl m => Some (T_set_mctrl m)
  | U_stop_tx => Some T_stop_tx
  | U_start_tx => Some T_start_tx
  | U_stop_rx => Some T_stop_rx
  | U_startup => Some T_startup
  | U_shutdown => Some T_shutdown
  | U_set_termios new old => Some (T_set_termios new old)
  | U_throttle => Some T_throttle
  | U_unthrottle => Some T_unthrottle
  | _ => None
  end.

Lemma uart_ops_table c d :
  snd <$> adv_uart_ops c d = match tty_of c with Some o => tty_do d o | None => Some d end.
Proof.
  destruct c; try done; cbn [adv_uart_ops tty_of tty_do].
  - by destruct (adv_uart_start_tx d).
  - by destruct (adv_uart_unthrottle d).
Qed.
End device.

