(* ===== verification/Startup.v ===== *)
(** * Starting the daemon [daemon/vcom_client.c] and the TLS context

    [startup] reads the command line the starter writes; with [-S] it reads the TLS
    configuration and makes the context ([shared/ssl_select/ssl_select.c]).  [getopt]
    and [sscanf] are the C library's and are written out for what is used of them;
    what OpenSSL answers is the class [Openssl].

    A null pointer that is followed, and OpenSSL called with one, is a fault, [None]. *)

From S2P Require Import Prelude Text Jsmn JsTree ProcTools Starter.

(** ** [getopt] and [sscanf] *)

(** The options of one argument; an option that wants the next argument comes last. *)
Fixpoint getopt_word (spec : byte -> option bool) (w : list byte) : list (byte * list byte) * option byte :=
  match w with
  | [] => ([], None)
  | c :: w =>
      match spec c with
      | None => let '(l, o) := getopt_word spec w in ((Byte.x3f, []) :: l, o)
      | Some false => let '(l, o) := getopt_word spec w in ((c, []) :: l, o)
      | Some true => match w with [] => ([], Some c) | _ => ([(c, w)], None) end
      end
  end.

(** Arguments that are not options are passed over. *)
Fixpoint getopt (spec : byte -> option bool) (argv : list (list byte)) : list (byte * list byte) :=
  match argv with
  | [] => []
  | w :: argv =>
      match w with
      | Byte.x2d :: (_ :: _) as r =>
          if decide (w = lit "--") then [] else
          let '(l, o) := getopt_word spec (tail w) in
          l ++ match o with
               | None => getopt spec argv
               | Some c => match argv with [] => [(Byte.x3f, [])] | v :: argv => (c, v) :: getopt spec argv end
               end
      | _ => getopt spec argv
      end
  end.

(** The sign and the digits behind it. *)
Definition signed (s : list byte) : bool * list byte :=
  match skip_blank s with
  | b :: s' => if chr b =? 45 then (true, s') else if chr b =? 43 then (false, s') else (false, b :: s')
  | [] => (false, [])
  end.
Definition starts_digit (s : list byte) : bool := match s with b :: _ => is_digit b | [] => false end.

(** [%d] is what [atoi] gives, when there is a digit. *)
Definition sscanf_d (s : list byte) : option Z := if starts_digit (snd (signed s)) then Some (atoi s) else None.

(** [%u]: [strtoul], which negates and saturates, then a cast. *)
Definition sscanf_u (s : list byte) : option Z :=
  let '(neg, r) := signed s in
  if starts_digit r then
    let v := digits r 0 in
    Some ((if v <? 2 ^ 64 then (if (neg : bool) then - v else v) else 2 ^ 64 - 1) mod 2 ^ 32)
  else None.

Definition hex_digit (b : byte) : option Z :=
  let c := chr b in
  if (48 <=? c) && (c <=? 57) then Some (c - 48)
  else if (97 <=? c) && (c <=? 102) then Some (c - 87)
  else if (65 <=? c) && (c <=? 70) then Some (c - 55)
  else None.
Fixpoint hex_digits (s : list byte) (acc : Z) : Z :=
  match s with
  | b :: s => match hex_digit b with Some d => hex_digits s (acc * 16 + d) | None => acc end
  | [] => acc
  end.

(** [%hx], with or without [0x]. *)
Definition sscanf_hx (s : list byte) : option Z :=
  let '(neg, r) := signed s in
  match r with
  | [] => None
  | b :: _ =>
      match hex_digit b with
      | None => None
      | Some _ =>
          let r := match r with
                   | a :: x :: d :: _ =>
                       if (chr a =? 48) && ((chr x =? 120) || (chr x =? 88)) && (match hex_digit d with Some _ => true | None => false end)
                       then tail (tail r) else r
                   | _ => r
                   end in
          let v := hex_digits r 0 in
          Some ((if v <? 2 ^ 64 then (if (neg : bool) then - v else v) else 2 ^ 64 - 1) mod 2 ^ 16)
      end
  end.

(** ** The TLS context *)

Definition SSL_SEL_PASSWORD_MAX : Z := 512.

(** [strnlen], and 0 for a string that does not end in the buffer. *)
Definition _strvalid (buf : list byte) (bufmax : Z) : Z :=
  let len := Z.min (zlen (cstr buf)) bufmax in if len =? bufmax then 0 else len.

Record ssl_pwd_data := mk_pwd { pwd_len : Z; pwd_data : list byte }.

(** The callback: what is returned, and the text in the buffer of [num] bytes. *)
Definition password_cb (num : Z) (userdata : option ssl_pwd_data) : Z * list byte :=
  match userdata with
  | None => (0, [])
  | Some p => if num <? pwd_len p then (0, []) else (pwd_len p, ztake (num - 1) (pwd_data p))
  end.

Definition X509_V_ERR_CERT_NOT_YET_VALID : Z := 9.
Definition X509_V_ERR_CERT_HAS_EXPIRED : Z := 10.

Definition verify_callback (ok err : Z) : Z := ok.
Definition custom_verify_callback (ok err : Z) : Z :=
  if negb (truthy ok) then
    if (err =? X509_V_ERR_CERT_NOT_YET_VALID) || (err =? X509_V_ERR_CERT_HAS_EXPIRED) then 1 else ok
  else ok.

(** The files are looked up in the working directory, [None] when it was not changed. *)
Class Openssl := {
  use_certificate_chain_file : option (list byte) -> list byte -> bool;
  use_PrivateKey_file : option (list byte) -> list byte -> option ssl_pwd_data -> bool;
  load_verify_locations : option (list byte) -> list byte -> bool;
}.

(** A context: the password it asks the callback for, and its verification. *)
Record SSL_CTX := mk_ctx { ctx_pwd : option ssl_pwd_data; ctx_verify : Z -> Z -> Z }.

Section startup.
Context `{Openssl}.

Definition initialize_ctx (wd : option (list byte)) (rootCA keyfile : option (list byte)) (password : list byte)
  : option (option SSL_CTX) :=
  keyfile ← keyfile;
  r ← (if negb (_strvalid keyfile PATH_MAX =? 0) then
         if negb (use_certificate_chain_file wd (cstr keyfile)) then Some None else
         let n := _strvalid password SSL_SEL_PASSWORD_MAX in
         let pwd := if negb (n =? 0) then Some (mk_pwd n (cstr password)) else None in
         if negb (use_PrivateKey_file wd (cstr keyfile) pwd) then Some None else Some (Some pwd)
       else Some (Some None));
  match r with
  | None => Some None
  | Some pwd =>
      match rootCA with
      | None => Some None
      | Some ca => if negb (load_verify_locations wd (cstr ca)) then Some None else Some (Some (mk_ctx pwd verify_callback))
      end
  end.

(** Up to the last slash, with it. *)
Fixpoint last_slash (s : list byte) : option (list byte) :=
  match s with
  | [] => None
  | b :: s => match last_slash s with
              | Some p => Some (b :: p)
              | None => if chr b =? 47 then Some [b] else None
              end
  end.
Definition create_cfg_cwd (config_file : list byte) : option (list byte) := last_slash config_file.

(** ** [startup] *)

(** The variables it sets; [ip_ptr] is [None] as long as it was never assigned. *)
Record vc_args := mk_args {
  ttyid : Z; devid : Z; portno : Z;
  ip_ptr : option (list byte); ip_red : option (list byte);
  logfile : option (list byte); ssl_ctx : option SSL_CTX; sslcfg : vc_ssl_cfg;
  addr : option (list byte); _set_devid : bool;
}.

(** What a step does: go on, return -1, or [exit(0)]. *)
Inductive step := Go (p : vc_args) | Fail | Exit.

Definition vcomd_spec (c : byte) : option bool :=
  match c with
  | Byte.x68 => Some false
  | Byte.x53 | Byte.x6c | Byte.x74 | Byte.x64 | Byte.x61 | Byte.x70 | Byte.x72 => Some true
  | _ => None
  end.

Definition startup_tls (file : option (list byte)) (name : list byte) (p : vc_args) : option step :=
  r ← loadconfig file (sslcfg p);
  let '(ret, cfg) := r in
  if negb (ret =? 0) then Some Fail else
  c ← initialize_ctx (create_cfg_cwd name) (rootca cfg) (keyfile cfg) (password cfg);
  c ← (if truthy (accept_expired_key cfg) then
         c ← c; Some (Some (mk_ctx (ctx_pwd c) custom_verify_callback))
       else Some c);
  match c with
  | None => Some Exit
  | Some c => Some (Go (mk_args (ttyid p) (devid p) (portno p) (ip_ptr p) (ip_red p) (logfile p) (Some c) cfg (addr p) (_set_devid p)))
  end.

(** [read] is what [-S] reads. *)
Definition startup_opt (read : list byte -> option (list byte)) (o : byte * list byte) (p : vc_args) : option step :=
  let '(ch, optarg) := o in
  match ch with
  | Byte.x6c => Some (Go (mk_args (ttyid p) (devid p) (portno p) (ip_ptr p) (ip_red p) (Some optarg) (ssl_ctx p) (sslcfg p) (addr p) (_set_devid p)))
  | Byte.x74 => Some (Go (mk_args (default (ttyid p) (sscanf_d optarg)) (devid p) (portno p) (ip_ptr p) (ip_red p) (logfile p) (ssl_ctx p) (sslcfg p) (addr p) (_set_devid p)))
  | Byte.x64 => Some (Go (mk_args (ttyid p) (default (devid p) (sscanf_hx optarg)) (portno p) (ip_ptr p) (ip_red p) (logfile p) (ssl_ctx p) (sslcfg p) (addr p) true))
  | Byte.x61 => Some (Go (mk_args (ttyid p) (devid p) (portno p) (Some optarg) (ip_red p) (logfile p) (ssl_ctx p) (sslcfg p) (Some optarg) (_set_devid p)))
  | Byte.x70 => Some (Go (mk_args (ttyid p) (devid p) (default (portno p) (sscanf_u optarg)) (ip_ptr p) (ip_red p) (logfile p) (ssl_ctx p) (sslcfg p) (addr p) (_set_devid p)))
  | Byte.x72 => Some (Go (mk_args (ttyid p) (devid p) (portno p) (ip_ptr p) (Some optarg) (logfile p) (ssl_ctx p) (sslcfg p) (Some optarg) (_set_devid p)))
  | Byte.x53 => startup_tls (read optarg) optarg p
  | _ => Some Fail
  end.

Fixpoint startup_loop (read : list byte -> option (list byte)) (l : list (byte * list byte)) (p : vc_args) : option step :=
  match l with
  | [] => Some (Go p)
  | o :: l =>
      s ← startup_opt read o p;
      match s with Go p => startup_loop read l p | s => Some s end
  end.

(** [cfg] is the static [m_sslcfg]; [ip_red] was set to 0 by [main]. *)
Definition startup (read : list byte -> option (list byte)) (argv : list (list byte)) (cfg : vc_ssl_cfg) : option step :=
  if zlen argv <? 2 then Some Fail else
  s ← startup_loop read (getopt vcomd_spec (tail argv)) (mk_args (-1) 0 0 None None None None cfg None false);
  match s with
  | Go p =>
      if bool_decide (addr p = None) || (portno p =? 0) || (ttyid p <? 0) || negb (_set_devid p)
      then Some Fail else Some (Go p)
  | s => Some s
  end.
End startup.

(** ** The daemon reads what the starter writes *)

Lemma getopt_opt spec c v argv : spec c = Some true -> v <> [] -> c <> Byte.x2d ->
  getopt spec ((Byte.x2d :: c :: v) :: argv) = (c, v) :: getopt spec argv.
Proof.
  intros Hc Hv Hd. cbn [getopt tail]. rewrite decide_False by (vm_compute lit; congruence). cbn [getopt_word]. rewrite Hc.
  by destruct v.
Qed.

Lemma getopt_args ssl t : tty_ok t -> 0 < zlen ssl ->
  getopt vcomd_spec (tail (args ssl t)) =
  [(Byte.x6c, mon t); (Byte.x74, mpt_nameidx_str t); (Byte.x64, dev_type_str t); (Byte.x61, dev_ipaddr_str t);
   (Byte.x70, dev_portidx_str t)] ++
  (if has_redundant_ip t then [(Byte.x72, dev_redundant_ipaddr_str t)] else []) ++
  (if dev_ssl t then [(Byte.x53, ssl)] else []).
Proof.
  intros (H1 & _ & _ & H2 & H3 & H4 & _ & H5) Hs.
  assert (Hne : forall n s, a_word n s -> s <> []) by (intros n s [Hz _] ->; unfold zlen in Hz; simpl in Hz; lia).
  assert (Hm : mon t <> []) by done. assert (Hssl : ssl <> []) by (by intros ->).
  unfold args. cbn [tail app].
  change (lit "-l" ++ mon t) with (Byte.x2d :: Byte.x6c :: mon t).
  change (lit "-t" ++ mpt_nameidx_str t) with (Byte.x2d :: Byte.x74 :: mpt_nameidx_str t).
  change (lit "-d" ++ dev_type_str t) with (Byte.x2d :: Byte.x64 :: dev_type_str t).
  change (lit "-a" ++ dev_ipaddr_str t) with (Byte.x2d :: Byte.x61 :: dev_ipaddr_str t).
  change (lit "-p" ++ dev_portidx_str t) with (Byte.x2d :: Byte.x70 :: dev_portidx_str t).
  change (lit "-r" ++ dev_redundant_ipaddr_str t) with (Byte.x2d :: Byte.x72 :: dev_redundant_ipaddr_str t).
  change (lit "-S" ++ ssl) with (Byte.x2d :: Byte.x53 :: ssl).
  rewrite !getopt_opt by (done || by eapply Hne).
  do 5 f_equal. destruct (has_redundant_ip t), (dev_ssl t); cbn [app]; rewrite ?getopt_opt by (done || by eapply Hne); done.
Qed.

(** A positive number is read the same by [atoi] and by the two conversions. *)
Lemma atoi_signed s : atoi s =
  s32 (Z.max (- 2 ^ 63) (Z.min (2 ^ 63 - 1) (if fst (signed s) then - digits (snd (signed s)) 0 else digits (snd (signed s)) 0))).
Proof. unfold atoi, signed. destruct (skip_blank s) as [|b r]; [done|]. by repeat case_if. Qed.

Lemma digits_ge s : forall acc, 0 <= acc -> acc <= digits s acc.
Proof.
  induction s as [|b s IH]; intros acc Ha; cbn [digits]; [lia|]. destruct (is_digit b) eqn:E; [|lia].
  unfold is_digit in E. apply andb_true_iff in E as [E _]. apply Z.leb_le in E.
  specialize (IH (acc * 10 + (chr b - 48)) ltac:(lia)). lia.
Qed.

Lemma s32_pos v : 0 < s32 v -> v mod 2 ^ 32 = s32 v.
Proof.
  unfold s32. pose proof (Z.mod_pos_bound (v + 2 ^ 31) (2 ^ 32) ltac:(lia)). pose proof (Z.div_mod (v + 2 ^ 31) (2 ^ 32) ltac:(lia)).
  intros Hp. symmetry. apply (Z.mod_unique_pos v (2 ^ 32) ((v + 2 ^ 31) / 2 ^ 32)); lia.
Qed.

Lemma sscanf_u_atoi s : 0 < atoi s -> sscanf_u s = Some (atoi s).
Proof.
  rewrite atoi_signed. unfold sscanf_u. destruct (signed s) as [neg r]. cbn [fst snd].
  pose proof (digits_ge r 0 ltac:(lia)) as Hd. destruct (starts_digit r) eqn:E.
  - intros Hp. f_equal. destruct neg.
    + destruct (Z.le_gt_cases (digits r 0) (2 ^ 63)) as [Hle|Hgt].
      * rewrite (proj2 (Z.ltb_lt _ _)) by lia. rewrite Z.min_r, Z.max_r in * by lia. by apply s32_pos.
      * rewrite Z.min_r, Z.max_l in Hp by lia. by vm_compute in Hp.
    + destruct (Z.lt_ge_cases (digits r 0) (2 ^ 63)) as [Hle|Hgt].
      * rewrite (proj2 (Z.ltb_lt _ _)) by lia. rewrite Z.min_r, Z.max_r in * by lia. by apply s32_pos.
      * rewrite Z.min_l, Z.max_r in Hp by lia. by vm_compute in Hp.
  - assert (digits r 0 = 0) as ->; [|by destruct neg]. destruct r as [|b r]; [done|]. cbn [starts_digit digits] in *. by rewrite E.
Qed.

Lemma sscanf_d_word s : starts_digit s = true -> sscanf_d s = Some (atoi s).
Proof.
  intros Hs. unfold sscanf_d. assert (signed s = (false, s)) as ->; [|cbn [snd]; by rewrite Hs].
  destruct s as [|b s]; [done|]. cbn [starts_digit] in Hs. unfold is_digit in Hs. unfold signed. cbn [skip_blank].
  assert (Hb : 48 <= chr b <= 57) by (apply andb_true_iff in Hs; rewrite !Z.leb_le in Hs; lia).
  assert (is_space b = false) as ->.
  { unfold is_space. apply orb_false_iff. rewrite Z.eqb_neq, andb_false_iff, !Z.leb_gt. lia. }
  by rewrite !(proj2 (Z.eqb_neq _ _)) by lia.
Qed.

Section reads.
Context `{Openssl}.

(** The TLS set-up of an entry succeeds. *)
Definition tls_ready (read : list byte -> option (list byte)) (ssl : list byte) (cfg0 : vc_ssl_cfg) : Prop :=
  exists cfg c, loadconfig (read ssl) cfg0 = Some (0, cfg) /\
    initialize_ctx (create_cfg_cwd ssl) (rootca cfg) (keyfile cfg) (password cfg) = Some (Some c).

Lemma startup_tls_ready read ssl p : tls_ready read ssl (sslcfg p) ->
  exists c cfg, startup_tls (read ssl) ssl p =
    Some (Go (mk_args (ttyid p) (devid p) (portno p) (ip_ptr p) (ip_red p) (logfile p) (Some c) cfg (addr p) (_set_devid p))).
Proof.
  intros (cfg & c & Hl & Hc). unfold startup_tls. rewrite Hl. cbn [mbind option_bind]. change (negb (0 =? 0)) with false. cbv iota.
  rewrite Hc. cbn [mbind option_bind]. case_if; cbn [mbind option_bind]; by eexists _, _.
Qed.

Lemma startup_reads read ssl t cfg0 d :
  tty_ok t -> starts_digit (mpt_nameidx_str t) = true -> 0 <= atoi (mpt_nameidx_str t) ->
  sscanf_hx (dev_type_str t) = Some d -> 0 < zlen ssl -> (dev_ssl t = true -> tls_ready read ssl cfg0) ->
  exists p, startup read (args ssl t) cfg0 = Some (Go p) /\
    ttyid p = atoi (mpt_nameidx_str t) /\ devid p = d /\ portno p = atoi (dev_portidx_str t) /\
    ip_ptr p = Some (dev_ipaddr_str t) /\
    ip_red p = (if has_redundant_ip t then Some (dev_redundant_ipaddr_str t) else None) /\
    logfile p = Some (mon t) /\ (ssl_ctx p = None <-> dev_ssl t = false).
Proof.
  intros Ht Hd Hpos Hx Hssl Htls. pose proof Ht as (_ & _ & _ & _ & _ & _ & Hport & _).
  unfold startup. assert ((zlen (args ssl t) <? 2) = false) as ->.
  { apply Z.ltb_ge. unfold args. rewrite zlen_app. change (zlen (_ :: _)) with 6.
    match goal with |- _ <= _ + zlen ?l => pose proof (zlen_nonneg l) end. lia. }
  rewrite getopt_args by done.
  cbn [app startup_loop startup_opt mbind option_bind ttyid devid portno ip_ptr ip_red logfile ssl_ctx sslcfg addr _set_devid].
  rewrite (sscanf_d_word _ Hd), Hx, (sscanf_u_atoi _ Hport). cbn [default from_option id].
  assert (Hend : forall p, addr p <> None -> 0 < portno p -> 0 <= ttyid p -> _set_devid p = true ->
    (if bool_decide (addr p = None) || (portno p =? 0) || (ttyid p <? 0) || negb (_set_devid p) then Some Fail else Some (Go p)) = Some (Go p)).
  { intros p Ha Hp Hi ->. rewrite bool_decide_false, (proj2 (Z.eqb_neq _ _)), (proj2 (Z.ltb_ge _ _)) by (done || lia). done. }
  destruct (has_redundant_ip t), (dev_ssl t); cbn [app startup_loop startup_opt mbind option_bind];
    try (match goal with |- context [startup_tls _ _ ?q] =>
           destruct (startup_tls_ready read ssl q (Htls eq_refl)) as (c & cfg & ->) end; cbn [mbind option_bind startup_loop]);
    rewrite Hend by (done || (cbn; lia)); eexists; (split; [done|]); by split_and!.
Qed.

(** The command line the starter makes of an entry of its configuration is read
    by the daemon as that entry: the number of the port, the device, its port, the two
    addresses and the monitor file, and a TLS context exactly when the entry asks for
    TLS, provided that the names are numbers and that the TLS files can be read. *)
Theorem startup_reads_starter read ssl t cfg0 d :
  tty_ok t -> starts_digit (mpt_nameidx_str t) = true -> 0 <= atoi (mpt_nameidx_str t) ->
  sscanf_hx (dev_type_str t) = Some d -> 0 < zlen ssl -> (dev_ssl t = true -> tls_ready read ssl cfg0) ->
  exists p, startup read (args ssl t) cfg0 = Some (Go p) /\
    ttyid p = atoi (mpt_nameidx_str t) /\ devid p = d /\ portno p = atoi (dev_portidx_str t) /\
    ip_ptr p = Some (dev_ipaddr_str t) /\
    ip_red p = (if has_redundant_ip t then Some (dev_redundant_ipaddr_str t) else None) /\
    logfile p = Some (mon t) /\ (ssl_ctx p = None <-> dev_ssl t = false).
Proof. exact (startup_reads read ssl t cfg0 d). Qed.

(** The redundant address counts as the address: with [-r] and without [-a] the
    daemon starts although the pointer to its address was never set. *)
Theorem startup_unset_address read tty dev port rip cfg0 :
  sscanf_d tty = Some 0 -> dev <> [] -> sscanf_u port = Some 1 -> rip <> [] -> tty <> [] -> port <> [] ->
  exists p, startup read [CF_PORTPROG; lit "-t" ++ tty; lit "-d" ++ dev; lit "-p" ++ port; lit "-r" ++ rip] cfg0 = Some (Go p) /\
    ip_ptr p = None /\ ip_red p = Some rip.
Proof.
  intros Ht Hd Hp Hr Htn Hpn. unfold startup. change (zlen (_ :: _) <? 2) with false. cbv iota. cbn [tail].
  change (lit "-t" ++ tty) with (Byte.x2d :: Byte.x74 :: tty). change (lit "-d" ++ dev) with (Byte.x2d :: Byte.x64 :: dev).
  change (lit "-p" ++ port) with (Byte.x2d :: Byte.x70 :: port). change (lit "-r" ++ rip) with (Byte.x2d :: Byte.x72 :: rip).
  rewrite !getopt_opt by done. cbn [getopt app startup_loop startup_opt mbind option_bind]. rewrite Ht, Hp.
  cbn [default from_option id portno ttyid addr _set_devid ip_ptr ip_red]. rewrite bool_decide_false by done.
  change (1 =? 0) with false. change (0 <? 0) with false. cbn [orb negb]. by eexists.
Qed.

(** When an expired certificate is to be accepted, the context is used before it is
    checked. *)
Lemma accept_expired_faults file name p cfg :
  loadconfig file (sslcfg p) = Some (0, cfg) -> truthy (accept_expired_key cfg) = true ->
  initialize_ctx (create_cfg_cwd name) (rootca cfg) (keyfile cfg) (password cfg) = Some None ->
  startup_tls file name p = None.
Proof. intros Hl Ha Hc. unfold startup_tls. rewrite Hl. cbn. rewrite Hc. cbn. by rewrite Ha. Qed.

(** The callback hands the password over exactly when there is room for its null byte;
    a password as long as the buffer loses its last byte. *)
Lemma password_cb_exact num p : 0 < num -> pwd_len p = zlen (pwd_data p) ->
  password_cb num (Some p) = (pwd_len p, pwd_data p) <-> pwd_len p < num.
Proof.
  intros Hn Hl. unfold password_cb. pose proof (zlen_nonneg (pwd_data p)). destruct (Z.ltb_spec num (pwd_len p)) as [E|E].
  - split; [intros [= E1 E2]; rewrite <- E1 in Hl; lia|lia].
  - split.
    + intros [= E1]. apply (f_equal zlen) in E1. destruct (Z.lt_ge_cases (pwd_len p) num); [done|].
      rewrite zlen_ztake in E1 by lia. lia.
    + intros Hlt. by rewrite ztake_all by lia.
Qed.

(** The directory of the configuration file. *)
Lemma create_cfg_cwd_spec s :
  match create_cfg_cwd s with
  | Some wd => exists base, s = wd ++ base /\ last wd = Some Byte.x2f /\ Forall (fun b => chr b <> 47) base
  | None => Forall (fun b => chr b <> 47) s
  end.
Proof.
  unfold create_cfg_cwd. induction s as [|b s IH]; cbn [last_slash]; [constructor|]. destruct (last_slash s) as [wd|].
  - destruct IH as (base & -> & Hl & Hb). exists base. split_and!; [done| |done]. by destruct wd.
  - destruct (Z.eqb_spec (chr b) 47) as [E|E]; [|by constructor]. exists s. split_and!; [done| |done].
    cbn. f_equal. apply chr_inj. by rewrite E.
Qed.
End reads.

(** ** Examples *)

(** A key that needs the password, in the directory of the configuration. *)
Definition the_openssl : Openssl := {|
  use_certificate_chain_file wd f := bool_decide (wd = Some (lit "/etc/vcom/") /\ f = lit "key.pem");
  use_PrivateKey_file wd f pwd := bool_decide (snd (password_cb 1024 pwd) = lit "secret");
  load_verify_locations wd f := bool_decide (f = lit "ca.pem");
|}.

(** Two strings with a colon between them, and the configuration in JSON. *)
Definition quote (s : list byte) : list byte := [Byte.x22] ++ s ++ [Byte.x22].
Definition pair_text (a b : list byte) : list byte := quote a ++ lit ":" ++ b.
Definition the_json : list byte :=
  lit "{" ++ pair_text (lit "ssl") (lit "{" ++ pair_text (lit "rootca") (quote (lit "ca.pem")) ++ lit "," ++
    pair_text (lit "password") (quote (lit "secret")) ++ lit "," ++
    pair_text (lit "keyfile") (quote (lit "key.pem")) ++ lit "}") ++ lit "}".

Lemma startup_reads_starter_witness :
  let t := mk_tty (lit "3") (lit "0x5231") (lit "10.0.0.1") (lit "2") (lit "10.0.0.2") true true in
  let ssl := lit "/etc/vcom/ssl.json" in
  let read p := if decide (p = ssl) then Some the_json else None in
  exists p, @startup the_openssl read (args ssl t) (mk_cfg [] None None 0) = Some (Go p) /\
    ttyid p = atoi (mpt_nameidx_str t) /\ devid p = 0x5231 /\ portno p = atoi (dev_portidx_str t) /\
    ip_ptr p = Some (dev_ipaddr_str t) /\
    ip_red p = (if has_redundant_ip t then Some (dev_redundant_ipaddr_str t) else None) /\
    logfile p = Some (mon t) /\ (ssl_ctx p = None <-> dev_ssl t = false).
Proof.
  intros t ssl read. apply (@startup_reads_starter the_openssl).
  - repeat constructor; vm_compute; (discriminate || reflexivity).
  - reflexivity.
  - vm_compute. discriminate.
  - vm_compute. reflexivity.
  - vm_compute. reflexivity.
  - intros _. eexists _, _. split; vm_compute; reflexivity.
Defined.

Lemma startup_unset_address_witness :
  exists p, @startup the_openssl (fun _ => None)
      [CF_PORTPROG; lit "-t" ++ lit "0"; lit "-d" ++ lit "1"; lit "-p" ++ lit "1"; lit "-r" ++ lit "10.0.0.2"] (mk_cfg [] None None 0) = Some (Go p) /\
    ip_ptr p = None /\ ip_red p = Some (lit "10.0.0.2").
Proof. apply (@startup_unset_address the_openssl); vm_compute; (discriminate || reflexivity). Defined.
