(* ===== verification/Inotify.v ===== *)
(** * The directory watcher [inotify/vcom_inotf.c]

    Watches the monitor files and sends every change to the system log.  The events
    are the bytes [read] gives, the commands the ones [system] runs.  A read behind the
    buffer is a fault, [None]. *)

From S2P Require Import Prelude Text Starter Startup.

(** ** Events *)

(** [struct inotify_event]: [wd], [mask], [cookie], [len], and [len] bytes of name. *)
Definition EVENT_SIZE : Z := 16.
Definition EVENT_BUF_LEN : Z := 1024 * (EVENT_SIZE + 16).
Definition DEFAULT_MSGLEN : Z := 64.
Definition FPATH_LEN : Z := 256.
Definition CMDBUF_LEN : Z := 512.
Definition IN_MODIFY : Z := 2.

Definition get_u32 (off : Z) (m : list byte) : option Z := le_val <$> load off 4 m.

(** The new position, and the command if there is one.  [buf] ends where [read] stopped:
    the name must end in it. *)
Definition parse_ievent (_msglen : Z) (buf : list byte) (i : Z) (path : list byte) : option (Z * option (list byte)) :=
  mask ← get_u32 (i + 4) buf;
  len ← get_u32 (i + 12) buf;
  cmd ← (if mask &? IN_MODIFY then
           if 0 <? len then
             name ← str_at buf (i + EVENT_SIZE);
             let fpath := ztake (FPATH_LEN - 1) (path ++ lit "/" ++ name) in
             Some (Some (ztake (CMDBUF_LEN - 1) (lit "logger -S " ++ dec _msglen ++ lit " -t " ++ name ++ lit " -f " ++ fpath)))
           else Some (Some (ztake (CMDBUF_LEN - 1) (lit "logger -S " ++ dec _msglen ++ lit " -f " ++ path)))
         else Some None);
  Some (s32 (i + (EVENT_SIZE + len)), cmd).

Fixpoint parse_loop (fuel : nat) (_msglen : Z) (buf : list byte) (i : Z) (path : list byte) : option (list (list byte)) :=
  if i <? zlen buf then
    match fuel with
    | O => None
    | S fuel =>
        r ← parse_ievent _msglen buf i path;
        cmds ← parse_loop fuel _msglen buf (fst r) path;
        Some (match snd r with Some c => c :: cmds | None => cmds end)
    end
  else Some [].

(** ** [main] *)

Definition inotf_spec (c : byte) : option bool :=
  match c with
  | Byte.x6c | Byte.x68 => Some false
  | Byte.x70 | Byte.x73 => Some true
  | _ => None
  end.

Record inotf_args := mk_ino { i_loop : bool; i_path : list byte; i_msglen : Z }.

(** [inl] is the result of the program. *)
Fixpoint inotf_opts (l : list (byte * list byte)) (o : inotf_args) : Z + inotf_args :=
  match l with
  | [] => inr o
  | (ch, optarg) :: l =>
      match ch with
      | Byte.x6c => inotf_opts l (mk_ino true (i_path o) (i_msglen o))
      | Byte.x68 => inl 0
      | Byte.x70 => inotf_opts l (mk_ino (i_loop o) (ztake (FPATH_LEN - 1) optarg) (i_msglen o))
      | Byte.x73 => inotf_opts l (mk_ino (i_loop o) (i_path o) (atoi optarg))
      | _ => inl (-1)
      end
  end.

(** The results of [read], one after the other; a failing one is an empty one.  The
    program runs as long as there are results, once without [-l]. *)
Fixpoint watch (o : inotf_args) (reads : list (list byte)) : option (list (list byte)) :=
  match reads with
  | [] => Some []
  | buf :: reads =>
      cmds ← parse_loop (length buf) (i_msglen o) buf 0 (i_path o);
      if i_loop o then more ← watch o reads; Some (cmds ++ more) else Some cmds
  end.

(** [init_ok] says whether [inotify_init] and [inotify_add_watch] succeed. *)
Definition inotf_main (argv : list (list byte)) (init_ok : list byte -> bool) (reads : list (list byte))
  : option (Z * list (list byte)) :=
  if zlen argv <? 2 then Some (-1, []) else
  match inotf_opts (getopt inotf_spec (tail argv)) (mk_ino false [] DEFAULT_MSGLEN) with
  | inl r => Some (r, [])
  | inr o =>
      if zlen (i_path o) =? 0 then Some (-1, []) else
      if negb (init_ok (i_path o)) then Some (-1, []) else
      cmds ← watch o reads; Some (0, cmds)
  end.

(** ** Every change is logged once *)

(** An event as the kernel writes it, in the byte order of the host (little endian): the
    name with at least one null byte, or no name for a watched file. *)
Record event := mk_event { e_wd : Z; e_mask : Z; e_cookie : Z; e_name : option (list byte); e_pad : nat }.

Definition name_field (e : event) : list byte :=
  match e_name e with Some n => n ++ Byte.x00 :: replicate (e_pad e) Byte.x00 | None => [] end.
Definition encode (e : event) : list byte :=
  le32 (e_wd e) ++ le32 (e_mask e) ++ le32 (e_cookie e) ++ le32 (zlen (name_field e)) ++ name_field e.

Definition event_ok (e : event) : Prop :=
  0 <= e_mask e < 2 ^ 32 /\ match e_name e with Some n => no_nul n | None => True end.

Definition command_of (msglen : Z) (path : list byte) (e : event) : option (list byte) :=
  if e_mask e &? IN_MODIFY then
    Some (ztake (CMDBUF_LEN - 1)
      match e_name e with
      | Some n => lit "logger -S " ++ dec msglen ++ lit " -t " ++ n ++ lit " -f " ++ ztake (FPATH_LEN - 1) (path ++ lit "/" ++ n)
      | None => lit "logger -S " ++ dec msglen ++ lit " -f " ++ path
      end)
  else None.

Lemma zlen_encode e : zlen (encode e) = EVENT_SIZE + zlen (name_field e).
Proof. unfold encode. rewrite !zlen_app, !zlen_le. unfold EVENT_SIZE. lia. Qed.

(** A field behind a prefix. *)
Lemma get_u32_at a x b : 0 <= x < 2 ^ 32 -> get_u32 (zlen a) (a ++ le32 x ++ b) = Some x.
Proof.
  intros Hx. unfold get_u32. pose proof (zlen_nonneg a). pose proof (zlen_nonneg b).
  rewrite load_Some by (rewrite ?zlen_app, ?zlen_le; lia). rewrite zdrop_app_r, Z.sub_diag, zdrop_0 by lia.
  rewrite ztake_app_l, ztake_all by (rewrite zlen_le; lia). cbn [fmap option_fmap option_map]. rewrite le_val_le.
  by rewrite Z.mod_small.
Qed.

Lemma parse_event msglen pre e post path : event_ok e -> zlen (pre ++ encode e ++ post) <= EVENT_BUF_LEN ->
  parse_ievent msglen (pre ++ encode e ++ post) (zlen pre) path = Some (zlen (pre ++ encode e), command_of msglen path e).
Proof.
  intros [Hm Hn] Hlen. rewrite !zlen_app, zlen_encode in Hlen. unfold EVENT_BUF_LEN, EVENT_SIZE in Hlen.
  pose proof (zlen_nonneg pre). pose proof (zlen_nonneg post). pose proof (zlen_nonneg (name_field e)).
  unfold parse_ievent. set (w := le32 (e_wd e)). set (c := le32 (e_cookie e)).
  assert (G1 : get_u32 (zlen pre + 4) (pre ++ encode e ++ post) = Some (e_mask e)).
  { pose proof (get_u32_at (pre ++ w) (e_mask e) (c ++ le32 (zlen (name_field e)) ++ name_field e ++ post) Hm) as Hg.
    rewrite zlen_app in Hg. change (zlen w) with (zlen (le32 (e_wd e))) in Hg. rewrite zlen_le in Hg. change (Z.of_nat 4) with 4 in Hg.
    rewrite <- Hg. f_equal. unfold encode. by rewrite <- !app_assoc. }
  assert (G2 : get_u32 (zlen pre + 12) (pre ++ encode e ++ post) = Some (zlen (name_field e))).
  { pose proof (get_u32_at (pre ++ w ++ le32 (e_mask e) ++ c) (zlen (name_field e)) (name_field e ++ post) ltac:(lia)) as Hg.
    rewrite !zlen_app in Hg. unfold w, c in Hg. rewrite !zlen_le in Hg.
    replace (zlen pre + (Z.of_nat 4 + (Z.of_nat 4 + Z.of_nat 4))) with (zlen pre + 12) in Hg by lia.
    rewrite <- Hg. f_equal. unfold encode. by rewrite <- !app_assoc. }
  rewrite G1. cbn [mbind option_bind]. rewrite G2. cbn [mbind option_bind].
  assert (Hi : s32 (zlen pre + (EVENT_SIZE + zlen (name_field e))) = zlen (pre ++ encode e)).
  { rewrite zlen_app, zlen_encode. apply s32_small. unfold EVENT_SIZE. lia. }
  rewrite Hi. unfold command_of. destruct (e_mask e &? IN_MODIFY); [|done].
  unfold name_field in *. destruct (e_name e) as [n|] eqn:En.
  - pose proof (zlen_nonneg n). pose proof (zlen_nonneg (replicate (e_pad e) Byte.x00)).
    rewrite (proj2 (Z.ltb_lt _ _)) by (rewrite zlen_app, zlen_cons; lia).
    assert (Hs : str_at (pre ++ encode e ++ post) (zlen pre + EVENT_SIZE) = Some n).
    { pose proof (str_at_here (pre ++ w ++ le32 (e_mask e) ++ c ++ le32 (zlen (name_field e))) n (replicate (e_pad e) Byte.x00 ++ post) Hn) as Hg.
      rewrite !zlen_app in Hg. unfold w, c in Hg. rewrite !zlen_le in Hg.
      replace (zlen pre + (Z.of_nat 4 + (Z.of_nat 4 + (Z.of_nat 4 + Z.of_nat 4)))) with (zlen pre + EVENT_SIZE) in Hg by (unfold EVENT_SIZE; lia).
      rewrite <- Hg. f_equal. unfold encode, name_field. rewrite En. rewrite <- !app_assoc. cbn [app]. by rewrite <- ?app_assoc. }
    by rewrite Hs.
  - done.
Qed.

Lemma parse_events msglen path evs : forall fuel pre, Forall event_ok evs -> (length evs <= fuel)%nat ->
  zlen (pre ++ concat (map encode evs)) <= EVENT_BUF_LEN ->
  parse_loop fuel msglen (pre ++ concat (map encode evs)) (zlen pre) path = Some (omap (command_of msglen path) evs).
Proof.
  induction evs as [|e evs IH]; intros fuel pre Hev Hf Hlen.
  - cbn [map concat]. rewrite app_nil_r. destruct fuel; cbn [parse_loop]; by rewrite Z.ltb_irrefl.
  - apply Forall_cons in Hev as [He Hev]. destruct fuel as [|fuel]; [simpl in Hf; lia|]. cbn [map concat] in *. cbn [parse_loop].
    rewrite (proj2 (Z.ltb_lt _ _)).
    2: { rewrite !zlen_app, zlen_encode. pose proof (zlen_nonneg (name_field e)). pose proof (zlen_nonneg (concat (map encode evs))).
         unfold EVENT_SIZE. lia. }
    rewrite parse_event by done. cbn [mbind option_bind fst snd].
    rewrite app_assoc, IH by (done || (simpl in Hf; lia) || by rewrite <- app_assoc).
    cbn [mbind option_bind omap list_omap]. by destruct (command_of msglen path e).
Qed.

Lemma watch_all o evss : i_loop o = true -> Forall (Forall event_ok) evss ->
  Forall (fun evs => zlen (concat (map encode evs)) <= EVENT_BUF_LEN) evss ->
  watch o (map (fun evs => concat (map encode evs)) evss) = Some (omap (command_of (i_msglen o) (i_path o)) (concat evss)).
Proof.
  intros Hl Hev Hlen. induction evss as [|evs evss IH]; [done|]. apply Forall_cons in Hev as [He Hev]. apply Forall_cons in Hlen as [Hz Hlen].
  cbn [map watch concat]. rewrite (parse_events (i_msglen o) (i_path o) evs _ []); [|done| |done].
  - cbn [mbind option_bind]. rewrite Hl, IH by done. cbn [mbind option_bind]. by rewrite omap_app.
  - clear. induction evs as [|e evs IH]; [done|]. cbn [map concat length]. rewrite length_app.
    pose proof (zlen_encode e). pose proof (zlen_nonneg (name_field e)). unfold zlen, EVENT_SIZE in *. lia.
Qed.

(** The watcher, started for a path with [-l], runs one command of the system log
    for every event that is a modification, in the order of the events and across reads,
    with the name of the file that changed, and none for other events. *)
Theorem watcher_logs prog path init_ok evss :
  path <> [] -> zlen path < FPATH_LEN -> init_ok path = true -> Forall (Forall event_ok) evss ->
  Forall (fun evs => zlen (concat (map encode evs)) <= EVENT_BUF_LEN) evss ->
  inotf_main [prog; lit "-l"; lit "-p" ++ path] init_ok (map (fun evs => concat (map encode evs)) evss) =
  Some (0, omap (command_of DEFAULT_MSGLEN path) (concat evss)).
Proof.
  intros Hne Hlen Hok Hev Hz. unfold inotf_main. change (zlen (_ :: _) <? 2) with false. cbv iota. cbn [tail].
  change (lit "-p" ++ path) with (Byte.x2d :: Byte.x70 :: path).
  assert (Hg : getopt inotf_spec [lit "-l"; Byte.x2d :: Byte.x70 :: path] = [(Byte.x6c, []); (Byte.x70, path)]).
  { pose proof (getopt_opt inotf_spec Byte.x70 path [] eq_refl Hne ltac:(done)) as Hp. 
    change (getopt inotf_spec [lit "-l"; Byte.x2d :: Byte.x70 :: path])
      with ((Byte.x6c, []) :: getopt inotf_spec [Byte.x2d :: Byte.x70 :: path]). by rewrite Hp. }
  rewrite Hg. cbn [inotf_opts i_loop i_path i_msglen]. rewrite ztake_all by (unfold FPATH_LEN in *; lia).
  assert (0 < zlen path) by (destruct path; [done|]; rewrite zlen_cons; pose proof (zlen_nonneg path); lia).
  rewrite (proj2 (Z.eqb_neq _ _)) by lia. rewrite Hok. cbn [negb]. by rewrite watch_all.
Qed.

Lemma watcher_logs_witness :
  let path := lit "/tmp/advmon" in
  let evss := [[mk_event 1 2 0 (Some (lit "advtty3")) 8; mk_event 1 0x8000 0 None 0]; [mk_event 1 2 0 (Some (lit "advtty0")) 3]] in
  inotf_main [lit "inotf"; lit "-l"; lit "-p" ++ path] (fun _ => true) (map (fun evs => concat (map encode evs)) evss) =
  Some (0, omap (command_of DEFAULT_MSGLEN path) (concat evss)) /\
  omap (command_of DEFAULT_MSGLEN path) (concat evss) =
    [lit "logger -S 64 -t advtty3 -f /tmp/advmon/advtty3"; lit "logger -S 64 -t advtty0 -f /tmp/advmon/advtty0"].
Proof.
  intros path evss. split; [|vm_compute; reflexivity]. apply watcher_logs.
  - discriminate.
  - vm_compute. reflexivity.
  - reflexivity.
  - repeat constructor; vm_compute; (discriminate || reflexivity).
  - repeat constructor; vm_compute; discriminate.
Defined.
