(* ===== verification/JsFree.v ===== *)
(** * Freeing a tree [shared/json/jstree.c]

    [freejstree] on a heap of nodes and strings: every address holds a node, with the
    addresses of its string and of its two children, or a string.  Using or freeing what
    is not there is a fault, [None]. *)

From stdpp Require Import gmap.
From S2P Require Import Prelude.

Inductive obj := O_str | O_node (data l r : Z).
Abbreviation memory := (gmap Z obj).

(** [free]; nothing happens for a null pointer. *)
Definition free (p : Z) (h : memory) : option memory :=
  if p =? 0 then Some h else match h !! p with Some _ => Some (delete p h) | None => None end.

(** The node below [node] that was emptied is freed, its string before it. *)
Definition free_ret (ret : Z) (h : memory) : option memory :=
  match h !! ret with
  | Some (O_node data _ _) => h ← (if 0 <? data then free data h else Some h); free ret h
  | _ => None
  end.

(** One round of the loop per unit of fuel; the result is a node without children. *)
Fixpoint _freewtree (fuel : nat) (node : Z) (h : memory) : option (Z * memory) :=
  match fuel with
  | O => None
  | S fuel =>
      match h !! node with
      | Some (O_node data l r) =>
          if 0 <? l then
            x ← _freewtree fuel l h;
            let '(ret, h) := x in
            h ← free_ret ret (<[node := O_node data 0 r]> h);
            _freewtree fuel node h
          else if 0 <? r then
            x ← _freewtree fuel r h;
            let '(ret, h) := x in
            h ← free_ret ret (<[node := O_node data l 0]> h);
            _freewtree fuel node h
          else Some (node, h)
      | _ => None
      end
  end.

Definition freejstree (fuel : nat) (tree : Z) (h : memory) : option memory :=
  x ← _freewtree fuel tree h;
  free (fst x) (snd x).

(** ** Trees in memory *)

(** A tree with its addresses; 0 stands for no string. *)
Inductive atree := ANull | ANode (p d : Z) (l r : atree).

Definition root (t : atree) : Z := match t with ANull => 0 | ANode p _ _ _ => p end.
Definition str_addr (d : Z) : list Z := if d =? 0 then [] else [d].

Fixpoint addrs (t : atree) : list Z :=
  match t with ANull => [] | ANode p d l r => p :: str_addr d ++ addrs l ++ addrs r end.
Fixpoint height (t : atree) : nat :=
  match t with ANull => 0 | ANode _ _ l r => S (Nat.max (height l) (height r)) end.

(** What the memory holds for a tree. *)
Fixpoint holds (h : memory) (t : atree) : Prop :=
  match t with
  | ANull => True
  | ANode p d l r =>
      0 < p /\ 0 <= d /\ h !! p = Some (O_node d (root l) (root r)) /\ (d <> 0 -> h !! d = Some O_str) /\ holds h l /\ holds h r
  end.

Lemma holds_ext h h' t : (forall q, q ∈ addrs t -> h' !! q = h !! q) -> holds h t -> holds h' t.
Proof.
  induction t as [|p d l IHl r IHr]; [done|]. cbn [addrs holds]. intros Hq (Hp & Hd & Hn & Hs & Hl & Hr).
  setoid_rewrite elem_of_cons in Hq. setoid_rewrite elem_of_app in Hq. setoid_rewrite elem_of_app in Hq.
  split_and!; try done.
  - rewrite Hq by tauto. done.
  - intros Hd0. rewrite Hq; [by apply Hs|]. right. left. unfold str_addr. rewrite (proj2 (Z.eqb_neq _ _)) by done.
    by apply list_elem_of_singleton.
  - apply IHl; [|done]. intros q Hin. apply Hq. tauto.
  - apply IHr; [|done]. intros q Hin. apply Hq. tauto.
Qed.

(** [h'] is [h] with the objects of [l] gone. *)
Definition gone (l : list Z) (h h' : memory) : Prop := forall q, h' !! q = if decide (q ∈ l) then None else h !! q.

(** The emptied child is freed with its string. *)
Lemma free_ret_spec p d h : 0 < p -> 0 <= d -> p <> d -> h !! p = Some (O_node d 0 0) -> (d <> 0 -> h !! d = Some O_str) ->
  exists h', free_ret p h = Some h' /\ gone (p :: str_addr d) h h'.
Proof.
  intros Hp Hd Hne Hn Hs. unfold free_ret, free, gone, str_addr. rewrite Hn.
  destruct (Z.ltb_spec 0 d) as [Hd0|Hd0].
  - rewrite (proj2 (Z.eqb_neq d 0)) by lia. rewrite Hs by lia. cbn [mbind option_bind].
    rewrite (proj2 (Z.eqb_neq p 0)) by lia. rewrite lookup_delete_ne by done. rewrite Hn. eexists. split; [done|].
    intros q. destruct (decide (q ∈ [p; d])) as [Hin|Hin]; rewrite !elem_of_cons, elem_of_nil in Hin.
    + destruct Hin as [->|[->|[]]]; [by rewrite lookup_delete_eq|]. rewrite lookup_delete_ne by done. by rewrite lookup_delete_eq.
    + rewrite !lookup_delete_ne by (intros ->; tauto). done.
  - assert (d = 0) as -> by lia. cbn [mbind option_bind]. rewrite (proj2 (Z.eqb_neq p 0)) by lia. rewrite Hn.
    eexists. split; [done|]. intros q. change (0 =? 0) with true. cbv iota.
    destruct (decide (q ∈ [p])) as [Hin|Hin]; rewrite list_elem_of_singleton in Hin.
    + subst. by rewrite lookup_delete_eq.
    + by rewrite lookup_delete_ne by done.
Qed.

(** What emptying a node leaves: the node without children, and nothing of them. *)
Definition empties (t : atree) : Prop :=
  match t with
  | ANull => True
  | ANode p d l r => forall fuel h, holds h t -> NoDup (addrs t) -> (3 * height t <= fuel)%nat ->
      exists h', _freewtree fuel p h = Some (p, h') /\ h' !! p = Some (O_node d 0 0) /\
        forall q, q <> p -> h' !! q = if decide (q ∈ addrs l ++ addrs r) then None else h !! q
  end.

(** A child is emptied and freed, the node gets its new value. *)
Lemma child_freed c p n fuel h : empties c -> c <> ANull -> holds h c -> NoDup (addrs c) -> p ∉ addrs c ->
  (3 * height c <= fuel)%nat ->
  exists h1 h2, _freewtree fuel (root c) h = Some (root c, h1) /\ free_ret (root c) (<[p := n]> h1) = Some h2 /\
    forall q, h2 !! q = if decide (q = p) then Some n else if decide (q ∈ addrs c) then None else h !! q.
Proof.
  destruct c as [|a d l r]; [done|]. intros Hc _ Hh Hnd Hp Hf. destruct (Hc fuel h Hh Hnd Hf) as (h1 & H1 & Ha & Hq).
  cbn [holds] in Hh. destruct Hh as (Hpos & Hd & _ & Hs & _). cbn [addrs root] in *.
  apply NoDup_cons in Hnd as [Hna Hnd]. apply NoDup_app in Hnd as (_ & Hds & _). apply not_elem_of_cons in Hp as [Hpa Hp].
  assert (Hmem : d <> 0 -> d ∈ str_addr d).
  { intros Hd0. unfold str_addr. rewrite (proj2 (Z.eqb_neq _ _)) by done. by apply list_elem_of_singleton. }
  assert (Had : a <> d).
  { intros ->. apply Hna. apply elem_of_app. left. apply Hmem. lia. }
  destruct (free_ret_spec a d (<[p := n]> h1)) as (h2 & H2 & Hg); try done.
  - by rewrite lookup_insert_ne by done.
  - intros Hd0. rewrite lookup_insert_ne by (intros ->; apply Hp, elem_of_app; left; auto). rewrite Hq by done.
    rewrite decide_False; [by apply Hs|]. intros Hin. by apply (Hds d); [apply Hmem|].
  - exists h1, h2. split_and!; try done. intros q. rewrite Hg. destruct (decide (q = p)) as [->|Hqp].
    + rewrite decide_False; [by rewrite lookup_insert_eq|]. rewrite elem_of_cons. intros [->|Hin]; [done|]. apply Hp, elem_of_app. by left.
    + rewrite lookup_insert_ne by done. destruct (decide (q ∈ a :: str_addr d)) as [Hin|Hin].
      * rewrite decide_True; [done|]. rewrite elem_of_cons in Hin |- *. rewrite elem_of_app. tauto.
      * rewrite elem_of_cons in Hin. rewrite Hq by tauto.
        destruct (decide (q ∈ addrs l ++ addrs r)) as [Hx|Hx], (decide (q ∈ a :: str_addr d ++ addrs l ++ addrs r)) as [Hy|Hy];
          try done; exfalso; rewrite elem_of_cons, elem_of_app in Hy; tauto.
Qed.

Lemma empties_all t : empties t.
Proof.
  induction t as [|p d l IHl r IHr]; [done|]. cbn [empties]. intros fuel h Hh Hnd Hf.
  cbn [holds] in Hh. destruct Hh as (Hpos & Hd & Hn & Hs & Hl & Hr). cbn [addrs height] in *.
  apply NoDup_cons in Hnd as [Hnp Hnd]. apply NoDup_app in Hnd as (_ & _ & Hnd). apply NoDup_app in Hnd as (Hndl & Hlr & Hndr).
  rewrite !elem_of_app in Hnp.
  (* the node without its left child *)
  assert (Hright : forall fuel h, (2 + 3 * height r <= fuel)%nat -> h !! p = Some (O_node d 0 (root r)) -> holds h r ->
    exists h', _freewtree fuel p h = Some (p, h') /\ h' !! p = Some (O_node d 0 0) /\
      forall q, q <> p -> h' !! q = if decide (q ∈ addrs r) then None else h !! q).
  { clear h Hn Hs Hl Hr Hf fuel. intros [|fuel] h Hf Hn Hr; [lia|]. cbn [_freewtree]. rewrite Hn. change (0 <? 0) with false. cbv iota.
    destruct (decide (0 < root r)) as [Hr0|Hr0].
    - rewrite (proj2 (Z.ltb_lt _ _)) by done. assert (Hrn : r <> ANull) by (by intros ->).
      destruct (child_freed r p (O_node d 0 0) fuel h) as (h1 & h2 & -> & E & Hq); try done; [tauto|lia|].
      cbn [mbind option_bind]. rewrite E. cbn [mbind option_bind]. destruct fuel as [|fuel]; [lia|]. cbn [_freewtree].
      assert (Hp2 : h2 !! p = Some (O_node d 0 0)) by (by rewrite Hq, decide_True). rewrite Hp2. change (0 <? 0) with false. cbv iota.
      exists h2. split_and!; try done. intros q Hqp. by rewrite Hq, decide_False.
    - rewrite (proj2 (Z.ltb_ge _ _)) by lia. exists h.
      assert (Hrn : r = ANull) by (destruct r; [done|]; cbn [holds root] in *; lia). subst r. by split_and!. }
  destruct fuel as [|fuel]; [lia|]. destruct (decide (0 < root l)) as [Hl0|Hl0].
  - cbn [_freewtree]. rewrite Hn, (proj2 (Z.ltb_lt _ _)) by done. assert (Hln : l <> ANull) by (by intros ->).
    destruct (child_freed l p (O_node d 0 (root r)) fuel h) as (h1 & h2 & -> & E & Hq); try done; [tauto|lia|].
    cbn [mbind option_bind]. rewrite E. cbn [mbind option_bind].
    destruct (Hright fuel h2) as (h' & -> & Hp' & Hq'); [lia|by rewrite Hq, decide_True| |].
    { apply (holds_ext h); [|done]. intros q Hin. rewrite Hq, decide_False by (intros ->; tauto).
      rewrite decide_False; [done|]. intros Hin'. by apply (Hlr q). }
    exists h'. split_and!; try done. intros q Hqp. rewrite Hq', Hq, (decide_False (P := q = p)) by done.
    destruct (decide (q ∈ addrs r)) as [Hx|Hx], (decide (q ∈ addrs l)) as [Hy|Hy], (decide (q ∈ addrs l ++ addrs r)) as [Hz|Hz];
      try done; exfalso; rewrite elem_of_app in Hz; tauto.
  - assert (Hln : l = ANull) by (destruct l; [done|]; cbn [holds root] in *; lia). subst l.
    apply (Hright (S fuel) h); [lia|done|done].
Qed.

(** Freeing a tree ends and frees every node of it once and the strings of all of
    them but the root's, which is never freed; nothing is used after it was freed, and
    nothing else in the memory changes. *)
Theorem freejstree_frees p d l r h fuel :
  holds h (ANode p d l r) -> NoDup (addrs (ANode p d l r)) -> (3 * height (ANode p d l r) <= fuel)%nat ->
  exists h', freejstree fuel p h = Some h' /\ gone (p :: addrs l ++ addrs r) h h'.
Proof.
  intros Hh Hnd Hf. destruct (empties_all (ANode p d l r) fuel h Hh Hnd Hf) as (h1 & Hw & Hp & Hq).
  unfold freejstree. rewrite Hw. cbn [mbind option_bind fst snd]. cbn [holds] in Hh. destruct Hh as (Hpos & _).
  unfold free. rewrite (proj2 (Z.eqb_neq _ _)) by lia. rewrite Hp. eexists. split; [done|]. intros q.
  destruct (decide (q = p)) as [->|Hne].
  - rewrite lookup_delete_eq, decide_True; [done|]. apply elem_of_cons. by left.
  - rewrite lookup_delete_ne by done. rewrite Hq by done.
    destruct (decide (q ∈ addrs l ++ addrs r)) as [Hx|Hx], (decide (q ∈ p :: addrs l ++ addrs r)) as [Hy|Hy];
      try done; exfalso; rewrite elem_of_cons in Hy; tauto.
Qed.

Lemma freejstree_frees_witness :
  let t := ANode 1 0 ANull (ANode 2 12 (ANode 3 13 ANull (ANode 4 14 ANull ANull)) (ANode 5 15 ANull ANull)) in
  let h : memory := list_to_map [(1, O_node 0 0 2); (2, O_node 12 3 5); (12, O_str); (3, O_node 13 0 4); (13, O_str); (4, O_node 14 0 0); (14, O_str);
    (5, O_node 15 0 0); (15, O_str); (99, O_str)] in
  exists h', freejstree 12 1 h = Some h' /\
    gone (1 :: addrs ANull ++ addrs (ANode 2 12 (ANode 3 13 ANull (ANode 4 14 ANull ANull)) (ANode 5 15 ANull ANull))) h h'.
Proof.
  intros t h. apply (freejstree_frees 1 0).
  - vm_compute. repeat split; first [discriminate | reflexivity | congruence].
  - apply (bool_decide_eq_true_1 _). vm_compute. reflexivity.
  - simpl. lia.
Defined.
